(* ===== verification/_CoqProject ===== *)
-Q . S2P
Prelude.v
Freelist.v
Float32.v
Meta.v
Node.v
Dal.v
Typed.v
Wal.v
Crash.v
GoSlice.v
World.v
Tree.v
Heap.v
Contents.v
Split.v
Collection.v
Search.v
Shrink.v
Rotate.v
Insert.v
Rebalance.v
Delete.v
Store.v
Session.v
Tx.v
Total.v
Db.v
Isolation.v
Durable.v
Opening.v
Restart.v
Concurrent.v
Liveness.v
Findings.v
GoText.v
GoSort.v
Float64.v
GoTime.v
Report.v
Compare.v
Bench.v
Archive.v
ReportRuns.v
Cli.v
Tool.v
ToolRuns.v
