(* ===== verification/Prelude.v ===== *)
(** * mykv, a key/value store: model and proofs

    The program (Go, package [mykv]) keeps named collections of byte-string
    keys and values in one file.  A collection is a B-tree whose nodes are
    pages; transactions copy nodes when they change them and a commit writes
    the changed pages through a redo log.

    ** The parts, and where they are modelled

    - [Prelude]: outcomes of Go code ([out]: value, error, panic, blocked, out
      of fuel), code over a state ([M]), [defer], machine integers, byte
      buffers, little-endian codecs, [bytes.Compare]; the errors of const.go
      with their causes.
    - [Freelist], [Meta] (freelist.go, meta.go): page allocator and meta page,
      with their page encodings.
    - [Float32]: Go's [float32], for the fill thresholds.
    - [Node] (node.go, [Item.validate] of collection.go): items and nodes as
      values - page layout, sizes, validation, search in one node.
    - [Dal] (dal.go): the file as a list of bytes, page reads and writes at
      64-bit offsets, thresholds and split index, stored freelist and meta.
    - [Wal] (wal.go): the redo log, over any [Device]: on the data access layer
      it is the code's effect on the two files, on a [recorder] it also gives the
      disk operations performed, in their order.
    - [GoSlice], [World]: the heap of a transaction.  node.go cuts, appends to
      and stores into slices in place, so nodes are modelled with pointers,
      slices and shared backing arrays; what [append] chooses for the capacity
      is the parameter [GoRuntime].
    - [Tree] (node.go; [newNode], [getNode], [writeNode], [deleteNode] of
      tx.go): search, insertion, split, rotations, merge, removal.
    - [Collection] (collection.go): [Put], [Find], [Remove], [ID], the stored
      form of a collection.
    - [Tx] (tx.go, [ReadTx] and [WriteTx] of db.go): begin, rollback, the
      collection operations, commit, the two locks of the [DB].
    - [Db] (db.go, [newDal] of dal.go): options, opening, closing.
    - [Cli] (cmd/mykv/main.go): one run of the command line tool, from the
      flags and the files on the disk to what it prints and the files it leaves.
    - [Report] (tools/benchreport/main.go): the benchmark report tool - parsing
      what go test prints, medians, stored runs, comparison of runs, the text
      of the report - with the files of its output directory as the state.
    - [GoText], [GoSort], [Float64], [GoTime]: what these two programs use of
      Go's strings, strconv, sort, time and [float64].

    A Go function is a definition of the same name.  A loop is a recursion over
    the list it runs through; a recursion that follows page numbers
    ([findKeyHelper], [descend]) has fuel, and the theorems ask for fuel of at
    least the height of the tree, with which it does not run out ([Total]: more
    fuel changes nothing).  The order in which Go visits the entries of a map is
    an argument of [Commit], [summarize] and [latestRunsBySystem].  Parameters
    stand for what is not in the repository or not fixed by Go: the growth of
    slices ([GoRuntime]), encoding/json ([Json]), the Unicode tables beyond
    ASCII ([Unicode]), and the texts strconv and time accept beyond the decimal
    and the RFC 3339 syntax ([Strconv], [TimeParse]).

    ** The proofs

    - [Contents]: search trees as mathematical objects, their contents as
      sorted lists, the reference operations [find_item] and [upsert].
    - [Heap]: what a page shows ([page_node]), the heap invariant ([world_ok]),
      nodes that own their slices ([owned]), the effect of one mutation
      ([mutates]).
    - [Typed]: whatever the file holds, a node read from it is well typed.
    - [Split], [Search], [Insert]: [split], [Find] and [Put] implement the
      reference operations on the tree the pages show ([repr]).
    - [Shrink], [Rotate], [Rebalance], [Delete]: rotations and merges on trees
      and on the heap; [Remove] takes the key out of the tree, keeps its shape
      and schedules the pages that leave it for release.  [removable] says for
      which keys the code is correct; [Findings] has runs for the others.
    - [Store], [Session]: the abstract specification, a map from keys to values
      with a typeclass of stores that implement it, and the instance for the
      collections of a transaction.
    - [Total]: the recursions end on search trees, with one outcome whatever
      the fuel; on pages that lead back to themselves they do not.
    - [Isolation]: before its commit a transaction leaves the database alone;
      rollback, readers, locks, failed commits.
    - [Crash]: the disk with what a crash can leave of it, run with the operations
      that the code of [Wal] performs; a commit is atomic and durable, recovery can
      be cut short any number of times, a torn log is refused.
    - [Durable], [Restart]: a commit publishes the nodes, the freelist and the
      root, survives closing and opening, and is atomic under crashes;
      collections found by name afterwards.
    - [Opening]: the file of a new database.
    - [Concurrent], [Liveness]: interleaved transactions as a step relation, with
      mutual exclusion of writers and snapshot isolation; commits that wait for
      readers and keep new ones out are served, and there is no deadlock.
    - [Tool], [ToolRuns]: what one run of the command line tool puts, the next
      run gets; a session of runs.
    - [Compare], [Bench], [Archive], [ReportRuns]: the report tool compares with
      the run it should, summarizes every benchmark, reads back the output of
      go test and the runs it stored; the repository's own examples.
    - [Findings]: concrete executions in which the code does not do what it
      means to; they mark the hypotheses of the theorems above.

    ** What is not modelled

    Errors of the disk itself; the aliasing of key and value bytes with the
    caller's slices; the array that [freelist.clone] copies (freelists are values
    here, so a clone cannot share); running out of memory; the texts of errors; [flag.Parse]; what the report tool
    prints on the terminal; tests and their helpers (testutils.go), which are
    not part of the program.
    A commit that need not wait for readers is one step of the system: until it
    has the commit lock it only reads the database.
    The crash semantics assumes of the operating system that a sync makes a file
    and its directory entry durable, that page writes change no bytes but those of
    the pages, and that the bytes a crash leaves of an unsynced log are not by
    chance another complete log with the right checksum.

    ** Shared definitions of this file: Go outcomes, byte buffers, codecs *)

From Stdlib Require Export ZArith Lia.
From stdpp Require Export base numbers option sets gmap list.

(** ** Outcomes of Go code

    A Go function returns a value, returns an [error], panics, or - for a
    recursion that follows page pointers - does not return.  [OutOfFuel] marks
    the last case (the model's recursions over pages carry fuel), [Blocked] a
    lock acquisition that would wait. *)

Inductive badfile := BadMagic | BadVersion (v : Z) | BadChildCount (items children : nat).
Inductive toolarge := NodeTooLarge (size page : Z) | KeyTooLong (n : nat) | ValueTooLong (n : nat).
Inductive badoption := PageSizeNotPositive | MinFillRange | MaxFillRange | MinNotBelowMax | PageSizeTooSmall.

Inductive gerror :=
| ErrWriteInsideReadTx
| ErrInvalidOptions (why : badoption)
| ErrInvalidDBFile (why : badfile)
| ErrItemTooLarge (why : toolarge)
| ErrEOF
| ErrNegativeOffset
| ErrFileClosed
| ErrWalPageLen (got want : nat)
| ErrWalMagic
| ErrWalVersion (v : Z)
| ErrWalPageSize (got want : Z)
| ErrWalChecksum.

Inductive out (A : Type) :=
| Ok (a : A)
| Err (e : gerror)
| Panic
| Blocked
| OutOfFuel.
Arguments Ok {A} a.
Arguments Err {A} e.
Arguments Panic {A}.
Arguments Blocked {A}.
Arguments OutOfFuel {A}.

#[export] Instance badfile_eq_dec : EqDecision badfile.
Proof. solve_decision. Defined.
#[export] Instance toolarge_eq_dec : EqDecision toolarge.
Proof. solve_decision. Defined.
#[export] Instance badoption_eq_dec : EqDecision badoption.
Proof. solve_decision. Defined.
#[export] Instance gerror_eq_dec : EqDecision gerror.
Proof. solve_decision. Defined.
#[export] Instance out_eq_dec `{EqDecision A} : EqDecision (out A).
Proof. solve_decision. Defined.

#[export] Instance out_ret : MRet out := @Ok.
#[export] Instance out_bind : MBind out := fun A B f m =>
  match m with
  | Ok a => f a
  | Err e => Err e
  | Panic => Panic
  | Blocked => Blocked
  | OutOfFuel => OutOfFuel
  end.

Definition of_option {A} (o : option A) : out A :=
  match o with Some a => Ok a | None => Panic end.

(** ** Stateful code

    [M S A]: code over a state [S].  The state is kept on every outcome: an
    [error] return and a panic leave the effects made so far. *)

Definition M (S A : Type) : Type := S -> out A * S.

#[export] Instance M_ret {S} : MRet (M S) := fun A a s => (Ok a, s).
#[export] Instance M_bind {S} : MBind (M S) := fun A B f m s =>
  match m s with
  | (Ok a, s') => f a s'
  | (Err e, s') => (Err e, s')
  | (Panic, s') => (Panic, s')
  | (Blocked, s') => (Blocked, s')
  | (OutOfFuel, s') => (OutOfFuel, s')
  end.

Definition getS {S} : M S S := fun s => (Ok s, s).
Definition modS {S} (f : S -> S) : M S unit := fun s => (Ok tt, f s).
Definition liftO {S A} (o : out A) : M S A := fun s => (o, s).
Definition throw {S A} (e : gerror) : M S A := fun s => (Err e, s).
Definition panic {S A} : M S A := fun s => (Panic, s).

(** [defer cleanup m] runs [m], then [cleanup] when [m] returns, with or without
    an error, or panics, and keeps [m]'s outcome unless the cleanup itself
    panics.  Code that waits or runs on does not reach its deferred calls. *)
Definition defer {S A} (cleanup : M S unit) (m : M S A) : M S A := fun s =>
  match m s with
  | (Blocked, s') => (Blocked, s')
  | (OutOfFuel, s') => (OutOfFuel, s')
  | (o, s') => match cleanup s' with
               | (Ok _, s'') => (o, s'')
               | (_, s'') => (Panic, s'')
               end
  end.

(** Code over a component of the state. *)
Definition zoom {S T A} (get : S -> T) (set : T -> S -> S) (m : M T A) : M S A := fun s =>
  match m (get s) with (o, t) => (o, set t s) end.

Fixpoint mapM_ {S A} (f : A -> M S unit) (l : list A) : M S unit :=
  match l with
  | [] => mret tt
  | a :: l => f a ;; mapM_ f l
  end.

(** ** Machine integers *)

Definition u16 (z : Z) : Z := z `mod` 2 ^ 16.
Definition u32 (z : Z) : Z := z `mod` 2 ^ 32.
Definition u64 (z : Z) : Z := z `mod` 2 ^ 64.
(** Wrap-around of Go's 64-bit [int]. *)
Definition i64 (z : Z) : Z := (z + 2 ^ 63) `mod` 2 ^ 64 - 2 ^ 63.

(** ** Byte buffers *)

Abbreviation bytes := (list Z).

Definition sub_list {A} (pos len : nat) (l : list A) : list A := take len (drop pos l).
Definition splice {A} (pos : nat) (xs l : list A) : list A :=
  take pos l ++ xs ++ drop (pos + length xs) l.

Fixpoint le_bytes (n : nat) (v : Z) : bytes :=
  match n with
  | O => []
  | S n => (v `mod` 256)%Z :: le_bytes n (v / 256)%Z
  end.

Fixpoint le_value (l : bytes) : Z :=
  match l with
  | [] => 0
  | b :: l => b + 256 * le_value l
  end%Z.

#[global] Arguments le_bytes : simpl never.
#[global] Arguments le_value : simpl never.

(** [binary.LittleEndian.PutUint16/32/64(buf[pos:], v)] and [Uint16/32/64]:
    both panic when fewer than [n] bytes remain after [pos]. *)
Definition put_le (n : nat) (v : Z) (pos : nat) (buf : bytes) : out bytes :=
  if decide (pos + n <= length buf) then Ok (splice pos (le_bytes n v) buf) else Panic.
Definition get_le (n pos : nat) (buf : bytes) : out Z :=
  if decide (pos + n <= length buf) then Ok (le_value (sub_list pos n buf)) else Panic.

(** [bytes.Compare]: lexicographic order on the byte values. *)
Fixpoint bytes_compare (a b : bytes) : comparison :=
  match a, b with
  | [], [] => Eq
  | [], _ :: _ => Lt
  | _ :: _, [] => Gt
  | x :: a, y :: b => match Z.compare x y with Eq => bytes_compare a b | c => c end
  end.

Definition bytes_lt (a b : bytes) : Prop := bytes_compare a b = Lt.
Definition bytes_le (a b : bytes) : Prop := bytes_compare a b <> Gt.

(** ** Tactics *)

(** Split every conditional of the goal on a decidable proposition. *)
Ltac cases := repeat case_decide; repeat case_match.
Ltac go_inv H := inversion H; subst; clear H.

(** Evaluate the binds of [out] and [M] at known outcomes, and nothing else. *)
Ltac go_bind := cbn [mbind mret out_bind out_ret M_bind M_ret of_option].
Tactic Notation "go_bind" "in" hyp(H) := cbn [mbind mret out_bind out_ret M_bind M_ret of_option] in H.

Section binds.
Context {S A B : Type}.
Implicit Types (f : A -> M S B) (s : S).

Lemma bind_Ok (m : M S A) f s a s' : m s = (Ok a, s') -> (m ≫= f) s = f a s'.
Proof. intros H. unfold mbind, M_bind. by rewrite H. Qed.
Lemma bind_Err (m : M S A) f s e s' : m s = (Err e, s') -> (m ≫= f) s = (Err e, s').
Proof. intros H. unfold mbind, M_bind. by rewrite H. Qed.
Lemma bind_Panic (m : M S A) f s s' : m s = (Panic, s') -> (m ≫= f) s = (Panic, s').
Proof. intros H. unfold mbind, M_bind. by rewrite H. Qed.
Lemma bind_ret (a : A) f s : (mret a ≫= f) s = f a s.
Proof. done. Qed.
Lemma bind_lift (a : A) f s : (liftO (Ok a) ≫= f) s = f a s.
Proof. done. Qed.
Lemma bind_lift_Err e f s : (liftO (Err e) ≫= f) s = (Err e, s).
Proof. done. Qed.
Lemma bind_lift_Panic f s : (liftO Panic ≫= f) s = (Panic, s).
Proof. done. Qed.
Lemma bind_throw e f s : (throw e ≫= f) s = (Err e, s).
Proof. done. Qed.
Lemma bind_panic f s : (panic ≫= f) s = (Panic, s).
Proof. done. Qed.
Lemma bind_assoc {C} (m : M S C) (g : C -> M S A) f s :
  ((m ≫= g) ≫= f) s = (m ≫= (fun c => g c ≫= f)) s.
Proof. unfold mbind, M_bind. by destruct (m s) as [[] ?]. Qed.

(** A successful sequence ran each of its parts successfully. *)
Lemma bind_inv (m : M S A) f s b s'' :
  (m ≫= f) s = (Ok b, s'') -> exists a s', m s = (Ok a, s') /\ f a s' = (Ok b, s'').
Proof. unfold mbind, M_bind. destruct (m s) as [[] ?]; naive_solver. Qed.
End binds.

(** One more program after a successful sequence. *)
Lemma mapM_snoc {S A} (f : A -> M S unit) l x s s1 :
  mapM_ f l s = (Ok tt, s1) -> mapM_ f (l ++ [x]) s = f x s1.
Proof.
  revert s. induction l as [|y l IH]; intros s H; cbn [mapM_ app] in *.
  - injection H as <-. unfold mbind, M_bind. by destruct (f x s) as [[[]| | | |] ?].
  - apply bind_inv in H as ([] & s' & H1 & H2). rewrite (bind_Ok _ _ _ _ _ H1). by apply IH.
Qed.

Lemma bind_getS {S B} (f : S -> M S B) s : (getS ≫= f) s = f s s.
Proof. done. Qed.
Lemma bind_modS {S B} (g : S -> S) (f : unit -> M S B) s : (modS g ≫= f) s = f tt (g s).
Proof. done. Qed.
Lemma bind_out_inv {A B} (m : out A) (f : A -> out B) b :
  m ≫= f = Ok b -> exists a, m = Ok a /\ f a = Ok b.
Proof. destruct m; naive_solver. Qed.

Create Rewrite HintDb mgo.
#[export] Hint Rewrite @bind_ret @bind_lift @bind_lift_Err @bind_lift_Panic @bind_throw @bind_panic
  @bind_getS @bind_modS : mgo.

(** Run the state monad: the pure steps, or one step with a known result. *)
Ltac mrun := autorewrite with mgo.
Tactic Notation "mstep" constr(H) := rewrite (bind_Ok _ _ _ _ _ H).

Create HintDb go.
Create Rewrite HintDb golist.

(** ** Lists *)

Section lists.
Context {A : Type}.
Implicit Types l xs : list A.

Lemma length_sub_list pos len l : pos + len <= length l -> length (sub_list pos len l) = len.
Proof. intros. unfold sub_list. rewrite length_take, length_drop. lia. Qed.

Lemma length_splice pos xs l : pos + length xs <= length l -> length (splice pos xs l) = length l.
Proof. intros. unfold splice. rewrite !length_app, length_take, length_drop. lia. Qed.

Lemma sub_splice_same pos xs l :
  pos <= length l -> sub_list pos (length xs) (splice pos xs l) = xs.
Proof.
  intros. unfold sub_list, splice.
  rewrite drop_app_length' by (rewrite length_take; lia). by apply take_app_length.
Qed.

Lemma sub_splice_before pos xs l a n :
  a + n <= pos -> pos <= length l -> sub_list a n (splice pos xs l) = sub_list a n l.
Proof.
  intros. unfold sub_list, splice.
  rewrite drop_app_le by (rewrite length_take; lia).
  rewrite take_app_le by (rewrite length_drop, length_take; lia).
  rewrite <- (take_drop pos l) at 2.
  rewrite drop_app_le by (rewrite length_take; lia).
  by rewrite take_app_le by (rewrite length_drop, length_take; lia).
Qed.

Lemma sub_splice_after pos xs l a n :
  pos + length xs <= a -> pos <= length l -> sub_list a n (splice pos xs l) = sub_list a n l.
Proof.
  intros. unfold sub_list, splice. f_equal.
  rewrite drop_app_ge by (rewrite length_take; lia).
  rewrite drop_app_ge by (rewrite length_take; lia).
  rewrite drop_drop. f_equal. rewrite length_take. lia.
Qed.

Lemma sub_list_app pos n m l : sub_list pos (n + m) l = sub_list pos n l ++ sub_list (pos + n) m l.
Proof.
  unfold sub_list. rewrite <- (drop_drop l n pos).
  by rewrite <- take_take_drop.
Qed.

Lemma sub_list_one pos l x : l !! pos = Some x -> sub_list pos 1 l = [x].
Proof. intros H. unfold sub_list. by rewrite (drop_S l x pos H). Qed.

Lemma sub_list_lookup pos n l i : i < n -> sub_list pos n l !! i = l !! (pos + i).
Proof. intros. unfold sub_list. rewrite lookup_take_lt by lia. apply lookup_drop. Qed.

Lemma sub_list_full l : sub_list 0 (length l) l = l.
Proof. unfold sub_list. rewrite drop_0. by apply take_ge. Qed.

Lemma sub_list_sub a n b m l : b + m <= n -> sub_list b m (sub_list a n l) = sub_list (a + b) m l.
Proof.
  intros. unfold sub_list. rewrite skipn_firstn_comm, take_take, drop_drop. f_equal. lia.
Qed.

Lemma sub_list_app_skip k n (a b : list A) :
  length a <= k -> sub_list k n (a ++ b) = sub_list (k - length a) n b.
Proof. intros. unfold sub_list. by rewrite drop_app_ge. Qed.

Lemma sub_list_app_take n (a b : list A) : length a = n -> sub_list 0 n (a ++ b) = a.
Proof. intros <-. unfold sub_list. rewrite drop_0. apply take_app_length. Qed.

Lemma sub_list_restrict a n b m l l' :
  sub_list a n l = sub_list a n l' -> a <= b -> b + m <= a + n -> sub_list b m l = sub_list b m l'.
Proof.
  intros E Hab Hm. pose proof (f_equal (sub_list (b - a) m) E) as H.
  rewrite !sub_list_sub in H by lia. by replace (a + (b - a)) with b in H by lia.
Qed.
End lists.

(** ** Little-endian integers *)

Lemma length_le_bytes n v : length (le_bytes n v) = n.
Proof. revert v; induction n; intros; unfold le_bytes; fold le_bytes; simpl; auto. Qed.

Lemma le_value_bytes n v : (0 <= v < 256 ^ Z.of_nat n)%Z -> le_value (le_bytes n v) = v.
Proof.
  revert v. induction n as [|n IH]; intros v Hv.
  - unfold le_bytes, le_value. simpl in Hv. lia.
  - unfold le_bytes, le_value; fold le_bytes le_value. rewrite Nat2Z.inj_succ, Z.pow_succ_r in Hv by lia.
    rewrite IH.
    + pose proof (Z.div_mod v 256). lia.
    + split; [apply Z.div_pos; lia|]. apply Z.div_lt_upper_bound; lia.
Qed.

Lemma le_bytes_range n v : Forall (fun b => 0 <= b < 256)%Z (le_bytes n v).
Proof.
  revert v. induction n; intros; unfold le_bytes; fold le_bytes; constructor; auto.
  apply Z.mod_pos_bound. lia.
Qed.

Lemma put_le_ok n v pos buf :
  pos + n <= length buf -> put_le n v pos buf = Ok (splice pos (le_bytes n v) buf).
Proof. intros. unfold put_le. by rewrite decide_True. Qed.

Lemma put_le_panics n v pos buf : length buf < pos + n -> put_le n v pos buf = Panic.
Proof. intros. unfold put_le. rewrite decide_False by lia. done. Qed.

Lemma get_le_panics n pos buf : length buf < pos + n -> get_le n pos buf = Panic.
Proof. intros. unfold get_le. rewrite decide_False by lia. done. Qed.

Lemma get_le_ok n pos buf :
  pos + n <= length buf -> get_le n pos buf = Ok (le_value (sub_list pos n buf)).
Proof. intros. unfold get_le. by rewrite decide_True. Qed.

Lemma get_le_at n pos buf v :
  pos + n <= length buf -> sub_list pos n buf = le_bytes n v ->
  (0 <= v < 256 ^ Z.of_nat n)%Z -> get_le n pos buf = Ok v.
Proof. intros Hl Hs Hv. rewrite get_le_ok by done. rewrite Hs. by rewrite le_value_bytes. Qed.

#[export] Hint Rewrite length_le_bytes @length_app @length_take @length_drop @length_replicate
  @length_insert : golist.

(** Arithmetic over list lengths. *)
Ltac len := autorewrite with golist in *; simpl in *; lia.

Lemma length_splice_le {n v pos} {buf : bytes} :
  pos + n <= length buf -> length (splice pos (le_bytes n v) buf) = length buf.
Proof. intros. apply length_splice. len. Qed.

(** Two adjacent writes are one. *)
Lemma splice_adjacent {A} pos (xs ys l : list A) :
  (pos + length xs + length ys <= length l) ->
  splice (pos + length xs) ys (splice pos xs l) = splice pos (xs ++ ys) l.
Proof.
  intros H. unfold splice.
  rewrite (app_assoc (take pos l)), take_app_length' by (rewrite length_app, length_take; lia).
  rewrite drop_app_ge by (rewrite length_app, length_take; lia).
  rewrite drop_drop, !length_app, length_take, <- !app_assoc. do 4 f_equal. lia.
Qed.

(** A list with an element inserted before position [i]. *)
Definition insert_at {A} (i : nat) (x : A) (l : list A) : list A := take i l ++ x :: drop i l.

Lemma insert_at_end {A} (x : A) l : insert_at (length l) x l = l ++ [x].
Proof. unfold insert_at. by rewrite firstn_all, drop_all. Qed.

Lemma alter_insert {A} (f : A -> A) (l : list A) (i : nat) x : l !! i = Some x -> alter f i l = <[i := f x]> l.
Proof.
  revert i. induction l as [|y l IH]; intros [|i] H; simplify_eq/=; [done|]. f_equal. by apply IH.
Qed.

(** ** Wrap-around *)

Lemma i64_small z : (- 2 ^ 63 <= z < 2 ^ 63)%Z -> i64 z = z.
Proof. intros. unfold i64. rewrite Z.mod_small; lia. Qed.

(** ** The byte order *)

Lemma bytes_compare_refl a : bytes_compare a a = Eq.
Proof. induction a; simpl; [done|]. by rewrite Z.compare_refl. Qed.

Lemma bytes_compare_eq a b : bytes_compare a b = Eq <-> a = b.
Proof.
  split; [|intros ->; apply bytes_compare_refl].
  revert b. induction a as [|x a IH]; intros [|y b]; simpl; try done.
  destruct (Z.compare_spec x y); try done. intros ?. f_equal; auto.
Qed.

Lemma bytes_compare_antisym a b : bytes_compare b a = CompOpp (bytes_compare a b).
Proof.
  revert b. induction a as [|x a IH]; intros [|y b]; simpl; try done.
  rewrite (Z.compare_antisym x y). destruct (Z.compare x y); simpl; auto.
Qed.

Lemma bytes_lt_trans a b c : bytes_lt a b -> bytes_lt b c -> bytes_lt a c.
Proof.
  unfold bytes_lt. revert b c.
  induction a as [|x a IH]; intros [|y b] [|z c]; simpl; try done.
  intros Hxy Hyz. assert (x < y \/ x = y /\ bytes_compare a b = Lt)%Z as Hx.
  { destruct (Z.compare_spec x y); naive_solver. }
  assert (y < z \/ y = z /\ bytes_compare b c = Lt)%Z as Hy.
  { destruct (Z.compare_spec y z); naive_solver. }
  destruct (Z.compare_spec x z); [|done|lia]. destruct Hx, Hy; try lia. naive_solver.
Qed.

#[export] Instance comparison_eq_dec : EqDecision comparison.
Proof. solve_decision. Defined.
#[export] Instance bytes_lt_strict : StrictOrder bytes_lt.
Proof.
  split.
  - intros a H. unfold bytes_lt in H. by rewrite bytes_compare_refl in H.
  - intros a b c. apply bytes_lt_trans.
Qed.
#[export] Instance bytes_lt_dec a b : Decision (bytes_lt a b).
Proof. unfold bytes_lt. apply _. Defined.

Lemma bytes_lt_not_eq a b : bytes_lt a b -> a <> b.
Proof. intros H ->. by apply (irreflexivity bytes_lt b). Qed.

Lemma bytes_trichotomy a b : bytes_lt a b \/ a = b \/ bytes_lt b a.
Proof.
  unfold bytes_lt. rewrite (bytes_compare_antisym a b).
  destruct (bytes_compare a b) eqn:E; simpl; auto.
  right; left. by apply bytes_compare_eq.
Qed.

Lemma bytes_le_spec a b : bytes_le a b <-> bytes_lt a b \/ a = b.
Proof.
  unfold bytes_le, bytes_lt. destruct (bytes_compare a b) eqn:E.
  - apply bytes_compare_eq in E. naive_solver.
  - naive_solver.
  - split; [done|]. intros [? | ->]; [done|]. by rewrite bytes_compare_refl in E.
Qed.

Lemma bytes_not_ge a b : bytes_compare a b = Lt <-> ~ bytes_le b a.
Proof.
  unfold bytes_le. rewrite (bytes_compare_antisym a b).
  destruct (bytes_compare a b); simpl; naive_solver.
Qed.

#[export] Hint Resolve bytes_lt_trans bytes_lt_not_eq length_le_bytes : go.
