(* ===== verification/Freelist.v ===== *)
(** * freelist.go: the page allocator and its page encoding

    State: [maxPage], the highest page number given out so far, and
    [releasedPages], a stack of freed page numbers.  Operations: [newFreelist],
    [clone], [getNextPage], [releasePage], [serialize], [deserialize]. *)

From S2P Require Import Prelude.

Open Scope Z_scope.

(** [const.go]: sizes of the encoded fields, in bytes. *)
Definition magicNumberSize : nat := 4.
Definition versionSize : nat := 4.
Definition counterSize : nat := 8.
Definition nodeHeaderSize : nat := 3.
Definition collectionSize : nat := 16.
Definition pageNumSize : nat := 8.

Definition metaPage : Z := 0.

Record freelist := Freelist {
  maxPage : Z;
  releasedPages : list Z
}.

#[export] Instance freelist_eq_dec : EqDecision freelist.
Proof. solve_decision. Defined.

Definition newFreelist : freelist := Freelist metaPage [].

(** [clone] copies the slice, so the copy shares nothing with the original. *)
Definition clone (fr : freelist) : freelist := Freelist (maxPage fr) (releasedPages fr).

Definition getNextPage (fr : freelist) : Z * freelist :=
  match last (releasedPages fr) with
  | Some pageID =>
      (pageID, Freelist (maxPage fr) (take (length (releasedPages fr) - 1) (releasedPages fr)))
  | None =>
      let m := u64 (maxPage fr + 1) in (m, Freelist m (releasedPages fr))
  end.

Definition releasePage (page : Z) (fr : freelist) : freelist :=
  Freelist (maxPage fr) (releasedPages fr ++ [page]).

(** The loop over [releasedPages] that writes one 8-byte number per page. *)
Fixpoint put_pages (pages : list Z) (pos : nat) (buf : bytes) : out bytes :=
  match pages with
  | [] => mret buf
  | page :: pages =>
      buf ← put_le 8 page pos buf;
      put_pages pages (pos + pageNumSize) buf
  end.

Definition serialize (fr : freelist) (buf : bytes) : out bytes :=
  buf ← put_le 8 (maxPage fr) 0 buf;
  buf ← put_le 2 (u16 (Z.of_nat (length (releasedPages fr)))) pageNumSize buf;
  put_pages (releasedPages fr) (pageNumSize + 2) buf.

Fixpoint get_pages (n pos : nat) (buf : bytes) : out (list Z) :=
  match n with
  | O => mret []
  | S n =>
      page ← get_le 8 pos buf;
      rest ← get_pages n (pos + pageNumSize) buf;
      mret (page :: rest)
  end.

(** [deserialize] appends to the receiver's [releasedPages]. *)
Definition deserialize (fr : freelist) (buf : bytes) : out freelist :=
  m ← get_le 8 0 buf;
  releasedPagesCount ← get_le 2 pageNumSize buf;
  pages ← get_pages (Z.to_nat releasedPagesCount) (pageNumSize + 2) buf;
  mret (Freelist m (releasedPages fr ++ pages)).

(** ** Specification *)

(** [pgnum] is [uint64]. *)
Definition is_pgnum (p : Z) : Prop := 0 <= p < 2 ^ 64.

(** Bytes a freelist takes in its page. *)
Definition freelist_size (fr : freelist) : nat :=
  (pageNumSize + 2 + 8 * length (releasedPages fr))%nat.

(** A page is live when it was given out and not released since. *)
Definition live (fr : freelist) (p : Z) : Prop :=
  metaPage < p <= maxPage fr /\ p ∉ releasedPages fr.

(** Released pages are distinct pages that were given out. *)
Record freelist_wf (fr : freelist) : Prop := {
  wf_max : 0 <= maxPage fr < 2 ^ 64;
  wf_nodup : NoDup (releasedPages fr);
  wf_given : Forall (fun p => metaPage < p <= maxPage fr) (releasedPages fr)
}.

(** The allocator's calls, as a transaction makes them. *)
Inductive alloc_op :=
| Alloc
| Release (p : Z).

(** The set of pages in use is the abstract state of the allocator: [Alloc]
    adds a page that is not in use, [Release] takes one out. *)
Inductive alloc_step : freelist * gset Z -> alloc_op -> freelist * gset Z -> Prop :=
| step_alloc fr used p fr' :
    getNextPage fr = (p, fr') -> maxPage fr < 2 ^ 64 - 1 ->
    alloc_step (fr, used) Alloc (fr', {[p]} ∪ used)
| step_release fr used p :
    p ∈ used -> alloc_step (fr, used) (Release p) (releasePage p fr, used ∖ {[p]}).

Inductive alloc_trace : freelist * gset Z -> list alloc_op -> freelist * gset Z -> Prop :=
| trace_nil s : alloc_trace s [] s
| trace_snoc s ops s' op s'' :
    alloc_trace s ops s' -> alloc_step s' op s'' -> alloc_trace s (ops ++ [op]) s''.

(** The pages in use are exactly the live ones. *)
Definition alloc_inv (s : freelist * gset Z) : Prop :=
  freelist_wf s.1 /\ forall p, p ∈ s.2 <-> live s.1 p.

(** ** Encoding lemmas *)

Lemma put_pages_ok pages pos buf :
  (pos + 8 * length pages <= length buf)%nat ->
  exists buf', put_pages pages pos buf = Ok buf' /\ length buf' = length buf /\
    sub_list 0 pos buf' = sub_list 0 pos buf /\
    (Forall is_pgnum pages -> get_pages (length pages) pos buf' = Ok pages).
Proof.
  revert pos buf. induction pages as [|p pages IH]; intros pos buf Hlen; cbn [put_pages length] in *.
  { exists buf. naive_solver. }
  rewrite put_le_ok by len. go_bind. unfold pageNumSize.
  set (b1 := splice pos (le_bytes 8 p) buf).
  assert (length b1 = length buf) as Hb1 by (apply length_splice_le; len).
  destruct (IH (pos + 8)%nat b1) as (buf' & -> & Hl & Hpre & Hget); [len|].
  exists buf'. repeat split; [congruence|..].
  - assert (sub_list 0 pos (sub_list 0 (pos + 8) buf') = sub_list 0 pos (sub_list 0 (pos + 8) b1)) as E
      by congruence.
    rewrite !sub_list_sub in E by lia. simpl in E. rewrite E.
    apply sub_splice_before; len.
  - intros Hp. apply Forall_cons in Hp as [Hp Hps]. cbn [get_pages].
    assert (sub_list pos 8 buf' = le_bytes 8 p) as E.
    { assert (sub_list pos 8 (sub_list 0 (pos + 8) buf') = sub_list pos 8 (sub_list 0 (pos + 8) b1)) as E
        by congruence.
      rewrite !sub_list_sub in E by lia. simpl in E. rewrite E.
      pose proof (sub_splice_same pos (le_bytes 8 p) buf) as H. rewrite length_le_bytes in H.
      apply H. lia. }
    rewrite (get_le_at 8 pos buf' p); [|lia|done|done]. go_bind. unfold pageNumSize. by rewrite Hget.
Qed.

Lemma put_pages_panics pages pos buf :
  (pos <= length buf)%nat -> (length buf < pos + 8 * length pages)%nat ->
  put_pages pages pos buf = Panic.
Proof.
  revert pos buf. induction pages as [|p pages IH]; intros pos buf Hpos Hlen; cbn [put_pages length] in *.
  { lia. }
  unfold put_le. case_decide; [|done]. go_bind.
  apply IH; rewrite length_splice_le by len; unfold pageNumSize; lia.
Qed.

(** Writing the two fixed fields. *)
Lemma serialize_header fr buf :
  (10 <= length buf)%nat ->
  exists b, length b = length buf /\
    sub_list 0 8 b = le_bytes 8 (maxPage fr) /\
    sub_list 8 2 b = le_bytes 2 (u16 (Z.of_nat (length (releasedPages fr)))) /\
    serialize fr buf = put_pages (releasedPages fr) 10 b.
Proof.
  intros Hlen. unfold serialize. rewrite put_le_ok by len. go_bind.
  set (b0 := splice 0 _ buf).
  assert (length b0 = length buf) as Hb0 by (apply length_splice_le; len).
  rewrite put_le_ok by (unfold pageNumSize; lia). go_bind.
  exists (splice 8 (le_bytes 2 (u16 (Z.of_nat (length (releasedPages fr))))) b0).
  split; [|split; [|split; [|reflexivity]]].
  - rewrite length_splice_le; unfold pageNumSize; lia.
  - rewrite sub_splice_before by (unfold pageNumSize; lia).
    pose proof (sub_splice_same 0 (le_bytes 8 (maxPage fr)) buf) as H.
    rewrite length_le_bytes in H. apply H. lia.
  - pose proof (sub_splice_same 8 (le_bytes 2 (u16 (Z.of_nat (length (releasedPages fr))))) b0) as H.
    rewrite length_le_bytes in H. apply H. lia.
Qed.

Lemma freelist_roundtrip_gen fr buf :
  freelist_wf fr -> (freelist_size fr <= length buf)%nat -> Z.of_nat (length (releasedPages fr)) < 2 ^ 16 ->
  exists buf', serialize fr buf = Ok buf' /\ length buf' = length buf /\ deserialize newFreelist buf' = Ok fr.
Proof.
  intros [Hm _ Hg] Hsize Hcount. unfold freelist_size, pageNumSize in Hsize.
  destruct (serialize_header fr buf) as (b & Hlb & H8 & H2 & ->); [lia|].
  destruct (put_pages_ok (releasedPages fr) 10 b) as (buf' & -> & Hl & Hpre & Hget); [lia|].
  exists buf'. split; [done|]. split; [congruence|]. unfold deserialize, pageNumSize.
  assert (sub_list 0 8 buf' = le_bytes 8 (maxPage fr)) as E8.
  { rewrite <- H8. pose proof (f_equal (sub_list 0 8) Hpre) as E. by rewrite !sub_list_sub in E by lia. }
  assert (sub_list 8 2 buf' = le_bytes 2 (u16 (Z.of_nat (length (releasedPages fr))))) as E2.
  { rewrite <- H2. pose proof (f_equal (sub_list 8 2) Hpre) as E. by rewrite !sub_list_sub in E by lia. }
  rewrite (get_le_at 8 0 buf' (maxPage fr)); [|lia|done|done]. go_bind.
  assert (u16 (Z.of_nat (length (releasedPages fr))) = Z.of_nat (length (releasedPages fr))) as Hu.
  { apply Z.mod_small. lia. }
  rewrite (get_le_at 2 8 buf' (Z.of_nat (length (releasedPages fr)))); [|lia| by rewrite E2, Hu |lia]. go_bind.
  change (8 + 2)%nat with 10%nat. rewrite Nat2Z.id, Hget.
  - cbn. by destruct fr.
  - eapply Forall_impl; [exact Hg|]. unfold is_pgnum, metaPage. intros. lia.
Qed.

(** ** Allocation lemmas *)

Lemma getNextPage_released fr l p :
  releasedPages fr = l ++ [p] -> getNextPage fr = (p, Freelist (maxPage fr) l).
Proof.
  intros E. unfold getNextPage. rewrite E, last_snoc. do 2 f_equal.
  rewrite length_app. simpl. rewrite Nat.add_sub. apply take_app_length.
Qed.

Lemma getNextPage_grow fr :
  releasedPages fr = [] -> maxPage fr < 2 ^ 64 - 1 -> 0 <= maxPage fr ->
  getNextPage fr = (maxPage fr + 1, Freelist (maxPage fr + 1) []).
Proof.
  intros E Hm H0. unfold getNextPage. rewrite E. simpl. unfold u64.
  by rewrite Z.mod_small by lia.
Qed.

(** The page handed out is not live, and becomes the one new live page. *)
Lemma getNextPage_spec fr p fr' :
  freelist_wf fr -> maxPage fr < 2 ^ 64 - 1 -> getNextPage fr = (p, fr') ->
  ~ live fr p /\ freelist_wf fr' /\ forall q, live fr' q <-> q = p \/ live fr q.
Proof.
  intros [Hm Hnd Hg] Hmax E.
  destruct (decide (releasedPages fr = [])) as [Hnil|Hne].
  - rewrite getNextPage_grow in E by (done || lia). go_inv E.
    assert (forall q : Z, q ∉ []) as Hnil' by set_solver.
    unfold live. rewrite Hnil. simpl. unfold metaPage in *.
    split; [naive_solver lia|]. split.
    + split; simpl; [lia|constructor|constructor].
    + intros q. specialize (Hnil' q). destruct (decide (q = maxPage fr + 1)); intuition lia.
  - destruct (exists_last Hne) as (l & x & El). rewrite (getNextPage_released _ _ _ El) in E. go_inv E.
    rewrite El in Hnd, Hg. apply Forall_app in Hg as [Hg [Hx _]%Forall_cons].
    apply NoDup_app in Hnd as (Hnd & Hdisj & _).
    assert (p ∉ l) as Hp by set_solver.
    unfold live. simpl. rewrite El. split; [set_solver|]. split; [by split|].
    intros q. rewrite not_elem_of_app, list_elem_of_singleton.
    destruct (decide (q = p)) as [-> | ?]; naive_solver.
Qed.

Lemma releasePage_spec fr p :
  freelist_wf fr -> live fr p ->
  freelist_wf (releasePage p fr) /\ forall q, live (releasePage p fr) q <-> live fr q /\ q <> p.
Proof.
  intros [Hm Hnd Hg] [Hp Hnin]. split.
  - split; simpl; [done| |].
    + apply NoDup_app. split; [done|]. split; [set_solver|]. apply NoDup_singleton.
    + apply Forall_app. split; [done|]. by apply Forall_singleton.
  - unfold live. simpl. set_solver.
Qed.

Lemma newFreelist_inv : alloc_inv (newFreelist, ∅).
Proof.
  split; simpl.
  - split; simpl; [unfold metaPage; lia|constructor|constructor].
  - unfold live. simpl. unfold metaPage. intros p. split; [set_solver|lia].
Qed.

Lemma alloc_step_inv s op s' : alloc_inv s -> alloc_step s op s' -> alloc_inv s'.
Proof.
  intros [Hwf Hused] Hstep. destruct Hstep; simpl in *.
  - edestruct getNextPage_spec as (_ & Hwf' & Hlive); eauto. split; simpl; [done|].
    intros q. rewrite Hlive, elem_of_union, elem_of_singleton, Hused. done.
  - apply Hused in H. destruct (releasePage_spec fr p) as [Hwf' Hlive]; auto. split; simpl; [done|].
    intros q. rewrite Hlive, elem_of_difference, elem_of_singleton, Hused. done.
Qed.

Lemma alloc_trace_inv s ops s' : alloc_inv s -> alloc_trace s ops s' -> alloc_inv s'.
Proof. intros Hinv Ht. induction Ht; eauto using alloc_step_inv. Qed.

#[export] Hint Resolve newFreelist_inv alloc_step_inv alloc_trace_inv : go.

(** ** Properties *)

(** C36: a well-formed freelist that fits its page and counts fewer than 2^16
    released pages survives [serialize] followed by [deserialize] into a new
    freelist, and the page keeps its length. *)
Theorem freelist_roundtrip fr buf :
  freelist_wf fr -> (freelist_size fr <= length buf)%nat ->
  Z.of_nat (length (releasedPages fr)) < 2 ^ 16 ->
  exists buf', serialize fr buf = Ok buf' /\ length buf' = length buf /\ deserialize newFreelist buf' = Ok fr.
Proof. apply freelist_roundtrip_gen. Qed.

Lemma freelist_roundtrip_witness :
  exists buf', serialize (Freelist 5 [1; 2; 3]) (replicate 64 0) = Ok buf' /\
    length buf' = 64%nat /\ deserialize newFreelist buf' = Ok (Freelist 5 [1; 2; 3]).
Proof.
  apply (freelist_roundtrip (Freelist 5 [1; 2; 3]) (replicate 64 0)).
  - split; simpl; [lia| |].
    + apply (bool_decide_unpack _). vm_compute. exact I.
    + unfold metaPage. repeat constructor; lia.
  - vm_compute. lia.
  - vm_compute. reflexivity.
Defined.

(** C37: [serialize] panics exactly when the released pages do not fit the page
    (the code writes them into one page without checking): a page of [n] bytes
    holds at most [(n - 10) / 8] released pages. *)
Theorem freelist_serialize_panics_iff fr buf :
  serialize fr buf = Panic <-> (length buf < freelist_size fr)%nat.
Proof.
  unfold freelist_size, pageNumSize. destruct (decide (10 <= length buf)%nat) as [Hb|Hb].
  - destruct (serialize_header fr buf Hb) as (b & Hlb & _ & _ & ->).
    destruct (decide (8 + 2 + 8 * length (releasedPages fr) <= length buf)%nat).
    + destruct (put_pages_ok (releasedPages fr) 10 b) as (? & -> & _); [lia|]. split; [done|lia].
    + rewrite put_pages_panics by lia. split; [lia|done].
  - split; [lia|intros _]. unfold serialize, pageNumSize.
    destruct (decide (0 + 8 <= length buf)%nat) as [H8|H8].
    + rewrite put_le_ok by done. go_bind.
      by rewrite put_le_panics by (rewrite length_splice_le by done; lia).
    + by rewrite put_le_panics by lia.
Qed.

(** C21: along every sequence of allocations and releases from an empty
    allocator, the pages in use are exactly the live ones, and the next page
    given out is in use by nobody and is not the meta page. *)
Theorem allocator_never_hands_out_a_used_page ops fr used :
  alloc_trace (newFreelist, ∅) ops (fr, used) -> maxPage fr < 2 ^ 64 - 1 ->
  alloc_inv (fr, used) /\ (getNextPage fr).1 ∉ used /\ (getNextPage fr).1 <> metaPage.
Proof.
  intros Ht Hmax. assert (alloc_inv (fr, used)) as [Hwf Hused] by eauto with go.
  split; [by split|]. destruct (getNextPage fr) as [p fr'] eqn:E. simpl in *.
  destruct (getNextPage_spec fr p fr' Hwf Hmax E) as (Hfresh & _ & Hlive).
  split; [by rewrite Hused|]. destruct (proj2 (Hlive p)) as [? _]; [by left|lia].
Qed.

Lemma allocator_never_hands_out_a_used_page_witness :
  alloc_inv (Freelist 1 [1], ∅) /\ (getNextPage (Freelist 1 [1])).1 ∉ (∅ : gset Z) /\
  (getNextPage (Freelist 1 [1])).1 <> metaPage.
Proof.
  apply (allocator_never_hands_out_a_used_page [Alloc; Release 1]); [|simpl; lia].
  apply (trace_snoc _ [Alloc] (Freelist 1 [], {[1]})).
  - apply (trace_snoc _ [] (newFreelist, ∅) Alloc); [constructor|].
    replace ({[1]} : gset Z) with ({[1]} ∪ ∅ : gset Z) by (apply (bool_decide_unpack _); vm_compute; exact I).
    apply (step_alloc newFreelist ∅ 1); [reflexivity|by vm_compute].
  - replace (∅ : gset Z) with ({[1]} ∖ {[1]} : gset Z) by (apply (bool_decide_unpack _); vm_compute; exact I).
    apply (step_release (Freelist 1 []) {[1]} 1). apply (bool_decide_unpack _). vm_compute. exact I.
Defined.
