(* ===== verification/Float32.v ===== *)
(** * Go's [float32]

    The fill thresholds are IEEE-754 binary32 numbers.  They are modelled with
    the Standard Library's [SpecFloat] at precision 24 and exponent bound 128:
    [f32_of_Z] is the conversion [float32(n)] (round to nearest, ties to even),
    [f32_mul] the rounded product, and the comparisons are IEEE comparisons, so
    every comparison with NaN is false. *)

From Stdlib Require Import SpecFloat.
From S2P Require Import Prelude.

Abbreviation f32 := spec_float.

Definition f32_of_Z (z : Z) : f32 := binary_normalize 24 128 z 0 false.
Definition f32_mul (a b : f32) : f32 := SFmul 24 128 a b.
Definition f32_lt (a b : f32) : bool := SFltb a b.
Definition f32_le (a b : f32) : bool := SFleb a b.
Definition f32_eq (a b : f32) : bool := SFeqb a b.

(** A decimal constant [n / d] (with [n] and [d] exact in binary32 the rounded
    quotient is the correctly rounded constant). *)
Definition f32_const (n d : Z) : f32 := SFdiv 24 128 (f32_of_Z n) (f32_of_Z d).

(** The constants of [DefaultOptions]: 0.5, and the binary32 number nearest to
    0.95, which is 15938355 / 2^24. *)
Example f32_half : f32_const 1 2 = S754_finite false 8388608 (-24).
Proof. reflexivity. Qed.
Example f32_095 : f32_const 95 100 = S754_finite false 15938355 (-24).
Proof. reflexivity. Qed.
Example f32_threshold : f32_mul (f32_const 95 100) (f32_of_Z 4096) = S754_finite false 15938355 (-12).
Proof. reflexivity. Qed.
