(* ===== verification/Meta.v ===== *)
(** * meta.go: the meta page

    The meta page (page 0) holds the magic number, the file version, the page
    of the root collection and the page of the freelist. *)

From S2P Require Import Prelude Freelist.

Open Scope Z_scope.

Definition magicNumber : Z := 0xD00DB00D.
Definition fileVersion : Z := 1.
Definition metaPageNum : Z := 0.

Record meta := Meta {
  root : Z;
  freelistPage : Z
}.

#[export] Instance meta_eq_dec : EqDecision meta.
Proof. solve_decision. Defined.

Definition newEmptyMeta : meta := Meta 0 0.

Definition metaHeaderSize : nat := magicNumberSize + versionSize + pageNumSize + pageNumSize.

Definition serialize (m : meta) (buf : bytes) : out bytes :=
  let pos := 0%nat in
  buf ← put_le 4 magicNumber pos buf;
  let pos := (pos + magicNumberSize)%nat in
  buf ← put_le 4 fileVersion pos buf;
  let pos := (pos + versionSize)%nat in
  buf ← put_le 8 (root m) pos buf;
  let pos := (pos + pageNumSize)%nat in
  put_le 8 (freelistPage m) pos buf.

(** [deserialize] overwrites both fields of its receiver or returns an error. *)
Definition deserialize (buf : bytes) : out meta :=
  let pos := 0%nat in
  magicNumberRes ← get_le 4 pos buf;
  let pos := (pos + magicNumberSize)%nat in
  if decide (magicNumberRes <> magicNumber) then Err (ErrInvalidDBFile BadMagic)
  else
    version ← get_le 4 pos buf;
    let pos := (pos + versionSize)%nat in
    if decide (version <> fileVersion) then Err (ErrInvalidDBFile (BadVersion version))
    else
      root ← get_le 8 pos buf;
      let pos := (pos + pageNumSize)%nat in
      freelistPage ← get_le 8 pos buf;
      mret (Meta root freelistPage).

Definition meta_wf (m : meta) : Prop := is_pgnum (root m) /\ is_pgnum (freelistPage m).

(** ** Lemmas *)

(** The four fields as one block of bytes. *)
Definition meta_block (m : meta) : bytes :=
  le_bytes 4 magicNumber ++ le_bytes 4 fileVersion ++ le_bytes 8 (root m) ++ le_bytes 8 (freelistPage m).

Lemma serialize_block m buf :
  (24 <= length buf)%nat -> serialize m buf = Ok (splice 0 (meta_block m) buf).
Proof.
  intros Hb. unfold serialize, magicNumberSize, versionSize, pageNumSize, meta_block. simpl Nat.add.
  rewrite put_le_ok by lia. go_bind.
  rewrite put_le_ok by (rewrite length_splice_le; lia). go_bind.
  rewrite put_le_ok by (rewrite !length_splice_le; rewrite ?length_splice_le; lia). go_bind.
  rewrite put_le_ok by (rewrite !length_splice_le; rewrite ?length_splice_le; rewrite ?length_splice_le; lia).
  f_equal.
  pose proof (splice_adjacent 0 (le_bytes 4 magicNumber) (le_bytes 4 fileVersion) buf) as E.
  rewrite !length_le_bytes in E. simpl Nat.add in E. rewrite E by lia.
  pose proof (splice_adjacent 0 (le_bytes 4 magicNumber ++ le_bytes 4 fileVersion) (le_bytes 8 (root m)) buf) as E2.
  rewrite !length_app, !length_le_bytes in E2. simpl Nat.add in E2. rewrite E2 by lia.
  pose proof (splice_adjacent 0 ((le_bytes 4 magicNumber ++ le_bytes 4 fileVersion) ++ le_bytes 8 (root m))
    (le_bytes 8 (freelistPage m)) buf) as E3.
  rewrite !length_app, !length_le_bytes in E3. simpl Nat.add in E3. rewrite E3 by lia.
  by rewrite <- !app_assoc.
Qed.

(** Decoding a buffer that starts with 24 known bytes. *)
Lemma deserialize_fields mg v r f buf :
  (24 <= length buf)%nat ->
  sub_list 0 24 buf = le_bytes 4 mg ++ le_bytes 4 v ++ le_bytes 8 r ++ le_bytes 8 f ->
  0 <= mg < 2 ^ 32 -> 0 <= v < 2 ^ 32 -> is_pgnum r -> is_pgnum f ->
  deserialize buf =
    if decide (mg <> magicNumber) then Err (ErrInvalidDBFile BadMagic)
    else if decide (v <> fileVersion) then Err (ErrInvalidDBFile (BadVersion v))
    else Ok (Meta r f).
Proof.
  intros Hb E Hmg Hv Hr Hf.
  assert (sub_list 0 4 buf = le_bytes 4 mg) as E1.
  { pose proof (f_equal (sub_list 0 4) E) as H. by rewrite sub_list_sub in H by lia. }
  assert (sub_list 4 4 buf = le_bytes 4 v) as E2.
  { pose proof (f_equal (sub_list 4 4) E) as H. by rewrite sub_list_sub in H by lia. }
  assert (sub_list 8 8 buf = le_bytes 8 r) as E3.
  { pose proof (f_equal (sub_list 8 8) E) as H. by rewrite sub_list_sub in H by lia. }
  assert (sub_list 16 8 buf = le_bytes 8 f) as E4.
  { pose proof (f_equal (sub_list 16 8) E) as H. by rewrite sub_list_sub in H by lia. }
  unfold deserialize, magicNumberSize, versionSize, pageNumSize. simpl Nat.add.
  rewrite (get_le_at 4 0 buf mg); [|lia|done|done]. go_bind. case_decide; [done|].
  rewrite (get_le_at 4 4 buf v); [|lia|done|done]. go_bind. case_decide; [done|].
  rewrite (get_le_at 8 8 buf r); [|lia|done|done]. go_bind.
  rewrite (get_le_at 8 16 buf f); [|lia|done|done]. done.
Qed.

Lemma length_meta_block m : length (meta_block m) = 24%nat.
Proof. reflexivity. Qed.

Lemma meta_roundtrip_gen m buf :
  meta_wf m -> (metaHeaderSize <= length buf)%nat ->
  exists buf', serialize m buf = Ok buf' /\ length buf' = length buf /\
    sub_list 24 (length buf - 24) buf' = sub_list 24 (length buf - 24) buf /\ deserialize buf' = Ok m.
Proof.
  intros [Hr Hf] Hb. unfold metaHeaderSize, magicNumberSize, versionSize, pageNumSize in Hb. simpl in Hb.
  eexists. rewrite serialize_block by lia. split; [done|].
  rewrite length_splice by (rewrite length_meta_block; lia). split; [done|]. split.
  - apply sub_splice_after; [rewrite length_meta_block|]; lia.
  - rewrite (deserialize_fields magicNumber fileVersion (root m) (freelistPage m)).
    + rewrite !decide_False by naive_solver. by destruct m.
    + rewrite length_splice by (rewrite length_meta_block; lia). lia.
    + apply (sub_splice_same 0 (meta_block m)). lia.
    + done.
    + done.
    + done.
    + done.
Qed.

(** ** Properties *)

(** [deserialize] gives back the meta record that [serialize] wrote, and
    the bytes of the page after the 24-byte header are left alone. *)
Theorem meta_roundtrip m buf :
  meta_wf m -> (metaHeaderSize <= length buf)%nat ->
  exists buf', serialize m buf = Ok buf' /\ length buf' = length buf /\
    sub_list 24 (length buf - 24) buf' = sub_list 24 (length buf - 24) buf /\ deserialize buf' = Ok m.
Proof. apply meta_roundtrip_gen. Qed.

Lemma meta_roundtrip_witness :
  exists buf', serialize (Meta 2 1) (replicate 64 7) = Ok buf' /\ length buf' = 64%nat /\
    sub_list 24 40 buf' = replicate 40 7 /\ deserialize buf' = Ok (Meta 2 1).
Proof.
  apply (meta_roundtrip (Meta 2 1) (replicate 64 7)).
  - split; unfold is_pgnum; simpl; lia.
  - apply (bool_decide_unpack _). vm_compute. exact I.
Defined.

(** [deserialize] accepts a page of at least 24 bytes only when it carries
    the magic number and the file version; the magic number is checked first,
    and each check has its own error. *)
Theorem meta_deserialize_checks mg v r f rest :
  0 <= mg < 2 ^ 32 -> 0 <= v < 2 ^ 32 -> is_pgnum r -> is_pgnum f ->
  deserialize (le_bytes 4 mg ++ le_bytes 4 v ++ le_bytes 8 r ++ le_bytes 8 f ++ rest) =
    if decide (mg <> magicNumber) then Err (ErrInvalidDBFile BadMagic)
    else if decide (v <> fileVersion) then Err (ErrInvalidDBFile (BadVersion v))
    else Ok (Meta r f).
Proof.
  intros. apply deserialize_fields; try done.
  rewrite !length_app, !length_le_bytes. lia.
Qed.

Lemma meta_deserialize_checks_witness :
  deserialize (le_bytes 4 magicNumber ++ le_bytes 4 7 ++ le_bytes 8 2 ++ le_bytes 8 1 ++ []) =
    Err (ErrInvalidDBFile (BadVersion 7)).
Proof.
  apply (meta_deserialize_checks magicNumber 7 2 1 []); unfold is_pgnum, magicNumber; lia.
Defined.
