(* ===== verification/Node.v ===== *)
(** * node.go, the value part: items, page layout, sizes, validation, search

    A [node] is the contents of a Go [Node]: its page number, the items its
    [items] slice shows and the page numbers its [childNodes] slice shows.  The
    functions here only read a node (or build one from a page), so slices and
    their backing arrays do not matter; the functions that mutate nodes are in
    [Tree], over the store of [GoSlice]. *)

From stdpp Require Import sorting.
From S2P Require Import Prelude Freelist.

Open Scope Z_scope.

Record Item := newItem {
  key : bytes;
  value : bytes
}.

Record node := Node {
  pageNum : Z;
  items : list Item;
  childNodes : list Z
}.

#[export] Instance Item_eq_dec : EqDecision Item.
Proof. solve_decision. Defined.
#[export] Instance node_eq_dec : EqDecision node.
Proof. solve_decision. Defined.

Definition NewEmptyNode : node := Node 0 [] [].
Definition NewNodeForSerialization (its : list Item) (kids : list Z) : node := Node 0 its kids.

Definition isLeaf (n : node) : bool := bool_decide (length (childNodes n) = 0%nat).

(** ** Page layout *)

(** [copy(buf[pos:], src)] and [buf[pos] = b] at an [int] position. *)
Definition copy_at (pos : Z) (src buf : bytes) : out bytes :=
  if decide (0 <= pos <= Z.of_nat (length buf)) then
    Ok (splice (Z.to_nat pos) (take (length buf - Z.to_nat pos) src) buf)
  else Panic.
Definition set_at (pos b : Z) (buf : bytes) : out bytes :=
  if decide (0 <= pos < Z.of_nat (length buf)) then Ok (splice (Z.to_nat pos) [b `mod` 256] buf) else Panic.

(** One iteration of [serialize]'s loop, from the offset on. *)
Definition put_cell (item : Item) (leftPos : nat) (rightPos : Z) (buf : bytes) : out (bytes * nat * Z) :=
  let klen := Z.of_nat (length (key item)) in
  let vlen := Z.of_nat (length (value item)) in
  let offset := rightPos - klen - vlen - 2 in
  buf ← put_le 2 (u16 offset) leftPos buf;
  let leftPos := (leftPos + 2)%nat in
  let rightPos := rightPos - vlen in
  buf ← copy_at rightPos (value item) buf;
  let rightPos := rightPos - 1 in
  buf ← set_at rightPos vlen buf;
  let rightPos := rightPos - klen in
  buf ← copy_at rightPos (key item) buf;
  let rightPos := rightPos - 1 in
  buf ← set_at rightPos klen buf;
  mret (buf, leftPos, rightPos).

(** The loop: [i] is the index of the next item. *)
Fixpoint put_items (leaf : bool) (kids : list Z) (i : nat) (its : list Item)
    (leftPos : nat) (rightPos : Z) (buf : bytes) : out (bytes * nat) :=
  match its with
  | [] => mret (buf, leftPos)
  | item :: its =>
      '(buf, leftPos) ←
        (if leaf then mret (buf, leftPos)
         else
           childNode ← of_option (kids !! i);
           buf ← put_le 8 childNode leftPos buf;
           mret (buf, (leftPos + pageNumSize)%nat));
      '(buf, leftPos, rightPos) ← put_cell item leftPos rightPos buf;
      put_items leaf kids (S i) its leftPos rightPos buf
  end.

Definition serialize (n : node) (buf : bytes) : out bytes :=
  let leftPos := 0%nat in
  let rightPos := Z.of_nat (length buf) - 1 in
  buf ← set_at (Z.of_nat leftPos) (if isLeaf n then 1 else 0) buf;
  let leftPos := (leftPos + 1)%nat in
  buf ← put_le 2 (u16 (Z.of_nat (length (items n)))) leftPos buf;
  let leftPos := (leftPos + 2)%nat in
  '(buf, leftPos) ← put_items (isLeaf n) (childNodes n) 0 (items n) leftPos rightPos buf;
  if isLeaf n then mret buf
  else
    lastChildNode ← of_option (last (childNodes n));
    put_le 8 lastChildNode leftPos buf.

(** [buf[lo:hi]] (the capacity of a page buffer is its length). *)
Definition slice_of (lo hi : Z) (buf : bytes) : out bytes :=
  if decide (0 <= lo <= hi /\ hi <= Z.of_nat (length buf)) then
    Ok (sub_list (Z.to_nat lo) (Z.to_nat (hi - lo)) buf)
  else Panic.
Definition byte_at (pos : Z) (buf : bytes) : out Z :=
  if decide (0 <= pos) then of_option (buf !! Z.to_nat pos) else Panic.

(** One cell; [offset] is a [uint16] and wraps. *)
Definition get_cell (leftPos : nat) (buf : bytes) : out Item :=
  offset ← get_le 2 leftPos buf;
  klen ← byte_at offset buf;
  let offset := u16 (offset + 1) in
  k ← slice_of offset (u16 (offset + klen)) buf;
  let offset := u16 (offset + klen) in
  vlen ← byte_at offset buf;
  let offset := u16 (offset + 1) in
  v ← slice_of offset (u16 (offset + vlen)) buf;
  mret (newItem k v).

Fixpoint get_items (leaf : bool) (n leftPos : nat) (buf : bytes) : out (list Item * list Z * nat) :=
  match n with
  | O => mret ([], [], leftPos)
  | S n =>
      '(kid, leftPos) ←
        (if leaf then mret ([], leftPos)
         else
           pageNum ← get_le 8 leftPos buf;
           mret ([pageNum], (leftPos + pageNumSize)%nat));
      item ← get_cell leftPos buf;
      '(its, kids, leftPos) ← get_items leaf n (leftPos + 2) buf;
      mret (item :: its, kid ++ kids, leftPos)
  end.

(** [deserialize] appends to the receiver's slices. *)
Definition deserialize (n : node) (buf : bytes) : out node :=
  leaf ← byte_at 0 buf;
  itemsCount ← get_le 2 1 buf;
  '(its, kids, leftPos) ← get_items (negb (bool_decide (leaf = 0))) (Z.to_nat itemsCount) 3 buf;
  if decide (leaf = 0) then
    pn ← get_le 8 leftPos buf;
    mret (Node (pageNum n) (items n ++ its) (childNodes n ++ kids ++ [pn]))
  else mret (Node (pageNum n) (items n ++ its) (childNodes n ++ kids)).

(** ** Sizes *)

Definition item_size (it : Item) : Z :=
  Z.of_nat (length (key it)) + Z.of_nat (length (value it)) + Z.of_nat pageNumSize.

Definition elementSize (n : node) (i : nat) : out Z :=
  it ← of_option (items n !! i); mret (item_size it).

Definition sum_sizes (its : list Item) : Z := foldr (fun it s => item_size it + s) 0 its.

Definition nodeSize (n : node) : Z :=
  Z.of_nat nodeHeaderSize + sum_sizes (items n) + Z.of_nat pageNumSize.

Fixpoint validate_items (its : list Item) : out unit :=
  match its with
  | [] => mret tt
  | item :: its =>
      if decide (255 < length (key item))%nat then Err (ErrItemTooLarge (KeyTooLong (length (key item))))
      else if decide (255 < length (value item))%nat then
        Err (ErrItemTooLarge (ValueTooLong (length (value item))))
      else validate_items its
  end.

Definition validate (n : node) (pageSize : Z) : out unit :=
  if decide (length (childNodes n) <> 0%nat /\ length (childNodes n) <> (length (items n) + 1)%nat) then
    Err (ErrInvalidDBFile (BadChildCount (length (items n)) (length (childNodes n))))
  else if decide (nodeSize n > pageSize) then Err (ErrItemTooLarge (NodeTooLarge (nodeSize n) pageSize))
  else validate_items (items n).

(** [Item.validate] (collection.go) validates a node that holds the item alone. *)
Definition item_validate (it : Item) (pageSize : Z) : out unit :=
  validate (NewNodeForSerialization [it] []) pageSize.

(** ** Search in one node *)

(** [sort.Search(n, f)]: bisection of [i, j). *)
Fixpoint search_loop (fuel : nat) (f : nat -> bool) (i j : nat) : nat :=
  match fuel with
  | O => i
  | S fuel =>
      if decide (i < j)%nat then
        let h := Nat.div2 (i + j) in
        if f h then search_loop fuel f i h else search_loop fuel f (S h) j
      else i
  end.
(** Each iteration shrinks the interval, so [n] iterations are enough
    ([search_loop_spec]). *)
Definition sort_Search (n : nat) (f : nat -> bool) : nat := search_loop n f 0 n.

Definition key_ge (its : list Item) (k : bytes) (i : nat) : bool :=
  match its !! i with
  | Some it => match bytes_compare (key it) k with Lt => false | _ => true end
  | None => true
  end.

Definition findKeyInNode (n : node) (k : bytes) : bool * nat :=
  let index := sort_Search (length (items n)) (key_ge (items n) k) in
  match items n !! index with
  | Some it => if decide (key it = k) then (true, index) else (false, index)
  | None => (false, index)
  end.

(** ** Specification of the layout *)

Definition cell (it : Item) : bytes :=
  [Z.of_nat (length (key it)) `mod` 256] ++ key it ++ [Z.of_nat (length (value it)) `mod` 256] ++ value it.
#[global] Arguments cell : simpl never.
Definition cells_size (its : list Item) : nat := foldr (fun it s => (length (cell it) + s)%nat) 0%nat its.
(** Bytes a slot takes on the left of the page. *)
Definition slot_size (leaf : bool) : nat := if leaf then 2 else 10.

(** Bytes [serialize] really uses: header, slots, last child, cells, and the
    page's last byte, which [rightPos] skips. *)
Definition layout_size (n : node) : nat :=
  (nodeHeaderSize + slot_size (isLeaf n) * length (items n) +
   (if isLeaf n then 0 else pageNumSize) + cells_size (items n) + 1)%nat.

Definition item_ok (it : Item) : Prop := (length (key it) <= 255)%nat /\ (length (value it) <= 255)%nat.

(** The node shapes the tree code keeps. *)
Definition children_ok (n : node) : Prop :=
  childNodes n = [] \/ length (childNodes n) = S (length (items n)).

Record node_wf (n : node) : Prop := {
  wf_children : children_ok n;
  wf_items : Forall item_ok (items n);
  wf_kids : Forall is_pgnum (childNodes n)
}.

(** ** Writing a cell *)

Lemma length_cell it : length (cell it) = (length (key it) + length (value it) + 2)%nat.
Proof. unfold cell. len. Qed.

Lemma splice_before {A} pos (xs ys l : list A) :
  (pos + length xs + length ys <= length l)%nat ->
  splice pos xs (splice (pos + length xs) ys l) = splice pos (xs ++ ys) l.
Proof.
  intros H. unfold splice.
  rewrite take_app_le by len. rewrite take_take, Nat.min_l by lia. f_equal.
  rewrite drop_app_ge by len. rewrite length_take, Nat.min_l by lia.
  rewrite Nat.sub_diag, drop_0, <- app_assoc. do 2 f_equal. rewrite length_app. f_equal. lia.
Qed.

(** Steps that cannot fail, as single splices. *)
Lemma copy_at_ok pos src buf :
  (pos + length src <= length buf)%nat -> copy_at (Z.of_nat pos) src buf = Ok (splice pos src buf).
Proof.
  intros. unfold copy_at. rewrite decide_True by lia. rewrite Nat2Z.id, take_ge by lia. done.
Qed.

Lemma set_at_ok pos b buf :
  (pos < length buf)%nat -> set_at (Z.of_nat pos) b buf = Ok (splice pos [b `mod` 256] buf).
Proof. intros. unfold set_at. rewrite decide_True by lia. by rewrite Nat2Z.id. Qed.

Lemma put_cell_ok it left right buf :
  (left + 2 + length (cell it) <= right)%nat -> (right <= length buf)%nat ->
  put_cell it left (Z.of_nat right) buf =
    Ok (splice (right - length (cell it)) (cell it)
          (splice left (le_bytes 2 (u16 (Z.of_nat (right - length (cell it))))) buf),
        (left + 2)%nat, Z.of_nat (right - length (cell it))).
Proof.
  intros Hl Hr. rewrite length_cell in *. unfold put_cell.
  set (kl := length (key it)) in *. set (vl := length (value it)) in *.
  replace (Z.of_nat right - Z.of_nat kl - Z.of_nat vl - 2) with (Z.of_nat (right - (kl + vl + 2))) by lia.
  rewrite put_le_ok by lia. go_bind.
  set (b0 := splice left _ buf).
  assert (length b0 = length buf) as Hb0 by (apply length_splice_le; lia).
  replace (Z.of_nat right - Z.of_nat vl) with (Z.of_nat (right - vl)) by lia.
  rewrite copy_at_ok by (fold vl; lia). go_bind.
  replace (Z.of_nat (right - vl) - 1) with (Z.of_nat (right - vl - 1)) by lia.
  rewrite set_at_ok by (rewrite length_splice by (fold vl; lia); lia). go_bind.
  replace (Z.of_nat (right - vl - 1) - Z.of_nat kl) with (Z.of_nat (right - vl - 1 - kl)) by lia.
  assert (length (splice (right - vl) (value it) b0) = length b0) as H1 by (apply length_splice; fold vl; lia).
  rewrite copy_at_ok by (rewrite length_splice by (simpl; lia); fold kl; lia). go_bind.
  replace (Z.of_nat (right - vl - 1 - kl) - 1) with (Z.of_nat (right - (kl + vl + 2))) by lia.
  rewrite set_at_ok by (rewrite !length_splice; rewrite ?length_splice; simpl; fold kl; lia). go_bind.
  do 3 f_equal. unfold cell. fold kl vl.
  set (vb := [Z.of_nat vl `mod` 256]). set (kb := [Z.of_nat kl `mod` 256]).
  set (p := (right - (kl + vl + 2))%nat).
  replace (right - vl - 1 - kl)%nat with (p + length kb)%nat by (simpl; lia).
  replace (right - vl - 1)%nat with (p + length kb + length (key it))%nat by (fold kl; simpl; lia).
  replace (right - vl)%nat with (p + length kb + length (key it) + length vb)%nat by (fold kl; simpl; lia).
  rewrite (splice_before (p + length kb + length (key it)) vb) by (fold kl vl; simpl; lia).
  rewrite (splice_before (p + length kb) (key it)) by (rewrite length_app; fold kl vl; simpl; lia).
  rewrite (splice_before p kb) by (rewrite !length_app; fold kl vl; simpl; lia).
  done.
Qed.

(** Reading a cell back. *)
Lemma slice_of_ok pos n buf :
  (pos + n <= length buf)%nat -> slice_of (Z.of_nat pos) (Z.of_nat (pos + n)) buf = Ok (sub_list pos n buf).
Proof.
  intros. unfold slice_of. rewrite decide_True by lia. rewrite Nat2Z.id.
  by replace (Z.to_nat (Z.of_nat (pos + n) - Z.of_nat pos)) with n by lia.
Qed.

Lemma byte_at_ok pos b buf : sub_list pos 1 buf = [b] -> byte_at (Z.of_nat pos) buf = Ok b.
Proof.
  intros H. unfold byte_at. rewrite decide_True by lia. rewrite Nat2Z.id.
  pose proof (sub_list_lookup pos 1 buf 0 ltac:(lia)) as E. rewrite H, Nat.add_0_r in E. by rewrite <- E.
Qed.

Lemma sub_app_split {A} pos n m (xs ys l : list A) :
  sub_list pos (n + m) l = xs ++ ys -> length xs = n ->
  sub_list pos n l = xs /\ sub_list (pos + n) m l = ys.
Proof.
  intros H Hn. rewrite sub_list_app in H.
  assert (length (sub_list pos n l) = length xs \/ sub_list (pos + n) m l = []) as [Hl|Hl].
  { unfold sub_list. rewrite length_take, length_drop.
    destruct (decide (pos + n <= length l)%nat); [left; lia|right]. rewrite drop_ge by lia. apply take_nil. }
  - by apply app_inj_1.
  - rewrite Hl, app_nil_r in H. assert (length (sub_list pos n l) <= n)%nat.
    { unfold sub_list. rewrite length_take. lia. }
    assert (length xs + length ys <= n)%nat by (by rewrite <- length_app, <- H).
    destruct ys; [by rewrite app_nil_r in H|simpl in *; lia].
Qed.

Lemma get_cell_ok it left off buf :
  item_ok it -> (left + 2 <= length buf)%nat -> sub_list left 2 buf = le_bytes 2 (u16 (Z.of_nat off)) ->
  sub_list off (length (cell it)) buf = cell it -> (off + length (cell it) <= length buf)%nat ->
  Z.of_nat (off + length (cell it)) < 2 ^ 16 ->
  get_cell left buf = Ok it.
Proof.
  intros [Hk Hv] Hl Hslot Hcell Hoff H16. rewrite length_cell in *.
  set (kl := length (key it)) in *. set (vl := length (value it)) in *.
  unfold get_cell, u16 in *.
  rewrite Z.mod_small in Hslot by lia.
  rewrite (get_le_at 2 left buf (Z.of_nat off)); [|done|done|lia]. go_bind.
  unfold cell in Hcell. fold kl vl in Hcell. rewrite !Z.mod_small in Hcell by lia.
  replace (kl + vl + 2)%nat with (1 + (kl + (1 + vl)))%nat in Hcell by lia.
  apply sub_app_split in Hcell as [H1 Hcell]; [|done].
  apply sub_app_split in Hcell as [H2 Hcell]; [|done].
  apply sub_app_split in Hcell as [H3 H4]; [|done].
  rewrite (byte_at_ok _ _ _ H1). go_bind.
  replace ((Z.of_nat off + 1) `mod` 2 ^ 16) with (Z.of_nat (off + 1)) by (rewrite Z.mod_small; lia).
  replace ((Z.of_nat (off + 1) + Z.of_nat kl) `mod` 2 ^ 16) with (Z.of_nat (off + 1 + kl))
    by (rewrite Z.mod_small; lia).
  rewrite slice_of_ok by lia. go_bind.
  rewrite (byte_at_ok _ _ _ H3). go_bind.
  replace ((Z.of_nat (off + 1 + kl) + 1) `mod` 2 ^ 16) with (Z.of_nat (off + 1 + kl + 1))
    by (rewrite Z.mod_small; lia).
  replace ((Z.of_nat (off + 1 + kl + 1) + Z.of_nat vl) `mod` 2 ^ 16) with (Z.of_nat (off + 1 + kl + 1 + vl))
    by (rewrite Z.mod_small; lia).
  rewrite slice_of_ok by lia. go_bind. rewrite H2, H4. by destruct it.
Qed.

(** ** The loops *)

Definition slots (leaf : bool) (kid off : Z) : bytes :=
  (if leaf then [] else le_bytes 8 kid) ++ le_bytes 2 (u16 off).

Lemma length_slots leaf kid off : length (slots leaf kid off) = slot_size leaf.
Proof. by destruct leaf. Qed.

(** One iteration of the writing loop is two splices. *)
Lemma put_items_step leaf kids i it its left right buf kid :
  (leaf = false -> kids !! i = Some kid) ->
  (left + slot_size leaf + length (cell it) <= right)%nat -> (right <= length buf)%nat ->
  let off := (right - length (cell it))%nat in
  put_items leaf kids i (it :: its) left (Z.of_nat right) buf =
    put_items leaf kids (S i) its (left + slot_size leaf) (Z.of_nat off)
      (splice off (cell it) (splice left (slots leaf kid (Z.of_nat off)) buf)).
Proof.
  intros Hkid Hl Hr off. cbn [put_items]. destruct leaf; simpl slot_size in *.
  - go_bind. rewrite put_cell_ok by lia. done.
  - rewrite (Hkid eq_refl). go_bind. rewrite put_le_ok by lia. go_bind.
    unfold pageNumSize.
    rewrite put_cell_ok by (rewrite ?length_splice_le by lia; lia). go_bind.
    pose proof (splice_adjacent left (le_bytes 8 kid) (le_bytes 2 (u16 (Z.of_nat off))) buf) as E.
    rewrite !length_le_bytes in E. fold off. rewrite E by lia.
    by replace (left + 8 + 2)%nat with (left + 10)%nat by lia.
Qed.

(** What the two splices leave in the page. *)
Lemma item_written (slot : bytes) cl left right (buf : bytes) :
  (left + length slot + length cl <= right)%nat -> (right <= length buf)%nat ->
  let off := (right - length cl)%nat in
  let b := splice off cl (splice left slot buf) in
  length b = length buf /\ sub_list left (length slot) b = slot /\ sub_list off (length cl) b = cl /\
  sub_list 0 left b = sub_list 0 left buf /\
  sub_list right (length buf - right) b = sub_list right (length buf - right) buf.
Proof.
  intros Hl Hr off b. subst off b.
  assert (length (splice left slot buf) = length buf) as E by (apply length_splice; lia).
  split; [rewrite length_splice; lia|].
  split; [rewrite sub_splice_before by lia; apply sub_splice_same; lia|].
  split; [apply sub_splice_same; lia|].
  split.
  - rewrite sub_splice_before by lia. by rewrite sub_splice_before by lia.
  - rewrite sub_splice_after by lia. by rewrite sub_splice_after by lia.
Qed.

Lemma get_items_step leaf n it kid left off buf :
  item_ok it -> is_pgnum kid -> (left + slot_size leaf <= length buf)%nat ->
  sub_list left (slot_size leaf) buf = slots leaf kid (Z.of_nat off) ->
  sub_list off (length (cell it)) buf = cell it -> (off + length (cell it) <= length buf)%nat ->
  Z.of_nat (off + length (cell it)) < 2 ^ 16 ->
  get_items leaf (S n) left buf =
    '(its, kids, l) ← get_items leaf n (left + slot_size leaf) buf;
    Ok (it :: its, (if leaf then [] else [kid]) ++ kids, l).
Proof.
  intros Hit Hkid Hl Hs Hc Ho H16. cbn [get_items]. destruct leaf; simpl slot_size in *.
  - go_bind. rewrite (get_cell_ok it left off buf) by done. done.
  - unfold slots in Hs. change 10%nat with (8 + 2)%nat in Hs.
    apply sub_app_split in Hs as [H8 H2]; [|done].
    rewrite (get_le_at 8 left buf kid); [|lia|done|done]. go_bind. unfold pageNumSize.
    rewrite (get_cell_ok it (left + 8) off buf) by (done || lia). go_bind.
    by replace (left + 8 + 2)%nat with (left + 10)%nat by lia.
Qed.

Lemma put_items_ok leaf kids i its left right buf :
  (leaf = false -> i + length its <= length kids)%nat ->
  (left + slot_size leaf * length its + cells_size its <= right)%nat -> (right <= length buf)%nat ->
  exists buf', put_items leaf kids i its left (Z.of_nat right) buf =
      Ok (buf', left + slot_size leaf * length its)%nat /\
    length buf' = length buf /\ sub_list 0 left buf' = sub_list 0 left buf /\
    sub_list right (length buf - right) buf' = sub_list right (length buf - right) buf /\
    (Forall item_ok its -> Forall is_pgnum kids -> Z.of_nat right < 2 ^ 16 ->
     forall buf2, length buf2 = length buf ->
       sub_list left (slot_size leaf * length its) buf2 = sub_list left (slot_size leaf * length its) buf' ->
       sub_list (right - cells_size its) (cells_size its) buf2 =
         sub_list (right - cells_size its) (cells_size its) buf' ->
       get_items leaf (length its) left buf2 =
         Ok (its, if leaf then [] else sub_list i (length its) kids, left + slot_size leaf * length its)%nat).
Proof.
  revert i left right buf. induction its as [|it its IH]; intros i left right buf Hk Hfit Hr.
  { exists buf. simpl. rewrite Nat.mul_0_r, Nat.add_0_r. repeat split; auto.
    intros. by destruct leaf. }
  cbn [length cells_size foldr] in *. fold (cells_size its) in *.
  rewrite Nat.mul_succ_r in *. set (m := (slot_size leaf * length its)%nat) in *.
  assert (exists kid, (leaf = false -> kids !! i = Some kid)) as [kid Hkid].
  { destruct leaf; [by exists 0|]. destruct (kids !! i) as [kid|] eqn:E; [by exists kid|].
    apply lookup_ge_None in E. specialize (Hk eq_refl). lia. }
  rewrite (put_items_step leaf kids i it its left right buf kid) by (auto; lia).
  set (off := (right - length (cell it))%nat).
  pose proof (length_slots leaf kid (Z.of_nat off)) as Hsl.
  destruct (item_written (slots leaf kid (Z.of_nat off)) (cell it) left right buf) as (Hb & Hsb & Hcb & Hpre & Hpost);
    [lia|lia|]. fold off in Hb, Hsb, Hcb, Hpre, Hpost. rewrite Hsl in Hsb.
  set (b1 := splice off _ _) in *.
  destruct (IH (S i) (left + slot_size leaf)%nat off b1) as (buf' & -> & Hlen & Hpre' & Hpost' & Hget);
    [intros; specialize (Hk ltac:(done)); lia|lia|lia|].
  exists buf'. fold m. rewrite Hb in *.
  split; [by replace (left + (m + slot_size leaf))%nat with (left + slot_size leaf + m)%nat by lia|].
  split; [done|]. split; [rewrite <- Hpre; by eapply sub_list_restrict; [exact Hpre'|lia..]|].
  split; [rewrite <- Hpost; by eapply sub_list_restrict; [exact Hpost'|lia..]|].
  intros [Hit Hits]%Forall_cons Hpg H16 buf2 Hb2 Hs2 Hc2.
  assert (sub_list left (slot_size leaf) buf2 = slots leaf kid (Z.of_nat off)) as E1.
  { rewrite <- Hsb. transitivity (sub_list left (slot_size leaf) buf').
    - by eapply sub_list_restrict; [exact Hs2|lia..].
    - by eapply sub_list_restrict; [exact Hpre'|lia..]. }
  assert (sub_list off (length (cell it)) buf2 = cell it) as E2.
  { rewrite <- Hcb at 2. transitivity (sub_list off (length (cell it)) buf').
    - by eapply sub_list_restrict; [exact Hc2|lia..].
    - by eapply sub_list_restrict; [exact Hpost'|lia..]. }
  assert (is_pgnum (if leaf then 0 else kid)) as Hkp.
  { destruct leaf; [unfold is_pgnum; lia|]. by eapply Forall_lookup_1; [exact Hpg|apply Hkid]. }
  rewrite (get_items_step leaf (length its) it (if leaf then 0 else kid) left off buf2);
    [|done|done|lia|by destruct leaf|done|lia|lia].
  rewrite (Hget Hits Hpg ltac:(lia) buf2 Hb2); [|by eapply sub_list_restrict; [exact Hs2|lia..]|].
  - go_bind. rewrite (Nat.add_comm m), Nat.add_assoc. do 3 f_equal. destruct leaf; [done|]. simpl.
    unfold sub_list. by rewrite (drop_S _ kid i) by auto.
  - eapply sub_list_restrict; [exact Hc2|lia..].
Qed.

(** ** The whole page *)

Lemma cells_size_eq its : cells_size its = Z.to_nat (sum_sizes its - 6 * Z.of_nat (length its)).
Proof.
  enough (Z.of_nat (cells_size its) = sum_sizes its - 6 * Z.of_nat (length its)) by lia.
  induction its as [|it its IH]; [done|]. cbn [cells_size sum_sizes foldr length].
  fold (cells_size its) (sum_sizes its). rewrite length_cell. unfold item_size, pageNumSize. lia.
Qed.

Lemma sum_sizes_bound its : 8 * Z.of_nat (length its) <= sum_sizes its.
Proof.
  induction its as [|it its IH]; [done|]. cbn [sum_sizes foldr length].
  fold (sum_sizes its). unfold item_size, pageNumSize. lia.
Qed.

(** The accounted size against the bytes really used: a leaf uses less than
    [nodeSize], an internal node [4 * items + 1] bytes more. *)
Lemma layout_size_eq n :
  Z.of_nat (layout_size n) =
    nodeSize n + (if isLeaf n then - 4 * Z.of_nat (length (items n)) - 7
                  else 4 * Z.of_nat (length (items n)) + 1).
Proof.
  unfold layout_size, nodeSize, nodeHeaderSize, pageNumSize. rewrite cells_size_eq.
  pose proof (sum_sizes_bound (items n)). destruct (isLeaf n); simpl slot_size; lia.
Qed.

Lemma isLeaf_true n : isLeaf n = true <-> childNodes n = [].
Proof. unfold isLeaf. rewrite bool_decide_eq_true. by rewrite length_zero_iff_nil. Qed.

Lemma isLeaf_false n : isLeaf n = false <-> childNodes n <> [].
Proof. rewrite <- isLeaf_true. destruct (isLeaf n); naive_solver. Qed.

(** The first two fields. *)
Lemma serialize_start n buf :
  (3 <= length buf)%nat ->
  exists b, length b = length buf /\
    sub_list 0 1 b = [if isLeaf n then 1 else 0] /\
    sub_list 1 2 b = le_bytes 2 (u16 (Z.of_nat (length (items n)))) /\
    serialize n buf =
      ('(buf, leftPos) ← put_items (isLeaf n) (childNodes n) 0 (items n) 3 (Z.of_nat (length buf - 1)) b;
       if isLeaf n then mret buf
       else lastChildNode ← of_option (last (childNodes n)); put_le 8 lastChildNode leftPos buf).
Proof.
  intros Hb. unfold serialize.
  replace (Z.of_nat (length buf) - 1) with (Z.of_nat (length buf - 1)) by lia.
  rewrite set_at_ok by lia. go_bind.
  set (b0 := splice 0 _ buf). assert (length b0 = length buf) as Hb0 by (apply length_splice; simpl; lia).
  rewrite put_le_ok by lia. go_bind.
  exists (splice 1 (le_bytes 2 (u16 (Z.of_nat (length (items n))))) b0).
  split; [rewrite length_splice_le; lia|]. split; [|split].
  - rewrite sub_splice_before by lia.
    transitivity [(if isLeaf n then 1 else 0) `mod` 256]; [|by destruct (isLeaf n)].
    apply (sub_splice_same 0 [(if isLeaf n then 1 else 0) `mod` 256] buf). lia.
  - pose proof (sub_splice_same 1 (le_bytes 2 (u16 (Z.of_nat (length (items n))))) b0) as H.
    rewrite length_le_bytes in H. apply H. lia.
  - done.
Qed.

Lemma last_children n : isLeaf n = false -> children_ok n ->
  exists kids kid, childNodes n = kids ++ [kid] /\ length kids = length (items n) /\ last (childNodes n) = Some kid.
Proof.
  intros Hl%isLeaf_false [?|Hc]; [done|].
  destruct (exists_last Hl) as (kids & kid & E). exists kids, kid.
  split; [done|]. rewrite E, last_snoc in *. rewrite length_app in Hc. simpl in Hc. split; [lia|done].
Qed.

(** What [deserialize] reads, from the header and from what its loop reads. *)
Lemma deserialize_start leaf cnt its kids leftPos buf :
  (3 <= length buf)%nat -> 0 <= Z.of_nat cnt < 2 ^ 16 -> sub_list 0 1 buf = [if leaf : bool then 1 else 0] ->
  sub_list 1 2 buf = le_bytes 2 (u16 (Z.of_nat cnt)) -> get_items leaf cnt 3 buf = Ok (its, kids, leftPos) ->
  deserialize NewEmptyNode buf =
    if leaf then Ok (Node 0 its kids) else pn ← get_le 8 leftPos buf; Ok (Node 0 its (kids ++ [pn])).
Proof.
  intros Hl Hc H0 H1 Hg. unfold deserialize. pose proof (byte_at_ok 0 _ _ H0) as E0.
  change (Z.of_nat 0) with 0 in E0. rewrite E0. go_bind.
  rewrite (get_le_at 2 1 buf (Z.of_nat cnt)); [|lia| |lia]; [|by rewrite H1; unfold u16; rewrite Z.mod_small by lia].
  go_bind. rewrite Nat2Z.id.
  replace (negb (bool_decide ((if leaf then 1 else 0) = 0))) with leaf by (by destruct leaf).
  rewrite Hg. go_bind. destruct leaf; simpl; [done|]. by destruct (get_le 8 leftPos buf).
Qed.

Lemma node_roundtrip_gen n buf :
  node_wf n -> (layout_size n <= length buf)%nat -> Z.of_nat (length buf) <= 2 ^ 16 ->
  exists buf', serialize n buf = Ok buf' /\ length buf' = length buf /\
    deserialize NewEmptyNode buf' = Ok (Node 0 (items n) (childNodes n)).
Proof.
  intros [Hch Hit Hpg] Hfit H16. unfold layout_size, nodeHeaderSize, pageNumSize in Hfit.
  destruct (serialize_start n buf) as (b & Hb & H0 & H1 & ->); [lia|].
  set (cnt := length (items n)) in *. set (m := (slot_size (isLeaf n) * cnt)%nat) in *.
  assert (2 * cnt <= m)%nat as Hm by (subst m; destruct (isLeaf n); simpl; lia).
  destruct (put_items_ok (isLeaf n) (childNodes n) 0 (items n) 3 (length buf - 1) b)
    as (b' & -> & Hb' & Hpre & Hpost & Hget).
  { intros (kids & kid & E & Hlen & _)%last_children; [|done]. rewrite E, length_app. simpl. lia. }
  { fold cnt m. lia. }
  { lia. }
  specialize (Hget Hit Hpg ltac:(lia)). fold cnt m in Hget |- *. go_bind.
  assert (forall buf', length buf' = length buf -> sub_list 0 (3 + m) buf' = sub_list 0 (3 + m) b' ->
      sub_list (length buf - 1 - cells_size (items n)) (cells_size (items n)) buf' =
        sub_list (length buf - 1 - cells_size (items n)) (cells_size (items n)) b' ->
      deserialize NewEmptyNode buf' =
        if isLeaf n then Ok (Node 0 (items n) [])
        else pn ← get_le 8 (3 + m) buf'; Ok (Node 0 (items n) (sub_list 0 cnt (childNodes n) ++ [pn]))) as Hdes.
  { intros buf' Hl Ha Hc.
    assert (forall i l, (i + l <= 3)%nat -> sub_list i l buf' = sub_list i l b) as Hstart.
    { intros i l Hil. transitivity (sub_list i l b').
      - by eapply sub_list_restrict; [exact Ha|lia..].
      - by eapply sub_list_restrict; [exact Hpre|lia..]. }
    rewrite (deserialize_start (isLeaf n) cnt (items n) (if isLeaf n then [] else sub_list 0 cnt (childNodes n)) (3 + m)).
    - by destruct (isLeaf n).
    - lia.
    - lia.
    - by rewrite Hstart by lia.
    - by rewrite Hstart by lia.
    - apply Hget; [congruence|by eapply sub_list_restrict; [exact Ha|lia..]|done]. }
  destruct (isLeaf n) eqn:Hleaf.
  - exists b'. split; [done|]. split; [congruence|]. rewrite Hdes by congruence. go_bind.
    by rewrite (proj1 (isLeaf_true n) Hleaf).
  - destruct (last_children n Hleaf Hch) as (kids & kid & E & Hlen & Hlast). rewrite Hlast. go_bind.
    rewrite put_le_ok by lia. eexists. split; [done|]. split; [rewrite length_splice_le; lia|].
    rewrite Hdes.
    + go_bind. rewrite (get_le_at 8 (3 + m) _ kid).
      * go_bind. do 2 f_equal. rewrite E. unfold sub_list. rewrite drop_0. fold cnt in Hlen.
        by rewrite take_app_length'.
      * rewrite length_splice_le; lia.
      * pose proof (sub_splice_same (3 + m) (le_bytes 8 kid) b') as H.
        rewrite length_le_bytes in H. apply H. lia.
      * rewrite E in Hpg. apply Forall_app in Hpg as [_ [? _]%Forall_cons]. done.
    + rewrite length_splice_le; lia.
    + apply sub_splice_before; lia.
    + apply sub_splice_after; rewrite ?length_le_bytes; lia.
Qed.

(** ** Bisection *)

Section search.
Context (f : nat -> bool).

(** More fuel than the interval is long changes nothing. *)
Lemma search_loop_fuel fuel extra i j :
  (j - i <= fuel)%nat -> search_loop (fuel + extra) f i j = search_loop fuel f i j.
Proof.
  revert i j. induction fuel as [|fuel IH]; intros i j Hf; cbn [Nat.add search_loop].
  - destruct extra; [done|]. cbn [search_loop]. by rewrite decide_False by lia.
  - case_decide; [|done].
    pose proof (Nat.div2_div (i + j)) as Hh. pose proof (Nat.div_mod_eq (i + j) 2).
    pose proof (Nat.mod_upper_bound (i + j) 2 ltac:(lia)).
    destruct (f _); apply IH; lia.
Qed.

Context (n : nat) (Hmono : forall a b, (a <= b < n)%nat -> f a = true -> f b = true).

Lemma search_loop_spec fuel i j :
  (i <= j <= n)%nat -> (j - i <= fuel)%nat ->
  let r := search_loop fuel f i j in
  (i <= r <= j)%nat /\ (forall k, (i <= k < r)%nat -> f k = false) /\
  (forall k, (r <= k < j)%nat -> f k = true).
Proof.
  revert i j. induction fuel as [|fuel IH]; intros i j Hij Hf; cbn [search_loop].
  { repeat split; try lia; intros; lia. }
  case_decide; [|repeat split; try lia; intros; lia].
  pose proof (Nat.div2_div (i + j)) as Hh. pose proof (Nat.div_mod_eq (i + j) 2).
  pose proof (Nat.mod_upper_bound (i + j) 2 ltac:(lia)).
  set (h := Nat.div2 (i + j)) in *. destruct (f h) eqn:E.
  - destruct (IH i h) as (Hr & Hlo & Hhi); [lia..|]. split; [lia|]. split; [done|].
    intros k Hk. destruct (decide (k < h)%nat); [apply Hhi; lia|].
    apply (Hmono h k); [lia|done].
  - destruct (IH (S h) j) as (Hr & Hlo & Hhi); [lia..|]. split; [lia|]. split; [|done].
    intros k Hk. destruct (decide (S h <= k)%nat); [apply Hlo; lia|].
    destruct (f k) eqn:Ek; [|done]. rewrite (Hmono k h) in E; [done|lia|done].
Qed.
End search.

(** ** Search in a sorted node *)

Definition keys (its : list Item) : list bytes := key <$> its.
Definition sorted (its : list Item) : Prop := StronglySorted bytes_lt (keys its).

Lemma sorted_lookup its i j a b :
  sorted its -> (i < j)%nat -> its !! i = Some a -> its !! j = Some b -> bytes_lt (key a) (key b).
Proof.
  revert i j. induction its as [|x its IH]; intros i j Hs Hij Ha Hb; [done|].
  unfold sorted in *. cbn [keys fmap list_fmap] in Hs. apply StronglySorted_inv in Hs as [Hs Hx].
  destruct i as [|i], j as [|j]; simpl in *; try lia.
  - simplify_eq. rewrite Forall_forall in Hx. apply Hx. apply list_elem_of_fmap.
    exists b. split; [done|]. by apply list_elem_of_lookup_2 in Hb.
  - eapply (IH i j); eauto; lia.
Qed.

Lemma key_ge_mono its k a b :
  sorted its -> (a <= b < length its)%nat -> key_ge its k a = true -> key_ge its k b = true.
Proof.
  intros Hs Hab. unfold key_ge.
  destruct (lookup_lt_is_Some_2 its a) as [x Hx]; [lia|].
  destruct (lookup_lt_is_Some_2 its b) as [y Hy]; [lia|]. rewrite Hx, Hy.
  destruct (decide (a = b)) as [-> | ?]; [by simplify_eq|].
  pose proof (sorted_lookup its a b x y Hs ltac:(lia) Hx Hy) as Hlt.
  destruct (bytes_compare (key x) k) eqn:E; intros; try done.
  - apply bytes_compare_eq in E. subst. rewrite bytes_compare_antisym, Hlt. done.
  - destruct (bytes_compare (key y) k) eqn:E2; try done.
    assert (bytes_lt (key x) k) as H2 by (eapply bytes_lt_trans; eauto).
    unfold bytes_lt in H2. by rewrite E in H2.
Qed.

(** The index is a position of the node, whatever its keys. *)
Lemma search_loop_le fuel f i j : (i <= j)%nat -> (i <= search_loop fuel f i j <= j)%nat.
Proof.
  revert i j. induction fuel as [|fuel IH]; intros i j Hij; cbn [search_loop]; [lia|].
  case_decide; [|lia]. pose proof (Nat.div2_div (i + j)). pose proof (Nat.div_mod_eq (i + j) 2).
  pose proof (Nat.mod_upper_bound (i + j) 2 ltac:(lia)).
  destruct (f _); [specialize (IH i (Nat.div2 (i + j)))|specialize (IH (S (Nat.div2 (i + j))) j)]; lia.
Qed.

Lemma findKeyInNode_le n k b i : findKeyInNode n k = (b, i) -> (i <= length (items n))%nat.
Proof.
  unfold findKeyInNode, sort_Search.
  pose proof (search_loop_le (length (items n)) (key_ge (items n) k) 0 (length (items n)) ltac:(lia)).
  destruct (items n !! _); [case_decide|]; intros; simplify_eq; lia.
Qed.

(** The index splits the items at the key. *)
Lemma findKeyInNode_split n k b i :
  sorted (items n) -> findKeyInNode n k = (b, i) ->
  (i <= length (items n))%nat /\
  Forall (fun it => bytes_lt (key it) k) (take i (items n)) /\
  Forall (fun it => bytes_le k (key it)) (drop i (items n)) /\
  (b = true <-> exists v, items n !! i = Some (newItem k v)).
Proof.
  intros Hs. unfold findKeyInNode, sort_Search.
  set (its := items n) in *. set (f := key_ge its k).
  destruct (search_loop_spec f (length its) (fun a b => key_ge_mono its k a b Hs) (length its) 0 (length its))
    as (Hr & Hlo & Hhi); [lia..|].
  set (r := search_loop (length its) f 0 (length its)) in *.
  intros E. assert (i = r /\ (b = true <-> exists v, its !! r = Some (newItem k v))) as [-> Hb].
  { destruct (its !! r) as [it|] eqn:El; [|simplify_eq; naive_solver].
    case_decide as Hk; simplify_eq; split; try done.
    - split; [|done]. intros _. exists (value it). by destruct it.
    - split; [done|]. intros [v ?]. simplify_eq. }
  split; [lia|]. split; [|split; [|done]].
  - apply Forall_lookup. intros j x Hj. apply lookup_take_Some in Hj as [Hj Hlt].
    specialize (Hlo j ltac:(lia)). unfold f, key_ge in Hlo. rewrite Hj in Hlo.
    unfold bytes_lt. destruct (bytes_compare (key x) k); done.
  - apply Forall_lookup. intros j x Hj. rewrite lookup_drop in Hj.
    assert (r + j < length its)%nat by (by apply lookup_lt_Some in Hj).
    specialize (Hhi (r + j)%nat ltac:(lia)). unfold f, key_ge in Hhi. rewrite Hj in Hhi.
    unfold bytes_le. rewrite bytes_compare_antisym. by destruct (bytes_compare (key x) k).
Qed.

(** The search as a loop over the items, from number [i] on. *)
Fixpoint scan (its : list Item) (k : bytes) (i : nat) : bool * nat :=
  match its with
  | [] => (false, i)
  | it :: its =>
      match bytes_compare (key it) k with Lt => scan its k (S i) | Eq => (true, i) | Gt => (false, i) end
  end.

Lemma scan_split k b its : forall i j,
  (j <= length its)%nat -> Forall (fun it => bytes_lt (key it) k) (take j its) ->
  Forall (fun it => bytes_le k (key it)) (drop j its) -> (b = true <-> exists v, its !! j = Some (newItem k v)) ->
  scan its k i = (b, (i + j)%nat).
Proof.
  induction its as [|it its IH]; intros i j Hj Hlo Hhi Hb.
  { assert (j = 0%nat) as -> by (simpl in Hj; lia). rewrite Nat.add_0_r. destruct b; [|done].
    by destruct (proj1 Hb eq_refl). }
  destruct j as [|j]; cbn [scan].
  - rewrite Nat.add_0_r. apply Forall_cons in Hhi as [Hk _]. unfold bytes_le in Hk. rewrite bytes_compare_antisym in Hk.
    destruct (bytes_compare (key it) k) eqn:E; [|done|].
    + apply bytes_compare_eq in E. destruct b; [done|]. exfalso.
      enough (false = true) by done. apply Hb. exists (value it). subst k. by destruct it.
    + destruct b; [|done]. destruct (proj1 Hb eq_refl) as [v [= ->]]. cbn [key] in E. by rewrite bytes_compare_refl in E.
  - apply Forall_cons in Hlo as [Hlt Hlo]. unfold bytes_lt in Hlt. rewrite Hlt.
    rewrite (IH (S i) j); [f_equal; lia|simpl in Hj; lia|done|done|done].
Qed.

(** ** Properties *)

(** C19: a well-formed node whose layout fits a page of at most 64 KiB survives
    [serialize] followed by [deserialize] into an empty node: same items, same
    order, same children. *)
Theorem node_roundtrip n buf :
  node_wf n -> (layout_size n <= length buf)%nat -> Z.of_nat (length buf) <= 2 ^ 16 ->
  exists buf', serialize n buf = Ok buf' /\ length buf' = length buf /\
    deserialize NewEmptyNode buf' = Ok (Node 0 (items n) (childNodes n)).
Proof. apply node_roundtrip_gen. Qed.

Lemma node_roundtrip_witness :
  exists buf', serialize (Node 9 [newItem [1] [10; 11]; newItem [2; 0] []] [7; 8; 2 ^ 40]) (replicate 64 0) = Ok buf' /\
    length buf' = 64%nat /\
    deserialize NewEmptyNode buf' = Ok (Node 0 [newItem [1] [10; 11]; newItem [2; 0] []] [7; 8; 2 ^ 40]).
Proof.
  apply (node_roundtrip (Node 9 [newItem [1] [10; 11]; newItem [2; 0] []] [7; 8; 2 ^ 40]) (replicate 64 0)).
  - split; [right; reflexivity| |]; simpl.
    + repeat constructor; simpl; lia.
    + repeat constructor; unfold is_pgnum; lia.
  - apply (bool_decide_unpack _). vm_compute. exact I.
  - vm_compute. discriminate.
Defined.

(** [validate] is enough for a leaf: a leaf it accepts survives the page
    round trip, because a leaf's layout is smaller than the size [nodeSize]
    accounts for. *)
Theorem validated_leaf_roundtrip its pg buf :
  validate (Node pg its []) (Z.of_nat (length buf)) = Ok tt -> Z.of_nat (length buf) <= 2 ^ 16 ->
  exists buf', serialize (Node pg its []) buf = Ok buf' /\ length buf' = length buf /\
    deserialize NewEmptyNode buf' = Ok (Node 0 its []).
Proof.
  intros Hv H16. unfold validate in Hv. rewrite decide_False in Hv by (simpl; naive_solver).
  case_decide as Hsz; [done|]. apply (node_roundtrip_gen (Node pg its [])); [|..|done].
  - split; simpl; [by left| |constructor]. clear Hsz. simpl in Hv.
    induction its as [|it its IH]; [constructor|]. cbn [validate_items] in Hv.
    repeat case_decide; try done. constructor; [split; lia|]. apply IH, Hv.
  - pose proof (layout_size_eq (Node pg its [])) as E.
    rewrite (proj2 (isLeaf_true (Node pg its [])) eq_refl) in E. cbn [items] in E. lia.
Qed.

Lemma validated_leaf_roundtrip_witness :
  exists buf', serialize (Node 3 [newItem [1] [10; 11]; newItem [2; 0] []] []) (replicate 64 0) = Ok buf' /\
    length buf' = 64%nat /\ deserialize NewEmptyNode buf' = Ok (Node 0 [newItem [1] [10; 11]; newItem [2; 0] []] []).
Proof.
  apply (validated_leaf_roundtrip [newItem [1] [10; 11]; newItem [2; 0] []] 3 (replicate 64 0)).
  - vm_compute. reflexivity.
  - vm_compute. discriminate.
Defined.

(** On a node with strictly sorted keys, [findKeyInNode] returns the
    position that splits the items at the key: everything before it is below
    the key, everything from it on is not, and it answers [true] exactly when
    the item at that position carries the key. *)
Theorem findKeyInNode_correct n k :
  sorted (items n) ->
  let '(found, i) := findKeyInNode n k in
  (i <= length (items n))%nat /\
  Forall (fun it => bytes_lt (key it) k) (take i (items n)) /\
  Forall (fun it => bytes_le k (key it)) (drop i (items n)) /\
  (found = true <-> exists v, items n !! i = Some (newItem k v)).
Proof.
  intros Hs. destruct (findKeyInNode n k) as [b i] eqn:E. by apply findKeyInNode_split.
Qed.

Lemma findKeyInNode_correct_witness :
  let '(found, i) := findKeyInNode (Node 1 [newItem [1] []; newItem [1; 5] []; newItem [3] []] []) [1; 5] in
  (i <= 3)%nat /\ Forall (fun it => bytes_lt (key it) [1; 5]) (take i [newItem [1] []; newItem [1; 5] []; newItem [3] []]) /\
  Forall (fun it => bytes_le [1; 5] (key it)) (drop i [newItem [1] []; newItem [1; 5] []; newItem [3] []]) /\
  (found = true <-> exists v, [newItem [1] []; newItem [1; 5] []; newItem [3] []] !! i = Some (newItem [1; 5] v)).
Proof.
  apply (findKeyInNode_correct (Node 1 [newItem [1] []; newItem [1; 5] []; newItem [3] []] [])).
  unfold sorted, keys. cbn. repeat constructor.
Defined.

(** C20: on a node with strictly sorted keys the bisection of [findKeyInNode]
    finds what a scan from the first item finds. *)
Theorem findKeyInNode_is_scan n k : sorted (items n) -> findKeyInNode n k = scan (items n) k 0.
Proof.
  intros Hs. destruct (findKeyInNode n k) as [b i] eqn:E. destruct (findKeyInNode_split n k b i Hs E) as (H1 & H2 & H3 & H4).
  by rewrite (scan_split k b (items n) 0 i).
Qed.

Lemma findKeyInNode_is_scan_witness :
  findKeyInNode (Node 1 [newItem [1] []; newItem [1; 5] []; newItem [3] []] []) [2] = (false, 2%nat).
Proof.
  apply (findKeyInNode_is_scan (Node 1 [newItem [1] []; newItem [1; 5] []; newItem [3] []] []) [2]).
  unfold sorted, keys. cbn. repeat constructor.
Defined.
