(* ===== verification/Dal.v ===== *)
(** * dal.go: pages in the database file, thresholds, the stored structures

    State: the options copied at open, the contents of the database file and
    of the WAL file next to it, whether the file is open, and the in-memory
    meta and freelist.  File contents are lists of bytes; reads and writes are
    at byte offsets, computed in 64-bit [int] arithmetic as in the code.  I/O
    errors of a healthy disk do not occur in this model: the errors are the
    ones the code itself can run into (a short read, a negative offset, a file
    that is closed). *)

From Stdlib Require Import SpecFloat.
From S2P Require Import Prelude Float32 Freelist Meta Node.

Open Scope Z_scope.

Record page := Page {
  num : Z;
  data : bytes
}.

Record Options := mkOptions {
  o_pageSize : Z;
  MinFillPercent : f32;
  MaxFillPercent : f32
}.

Definition DefaultOptions : Options := mkOptions 0 (f32_const 1 2) (f32_const 95 100).

Record dal := Dal {
  pageSize : Z;
  minFillPercent : f32;
  maxFillPercent : f32;
  file : option bytes;      (* contents of the file at [path], if it exists *)
  isOpen : bool;            (* [d.file != nil] *)
  wal : option bytes;       (* contents of the file at [walPath], if it exists *)
  dmeta : meta;
  dfreelist : freelist
}.

Definition with_file (f : option bytes) (d : dal) : dal :=
  Dal (pageSize d) (minFillPercent d) (maxFillPercent d) f (isOpen d) (wal d) (dmeta d) (dfreelist d).
Definition with_open (b : bool) (d : dal) : dal :=
  Dal (pageSize d) (minFillPercent d) (maxFillPercent d) (file d) b (wal d) (dmeta d) (dfreelist d).
Definition with_wal (w : option bytes) (d : dal) : dal :=
  Dal (pageSize d) (minFillPercent d) (maxFillPercent d) (file d) (isOpen d) w (dmeta d) (dfreelist d).
Definition with_meta (m : meta) (d : dal) : dal :=
  Dal (pageSize d) (minFillPercent d) (maxFillPercent d) (file d) (isOpen d) (wal d) m (dfreelist d).
Definition with_freelist (fr : freelist) (d : dal) : dal :=
  Dal (pageSize d) (minFillPercent d) (maxFillPercent d) (file d) (isOpen d) (wal d) (dmeta d) fr.

(** ** Thresholds *)

Definition maxThreshold (d : dal) : f32 := f32_mul (maxFillPercent d) (f32_of_Z (pageSize d)).
Definition minThreshold (d : dal) : f32 := f32_mul (minFillPercent d) (f32_of_Z (pageSize d)).

Definition isOverPopulated (d : dal) (n : node) : bool := f32_lt (maxThreshold d) (f32_of_Z (nodeSize n)).
Definition isUnderPopulated (d : dal) (n : node) : bool := f32_lt (f32_of_Z (nodeSize n)) (minThreshold d).

(** The loop of [getSplitIndex]; [None] is the code's [-1]. *)
Fixpoint split_loop (d : dal) (its : list Item) (total i : nat) (size : Z) : option nat :=
  match its with
  | [] => None
  | it :: its =>
      let size := size + item_size it in
      if f32_lt (minThreshold d) (f32_of_Z size) && bool_decide (Z.of_nat i < Z.of_nat total - 1)
      then Some (i + 1)%nat
      else split_loop d its total (i + 1) size
  end.
Definition getSplitIndex (d : dal) (n : node) : option nat :=
  split_loop d (items n) (length (items n)) 0 (Z.of_nat nodeHeaderSize).

(** ** The file *)

(** [WriteAt] extends the file with zeros up to the offset. *)
Definition write_file (off : nat) (bs f : bytes) : bytes :=
  splice off bs (f ++ replicate (off + length bs - length f) 0).

(** [ReadAt] of [len] bytes; a read that reaches the end of the file early is
    [io.EOF]. *)
Definition ReadAt (len : nat) (off : Z) : M dal bytes := fun d =>
  if negb (isOpen d) then (Err ErrFileClosed, d)
  else match file d with
  | None => (Err ErrFileClosed, d)
  | Some f =>
      if decide (off < 0) then (Err ErrNegativeOffset, d)
      else if decide (Z.to_nat off + len <= length f)%nat then (Ok (sub_list (Z.to_nat off) len f), d)
      else (Err ErrEOF, d)
  end.

Definition WriteAt (bs : bytes) (off : Z) : M dal unit := fun d =>
  if negb (isOpen d) then (Err ErrFileClosed, d)
  else match file d with
  | None => (Err ErrFileClosed, d)
  | Some f =>
      if decide (off < 0) then (Err ErrNegativeOffset, d)
      else (Ok tt, with_file (Some (write_file (Z.to_nat off) bs f)) d)
  end.

Definition close : M dal unit := modS (with_open false).

Definition allocateEmptyPage (d : dal) : page := Page 0 (replicate (Z.to_nat (pageSize d)) 0).

Definition readPage (pageNum : Z) : M dal page :=
  d ← getS;
  let p := allocateEmptyPage d in
  let offset := i64 (i64 pageNum * pageSize d) in
  bs ← ReadAt (length (data p)) (i64 offset);
  mret (Page (num p) bs).

Definition writePage (p : page) : M dal unit :=
  d ← getS;
  let offset := i64 (i64 (num p) * i64 (pageSize d)) in
  WriteAt (data p) offset.

(** [d.file.Sync()] *)
Definition Sync : M dal unit := fun d => if isOpen d then (Ok tt, d) else (Err ErrFileClosed, d).

(** ** Disk operations

    The calls of the redo log that reach the operating system.  [run_op] is
    their effect on the two files as the running process sees them: a sync
    changes nothing there, but what a crash can leave depends on it. *)
Inductive disk_op :=
| WalCreate              (* [os.OpenFile] of the log, truncating it *)
| WalAppend (bs : bytes) (* [Write] to the log *)
| WalSync                (* [Sync] of the log *)
| PageWrite (p : page)   (* [writePage] *)
| FileSync               (* [Sync] of the database file *)
| WalRemove.             (* [os.Remove] of the log, if it exists *)

Definition run_op (op : disk_op) : M dal unit :=
  match op with
  | WalCreate => modS (with_wal (Some []))
  | WalAppend bs => modS (fun d => with_wal (Some (default [] (wal d) ++ bs)) d)
  | WalSync => mret tt
  | PageWrite p => writePage p
  | FileSync => Sync
  | WalRemove => modS (with_wal None)
  end.

(** What the code of the log runs on: a state that holds a data access layer
    and performs disk operations on it.  The data access layer itself is one;
    another keeps a record of the operations ([Wal.recorder]). *)
Class Device (S : Type) := {
  device_dal : S -> dal;
  do_op : disk_op -> M S unit;
  do_op_dal : forall op s, let '(o, s') := do_op op s in run_op op (device_dal s) = (o, device_dal s')
}.

#[export, refine] Instance dal_device : Device dal := {| device_dal d := d; do_op := run_op |}.
Proof. intros op s. by destruct (run_op op s). Defined.

Definition writePages {S} {DS : Device S} (pages : list page) : M S unit := mapM_ (fun p => do_op (PageWrite p)) pages.

(** ** Nodes *)

Definition getNode (pn : Z) : M dal node :=
  p ← readPage pn;
  d ← getS;
  n ← liftO (deserialize NewEmptyNode (data p));
  liftO (validate n (pageSize d));;
  mret (Node pn (items n) (childNodes n)).

(** [nodePage] reads the page size only. *)
Definition nodePage (d : dal) (n : node) : out page :=
  validate n (pageSize d);;
  let p := allocateEmptyPage d in
  bs ← serialize n (data p);
  mret (Page (pageNum n) bs).

Definition getNextPageM : M dal Z := fun d =>
  let '(p, fr) := getNextPage (dfreelist d) in (Ok p, with_freelist fr d).

Definition writeNode (n : node) : M dal node :=
  d ← getS;
  p ← liftO (nodePage d n);
  '(p, n) ← (if decide (pageNum n = 0) then
               pn ← getNextPageM;
               mret (Page pn (data p), Node pn (items n) (childNodes n))
             else mret (p, n));
  writePage p;;
  mret n.

Definition deleteNode (pn : Z) : M dal unit := modS (fun d => with_freelist (releasePage pn (dfreelist d)) d).

(** ** Freelist and meta pages *)

Definition readFreelist : M dal freelist :=
  d ← getS;
  p ← readPage (freelistPage (dmeta d));
  liftO (Freelist.deserialize newFreelist (data p)).

Definition writeFreelist : M dal page :=
  d ← getS;
  bs ← liftO (Freelist.serialize (dfreelist d) (data (allocateEmptyPage d)));
  let p := Page (freelistPage (dmeta d)) bs in
  writePage p;;
  modS (fun d => with_meta (Meta (root (dmeta d)) (num p)) d);;
  mret p.

Definition writeMeta (m : meta) : M dal page :=
  d ← getS;
  bs ← liftO (Meta.serialize m (data (allocateEmptyPage d)));
  let p := Page metaPageNum bs in
  writePage p;;
  mret p.

Definition readMeta : M dal meta :=
  p ← readPage metaPageNum;
  liftO (Meta.deserialize (data p)).
