(* ===== verification/Typed.v ===== *)
(** * What a page can hold

    Types of the data on disk: whatever bytes the database file consists of, a
    node read from it is well typed - its keys and values are byte strings of
    legal length, its children page numbers, as many as its shape asks for -
    or reading it fails. *)

From S2P Require Import Prelude Freelist Meta Node Float32 Dal.

Open Scope Z_scope.

Definition is_byte (b : Z) : Prop := 0 <= b < 256.
Abbreviation byte_string := (Forall is_byte).

Record item_typed (it : Item) : Prop := {
  it_key : byte_string (key it);
  it_value : byte_string (value it)
}.

(** The node [pn] as [getNode] may return it. *)
Record node_typed (ps pn : Z) (n : node) : Prop := {
  nt_page : pageNum n = pn;
  nt_children : children_ok n;
  nt_items : Forall item_typed (items n);
  nt_lengths : Forall item_ok (items n);
  nt_kids : Forall is_pgnum (childNodes n);
  nt_size : nodeSize n <= ps
}.

(** The file is a sequence of bytes. *)
Definition file_typed (d : dal) : Prop := forall f, file d = Some f -> byte_string f.

Lemma sub_list_typed pos n l : byte_string l -> byte_string (sub_list pos n l).
Proof. intros H. by apply Forall_take, Forall_drop. Qed.

Lemma le_value_range l : byte_string l -> 0 <= le_value l < 256 ^ Z.of_nat (length l).
Proof.
  induction 1 as [|b l Hb _ IH]; [done|]. unfold le_value; fold le_value. cbn [length].
  rewrite Nat2Z.inj_succ, Z.pow_succ_r by lia. unfold is_byte in Hb. lia.
Qed.

Lemma get_le_typed n pos buf v : byte_string buf -> get_le n pos buf = Ok v -> 0 <= v < 256 ^ Z.of_nat n.
Proof.
  intros Hb. unfold get_le. case_decide as Hl; [|done]. intros [= <-].
  pose proof (le_value_range (sub_list pos n buf) (sub_list_typed _ _ _ Hb)) as H. by rewrite length_sub_list in H.
Qed.

Lemma slice_of_typed lo hi buf s : byte_string buf -> slice_of lo hi buf = Ok s -> byte_string s.
Proof. intros Hb. unfold slice_of. case_decide; [|done]. intros [= <-]. by apply sub_list_typed. Qed.

Lemma get_cell_typed pos buf it : byte_string buf -> get_cell pos buf = Ok it -> item_typed it.
Proof.
  intros Hb. unfold get_cell. intros (off & _ & (klen & _ & (k & Hk & (vlen & _ & (v & Hv & [= <-])%bind_out_inv)%bind_out_inv)%bind_out_inv)%bind_out_inv)%bind_out_inv.
  split; by eapply slice_of_typed.
Qed.

Lemma get_items_typed leaf n : forall pos buf its kids pos',
  byte_string buf -> get_items leaf n pos buf = Ok (its, kids, pos') -> Forall item_typed its /\ Forall is_pgnum kids.
Proof.
  induction n as [|n IH]; intros pos buf its kids pos' Hb; [by intros [= <- <- _]|]. cbn [get_items].
  intros ([kid pos1] & Hkid & (it & Hit & ([[its' kids'] pos2] & Hr & [= <- <- <-])%bind_out_inv)%bind_out_inv)%bind_out_inv.
  destruct (IH _ _ _ _ _ Hb Hr) as [H1 H2]. split.
  - constructor; [by eapply get_cell_typed|done].
  - apply Forall_app. split; [|done]. destruct leaf; [by injection Hkid as <- _|].
    apply bind_out_inv in Hkid as (pn & Hpn & [= <- _]). constructor; [|constructor].
    pose proof (get_le_typed 8 _ _ _ Hb Hpn). unfold is_pgnum. done.
Qed.

Lemma deserialize_typed buf n :
  byte_string buf -> deserialize NewEmptyNode buf = Ok n -> Forall item_typed (items n) /\ Forall is_pgnum (childNodes n).
Proof.
  intros Hb. unfold deserialize.
  intros (leaf & _ & (cnt & _ & ([[its kids] pos] & Hr & Hn)%bind_out_inv)%bind_out_inv)%bind_out_inv.
  destruct (get_items_typed _ _ _ _ _ _ _ Hb Hr) as [H1 H2]. revert Hn. case_decide.
  - intros (pn & Hpn & [= <-])%bind_out_inv. split; [done|]. apply Forall_app. split; [done|].
    constructor; [|constructor]. pose proof (get_le_typed 8 _ _ _ Hb Hpn). unfold is_pgnum. done.
  - intros [= <-]. by split.
Qed.

Lemma validate_items_typed its : validate_items its = Ok tt -> Forall item_ok its.
Proof.
  induction its as [|it its IH]; [by constructor|]. cbn [validate_items]. repeat case_decide; try done.
  intros Hv. constructor; [|by apply IH]. unfold item_ok. lia.
Qed.

Lemma validate_typed n ps : validate n ps = Ok tt -> children_ok n /\ Forall item_ok (items n) /\ nodeSize n <= ps.
Proof.
  unfold validate. case_decide as Hc; [done|]. case_decide; [done|]. intros Hv. split; [|split; [by apply validate_items_typed|lia]].
  unfold children_ok. destruct (childNodes n) as [|c l]; [by left|right]. simpl in *. lia.
Qed.

Lemma readPage_typed pn d p d' : file_typed d -> readPage pn d = (Ok p, d') -> byte_string (data p).
Proof.
  intros Ht. unfold readPage. rewrite bind_getS. intros E.
  apply bind_inv in E as (bs & d1 & E & [= <- _]). cbn [data]. revert E. unfold ReadAt.
  destruct (negb (isOpen d)); [done|]. destruct (file d) as [f|] eqn:Ef; [|done]. repeat case_decide; try done.
  intros [= <- _]. apply sub_list_typed. by apply Ht.
Qed.

Lemma readPage_same pn d p d' : readPage pn d = (Ok p, d') -> d' = d.
Proof.
  unfold readPage. rewrite bind_getS. intros E. apply bind_inv in E as (bs & d1 & E & [= _ <-]). revert E. unfold ReadAt.
  destruct (negb (isOpen d)); [done|]. destruct (file d) as [f|]; [|done]. repeat case_decide; by intros [= _ <-] || done.
Qed.

(** ** Properties *)

(** C18: whatever the bytes of the file, a node that [getNode] returns is well
    typed: it has the number it was asked for, legal keys and values that are
    byte strings, no children or one more than items, children that are page
    numbers, and a size within the page. *)
Theorem getNode_typed pn d n d' :
  file_typed d -> Dal.getNode pn d = (Ok n, d') -> node_typed (pageSize d) pn n.
Proof.
  intros Ht E. unfold Dal.getNode in E. apply bind_inv in E as (p & d1 & E1 & E). pose proof (readPage_typed _ _ _ _ Ht E1) as Hp.
  rewrite bind_getS in E. apply bind_inv in E as (m & d2 & [= Em <-] & E). apply bind_inv in E as ([] & d3 & [= Ev _] & [= <- _]).
  destruct (deserialize_typed _ _ Hp Em) as [Hi Hk]. destruct (validate_typed _ _ Ev) as (Hc & Hl & Hs).
  rewrite (readPage_same _ _ _ _ E1) in Hs. by split.
Qed.

(** A file of two pages, the second with a leaf. *)
Definition typed_leaf : node := Node 0 [newItem [7] [8; 9]] [].
Definition typed_file : bytes :=
  Eval vm_compute in match Node.serialize typed_leaf (replicate 32 0) with Ok buf => replicate 32 255 ++ buf | _ => [] end.
Definition typed_dal : dal :=
  Dal 32 (MinFillPercent DefaultOptions) (MaxFillPercent DefaultOptions) (Some typed_file) true None newEmptyMeta newFreelist.

Lemma getNode_typed_witness : node_typed 32 1 (Node 1 [newItem [7] [8; 9]] []).
Proof.
  apply (getNode_typed 1 typed_dal (Node 1 [newItem [7] [8; 9]] []) typed_dal).
  - intros f [= <-]. repeat (constructor; [unfold is_byte; lia|]). constructor.
  - vm_compute. reflexivity.
Defined.
