(* ===== verification/Wal.v ===== *)
(** * wal.go: the redo log of a commit

    [applyPagesWithWAL] logs the pages of a commit, applies them to the
    database file and removes the log; [recoverWAL] replays a complete log at
    open.  Both are written over any [Device], so that one and the same
    definition acts on the data access layer and, on a [recorder], gives the
    disk operations it performs in their order; what a crash between two of
    them can leave is the subject of [Crash]. *)

From S2P Require Import Prelude Freelist Meta Node Float32 Dal.

Open Scope Z_scope.

(** ** CRC-32 (IEEE polynomial, bit-reflected), [hash/crc32.ChecksumIEEE] *)

Fixpoint crc_bits (n : nat) (c : Z) : Z :=
  match n with
  | O => c
  | S n => crc_bits n (if Z.odd c then Z.lxor (Z.shiftr c 1) 0xEDB88320 else Z.shiftr c 1)
  end.
Definition crc_byte (c b : Z) : Z := crc_bits 8 (Z.lxor c b).
Definition ChecksumIEEE (bs : bytes) : Z := u32 (Z.lxor (fold_left crc_byte bs 0xFFFFFFFF) 0xFFFFFFFF).

(** The check value of the CRC catalogue: the digits 1 to 9. *)
Example crc_check : ChecksumIEEE [49; 50; 51; 52; 53; 54; 55; 56; 57] = 0xCBF43926.
Proof. reflexivity. Qed.

(** ** The log *)

Definition walMagic : bytes := [77; 89; 75; 86; 87; 65; 76; 49].
Definition walVersion : Z := 1.
Definition walHeaderSize : nat := 8 + 4 + 4 + 8 + 4.

Definition removeIfExists {S} {DS : Device S} : M S unit := do_op WalRemove.

Fixpoint wal_records (ps : Z) (pages : list page) : out bytes :=
  match pages with
  | [] => mret []
  | p :: pages =>
      if decide (Z.of_nat (length (data p)) <> ps) then Err (ErrWalPageLen (length (data p)) (Z.to_nat ps))
      else
        rest ← wal_records ps pages;
        mret (le_bytes 8 (num p) ++ data p ++ rest)
  end.

Definition wal_header (ps : Z) (count : nat) (records : bytes) : bytes :=
  walMagic ++ le_bytes 4 walVersion ++ le_bytes 4 (u32 ps) ++ le_bytes 8 (Z.of_nat count) ++
  le_bytes 4 (ChecksumIEEE records).

Definition writeWAL {S} {DS : Device S} (pages : list page) : M S unit :=
  s ← getS;
  let d := device_dal s in
  records ← liftO (wal_records (pageSize d) pages);
  let header := wal_header (pageSize d) (length pages) records in
  do_op WalCreate;;
  do_op (WalAppend header);;
  do_op (WalAppend records);;
  do_op WalSync.

Definition applyPagesWithWAL {S} {DS : Device S} (pages : list page) : M S unit :=
  writeWAL pages;;
  writePages pages;;
  do_op FileSync;;
  removeIfExists.

(** [make([]*page, 0, cap)] panics when the capacity is negative or needs more
    memory than the Go runtime can address on 64-bit machines.  A smaller one can
    still exhaust the memory, which ends the process and is not modelled. *)
Definition maxAlloc : Z := 2 ^ 48.
Definition pointerSize : Z := 8.
Definition makeslice_ok (cap : Z) : bool := (0 <=? cap) && (pointerSize * cap <=? maxAlloc).

(** The reading loop: [binary.Read] of the page number, then [io.ReadFull]. *)
Fixpoint read_records (n : nat) (ps : nat) (bs : bytes) : out (list page) :=
  match n with
  | O => mret []
  | S n =>
      if decide (length bs < 8 + ps)%nat then Err ErrEOF
      else
        rest ← read_records n ps (drop (8 + ps) bs);
        mret (Page (le_value (take 8 bs)) (sub_list 8 ps bs) :: rest)
  end.

(** What [readWAL] makes of the log's bytes: [None] is an incomplete log, which
    the caller removes. *)
Definition parse_wal (ps : Z) (bs : bytes) : out (option (list page)) :=
  if decide (length bs = 0%nat) then mret None
  else if decide (length bs < walHeaderSize)%nat then mret None
  else if decide (take 8 bs <> walMagic) then Err ErrWalMagic
  else
    version ← get_le 4 8 bs;
    if decide (version <> walVersion) then Err (ErrWalVersion version)
    else
      pageSize ← get_le 4 12 bs;
      if decide (pageSize <> ps) then Err (ErrWalPageSize pageSize ps)
      else
        count64 ← get_le 8 16 bs;
        checksum ← get_le 4 24 bs;
        let count := i64 count64 in
        let recordSize := Z.of_nat pageNumSize + pageSize in
        let expectedSize := i64 (Z.of_nat walHeaderSize + i64 (count * recordSize)) in
        if decide (expectedSize <> Z.of_nat (length bs)) then mret None
        else
          let records := drop 28 bs in
          if decide (ChecksumIEEE records <> checksum) then Err ErrWalChecksum
          else if negb (makeslice_ok count) then Panic
          else
            pages ← read_records (Z.to_nat count) (Z.to_nat pageSize) records;
            mret (Some pages).

Definition readWAL {S} {DS : Device S} : M S (option (list page)) :=
  s ← getS;
  let d := device_dal s in
  match wal d with
  | None => mret None
  | Some bs =>
      r ← liftO (parse_wal (pageSize d) bs);
      match r with
      | None => removeIfExists;; mret None
      | Some pages => mret (Some pages)
      end
  end.

Definition recoverWAL {S} {DS : Device S} : M S unit :=
  r ← readWAL;
  match r with
  | None => mret tt
  | Some pages =>
      writePages pages;;
      do_op FileSync;;
      removeIfExists
  end.

(** ** The operations the code performs

    A device that records them, in order. *)
Record recorder := Recorder { rec_dal : dal; rec_ops : list disk_op }.

Definition recording (op : disk_op) : M recorder unit := fun s =>
  let '(o, d) := run_op op (rec_dal s) in
  (o, Recorder d (match o with Ok _ => rec_ops s ++ [op] | _ => rec_ops s end)).

#[export, refine] Instance recorder_device : Device recorder := {| device_dal := rec_dal; do_op := recording |}.
Proof. intros op [d ops]. unfold recording. cbn. by destruct (run_op op d). Defined.

(** The operations that [m] performs when it starts on [d]. *)
Definition disk_ops {A} (m : M recorder A) (d : dal) : list disk_op := rec_ops (snd (m (Recorder d []))).

(** ** The file with pages written to it *)

Definition apply_page (ps : Z) (f : bytes) (p : page) : bytes :=
  write_file (Z.to_nat (num p * ps)) (data p) f.
Definition apply_pages (ps : Z) (pages : list page) (f : bytes) : bytes := fold_left (apply_page ps) pages f.

Definition covers (ps : Z) (i : nat) (p : page) : Prop :=
  (Z.to_nat (num p * ps) <= i < Z.to_nat (num p * ps) + length (data p))%nat.

(** The byte at a position, zero past the end (what an extended file holds). *)
Definition rd (f : bytes) (i : nat) : Z := default 0 (f !! i).

(** What the page writes [pend] may have left of the file [f] when none of them
    is known to be on the disk: inside the pages any bytes, garbage included;
    outside them the old ones; a length between the old one and the one the
    writes make. *)
Record torn (ps : Z) (f : bytes) (pend : list page) (f' : bytes) : Prop := {
  torn_length : (length f <= length f' <= length (apply_pages ps pend f))%nat;
  torn_outside : forall i, Forall (fun p => ~ covers ps i p) pend -> rd f' i = rd f i
}.

(** Pages a commit can log and write: right length, page numbers whose file
    offsets fit an [int64], and a log whose size does. *)
Record pages_ok (ps : Z) (pages : list page) : Prop := {
  ok_ps : 0 < ps < 2 ^ 31;
  ok_len : Forall (fun p => Z.of_nat (length (data p)) = ps) pages;
  ok_num : Forall (fun p => 0 <= num p /\ num p * ps < 2 ^ 63) pages;
  ok_count : 28 + Z.of_nat (length pages) * (8 + ps) < 2 ^ 63
}.

(** As many pages as a slice of pointers can hold: [readWAL] makes one. *)
Definition sliceable (pages : list page) : Prop := 8 * Z.of_nat (length pages) <= 2 ^ 48.

(** ** The file as a function of positions *)

Lemma length_write_file off bs f :
  bs <> [] -> length (write_file off bs f) = Nat.max (length f) (off + length bs).
Proof.
  intros. unfold write_file. rewrite length_splice; rewrite length_app, length_replicate; lia.
Qed.

Lemma rd_app_zeros f n i : rd (f ++ replicate n 0) i = rd f i.
Proof.
  unfold rd. destruct (decide (i < length f)%nat).
  - by rewrite lookup_app_l.
  - rewrite lookup_app_r by lia. rewrite (lookup_ge_None_2 f) by lia.
    destruct (replicate n 0 !! (i - length f)%nat) eqn:E; [|done].
    by apply lookup_replicate in E as [-> _].
Qed.

Lemma rd_splice pos xs l i :
  (pos + length xs <= length l)%nat ->
  rd (splice pos xs l) i = if decide (pos <= i < pos + length xs)%nat then rd xs (i - pos) else rd l i.
Proof.
  intros H. unfold rd, splice. case_decide.
  - rewrite lookup_app_r by len. rewrite length_take, Nat.min_l by lia. by rewrite lookup_app_l by lia.
  - destruct (decide (i < pos)%nat).
    + rewrite lookup_app_l by len. by rewrite lookup_take_lt by lia.
    + rewrite lookup_app_r by len. rewrite length_take, Nat.min_l by lia. rewrite lookup_app_r by lia.
      rewrite lookup_drop. do 2 f_equal. lia.
Qed.

Lemma rd_write_file off bs f i :
  rd (write_file off bs f) i =
    if decide (off <= i < off + length bs)%nat then rd bs (i - off) else rd f i.
Proof.
  unfold write_file. rewrite rd_splice by (rewrite length_app, length_replicate; lia).
  case_decide; [done|]. apply rd_app_zeros.
Qed.

Lemma rd_ext f g : length f = length g -> (forall i, rd f i = rd g i) -> f = g.
Proof.
  intros Hl H. apply list_eq_same_length with (length f); [done|done|].
  intros i x y Hi Hx Hy. specialize (H i). unfold rd in H. by rewrite Hx, Hy in H.
Qed.

Section apply.
Context (ps : Z).

Lemma length_apply_pages_mono pages f g :
  (length f <= length g)%nat -> Forall (fun p => data p <> []) pages ->
  (length (apply_pages ps pages f) <= length (apply_pages ps pages g))%nat.
Proof.
  revert f g. induction pages as [|p pages IH]; intros f g Hl Hne; [done|].
  apply Forall_cons in Hne as [Hp Hne]. apply IH; [|done].
  unfold apply_page. rewrite !length_write_file by done. lia.
Qed.

Lemma length_apply_pages_ge pages f :
  Forall (fun p => data p <> []) pages -> (length f <= length (apply_pages ps pages f))%nat.
Proof.
  revert f. induction pages as [|p pages IH]; intros f Hne; [done|].
  apply Forall_cons in Hne as [Hp Hne]. cbn [apply_pages fold_left].
  etrans; [|apply IH; done]. unfold apply_page. rewrite length_write_file by done. lia.
Qed.

(** Applying the pages again changes no length. *)
Lemma length_apply_pages_idem pages f :
  Forall (fun p => data p <> []) pages ->
  length (apply_pages ps pages (apply_pages ps pages f)) = length (apply_pages ps pages f).
Proof.
  intros Hne. apply Nat.le_antisymm; [|by apply length_apply_pages_ge].
  enough (forall g, Forall (fun p => (Z.to_nat (num p * ps) + length (data p) <= length g)%nat) pages ->
      length (apply_pages ps pages g) = length g) as H.
  { rewrite H; [done|]. clear H.
    induction pages as [|p pages IH] in f, Hne |- *; [constructor|].
    apply Forall_cons in Hne as [Hp Hne]. constructor.
    - cbn [apply_pages fold_left]. etrans; [|by apply length_apply_pages_ge].
      unfold apply_page. rewrite length_write_file by done. lia.
    - apply IH. done. }
  clear f. induction pages as [|p pages IH]; intros g Hg; [done|].
  apply Forall_cons in Hne as [Hp Hne]. apply Forall_cons in Hg as [Hg Hgs].
  assert (length (apply_page ps g p) = length g) as E.
  { unfold apply_page. rewrite length_write_file by done. lia. }
  cbn [apply_pages fold_left]. fold (apply_pages ps pages (apply_page ps g p)).
  rewrite IH; [done..|]. by rewrite E.
Qed.

(** A position's byte after the writes depends on the file only where no page
    covers it. *)
Lemma rd_apply_pages_cong pages f g i :
  (Forall (fun p => ~ covers ps i p) pages -> rd f i = rd g i) ->
  rd (apply_pages ps pages f) i = rd (apply_pages ps pages g) i.
Proof.
  revert f g. induction pages as [|p pages IH]; intros f g H; [by apply H|].
  cbn [apply_pages fold_left]. apply IH. intros Hrest. unfold apply_page. rewrite !rd_write_file.
  case_decide; [done|]. apply H. by constructor.
Qed.

Lemma rd_apply_pages_out pages f i :
  Forall (fun p => ~ covers ps i p) pages -> rd (apply_pages ps pages f) i = rd f i.
Proof.
  revert f. induction pages as [|p pages IH]; intros f H; [done|].
  apply Forall_cons in H as [Hp H]. cbn [apply_pages fold_left].
  fold (apply_pages ps pages (apply_page ps f p)). rewrite IH by done.
  unfold apply_page. rewrite rd_write_file. by rewrite decide_False.
Qed.

(** Replaying the pages over whatever a crash left gives the committed file. *)
Lemma apply_pages_torn pages pend f f' :
  Forall (fun p => data p <> []) pages -> pend `prefix_of` pages -> torn ps f pend f' ->
  apply_pages ps pages f' = apply_pages ps pages f.
Proof.
  intros Hne [rest ->] [[Hlo Hhi] Hout].
  assert (apply_pages ps (pend ++ rest) f = apply_pages ps rest (apply_pages ps pend f)) as Eapp
    by apply fold_left_app.
  apply rd_ext.
  - apply Nat.le_antisymm.
    + rewrite <- (length_apply_pages_idem (pend ++ rest) f) by done.
      apply length_apply_pages_mono; [|done]. rewrite Eapp. etrans; [exact Hhi|].
      apply length_apply_pages_ge. by apply Forall_app in Hne as [_ ?].
    + by apply length_apply_pages_mono.
  - intros i. apply rd_apply_pages_cong. intros Hc. apply Forall_app in Hc as [Hc _]. auto.
Qed.

(** Replaying a replayed file changes nothing. *)
Lemma apply_pages_idem pages f :
  Forall (fun p => data p <> []) pages ->
  apply_pages ps pages (apply_pages ps pages f) = apply_pages ps pages f.
Proof.
  intros Hne. apply apply_pages_torn with pages; [done|done|]. split.
  - split; [by apply length_apply_pages_ge|done].
  - intros i Hi. by apply rd_apply_pages_out.
Qed.
End apply.

(** ** Running the page writes *)

Definition open_with (d : dal) (f : bytes) : Prop := isOpen d = true /\ file d = Some f.

Lemma writePage_ok d f p ps :
  open_with d f -> pageSize d = ps -> 0 < ps < 2 ^ 31 -> 0 <= num p -> num p * ps < 2 ^ 63 ->
  writePage p d = (Ok tt, with_file (Some (apply_page ps f p)) d).
Proof.
  intros [Ho Hf] Hps Hr Hn Ho63. unfold writePage. mrun. unfold WriteAt.
  rewrite Ho, Hf, Hps. simpl negb. rewrite (i64_small (num p)), (i64_small ps), i64_small by nia.
  rewrite decide_False by nia. done.
Qed.

Lemma with_file_twice f g d : with_file f (with_file g d) = with_file f d.
Proof. done. Qed.

Lemma writePages_ok pages d f ps :
  open_with d f -> pageSize d = ps -> 0 < ps < 2 ^ 31 ->
  Forall (fun p => 0 <= num p /\ num p * ps < 2 ^ 63) pages ->
  writePages pages d = (Ok tt, with_file (Some (apply_pages ps pages f)) d).
Proof.
  intros Ho Hps Hr. revert d f Ho Hps. induction pages as [|p pages IH]; intros d f Ho Hps Hall.
  { destruct Ho as [_ Ho]. destruct d; simpl in *; subst. done. }
  apply Forall_cons in Hall as [[H0 H63] Hall].
  change (writePages (p :: pages) d) with ((writePage p;; writePages pages) d).
  mstep (writePage_ok d f p ps Ho Hps Hr H0 H63).
  rewrite (IH _ (apply_page ps f p)); [done| |done|done]. destruct Ho as [Hopen _]. by split.
Qed.

(** ** Reading a log back *)

Definition encode_record (p : page) : bytes := le_bytes 8 (num p) ++ data p.
Definition encode_records (pages : list page) : bytes := concat (encode_record <$> pages).

Lemma wal_records_ok ps pages :
  Forall (fun p => Z.of_nat (length (data p)) = ps) pages -> wal_records ps pages = Ok (encode_records pages).
Proof.
  induction 1 as [|p pages Hp _ IH]; [done|]. cbn [wal_records].
  rewrite decide_False by naive_solver. rewrite IH. go_bind.
  change (encode_records (p :: pages)) with (encode_record p ++ encode_records pages).
  unfold encode_record. by rewrite <- app_assoc.
Qed.

Lemma length_encode_records n pages :
  Forall (fun p => length (data p) = n) pages -> length (encode_records pages) = (length pages * (8 + n))%nat.
Proof.
  induction 1 as [|p pages Hp _ IH]; [done|]. change (encode_records (p :: pages)) with (encode_record p ++ encode_records pages).
  unfold encode_record. rewrite length_app, length_app, IH, length_le_bytes. simpl. lia.
Qed.

Lemma read_records_ok n pages :
  Forall (fun p => length (data p) = n) pages -> Forall (fun p => is_pgnum (num p)) pages ->
  read_records (length pages) n (encode_records pages) = Ok pages.
Proof.
  intros Hn Hpg. induction pages as [|p pages IH]; [done|].
  apply Forall_cons in Hn as [Hn Hns]. apply Forall_cons in Hpg as [Hpg Hpgs].
  cbn [read_records length]. change (encode_records (p :: pages)) with (encode_record p ++ encode_records pages).
  assert (length (encode_record p) = (8 + n)%nat) as Hl.
  { unfold encode_record. rewrite length_app, length_le_bytes. lia. }
  rewrite decide_False by (rewrite length_app; lia).
  rewrite drop_app_length' by lia. rewrite IH by done. go_bind. do 2 f_equal.
  unfold encode_record. rewrite <- app_assoc.
  rewrite take_app_length' by done. rewrite le_value_bytes by done.
  rewrite sub_list_app_skip by (rewrite length_le_bytes; lia). rewrite length_le_bytes, Nat.sub_diag.
  rewrite sub_list_app_take by done. by destruct p.
Qed.

Lemma ChecksumIEEE_range bs : 0 <= ChecksumIEEE bs < 2 ^ 32.
Proof. apply Z.mod_pos_bound. lia. Qed.

(** Every file of at least 28 bytes, field by field. *)
Lemma parse_wal_fields ps mg v ps' count crc rest :
  length mg = 8%nat -> 0 <= v < 2 ^ 32 -> 0 <= ps' < 2 ^ 32 -> 0 <= count < 2 ^ 64 -> 0 <= crc < 2 ^ 32 ->
  parse_wal ps (mg ++ le_bytes 4 v ++ le_bytes 4 ps' ++ le_bytes 8 count ++ le_bytes 4 crc ++ rest) =
    if decide (mg <> walMagic) then Err ErrWalMagic
    else if decide (v <> walVersion) then Err (ErrWalVersion v)
    else if decide (ps' <> ps) then Err (ErrWalPageSize ps' ps)
    else if decide (i64 (28 + i64 (i64 count * (8 + ps))) <> 28 + Z.of_nat (length rest)) then Ok None
    else if decide (ChecksumIEEE rest <> crc) then Err ErrWalChecksum
    else if negb (makeslice_ok (i64 count)) then Panic
    else pages ← read_records (Z.to_nat (i64 count)) (Z.to_nat ps) rest; Ok (Some pages).
Proof.
  intros Hmg Hv Hps' Hcnt Hcrc.
  set (bs := mg ++ _).
  assert (length bs = (28 + length rest)%nat) as Hlen.
  { unfold bs. rewrite !length_app, !length_le_bytes, Hmg. lia. }
  unfold parse_wal. rewrite decide_False by lia. rewrite decide_False by (unfold walHeaderSize; lia).
  assert (take 8 bs = mg) as -> by (unfold bs; by rewrite take_app_length').
  destruct (decide (mg <> walMagic)); [done|].
  rewrite (get_le_at 4 8 bs v); [|lia| |lia].
  2:{ unfold bs. rewrite sub_list_app_skip by lia. rewrite Hmg. by apply sub_list_app_take. }
  go_bind. destruct (decide (v <> walVersion)); [done|].
  rewrite (get_le_at 4 12 bs ps'); [|lia| |lia].
  2:{ unfold bs. do 2 (rewrite sub_list_app_skip by (rewrite ?length_le_bytes; lia)).
      rewrite Hmg, length_le_bytes. by apply sub_list_app_take. }
  go_bind. destruct (decide (ps' <> ps)) as [|Hps]; [done|]. apply dec_stable in Hps as ->.
  rewrite (get_le_at 8 16 bs count); [|lia| |lia].
  2:{ unfold bs. do 3 (rewrite sub_list_app_skip by (rewrite ?length_le_bytes; lia)).
      rewrite Hmg, !length_le_bytes. by apply sub_list_app_take. }
  go_bind. rewrite (get_le_at 4 24 bs crc); [|lia| |lia].
  2:{ unfold bs. do 4 (rewrite sub_list_app_skip by (rewrite ?length_le_bytes; lia)).
      rewrite Hmg, !length_le_bytes. by apply sub_list_app_take. }
  go_bind. change (Z.of_nat pageNumSize) with 8. change (Z.of_nat walHeaderSize) with 28.
  rewrite Hlen. replace (Z.of_nat (28 + length rest)) with (28 + Z.of_nat (length rest)) by lia.
  assert (drop 28 bs = rest) as ->; [|done].
  unfold bs. do 5 (rewrite drop_app_ge by (rewrite ?length_le_bytes; lia)).
  rewrite Hmg, !length_le_bytes. apply drop_0.
Qed.

Lemma makeslice_small cap : 0 <= cap -> 8 * cap <= 2 ^ 48 -> makeslice_ok cap = true.
Proof. intros H1 H2. apply andb_true_iff. split; by apply Z.leb_le. Qed.

(** A log whose header is intact, with any records after it. *)
Lemma parse_wal_header ps count crc rest :
  0 < ps < 2 ^ 31 -> 28 + Z.of_nat count * (8 + ps) < 2 ^ 63 -> 8 * Z.of_nat count <= 2 ^ 48 -> 0 <= crc < 2 ^ 32 ->
  parse_wal ps (walMagic ++ le_bytes 4 walVersion ++ le_bytes 4 (u32 ps) ++ le_bytes 8 (Z.of_nat count) ++
                le_bytes 4 crc ++ rest) =
    if decide (Z.of_nat (length rest) <> Z.of_nat count * (8 + ps)) then Ok None
    else if decide (ChecksumIEEE rest <> crc) then Err ErrWalChecksum
    else pages ← read_records count (Z.to_nat ps) rest; Ok (Some pages).
Proof.
  intros Hps Hcnt Hal Hcrc. assert (u32 ps = ps) as -> by (apply Z.mod_small; lia).
  rewrite parse_wal_fields; [|done|unfold walVersion; lia|lia|nia|lia].
  rewrite !decide_False by naive_solver.
  rewrite (i64_small (Z.of_nat count)) by nia. rewrite (i64_small (Z.of_nat count * _)) by lia.
  rewrite i64_small by lia.
  destruct (decide (Z.of_nat (length rest) <> Z.of_nat count * (8 + ps))).
  - by rewrite decide_True by lia.
  - rewrite decide_False by lia. case_decide; [done|]. rewrite makeslice_small by lia. by rewrite Nat2Z.id.
Qed.

Lemma wal_header_split ps count records rest :
  wal_header ps count records ++ rest =
    walMagic ++ le_bytes 4 walVersion ++ le_bytes 4 (u32 ps) ++ le_bytes 8 (Z.of_nat count) ++
    le_bytes 4 (ChecksumIEEE records) ++ rest.
Proof. unfold wal_header. by rewrite <- !app_assoc. Qed.

Lemma length_wal_header ps count records : length (wal_header ps count records) = 28%nat.
Proof. unfold wal_header. rewrite !length_app, !length_le_bytes. done. Qed.

(** The bytes of the log of a commit. *)
Definition log_of (ps : Z) (pages : list page) : bytes :=
  wal_header ps (length pages) (encode_records pages) ++ encode_records pages.

Lemma pages_ok_lengths ps pages :
  pages_ok ps pages -> Forall (fun p => length (data p) = Z.to_nat ps) pages.
Proof. intros [_ Hl _ _]. eapply Forall_impl; [exact Hl|]. simpl. lia. Qed.

Lemma pages_ok_pgnums ps pages : pages_ok ps pages -> Forall (fun p => is_pgnum (num p)) pages.
Proof.
  intros [Hps _ Hnum _]. eapply Forall_impl; [exact Hnum|]. unfold is_pgnum. intros p [H0 H63].
  assert (num p <= num p * ps) by nia. lia.
Qed.

Lemma pages_ok_nonempty ps pages : pages_ok ps pages -> Forall (fun p => data p <> []) pages.
Proof.
  intros [Hps Hl _ _]. eapply Forall_impl; [exact Hl|]. simpl. intros p Hp E. rewrite E in Hp. simpl in Hp. lia.
Qed.

Lemma parse_log ps pages :
  pages_ok ps pages -> sliceable pages -> parse_wal ps (log_of ps pages) = Ok (Some pages).
Proof.
  unfold sliceable. intros H Hal. pose proof (pages_ok_lengths _ _ H) as Hl. pose proof (pages_ok_pgnums _ _ H) as Hpg.
  destruct H as [Hps Hlen Hnum Hcnt].
  unfold log_of. rewrite wal_header_split. rewrite parse_wal_header; [|done|lia|lia|apply ChecksumIEEE_range].
  rewrite decide_False by (rewrite (length_encode_records (Z.to_nat ps)) by done; lia).
  rewrite decide_False by naive_solver. by rewrite read_records_ok.
Qed.

(** A log cut short is recognised as incomplete. *)
Lemma parse_log_prefix ps pages pre :
  pages_ok ps pages -> sliceable pages -> pre `prefix_of` log_of ps pages -> pre <> log_of ps pages ->
  parse_wal ps pre = Ok None.
Proof.
  unfold sliceable. intros H Hal [rest Erest] Hne. pose proof (pages_ok_lengths _ _ H) as Hl.
  destruct H as [Hps Hlen Hnum Hcnt].
  destruct (decide (length pre < 28)%nat) as [Hshort|Hlong].
  { unfold parse_wal. case_decide; [done|]. by rewrite decide_True. }
  assert (exists r, pre = wal_header ps (length pages) (encode_records pages) ++ r) as [r ->].
  { exists (drop 28 pre). rewrite <- (take_drop 28 pre) at 1. f_equal.
    unfold log_of in Erest. apply (f_equal (take 28)) in Erest.
    rewrite take_app_length' in Erest by (by rewrite length_wal_header).
    by rewrite take_app_le in Erest by lia. }
  rewrite wal_header_split. rewrite parse_wal_header; [|done|lia|lia|apply ChecksumIEEE_range].
  unfold log_of in *. rewrite <- app_assoc in Erest. apply app_inv_head in Erest.
  rewrite decide_True; [done|]. intros E.
  pose proof (length_encode_records (Z.to_nat ps) pages Hl) as E2.
  assert (length rest = 0%nat) as ->%length_zero_iff_nil.
  { rewrite Erest, length_app in E2. lia. }
  by rewrite Erest, app_nil_r in Hne.
Qed.

(** ** On any device the code acts as on the data access layer *)

Section devices.
Context {S : Type} {DS : Device S}.

Definition acts_as {A} (m : M S A) (m' : M dal A) : Prop :=
  forall s, let '(o, s') := m s in m' (device_dal s) = (o, device_dal s').

Lemma acts_ret {A} (a : A) : acts_as (mret a) (mret a).
Proof. done. Qed.
Lemma acts_lift {A} (o : out A) : acts_as (liftO o) (liftO o).
Proof. done. Qed.
Lemma acts_op op : acts_as (do_op op) (run_op op).
Proof. intros s. apply do_op_dal. Qed.

Lemma acts_bind {A B} (m : M S A) m' (f : A -> M S B) f' :
  acts_as m m' -> (forall a, acts_as (f a) (f' a)) -> acts_as (m ≫= f) (m' ≫= f').
Proof.
  intros Hm Hf s. specialize (Hm s). unfold mbind, M_bind. destruct (m s) as [[] s'] eqn:E; rewrite Hm; try done. apply Hf.
Qed.

Lemma acts_get {A} (f : S -> M S A) f' :
  (forall s d, d = device_dal s -> acts_as (f s) (f' d)) -> acts_as (getS ≫= f) (getS ≫= f').
Proof. intros Hf s. by apply (Hf s (device_dal s)). Qed.

Lemma acts_writePages pages : acts_as (writePages pages) (writePages pages).
Proof. induction pages; [apply acts_ret|]. apply acts_bind; [apply acts_op|done]. Qed.

Lemma acts_writeWAL pages : acts_as (writeWAL pages) (writeWAL pages).
Proof.
  apply acts_get. intros s d ->. apply acts_bind; [apply acts_lift|]. intros records.
  repeat (apply acts_bind; [apply acts_op|intros _]). apply acts_op.
Qed.

Lemma acts_apply pages : acts_as (applyPagesWithWAL pages) (applyPagesWithWAL pages).
Proof.
  apply acts_bind; [apply acts_writeWAL|intros _]. apply acts_bind; [apply acts_writePages|intros _].
  apply acts_bind; [apply acts_op|intros _]. apply acts_op.
Qed.

Lemma acts_readWAL : acts_as readWAL readWAL.
Proof.
  apply acts_get. intros s d ->. cbn [device_dal dal_device]. destruct (wal (device_dal s)) as [bs|]; [|apply acts_ret].
  apply acts_bind; [apply acts_lift|]. intros [pages|]; [apply acts_ret|].
  apply acts_bind; [apply acts_op|]. intros _. apply acts_ret.
Qed.

Lemma acts_recover : acts_as recoverWAL recoverWAL.
Proof.
  apply acts_bind; [apply acts_readWAL|]. intros [pages|]; [|apply acts_ret].
  apply acts_bind; [apply acts_writePages|intros _]. apply acts_bind; [apply acts_op|intros _]. apply acts_op.
Qed.
End devices.

(** What a recorded run says of the data access layer. *)
Lemma acts_recorder {A} (m : M recorder A) m' d o d' ops ops' :
  acts_as m m' -> m (Recorder d ops) = (o, Recorder d' ops') -> m' d = (o, d').
Proof. intros H E. specialize (H (Recorder d ops)). by rewrite E in H. Qed.

(** ** Commit and recovery on a healthy disk, operation by operation *)

Lemma record_op op d d' ops :
  run_op op d = (Ok tt, d') -> do_op op (Recorder d ops) = (Ok tt, Recorder d' (ops ++ [op])).
Proof. intros E. cbn. unfold recording. cbn. by rewrite E. Qed.

Lemma Sync_ok d : isOpen d = true -> Sync d = (Ok tt, d).
Proof. intros E. unfold Sync. by rewrite E. Qed.

Lemma record_pages pages d f ops :
  open_with d f -> pages_ok (pageSize d) pages ->
  writePages pages (Recorder d ops) =
    (Ok tt, Recorder (with_file (Some (apply_pages (pageSize d) pages f)) d) (ops ++ (PageWrite <$> pages))).
Proof.
  intros Ho [Hps _ Hnum _]. revert d f ops Ho Hps Hnum. induction pages as [|p pages IH]; intros d f ops Ho Hps Hnum.
  { destruct Ho as [_ Ho]. rewrite app_nil_r. destruct d; simpl in *; subst. done. }
  apply Forall_cons in Hnum as [[H0 H63] Hnum].
  change (writePages (p :: pages) (Recorder d ops)) with ((do_op (PageWrite p);; writePages pages) (Recorder d ops)).
  mstep (record_op (PageWrite p) d _ ops (writePage_ok d f p _ Ho eq_refl Hps H0 H63)).
  set (d1 := with_file _ d). rewrite (IH d1 (apply_page (pageSize d) f p)); [|by destruct Ho|done|done].
  cbn [fmap list_fmap]. by rewrite <- app_assoc.
Qed.

(** The operations that write the pages of a durable log. *)
Definition replay_ops (pages : list page) : list disk_op := (PageWrite <$> pages) ++ [FileSync; WalRemove].

(** Logging them first. *)
Definition log_ops (ps : Z) (pages : list page) : list disk_op :=
  [WalCreate; WalAppend (wal_header ps (length pages) (encode_records pages)); WalAppend (encode_records pages); WalSync].

Lemma record_writeWAL pages d ops :
  pages_ok (pageSize d) pages ->
  writeWAL pages (Recorder d ops) =
    (Ok tt, Recorder (with_wal (Some (log_of (pageSize d) pages)) d) (ops ++ log_ops (pageSize d) pages)).
Proof.
  intros [Hps Hlen Hnum Hcnt]. unfold writeWAL. mrun. cbn [device_dal recorder_device rec_dal].
  rewrite (wal_records_ok _ _ Hlen). mrun. set (h := wal_header _ _ _). set (r := encode_records pages).
  mstep (record_op WalCreate d (with_wal (Some []) d) ops eq_refl).
  mstep (record_op (WalAppend h) (with_wal (Some []) d) (with_wal (Some h) d) (ops ++ [WalCreate]) eq_refl).
  mstep (record_op (WalAppend r) (with_wal (Some h) d) (with_wal (Some (h ++ r)) d) ((ops ++ [WalCreate]) ++ [WalAppend h]) eq_refl).
  rewrite (record_op WalSync _ (with_wal (Some (h ++ r)) d)) by done. by rewrite <- !app_assoc.
Qed.

Lemma record_replay pages d f ops :
  open_with d f -> pages_ok (pageSize d) pages ->
  (writePages pages;; do_op FileSync;; removeIfExists) (Recorder d ops) =
    (Ok tt, Recorder (with_wal None (with_file (Some (apply_pages (pageSize d) pages f)) d)) (ops ++ replay_ops pages)).
Proof.
  intros Ho Hok. mstep (record_pages pages d f ops Ho Hok). set (d1 := with_file _ d).
  mstep (record_op FileSync d1 d1 (ops ++ (PageWrite <$> pages)) (Sync_ok d1 (proj1 Ho))).
  unfold removeIfExists. rewrite (record_op WalRemove d1 (with_wal None d1)) by done.
  unfold replay_ops. by rewrite <- !app_assoc.
Qed.

Lemma record_apply pages d f ops :
  open_with d f -> pages_ok (pageSize d) pages ->
  applyPagesWithWAL pages (Recorder d ops) =
    (Ok tt, Recorder (with_wal None (with_file (Some (apply_pages (pageSize d) pages f)) d))
      (ops ++ log_ops (pageSize d) pages ++ replay_ops pages)).
Proof.
  intros Ho Hok. unfold applyPagesWithWAL. mstep (record_writeWAL pages d ops Hok). set (d1 := with_wal _ d).
  rewrite (record_replay pages d1 f (ops ++ log_ops (pageSize d) pages)); [|done|done]. by rewrite <- app_assoc.
Qed.

Lemma record_recover pages d f ops bs :
  open_with d f -> wal d = Some bs -> parse_wal (pageSize d) bs = Ok (Some pages) -> pages_ok (pageSize d) pages ->
  recoverWAL (Recorder d ops) =
    (Ok tt, Recorder (with_wal None (with_file (Some (apply_pages (pageSize d) pages f)) d)) (ops ++ replay_ops pages)).
Proof.
  intros Ho Hw Hp Hok. unfold recoverWAL.
  assert (readWAL (Recorder d ops) = (Ok (Some pages), Recorder d ops)) as Er.
  { unfold readWAL. mrun. cbn [device_dal recorder_device rec_dal]. rewrite Hw, Hp. by mrun. }
  mstep Er. by apply record_replay.
Qed.

Lemma writeWAL_ok pages d :
  pages_ok (pageSize d) pages -> writeWAL pages d = (Ok tt, with_wal (Some (log_of (pageSize d) pages)) d).
Proof. intros Hok. exact (acts_recorder _ _ _ _ _ _ _ (acts_writeWAL pages) (record_writeWAL pages d [] Hok)). Qed.

Lemma recover_complete pages d f bs :
  open_with d f -> pages_ok (pageSize d) pages -> wal d = Some bs -> parse_wal (pageSize d) bs = Ok (Some pages) ->
  recoverWAL d = (Ok tt, with_wal None (with_file (Some (apply_pages (pageSize d) pages f)) d)).
Proof. intros Ho Hok Hw Hp. exact (acts_recorder _ _ _ _ _ _ _ acts_recover (record_recover pages d f [] bs Ho Hw Hp Hok)). Qed.

Lemma recover_incomplete d bs :
  wal d = Some bs -> parse_wal (pageSize d) bs = Ok None -> recoverWAL d = (Ok tt, with_wal None d).
Proof.
  intros Hw Hp. unfold recoverWAL, readWAL. rewrite bind_assoc. mrun. cbn [device_dal dal_device]. rewrite Hw, Hp. by mrun.
Qed.

Lemma recover_none d : wal d = None -> recoverWAL d = (Ok tt, d).
Proof.
  intros Hw. unfold recoverWAL, readWAL. rewrite bind_assoc. mrun. cbn [device_dal dal_device]. by rewrite Hw.
Qed.

(** A log that [readWAL] does not accept: recovery stops, the files are as they were. *)
Lemma recover_refused d bs :
  wal d = Some bs -> (forall r, parse_wal (pageSize d) bs <> Ok r) ->
  exists o, recoverWAL d = (o, d) /\ o <> Ok tt.
Proof.
  intros Hw Hp. unfold recoverWAL, readWAL. rewrite bind_assoc. mrun. cbn [device_dal dal_device]. rewrite Hw.
  unfold mbind, M_bind, liftO. destruct (parse_wal (pageSize d) bs) as [r| | | |]; [by destruct (Hp r)|by eexists..].
Qed.

Lemma apply_ok pages d f :
  open_with d f -> pages_ok (pageSize d) pages ->
  applyPagesWithWAL pages d =
    (Ok tt, with_wal None (with_file (Some (apply_pages (pageSize d) pages f)) d)).
Proof. intros Ho Hok. exact (acts_recorder _ _ _ _ _ _ _ (acts_apply pages) (record_apply pages d f [] Ho Hok)). Qed.

(** ** Properties *)

Definition demo_pages : list page := [Page 1 [1; 2; 3; 4]; Page 0 [5; 6; 7; 8]].
Definition demo_dal (f : bytes) (w : option bytes) : dal :=
  Dal 4 (f32_const 1 2) (f32_const 95 100) (Some f) true w (Meta 2 1) newFreelist.

Lemma demo_pages_ok : pages_ok 4 demo_pages.
Proof. split; repeat constructor; simpl; lia. Qed.

(** C22: [applyPagesWithWAL] performs its disk operations in the order of the
    log protocol - create the log, append header and records, sync it, write
    the pages, sync the database file, remove the log - and nothing else; on a
    disk that does not fail it succeeds and leaves the pages at their places in
    the file and no log. *)
Theorem applyPagesWithWAL_correct pages d f :
  open_with d f -> pages_ok (pageSize d) pages ->
  let records := encode_records pages in
  let d' := with_wal None (with_file (Some (apply_pages (pageSize d) pages f)) d) in
  applyPagesWithWAL pages (Recorder d []) =
    (Ok tt, Recorder d' ([WalCreate; WalAppend (wal_header (pageSize d) (length pages) records); WalAppend records; WalSync] ++
                         (PageWrite <$> pages) ++ [FileSync; WalRemove])) /\
  applyPagesWithWAL pages d = (Ok tt, d').
Proof. intros Ho Hok. split; [by apply (record_apply pages d f [])|by apply apply_ok]. Qed.

Lemma applyPagesWithWAL_correct_witness :
  applyPagesWithWAL demo_pages (Recorder (demo_dal (replicate 8 0) None) []) =
    (Ok tt, Recorder (demo_dal [5; 6; 7; 8; 1; 2; 3; 4] None)
      ([WalCreate; WalAppend (wal_header 4 2 (encode_records demo_pages)); WalAppend (encode_records demo_pages); WalSync] ++
       (PageWrite <$> demo_pages) ++ [FileSync; WalRemove])) /\
  applyPagesWithWAL demo_pages (demo_dal (replicate 8 0) None) = (Ok tt, demo_dal [5; 6; 7; 8; 1; 2; 3; 4] None).
Proof.
  apply (applyPagesWithWAL_correct demo_pages (demo_dal (replicate 8 0) None) (replicate 8 0)).
  - by split.
  - apply demo_pages_ok.
Defined.

(** C23: [readWAL] gives back the pages that [writeWAL] logged, and takes every
    proper prefix of such a log for an incomplete one, which it removes without
    an error. *)
Theorem wal_roundtrip pages d pre :
  pages_ok (pageSize d) pages -> sliceable pages -> pre `prefix_of` log_of (pageSize d) pages ->
  (writeWAL pages ≫= (fun _ => readWAL)) d = (Ok (Some pages), with_wal (Some (log_of (pageSize d) pages)) d) /\
  (pre <> log_of (pageSize d) pages -> readWAL (with_wal (Some pre) d) = (Ok None, with_wal None d)).
Proof.
  intros Hok Hal Hpre. split.
  - mstep (writeWAL_ok pages d Hok). unfold readWAL. mrun. cbn [device_dal dal_device wal with_wal pageSize]. rewrite parse_log by done. by mrun.
  - intros Hne. unfold readWAL. mrun. cbn [device_dal dal_device wal with_wal pageSize]. rewrite (parse_log_prefix _ pages) by done. by mrun.
Qed.

Lemma wal_roundtrip_witness :
  (writeWAL demo_pages ≫= (fun _ => readWAL)) (demo_dal [] None) =
    (Ok (Some demo_pages), demo_dal [] (Some (log_of 4 demo_pages))) /\
  (walMagic <> log_of 4 demo_pages -> readWAL (demo_dal [] (Some walMagic)) = (Ok None, demo_dal [] None)).
Proof.
  apply (wal_roundtrip demo_pages (demo_dal [] None) walMagic).
  - apply demo_pages_ok.
  - done.
  - eexists. unfold log_of, wal_header. rewrite <- !app_assoc. reflexivity.
Defined.

(** C24: what [readWAL] makes of any file of at least 28 bytes, in the order of
    its checks: a bad magic, version or page size is an error; a length that
    does not match the page count is an incomplete log (removed, no error);
    then a checksum mismatch is an error; then a count that [make] cannot serve
    panics.  Sizes are computed in 64-bit arithmetic, so such a count can match
    the length of a short file. *)
Theorem wal_checks ps mg v ps' count crc rest :
  length mg = 8%nat -> 0 <= v < 2 ^ 32 -> 0 <= ps' < 2 ^ 32 -> 0 <= count < 2 ^ 64 -> 0 <= crc < 2 ^ 32 ->
  parse_wal ps (mg ++ le_bytes 4 v ++ le_bytes 4 ps' ++ le_bytes 8 count ++ le_bytes 4 crc ++ rest) =
    if decide (mg <> walMagic) then Err ErrWalMagic
    else if decide (v <> walVersion) then Err (ErrWalVersion v)
    else if decide (ps' <> ps) then Err (ErrWalPageSize ps' ps)
    else if decide (i64 (28 + i64 (i64 count * (8 + ps))) <> 28 + Z.of_nat (length rest)) then Ok None
    else if decide (ChecksumIEEE rest <> crc) then Err ErrWalChecksum
    else if decide (i64 count < 0 \/ 2 ^ 48 < 8 * i64 count) then Panic
    else pages ← read_records (Z.to_nat (i64 count)) (Z.to_nat ps) rest; Ok (Some pages).
Proof.
  intros H1 H2 H3 H4 H5. rewrite parse_wal_fields by done. repeat (case_decide; [done|]).
  unfold makeslice_ok, pointerSize, maxAlloc.
  destruct (decide (i64 count < 0 \/ 2 ^ 48 < 8 * i64 count)) as [Hbig|Hbig].
  - replace ((0 <=? i64 count) && (8 * i64 count <=? 2 ^ 48)) with false; [done|]. symmetry. apply andb_false_iff.
    destruct Hbig; [left|right]; apply Z.leb_gt; lia.
  - replace ((0 <=? i64 count) && (8 * i64 count <=? 2 ^ 48)) with true; [done|]. symmetry. apply andb_true_iff.
    split; apply Z.leb_le; lia.
Qed.

(** A damaged log, and 28 bytes with the page count 2^61. *)
Lemma wal_checks_witness :
  parse_wal 4 (walMagic ++ le_bytes 4 1 ++ le_bytes 4 4 ++ le_bytes 8 1 ++ le_bytes 4 77 ++ replicate 12 0) =
    Err ErrWalChecksum /\
  parse_wal 4096 (walMagic ++ le_bytes 4 1 ++ le_bytes 4 4096 ++ le_bytes 8 (2 ^ 61) ++ le_bytes 4 0 ++ []) = Panic.
Proof.
  split.
  - apply (wal_checks 4 walMagic 1 4 1 77 (replicate 12 0)); try lia. reflexivity.
  - apply (wal_checks 4096 walMagic 1 4096 (2 ^ 61) 0 []); try lia. reflexivity.
Defined.
