(* ===== verification/Crash.v ===== *)
(** * Crashes

    The disk as the operating system keeps it, with what a crash can leave of
    it, and what the redo log makes of that.  The operations that run on this
    disk are those which the code of [Wal] performs on a recorder, in its
    order: [disk_ops (applyPagesWithWAL pages)] of a commit and
    [disk_ops recoverWAL] of an open. *)

From S2P Require Import Prelude Freelist Meta Node Float32 Dal Wal.

Open Scope Z_scope.

(** ** The disk

    Between two syncs the operating system may have written any part of what
    was issued:
    - of the page writes since the last sync of the database file any bytes may
      be in place, and garbage inside the pages ([torn]);
    - a log that was written to since its last sync is missing, or is the log
      as of that sync, or holds any bytes whatever; only, what it holds by
      chance is not another complete log with its checksum;
    - the removal of the log, which is never synced, may not have happened.
    A sync of the log makes its directory entry durable too: the code does not
    sync the directory and relies on that. *)
Record vdisk := VDisk {
  f_dur : bytes;           (* database file as of its last sync *)
  f_pend : list page;      (* page writes since *)
  w_dur : option bytes;    (* log as of its last sync *)
  w_now : option bytes;    (* log as the running process sees it *)
  w_dirty : bool           (* the log was written to since its last sync *)
}.

Definition exec_op (ps : Z) (s : vdisk) (op : disk_op) : vdisk :=
  match op with
  | WalCreate => VDisk (f_dur s) (f_pend s) (w_dur s) (Some []) true
  | WalAppend bs => VDisk (f_dur s) (f_pend s) (w_dur s) (Some (default [] (w_now s) ++ bs)) true
  | WalSync => VDisk (f_dur s) (f_pend s) (w_now s) (w_now s) false
  | PageWrite p => VDisk (f_dur s) (f_pend s ++ [p]) (w_dur s) (w_now s) (w_dirty s)
  | FileSync => VDisk (apply_pages ps (f_pend s) (f_dur s)) [] (w_dur s) (w_now s) (w_dirty s)
  | WalRemove => VDisk (f_dur s) (f_pend s) (w_dur s) None (w_dirty s)
  end.
Definition exec (ps : Z) (s : vdisk) (ops : list disk_op) : vdisk := fold_left (exec_op ps) ops s.

Inductive crash_wal (ps : Z) (s : vdisk) : option bytes -> Prop :=
| crash_wal_synced : crash_wal ps s (w_dur s)
| crash_wal_removed : w_now s = None -> crash_wal ps s None
| crash_wal_missing : w_dirty s = true -> crash_wal ps s None
| crash_wal_torn bs :
    w_dirty s = true -> (forall pages, parse_wal ps bs = Ok (Some pages) -> w_now s = Some bs) ->
    crash_wal ps s (Some bs).

(** [crash ps s f w]: after a crash in state [s] the files hold [f] and [w]. *)
Definition crash (ps : Z) (s : vdisk) (f : bytes) (w : option bytes) : Prop :=
  torn ps (f_dur s) (f_pend s) f /\ crash_wal ps s w.

(** The disk on which a process starts: what is there is durable. *)
Definition restarted (f : bytes) (w : option bytes) : vdisk := VDisk f [] w w false.

(** ** What an open makes of the files *)

(** A process that has opened the files, before recovery. *)
Record reopened (ps : Z) (f : bytes) (w : option bytes) (d : dal) : Prop := {
  re_ps : pageSize d = ps;
  re_open : isOpen d = true;
  re_file : file d = Some f;
  re_wal : wal d = w
}.

(** Recovery ends with the file [g] and no log. *)
Definition recovered (g : bytes) (d : dal) : Prop :=
  recoverWAL d = (Ok tt, with_wal None (with_file (Some g) d)).

(** Recovery fails; the files are as they were. *)
Definition refused (d : dal) : Prop := exists o, recoverWAL d = (o, d) /\ o <> Ok tt.

(** Files from which recovery makes [g]. *)
Definition recoverable (ps : Z) (g f : bytes) (w : option bytes) : Prop :=
  match w with
  | None => f = g
  | Some bs =>
      (parse_wal ps bs = Ok None /\ f = g) \/
      exists pages, pages_ok ps pages /\ parse_wal ps bs = Ok (Some pages) /\ apply_pages ps pages f = g
  end.

(** The disk between commits, with the file [f]: everything is synced but the
    removal of the last log, whose pages are in [f]. *)
Record disk_at_rest (ps : Z) (f : bytes) (s : vdisk) : Prop := {
  rest_file : f_dur s = f;
  rest_pend : f_pend s = [];
  rest_now : w_now s = None;
  rest_clean : w_dirty s = false;
  rest_dur : recoverable ps f f (w_dur s)
}.

(** Opening files again and again, each recovery but the last cut short by a
    crash. *)
Inductive recovering (ps : Z) : bytes * option bytes -> bytes * option bytes -> Prop :=
| recovering_done f w : recovering ps (f, w) (f, w)
| recovering_crash f w d m f1 w1 f2 w2 :
    reopened ps f w d -> crash ps (exec ps (restarted f w) (take m (disk_ops recoverWAL d))) f1 w1 ->
    recovering ps (f1, w1) (f2, w2) -> recovering ps (f, w) (f2, w2).

(** ** The operations of the code *)

Lemma commit_disk_ops pages d f :
  open_with d f -> pages_ok (pageSize d) pages ->
  disk_ops (applyPagesWithWAL pages) d = log_ops (pageSize d) pages ++ replay_ops pages.
Proof. intros Ho Hok. unfold disk_ops. by rewrite (record_apply pages d f []). Qed.

Lemma recover_disk_ops pages d f bs :
  reopened (pageSize d) f (Some bs) d -> pages_ok (pageSize d) pages -> parse_wal (pageSize d) bs = Ok (Some pages) ->
  disk_ops recoverWAL d = replay_ops pages.
Proof. intros [_ Ho Hf Hw] Hok Hp. unfold disk_ops. by rewrite (record_recover pages d f [] bs). Qed.

Lemma recover_disk_ops_incomplete d f bs :
  reopened (pageSize d) f (Some bs) d -> parse_wal (pageSize d) bs = Ok None -> disk_ops recoverWAL d = [WalRemove].
Proof.
  intros [_ Ho Hf Hw] Hp. unfold disk_ops, recoverWAL, readWAL. rewrite bind_assoc. mrun.
  cbn [device_dal recorder_device rec_dal]. by rewrite Hw, Hp.
Qed.

Lemma recover_disk_ops_none d f : reopened (pageSize d) f None d -> disk_ops recoverWAL d = [].
Proof.
  intros [_ Ho Hf Hw]. unfold disk_ops, recoverWAL, readWAL. rewrite bind_assoc. mrun.
  cbn [device_dal recorder_device rec_dal]. by rewrite Hw.
Qed.

Lemma exec_app ps s ops1 ops2 : exec ps s (ops1 ++ ops2) = exec ps (exec ps s ops1) ops2.
Proof. apply fold_left_app. Qed.

Lemma exec_page_writes ps pages s :
  exec ps s (PageWrite <$> pages) = VDisk (f_dur s) (f_pend s ++ pages) (w_dur s) (w_now s) (w_dirty s).
Proof.
  revert s. induction pages as [|p pages IH]; intros s.
  - destruct s. simpl. by rewrite app_nil_r.
  - unfold exec in *. cbn [fmap list_fmap fold_left]. rewrite IH. simpl. by rewrite <- app_assoc.
Qed.

(** ** Files that recovery can make use of *)

Lemma torn_nothing ps f f' : torn ps f [] f' -> f' = f.
Proof. intros [Hl Ho]. apply rd_ext; [simpl in Hl; lia|]. intros i. apply Ho. constructor. Qed.

Lemma log_parses ps pages pre :
  pages_ok ps pages -> sliceable pages -> pre `prefix_of` log_of ps pages ->
  pre = log_of ps pages \/ parse_wal ps pre = Ok None.
Proof.
  intros Hok Hal Hp. destruct (decide (pre = log_of ps pages)) as [|Hne]; [by left|right].
  by apply (parse_log_prefix ps pages).
Qed.

Lemma recoverable_log ps pages f f' pend bs :
  pages_ok ps pages -> parse_wal ps bs = Ok (Some pages) -> pend `prefix_of` pages -> torn ps f pend f' ->
  recoverable ps (apply_pages ps pages f) f' (Some bs).
Proof.
  intros Hok Hp Hpend Ht. right. exists pages. split; [done|]. split; [done|].
  apply (apply_pages_torn ps pages pend); [by eapply pages_ok_nonempty|done|done].
Qed.

Lemma recoverable_recovered ps g f w d : recoverable ps g f w -> reopened ps f w d -> recovered g d.
Proof.
  intros Hr [<- Ho Hf Hw]. unfold recovered. destruct w as [bs|]; simpl in Hr.
  - destruct Hr as [[Hp ->]|(pages & Hok & Hp & <-)].
    + rewrite (recover_incomplete d bs) by done. destruct d; simpl in *; by subst.
    + by apply (recover_complete pages d f bs).
  - subst g. rewrite recover_none by done. destruct d; simpl in *; by subst.
Qed.

Lemma refused_log ps f bs d : reopened ps f (Some bs) d -> (forall r, parse_wal ps bs <> Ok r) -> refused d.
Proof. intros [<- Ho Hf Hw] Hp. by apply (recover_refused d bs). Qed.

(** ** Crashes by phase *)

(** The disk during the replay of the log [lg] with [pages] over the file [f]. *)
Inductive replaying (ps : Z) (pages : list page) (f lg : bytes) : vdisk -> Prop :=
| replaying_writes pend :
    pend `prefix_of` pages -> replaying ps pages f lg (VDisk f pend (Some lg) (Some lg) false)
| replaying_synced w :
    w = Some lg \/ w = None -> replaying ps pages f lg (VDisk (apply_pages ps pages f) [] (Some lg) w false).

Lemma replay_phase ps pages f lg m :
  replaying ps pages f lg (exec ps (VDisk f [] (Some lg) (Some lg) false) (take m (replay_ops pages))).
Proof.
  unfold replay_ops. destruct (decide (m <= length pages)%nat).
  - rewrite take_app_le by (rewrite length_fmap; lia). rewrite <- fmap_take, exec_page_writes.
    apply replaying_writes. exists (drop m pages). cbn. by rewrite take_drop.
  - rewrite take_app_ge by (rewrite length_fmap; lia). rewrite exec_app, exec_page_writes, length_fmap.
    destruct (m - length pages)%nat as [|[|j]] eqn:E; [lia|..]; simpl.
    + apply replaying_synced. by left.
    + rewrite take_nil. apply replaying_synced. by right.
Qed.

Lemma replaying_crash ps pages f lg s f' w :
  pages_ok ps pages -> parse_wal ps lg = Ok (Some pages) -> replaying ps pages f lg s -> crash ps s f' w ->
  recoverable ps (apply_pages ps pages f) f' w.
Proof.
  intros Hok Hp Hs [Ht Hw]. destruct Hs as [pend Hpend|w' Hw']; simpl in Ht.
  - inversion Hw; simplify_eq/=. by eapply recoverable_log.
  - apply torn_nothing in Ht as ->. inversion Hw; simplify_eq/=; [|done].
    right. exists pages. do 2 (split; [done|]). apply apply_pages_idem. by eapply pages_ok_nonempty.
Qed.

(** The disk while the log of a commit is written, before its sync. *)
Inductive logging (ps : Z) (pages : list page) (f : bytes) : vdisk -> Prop :=
| logging_rest s : disk_at_rest ps f s -> logging ps pages f s
| logging_writes w now :
    now `prefix_of` log_of ps pages -> recoverable ps f f w -> logging ps pages f (VDisk f [] w (Some now) true).

Lemma logging_crash ps pages f s f' w :
  pages_ok ps pages -> sliceable pages -> logging ps pages f s -> crash ps s f' w ->
  f' = f /\
  (recoverable ps (apply_pages ps pages f) f' w \/ recoverable ps f f' w \/
   exists bs, w = Some bs /\ (forall r, parse_wal ps bs <> Ok r) /\ ~ bs `prefix_of` log_of ps pages).
Proof.
  intros Hok Hal Hs [Ht Hw]. destruct Hs as [s [Hf Hp Hn Hc Hd]|w0 now Hnow Hd].
  - rewrite Hp, Hf in Ht. apply torn_nothing in Ht as ->. split; [done|]. right. left.
    by inversion Hw; subst; try congruence.
  - apply torn_nothing in Ht as ->. cbn [f_dur]. split; [done|].
    inversion Hw as [| |_|bs _ Hforge]; simplify_eq/=; [by right; left|by right; left|].
    assert ((exists r, parse_wal ps bs = Ok r) \/ forall r, parse_wal ps bs <> Ok r) as [[[pages'|] E]|Hno]
      by (destruct (parse_wal ps bs); naive_solver).
    + left. injection (Hforge pages' E) as ->.
      destruct (log_parses ps pages bs Hok Hal Hnow) as [-> |E']; [|congruence].
      right. exists pages. split; [done|]. split; [by apply parse_log|done].
    + right. left. by left.
    + right. right. exists bs. split; [done|]. split; [done|].
      intros [-> |E]%(log_parses ps pages); [|by eapply Hno|done..]. eapply Hno. by apply parse_log.
Qed.

Lemma log_phase ps pages f s k :
  disk_at_rest ps f s -> (k < 4)%nat -> logging ps pages f (exec ps s (take k (log_ops ps pages))).
Proof.
  intros Hs Hk. pose proof Hs as [Hf Hp Hn Hc Hd]. destruct s as [fd fp wd wn wc]. simpl in *. subst.
  destruct k as [|[|[|[|k]]]]; [..|lia]; unfold log_ops, exec; simpl.
  - by apply logging_rest.
  - apply logging_writes; [apply prefix_nil|done].
  - apply logging_writes; [|done]. by exists (encode_records pages).
  - by apply logging_writes.
Qed.

Lemma logged ps pages f s :
  disk_at_rest ps f s -> exec ps s (log_ops ps pages) = VDisk f [] (Some (log_of ps pages)) (Some (log_of ps pages)) false.
Proof. intros [Hf Hp Hn Hc Hd]. destruct s. simpl in *. by subst. Qed.

(** The log is synced once all of [log_ops] have been performed. *)
Lemma synced_log_ops ps pages k :
  WalSync ∈ take k (log_ops ps pages ++ replay_ops pages) -> (4 <= k)%nat.
Proof.
  intros H. destruct k as [|[|[|[|k]]]]; [..|lia]; exfalso; simpl in H;
    repeat (apply elem_of_cons in H as [?|H]; [done|]); by apply elem_of_nil in H.
Qed.

(** A crash after [k] operations of a commit. *)
Lemma commit_crash ps pages f s k f' w :
  pages_ok ps pages -> sliceable pages -> disk_at_rest ps f s -> crash ps (exec ps s (take k (log_ops ps pages ++ replay_ops pages))) f' w ->
  recoverable ps (apply_pages ps pages f) f' w \/
  ((k < 4)%nat /\ f' = f /\
    (recoverable ps f f' w \/
     exists bs, w = Some bs /\ (forall r, parse_wal ps bs <> Ok r) /\ ~ bs `prefix_of` log_of ps pages)).
Proof.
  intros Hok Hal Hs Hc. destruct (decide (k < 4)%nat) as [Hk|Hk].
  - rewrite take_app_le in Hc by (simpl; lia).
    destruct (logging_crash _ _ _ _ _ _ Hok Hal (log_phase ps pages f s k Hs Hk) Hc) as [-> [?|?]]; [by left|by right].
  - left. rewrite take_app_ge in Hc by (simpl; lia). rewrite exec_app, (logged ps pages f s Hs) in Hc.
    eapply replaying_crash; [done|by apply parse_log|apply replay_phase|exact Hc].
Qed.

(** A commit that runs to its end. *)
Lemma commit_rests ps pages f s :
  pages_ok ps pages -> sliceable pages -> disk_at_rest ps f s ->
  disk_at_rest ps (apply_pages ps pages f) (exec ps s (log_ops ps pages ++ replay_ops pages)).
Proof.
  intros Hok Hal Hs. rewrite exec_app, (logged ps pages f s Hs). unfold replay_ops. rewrite exec_app, exec_page_writes.
  simpl. split; [done..|]. right. exists pages. split; [done|]. split; [by apply parse_log|].
  apply apply_pages_idem. by eapply pages_ok_nonempty.
Qed.

(** A crash of recovery leaves files from which recovery makes the same. *)
Lemma recoverable_crash ps g f w d m f1 w1 :
  recoverable ps g f w -> reopened ps f w d ->
  crash ps (exec ps (restarted f w) (take m (disk_ops recoverWAL d))) f1 w1 -> recoverable ps g f1 w1.
Proof.
  intros Hr Hd Hc. pose proof (re_ps _ _ _ _ Hd) as <-. destruct w as [bs|]; [destruct Hr as [[Hp ->]|(pages & Hok & Hp & <-)]|].
  - rewrite (recover_disk_ops_incomplete d g bs Hd Hp) in Hc.
    destruct m as [|m]; [|cbn [take] in Hc; rewrite take_nil in Hc]; destruct Hc as [->%torn_nothing Hw]; inversion Hw; simplify_eq/=;
      try done; by left.
  - rewrite (recover_disk_ops pages d f bs Hd Hok Hp) in Hc. eapply replaying_crash; [done|done|apply replay_phase|exact Hc].
  - simpl in Hr. subst g. rewrite (recover_disk_ops_none d f Hd), take_nil in Hc.
    destruct Hc as [->%torn_nothing Hw]. by inversion Hw; simplify_eq/=.
Qed.

Lemma recovering_recoverable ps g k k' :
  recovering ps k k' -> recoverable ps g k.1 k.2 -> recoverable ps g k'.1 k'.2.
Proof. induction 1 as [f w|f w d m f1 w1 f2 w2 Hd Hc _ IH]; intros Hr; [done|]. apply IH. by eapply recoverable_crash. Qed.

(** A refused log stays where it is, however often the database is opened. *)
Lemma recovering_refused ps k k' :
  recovering ps k k' -> (exists bs, k.2 = Some bs /\ forall r, parse_wal ps bs <> Ok r) -> k' = k.
Proof.
  induction 1 as [f w|f w d m f1 w1 f2 w2 Hd Hc _ IH]; intros (bs & E & Hp); [done|]. simpl in E. subst w.
  pose proof (re_ps _ _ _ _ Hd) as <-. assert (disk_ops recoverWAL d = []) as E0.
  { unfold disk_ops, recoverWAL, readWAL. rewrite bind_assoc. mrun. cbn [device_dal recorder_device rec_dal].
    rewrite (re_wal _ _ _ _ Hd). unfold mbind, M_bind, liftO.
    destruct (parse_wal (pageSize d) bs) as [r| | | |]; [by destruct (Hp r)|done..]. }
  rewrite E0, take_nil in Hc. destruct Hc as [->%torn_nothing Hw].
  assert (w1 = Some bs) as -> by (inversion Hw; simplify_eq/=; done). apply IH. by exists bs.
Qed.

(** ** Properties *)


(** Two pages of four bytes; the old log is still on the disk, the crash comes
    after the first page write was issued and leaves garbage in that page. *)
Definition demo_old : list page := [Page 1 [0; 0; 0; 0]].
Definition demo_rest : vdisk := VDisk (replicate 8 0) [] (Some (log_of 4 demo_old)) None false.

Lemma demo_old_ok : pages_ok 4 demo_old.
Proof. split; repeat constructor; simpl; lia. Qed.

Lemma demo_at_rest : disk_at_rest 4 (replicate 8 0) demo_rest.
Proof. split; [done..|]. right. exists demo_old. split; [apply demo_old_ok|]. split; [apply parse_log; [apply demo_old_ok|done]|done]. Qed.

Lemma demo_torn : torn 4 (replicate 8 0) [Page 1 [1; 2; 3; 4]] [0; 0; 0; 0; 9; 9; 9; 9].
Proof.
  split; [vm_compute; lia|]. intros i H. apply Forall_cons in H as [H _].
  unfold covers in H. simpl in H.
  destruct (decide (i < 8)%nat) as [Hi|Hi].
  - do 4 (destruct i as [|i]; [done|]). destruct H. lia.
  - unfold rd. by rewrite !lookup_ge_None_2 by (simpl; lia).
Qed.


(** C16: recovery may itself crash, at any of its disk operations and any number
    of times.  From a file on which a crash has torn the pages of a complete
    log, however often an open is cut short by a crash, the open that is not
    ends with all the pages of the log in the file and no log. *)
Theorem recovery_restartable ps pages pend f f0 lg f' w d :
  pages_ok ps pages -> parse_wal ps lg = Ok (Some pages) -> pend `prefix_of` pages -> torn ps f pend f0 ->
  recovering ps (f0, Some lg) (f', w) -> reopened ps f' w d -> recovered (apply_pages ps pages f) d.
Proof.
  intros Hok Hp Hpend Ht Hrec Hd. apply (recoverable_recovered ps _ f' w); [|done].
  apply (recovering_recoverable ps _ _ _ Hrec). by apply (recoverable_log ps pages f f0 pend).
Qed.

(** Recovery crashes after it has written the first page again, which comes out
    as garbage again. *)
Lemma recovery_restartable_witness :
  recovered [5; 6; 7; 8; 1; 2; 3; 4] (demo_dal [0; 0; 0; 0; 9; 9; 9; 9] (Some (log_of 4 demo_pages))).
Proof.
  apply (recovery_restartable 4 demo_pages [] (replicate 8 0) (replicate 8 0) (log_of 4 demo_pages)
    [0; 0; 0; 0; 9; 9; 9; 9] (Some (log_of 4 demo_pages))).
  - apply demo_pages_ok.
  - apply parse_log; [apply demo_pages_ok|done].
  - apply prefix_nil.
  - split; [done|by intros].
  - apply (recovering_crash 4 (replicate 8 0) (Some (log_of 4 demo_pages))
      (demo_dal (replicate 8 0) (Some (log_of 4 demo_pages))) 1 [0; 0; 0; 0; 9; 9; 9; 9] (Some (log_of 4 demo_pages))).
    + split; reflexivity.
    + split; [apply demo_torn|]. constructor.
    + constructor.
  - split; reflexivity.
Defined.

(** C38: a torn log stops the database from opening.  When the crash comes before
    the sync of the log and leaves the log at its full length with other records
    than were written (zeros, say), recovery fails with a checksum error, although
    the file is the intact one of before the commit. *)
Theorem torn_log_is_refused ps pages f s d0 torn_records d :
  pages_ok ps pages -> sliceable pages -> disk_at_rest ps f s -> pageSize d0 = ps -> open_with d0 f ->
  length torn_records = length (encode_records pages) ->
  ChecksumIEEE torn_records <> ChecksumIEEE (encode_records pages) ->
  let w := Some (wal_header ps (length pages) (encode_records pages) ++ torn_records) in
  crash ps (exec ps s (take 3 (disk_ops (applyPagesWithWAL pages) d0))) f w /\
  (reopened ps f w d -> recoverWAL d = (Err ErrWalChecksum, d)).
Proof.
  intros Hok Hal Hs <- Ho Hl Hne w. rewrite (commit_disk_ops pages d0 f Ho Hok).
  pose proof Hs as [Hf Hp _ _ _]. destruct s as [fd fp wd wn wc]. simpl in Hf, Hp. subst fd fp.
  assert (parse_wal (pageSize d0) (wal_header (pageSize d0) (length pages) (encode_records pages) ++ torn_records) =
    Err ErrWalChecksum) as Ep.
  { pose proof (pages_ok_lengths _ _ Hok) as Hls. destruct Hok as [Hps Hlen Hnum Hcnt]. rewrite wal_header_split.
    unfold sliceable in Hal. rewrite parse_wal_header; [|done|lia|lia|apply ChecksumIEEE_range].
    rewrite decide_False by (rewrite Hl, (length_encode_records (Z.to_nat (pageSize d0))) by done; lia).
    by rewrite decide_True. }
  split.
  - split; [split; [done|by intros]|]. apply crash_wal_torn; [done|]. intros pages' E. congruence.
  - intros [Eps _ _ Hw]. unfold recoverWAL, readWAL. rewrite bind_assoc. mrun. cbn [device_dal dal_device].
    unfold w in Hw. by rewrite Hw, Eps, Ep.
Qed.

Lemma torn_log_is_refused_witness :
  let w := Some (wal_header 4 2 (encode_records demo_pages) ++ replicate 24 0) in
  crash 4 (exec 4 demo_rest (take 3 (disk_ops (applyPagesWithWAL demo_pages) (demo_dal (replicate 8 0) None)))) (replicate 8 0) w /\
  (reopened 4 (replicate 8 0) w (demo_dal (replicate 8 0) w) ->
   recoverWAL (demo_dal (replicate 8 0) w) = (Err ErrWalChecksum, demo_dal (replicate 8 0) w)).
Proof.
  apply (torn_log_is_refused 4 demo_pages (replicate 8 0) demo_rest (demo_dal (replicate 8 0) None)).
  - apply demo_pages_ok.
  - done.
  - apply demo_at_rest.
  - reflexivity.
  - by split.
  - reflexivity.
  - vm_compute. discriminate.
Defined.
