(* ===== verification/GoSlice.v ===== *)
(** * Go slices over shared backing arrays

    [node.go] keeps a node's items and children in slices and cuts, appends to
    and stores into them in place.  Two slices of one array see each other's
    writes, and an [append] that fits the capacity writes into the array, so
    the tree code is modelled over a store of backing arrays.  A slice is a
    window [off, off + len) of an array, with capacity up to [off + cap). *)

From S2P Require Import Prelude.

(** What the Go runtime chooses: the capacity [append] gives a reallocated
    slice, from the old capacity and the length needed.  The language promises
    only that it is large enough. *)
Class GoRuntime := {
  growcap : nat -> nat -> nat;
  growcap_ge : forall old needed, needed <= growcap old needed
}.

(** The rule the Go runtime documents for small slices: double the capacity,
    unless more is needed. *)
#[export, refine] Instance go_doubling : GoRuntime := {
  growcap old needed := Nat.max needed (2 * old)
}.
Proof. intros. lia. Defined.

Record slice := Slice {
  s_arr : option nat;
  s_off : nat;
  s_len : nat;
  s_cap : nat
}.

#[export] Instance slice_eq_dec : EqDecision slice.
Proof. solve_decision. Defined.

Definition nil_slice : slice := Slice None 0 0 0.

Section slices.
Context {A : Type} {InhA : Inhabited A}.

(** Backing arrays, by number. *)
Abbreviation store := (list (list A)).

Definition arr (st : store) (s : slice) : list A :=
  match s_arr s with Some a => default [] (st !! a) | None => [] end.

(** The elements a slice shows. *)
Definition view (st : store) (s : slice) : list A := sub_list (s_off s) (s_len s) (arr st s).

Definition write_arr (st : store) (s : slice) (pos : nat) (xs : list A) : store :=
  match s_arr s with Some a => <[a := splice pos xs (arr st s)]> st | None => st end.

(** A composite literal, [[]T{x, ...}], has a backing array of its own. *)
Definition literal (xs : list A) (st : store) : slice * store :=
  (Slice (Some (length st)) 0 (length xs) (length xs), st ++ [xs]).

(** [append(s, xs...)]: in place when the capacity allows, else a copy. *)
Definition append {RT : GoRuntime} (s : slice) (xs : list A) (st : store) : slice * store :=
  let needed := s_len s + length xs in
  if decide (needed <= s_cap s) then
    (Slice (s_arr s) (s_off s) needed (s_cap s), write_arr st s (s_off s + s_len s) xs)
  else
    let cap := growcap (s_cap s) needed in
    (Slice (Some (length st)) 0 needed cap,
     st ++ [view st s ++ xs ++ replicate (cap - needed) inhabitant]).

(** [append] called once per element, as [deserialize] does. *)
Fixpoint append_each {RT : GoRuntime} (s : slice) (xs : list A) (st : store) : slice * store :=
  match xs with
  | [] => (s, st)
  | x :: xs => let '(s, st) := append s [x] st in append_each s xs st
  end.

(** [s[lo:hi]], [s[lo:]], [s[:hi]]: the upper bound may reach the capacity. *)
Definition subslice (s : slice) (lo hi : nat) : out slice :=
  if decide (lo <= hi /\ hi <= s_cap s) then Ok (Slice (s_arr s) (s_off s + lo) (hi - lo) (s_cap s - lo))
  else Panic.
Definition slice_from (s : slice) (lo : nat) : out slice := subslice s lo (s_len s).
Definition slice_to (s : slice) (hi : nat) : out slice := subslice s 0 hi.

(** [s[i]] and [s[i] = x]. *)
Definition index (s : slice) (i : nat) (st : store) : out A := of_option (view st s !! i).
Definition store_at (s : slice) (i : nat) (x : A) (st : store) : out store :=
  if decide (i < s_len s) then Ok (write_arr st s (s_off s + i) [x]) else Panic.
End slices.

(** ** Laws *)

(** The window lies in its array. *)
Definition slice_ok {A} (st : list (list A)) (s : slice) : Prop :=
  s_len s <= s_cap s /\
  match s_arr s with
  | Some a => exists l, st !! a = Some l /\ s_off s + s_cap s <= length l
  | None => s_cap s = 0
  end.

(** No element that [t] shows lies in positions [lo, hi) of [s]'s array. *)
Definition apart (s t : slice) (lo hi : nat) : Prop :=
  s_arr s <> s_arr t \/ s_off t + s_len t <= lo \/ hi <= s_off t \/ s_len t = 0.

(** The two preconditions of in-place updates: [t] shows nothing in the spare
    capacity of [s] (so appending to [s] leaves [t] alone), and nothing in the
    elements of [s] (so storing into [s] does). *)
Definition spare_apart (s t : slice) : Prop := apart s t (s_off s + s_len s) (s_off s + s_cap s).
Definition live_apart (s t : slice) : Prop := apart s t (s_off s) (s_off s + s_len s).

Section laws.
Context {A : Type} {InhA : Inhabited A} {RT : GoRuntime}.
Implicit Types (st : list (list A)) (s t : slice) (xs : list A).

Lemma length_arr st s : slice_ok st s -> s_off s + s_cap s <= length (arr st s) \/ s_cap s = 0.
Proof.
  intros [_ H]. unfold arr. destruct (s_arr s) as [a|]; [|by right].
  destruct H as (l & -> & ?). by left.
Qed.

Lemma length_view st s : slice_ok st s -> length (view st s) = s_len s.
Proof.
  intros H. destruct (length_arr st s H); destruct H as [? _]; unfold view, sub_list;
    rewrite length_take, length_drop; lia.
Qed.

Lemma view_nil st : view st nil_slice = [].
Proof. done. Qed.

Lemma arr_write_same st s pos xs :
  is_Some (s_arr s) -> slice_ok st s -> arr (write_arr st s pos xs) s = splice pos xs (arr st s).
Proof.
  intros [a Ha] [_ H]. unfold write_arr, arr in *. rewrite Ha in *. destruct H as (l & Hl & _).
  rewrite Hl, list_lookup_insert_eq; [done|]. by eapply lookup_lt_Some.
Qed.

Lemma arr_write_other st s t pos xs : s_arr s <> s_arr t -> arr (write_arr st s pos xs) t = arr st t.
Proof.
  intros H. unfold write_arr, arr. destruct (s_arr s) as [a|]; [|done].
  destruct (s_arr t) as [b|]; [|done]. rewrite list_lookup_insert_ne; [done|]. congruence.
Qed.

Lemma view_eq st st' s : arr st s = arr st' s -> view st s = view st' s.
Proof. unfold view. by intros ->. Qed.

(** A write that misses a window does not show in it. *)
Lemma view_write_apart st s t pos xs :
  slice_ok st s -> slice_ok st t -> s_off s <= pos -> pos + length xs <= s_off s + s_cap s ->
  apart s t pos (pos + length xs) -> view (write_arr st s pos xs) t = view st t.
Proof.
  intros Hs Ht Hpos Hfit Hap.
  destruct (decide (s_arr s = s_arr t)) as [E|E]; [|apply view_eq; by apply arr_write_other].
  destruct (s_arr s) as [a|] eqn:Ea; [|apply view_eq; unfold write_arr; by rewrite Ea].
  assert (arr (write_arr st s pos xs) t = splice pos xs (arr st t)) as Earr.
  { pose proof (arr_write_same st s pos xs ltac:(by rewrite Ea) Hs) as H.
    unfold arr in *. rewrite Ea in H. rewrite <- E. done. }
  destruct (length_arr st s Hs) as [Hl|Hl].
  2:{ unfold view. rewrite Earr. unfold splice.
      assert (length xs = 0) as ->%length_zero_iff_nil by lia.
      rewrite app_nil_l, Nat.add_0_r. by rewrite take_drop. }
  assert (arr st s = arr st t) as Est by (unfold arr; by rewrite Ea, <- E). rewrite Est in Hl.
  unfold view. rewrite Earr. destruct Hap as [?|[?|[?|Hz]]]; [congruence|..].
  - by rewrite sub_splice_before by lia.
  - by rewrite sub_splice_after by lia.
  - by rewrite Hz.
Qed.

Lemma slice_ok_write st s t pos xs :
  slice_ok st s -> slice_ok st t -> s_off s <= pos -> pos + length xs <= s_off s + s_cap s ->
  slice_ok (write_arr st s pos xs) t.
Proof.
  intros Hs [Hlc Ht] Hpos Hfit. split; [done|].
  unfold write_arr. destruct (s_arr s) as [a|] eqn:Ea; [|done].
  destruct (s_arr t) as [b|]; [|done]. destruct Ht as (l & Hl & Hcap).
  destruct (decide (a = b)) as [<-|Hab].
  - exists (splice pos xs (arr st s)).
    rewrite list_lookup_insert_eq by (by eapply lookup_lt_Some). split; [done|].
    destruct Hs as [Hs1 Hs2]. rewrite Ea in Hs2. destruct Hs2 as (l' & Hl' & Hcap').
    unfold arr. rewrite Ea, Hl'. simpl. assert (l = l') as -> by congruence.
    rewrite length_splice by lia. done.
  - exists l. by rewrite list_lookup_insert_ne.
Qed.

(** What an append leaves: [s'] shows the old elements, then the new ones; the
    other slices are legal still and, unless they look into the spare capacity
    of [s], show what they showed. *)
Definition appended (st : list (list A)) (s : slice) (xs : list A) (s' : slice) (st' : list (list A)) : Prop :=
  view st' s' = view st s ++ xs /\ slice_ok st' s' /\
  (forall t, slice_ok st t -> slice_ok st' t) /\
  (forall t, slice_ok st t -> spare_apart s t -> view st' t = view st t).

Lemma append_in_place st s xs :
  slice_ok st s -> s_len s + length xs <= s_cap s ->
  appended st s xs (Slice (s_arr s) (s_off s) (s_len s + length xs) (s_cap s))
    (write_arr st s (s_off s + s_len s) xs).
Proof.
  intros Hs Hfit.
  assert (slice_ok (write_arr st s (s_off s + s_len s) xs)
      (Slice (s_arr s) (s_off s) (s_len s + length xs) (s_cap s))) as Hok'.
  { assert (slice_ok st (Slice (s_arr s) (s_off s) (s_len s + length xs) (s_cap s))) as H
      by (destruct Hs as [_ H]; split; [simpl; lia|exact H]).
    apply slice_ok_write; [done|done|lia|lia]. }
  split; [|split; [done|split]].
  + unfold view at 1. cbn [s_off s_len].
    destruct (s_arr s) as [a|] eqn:Ea.
    2:{ destruct Hs as [Hl Hs]. rewrite Ea in Hs.
        assert (length xs = 0) as Hx%length_zero_iff_nil by lia. subst. unfold write_arr. rewrite Ea.
        rewrite app_nil_r, Nat.add_0_r. unfold view, arr. rewrite Ea. done. }
    assert (arr (write_arr st s (s_off s + s_len s) xs)
        (Slice (Some a) (s_off s) (s_len s + length xs) (s_cap s)) =
      splice (s_off s + s_len s) xs (arr st s)) as ->.
    { pose proof (arr_write_same st s (s_off s + s_len s) xs ltac:(by rewrite Ea) Hs) as H.
      unfold arr in *. simpl. rewrite Ea in *. exact H. }
    destruct (length_arr st s Hs) as [Hl|Hl].
    2:{ assert (length xs = 0) as Hx%length_zero_iff_nil by lia. subst. unfold splice.
        rewrite app_nil_l, app_nil_r, !Nat.add_0_r. by rewrite take_drop. }
    rewrite sub_list_app. f_equal.
    * apply sub_splice_before; lia.
    * apply sub_splice_same. lia.
  + intros t Ht. apply slice_ok_write; [done|done|lia|lia].
  + intros t Ht Hap. apply view_write_apart; [done|done|lia|lia|].
    unfold spare_apart, apart in *. naive_solver lia.
Qed.

Lemma append_moves st s xs cap :
  slice_ok st s -> s_len s + length xs <= cap ->
  appended st s xs (Slice (Some (length st)) 0 (s_len s + length xs) cap)
    (st ++ [view st s ++ xs ++ replicate (cap - (s_len s + length xs)) inhabitant]).
Proof.
  intros Hs Hg.
  set (new := view st s ++ xs ++ _).
  assert (length new = cap) as Hnew.
  { unfold new. rewrite !length_app, length_replicate, length_view by done. lia. }
  assert (forall t, slice_ok st t -> arr (st ++ [new]) t = arr st t) as Harr.
  { intros t [_ Ht]. unfold arr. destruct (s_arr t) as [b|]; [|done].
    destruct Ht as (l & Hl & _). by rewrite (lookup_app_l_Some _ _ _ _ Hl), Hl. }
  split; [|split; [|split]].
  + unfold view at 1, arr. cbn [s_arr s_off s_len].
    rewrite (list_lookup_middle st [] new) by done. simpl. unfold new. rewrite app_assoc.
    apply sub_list_app_take. by rewrite length_app, length_view.
  + split; [done|]. cbn [s_arr s_off s_cap]. exists new.
    rewrite (list_lookup_middle st [] new) by done. split; [done|]. lia.
  + intros t [Ht1 Ht]. split; [done|]. destruct (s_arr t) as [b|]; [|done].
    destruct Ht as (l & Hl & ?). exists l. by rewrite (lookup_app_l_Some _ _ _ _ Hl).
  + intros t Ht _. apply view_eq. by apply Harr.
Qed.

(** Appending shows the old elements, then the new ones. *)
Lemma append_spec st s xs : slice_ok st s -> let '(s', st') := append s xs st in appended st s xs s' st'.
Proof.
  intros Hs. unfold append. case_decide; [by apply append_in_place|].
  apply append_moves; [done|]. apply growcap_ge.
Qed.

Lemma subslice_spec st s lo hi s' :
  slice_ok st s -> subslice s lo hi = Ok s' -> hi <= s_len s ->
  view st s' = sub_list lo (hi - lo) (view st s) /\ slice_ok st s'.
Proof.
  intros Hs E Hhi. unfold subslice in E. case_decide as Hb; [|done]. simplify_eq. split.
  - unfold view. cbn [s_off s_len]. rewrite sub_list_sub by lia. done.
  - destruct Hs as [Hl Hs]. split; [simpl; lia|]. cbn [s_arr s_off s_cap].
    destruct (s_arr s) as [a|]; [|lia]. destruct Hs as (l & ? & ?). exists l. split; [done|lia].
Qed.

Lemma store_at_spec st s i x st' :
  slice_ok st s -> store_at s i x st = Ok st' ->
  view st' s = <[i := x]> (view st s) /\ (forall t, slice_ok st t -> slice_ok st' t) /\
  (forall t, slice_ok st t -> live_apart s t -> view st' t = view st t).
Proof.
  intros Hs E. unfold store_at in E. case_decide as Hi; [|done]. simplify_eq.
  pose proof Hs as [Hlc Hs'].
  split; [|split].
  - destruct (s_arr s) as [a|] eqn:Ea; [|lia]. destruct (length_arr st s Hs) as [Hl|?]; [|lia].
    unfold view. rewrite (arr_write_same st s (s_off s + i) [x]) by (done || by rewrite Ea).
    apply list_eq. intros j. destruct (decide (j < s_len s)).
    2:{ rewrite !lookup_ge_None_2; [done|..]; rewrite ?length_insert; unfold sub_list;
        rewrite length_take; lia. }
    rewrite sub_list_lookup by done. destruct (decide (j = i)) as [-> | Hne].
    + rewrite list_lookup_insert_eq by (rewrite length_sub_list; lia).
      unfold splice. rewrite lookup_app_r by (rewrite length_take; lia).
      rewrite length_take, Nat.min_l by lia. by rewrite Nat.sub_diag.
    + rewrite list_lookup_insert_ne by done. rewrite sub_list_lookup by done.
      unfold splice. destruct (decide (j < i)).
      * rewrite lookup_app_l by (rewrite length_take; lia). by rewrite lookup_take_lt by lia.
      * rewrite lookup_app_r by (rewrite length_take; lia). rewrite length_take, Nat.min_l by lia.
        rewrite lookup_app_r by (simpl; lia). rewrite lookup_drop. f_equal. simpl. lia.
  - intros t Ht. apply slice_ok_write; [done|done|lia|simpl; lia].
  - intros t Ht Hap. apply view_write_apart; [done|done|lia|simpl; lia|].
    unfold live_apart, apart in *. simpl. naive_solver lia.
Qed.
(** A slice whose array, if any, is not among the first [n]. *)
Definition fresh_from (n : nat) (s : slice) : Prop :=
  match s_arr s with Some a => n <= a | None => True end.

Lemma append_fresh n st s xs :
  fresh_from n s -> n <= length st ->
  let '(s', st') := append s xs st in
  fresh_from n s' /\ n <= length st' /\ take n st' = take n st.
Proof.
  intros Hs Hn. unfold append. case_decide.
  - unfold fresh_from, write_arr in *. cbn [s_arr]. destruct (s_arr s) as [a|]; [|done].
    rewrite length_insert. split; [done|]. split; [done|]. by rewrite take_insert_ge.
  - unfold fresh_from. cbn [s_arr]. rewrite length_app. split; [done|]. split; [lia|].
    by rewrite take_app_le.
Qed.

Lemma append_each_spec n st s xs :
  slice_ok st s -> fresh_from n s -> n <= length st ->
  let '(s', st') := append_each s xs st in
  view st' s' = view st s ++ xs /\ slice_ok st' s' /\ fresh_from n s' /\ take n st' = take n st.
Proof.
  revert st s. induction xs as [|x xs IH]; intros st s Hs Hf Hn; cbn [append_each].
  - by rewrite app_nil_r.
  - pose proof (append_spec st s [x] Hs) as Ha. pose proof (append_fresh n st s [x] Hf Hn) as Hb.
    destruct (append s [x] st) as [s1 st1]. destruct Ha as (Hv & Hok & _). destruct Hb as (Hf1 & Hn1 & Ht1).
    specialize (IH st1 s1 Hok Hf1 Hn1). destruct (append_each s1 xs st1) as [s2 st2].
    destruct IH as (Hv2 & Hok2 & Hf2 & Ht2). split; [|split; [done|split; [done|congruence]]].
    rewrite Hv2, Hv, <- app_assoc. done.
Qed.

Lemma view_prefix st st' s : slice_ok st s -> st `prefix_of` st' -> view st' s = view st s.
Proof.
  intros [_ Hs] [k ->]. apply view_eq. unfold arr. destruct (s_arr s) as [a|]; [|done].
  destruct Hs as (l & Hl & _). by rewrite (lookup_app_l_Some _ _ _ _ Hl), Hl.
Qed.

Lemma slice_ok_prefix st st' s : slice_ok st s -> st `prefix_of` st' -> slice_ok st' s.
Proof.
  intros [Hl Hs] [k ->]. split; [done|]. destruct (s_arr s) as [a|]; [|done].
  destruct Hs as (l & Hl' & ?). exists l. by rewrite (lookup_app_l_Some _ _ _ _ Hl').
Qed.

(** Slices of different generations of arrays are apart. *)
Lemma fresh_apart st st' s t lo hi :
  slice_ok st s -> slice_ok st' t -> fresh_from (length st) t -> apart s t lo hi.
Proof.
  intros [_ Hs] [Hc Ht] Hf. unfold apart, fresh_from in *. destruct (s_arr t) as [b|]; [|right; lia].
  left. destruct (s_arr s) as [a|]; [|done]. destruct Hs as (l & Hl & _).
  apply lookup_lt_Some in Hl. intros [= ->]. lia.
Qed.

Lemma fresh_apart_l st st' s t lo hi :
  slice_ok st s -> fresh_from (length st') s -> slice_ok st' t -> apart s t lo hi.
Proof.
  intros _ Hf [Hc Ht]. unfold apart, fresh_from in *. destruct (s_arr t) as [b|]; [|right; lia].
  destruct Ht as (l & Hl & _). apply lookup_lt_Some in Hl. left.
  destruct (s_arr s) as [a|]; [|done]. intros [= ->]. lia.
Qed.
End laws.

(** ** Slices that own their region of the array

    The region of a slice is [off, off + cap): what in-place appends and stores
    can reach.  Programs that cut, append to and store into one slice stay
    within its region or move to a new array; [slice_step] is that relation. *)

Definition region_apart (s t : slice) : Prop :=
  s_arr s <> s_arr t \/ s_off s + s_cap s <= s_off t \/ s_off t + s_cap t <= s_off s.

Definition sub_region (s' s : slice) : Prop :=
  s_arr s' = s_arr s /\ s_off s <= s_off s' /\ s_off s' + s_cap s' <= s_off s + s_cap s.

(** [s'] lives in the region of [s], or in an array newer than the first [n]. *)
Definition within (n : nat) (s' s : slice) : Prop :=
  sub_region s' s \/ (is_Some (s_arr s') /\ fresh_from n s').

Record slice_step {A} (st st' : list (list A)) (s s' : slice) : Prop := {
  step_grow : length st <= length st';
  step_ok : slice_ok st' s';
  step_keep : forall t, slice_ok st t -> slice_ok st' t;
  step_within : within (length st) s' s;
  step_frame : forall t, slice_ok st t -> region_apart s t -> view st' t = view st t
}.

#[export] Instance region_apart_sym : Symmetric region_apart.
Proof. intros s t. unfold region_apart. naive_solver. Qed.

Section steps.
Context {A : Type} {InhA : Inhabited A} {RT : GoRuntime}.
Implicit Types (st : list (list A)) (s t : slice) (xs : list A).

Lemma within_apart n s' s t st :
  within n s' s -> slice_ok st t -> length st <= n -> region_apart s t -> region_apart s' t.
Proof.
  intros [(E & H1 & H2)|[[a Ha] Hf]] [Hc Ht] Hn Hs; unfold region_apart, fresh_from in *.
  - rewrite E. intuition lia.
  - rewrite Ha in *. left. intros Hb. rewrite <- Hb in Ht. destruct Ht as (l & Hl & _).
    apply lookup_lt_Some in Hl. lia.
Qed.

Lemma fresh_region_apart st st' s t :
  slice_ok st t -> fresh_from (length st) s -> slice_ok st' s -> region_apart s t.
Proof.
  intros [_ Ht] Hf [_ Hs]. unfold region_apart, fresh_from in *.
  destruct (s_arr s) as [a|], (s_arr t) as [b|]; [|by left..|lia].
  destruct Ht as (l & Hl & _). apply lookup_lt_Some in Hl. left. intros [= ->]. lia.
Qed.

Lemma within_refl n s : within n s s.
Proof. left. by split. Qed.

Lemma within_trans n m s1 s2 s3 : n <= m -> within m s3 s2 -> within n s2 s1 -> within n s3 s1.
Proof.
  intros Hnm [(E & H1 & H2)|[[a Ha] Hf]] H.
  - destruct H as [(E' & H3 & H4)|[Ha Hf]].
    + left. split; [congruence|lia].
    + right. unfold fresh_from in *. by rewrite E.
  - right. unfold fresh_from in *. rewrite Ha in *. split; [done|lia].
Qed.

Lemma slice_step_refl st s : slice_ok st s -> slice_step st st s s.
Proof. intros. split; auto using within_refl. Qed.

Lemma slice_step_trans st1 st2 st3 s1 s2 s3 :
  slice_step st1 st2 s1 s2 -> slice_step st2 st3 s2 s3 -> slice_step st1 st3 s1 s3.
Proof.
  intros [G1 O1 K1 W1 F1] [G2 O2 K2 W2 F2]. split; auto.
  - lia.
  - by eapply within_trans.
  - intros t Ht Hap. rewrite F2; [by apply F1|by apply K1|].
    by eapply within_apart.
Qed.

Lemma subslice_step st s lo hi s' :
  slice_ok st s -> subslice s lo hi = Ok s' -> slice_step st st s s'.
Proof.
  intros Hs E. unfold subslice in E. case_decide as Hb; [|done]. simplify_eq. split; auto.
  - destruct Hs as [Hl Hs]. split; [simpl; lia|]. cbn [s_arr s_off s_cap].
    destruct (s_arr s) as [a|]; [|lia]. destruct Hs as (l & ? & ?). exists l. split; [done|lia].
  - left. split; [done|simpl; lia].
Qed.

Lemma region_spare s t :
  s_len s <= s_cap s -> s_len t <= s_cap t -> region_apart s t -> spare_apart s t /\ live_apart s t.
Proof. intros Hs Ht. unfold region_apart, spare_apart, live_apart, apart. intuition lia. Qed.

Lemma append_step st s xs :
  slice_ok st s ->
  let '(s', st') := append s xs st in
  slice_step st st' s s' /\ view st' s' = view st s ++ xs.
Proof.
  intros Hs. pose proof (append_spec st s xs Hs) as H. unfold append in *. case_decide as Hfit.
  - destruct H as (Hv & Hok & Hk & Hf). split; [|done]. split; auto.
    + unfold write_arr. destruct (s_arr s); [by rewrite length_insert|done].
    + left. by split.
    + intros t Ht Hap. apply Hf; [done|]. apply region_spare; [apply Hs|apply Ht|done].
  - destruct H as (Hv & Hok & Hk & Hf). split; [|done]. split; auto.
    + rewrite length_app. lia.
    + right. split; [done|]. unfold fresh_from. simpl. lia.
    + intros t Ht Hap. apply Hf; [done|]. apply region_spare; [apply Hs|apply Ht|done].
Qed.

Lemma store_at_ok st s i x :
  slice_ok st s -> i < s_len s ->
  exists st', store_at s i x st = Ok st' /\ slice_step st st' s s /\ view st' s = <[i := x]> (view st s).
Proof.
  intros Hs Hi. exists (write_arr st s (s_off s + i) [x]).
  assert (store_at s i x st = Ok (write_arr st s (s_off s + i) [x])) as E
    by (unfold store_at; by rewrite decide_True).
  pose proof (store_at_spec st s i x _ Hs E) as (Hv & Hk & Hf).
  split; [done|]. split; [|done]. split; auto using within_refl.
  - unfold write_arr. destruct (s_arr s); [by rewrite length_insert|done].
  - intros t Ht Hap. apply Hf; [done|]. apply region_spare; [apply Hs|apply Ht|done].
Qed.

(** Cutting a slice always succeeds inside its length, and shows the part. *)
Lemma slice_to_ok st s hi :
  slice_ok st s -> hi <= s_len s ->
  exists s', slice_to s hi = Ok s' /\ slice_step st st s s' /\ view st s' = take hi (view st s) /\ s_len s' = hi.
Proof.
  intros Hs Hhi. eexists. unfold slice_to, subslice. rewrite decide_True by (destruct Hs; lia).
  split; [done|]. assert (subslice s 0 hi = Ok (Slice (s_arr s) (s_off s + 0) (hi - 0) (s_cap s - 0))) as E
    by (unfold subslice; rewrite decide_True; [done|destruct Hs; lia]).
  split; [by eapply subslice_step|]. split; [|simpl; lia].
  destruct (subslice_spec st s 0 hi _ Hs E Hhi) as [-> _]. unfold sub_list. by rewrite drop_0, Nat.sub_0_r.
Qed.

Lemma slice_from_ok st s lo :
  slice_ok st s -> lo <= s_len s ->
  exists s', slice_from s lo = Ok s' /\ slice_step st st s s' /\ view st s' = drop lo (view st s) /\
    s_len s' = s_len s - lo.
Proof.
  intros Hs Hlo. eexists. unfold slice_from.
  assert (subslice s lo (s_len s) = Ok (Slice (s_arr s) (s_off s + lo) (s_len s - lo) (s_cap s - lo))) as E
    by (unfold subslice; rewrite decide_True; [done|destruct Hs; lia]).
  split; [exact E|]. split; [by eapply subslice_step|]. split; [|done].
  destruct (subslice_spec st s lo (s_len s) _ Hs E (le_n _)) as [-> _]. unfold sub_list.
  apply take_ge. rewrite length_drop, length_view by done. lia.
Qed.
End steps.
