(* ===== verification/World.v ===== *)
(** * The state of a transaction: heap objects, [Tx], [DB]

    A transaction's code mutates three kinds of shared objects: [Node]s (reached
    through [tx.dirtyNodes] and through pointers the tree code holds),
    [Collection]s, and the backing arrays of the nodes' slices.  A [world] is
    the store of these objects together with the transaction record and the
    database it belongs to; the code of [node.go], [collection.go] and [tx.go]
    is modelled as [M world] programs.  A [Node]'s and a [Collection]'s [tx]
    field always points to the one transaction of the world, so it is left out
    of [nodeRef] and is the flag [c_hasTx] in [collection]. *)

From S2P Require Import Prelude Freelist Meta Node Float32 Dal GoSlice.

Open Scope Z_scope.

(** Item pointers are never written through, so an array of [*Item] is an array
    of items; slots an [append] has reserved but not filled hold a filler that
    no slice shows. *)
#[export] Instance Item_inhabited : Inhabited Item := populate (newItem [] []).

(** Addresses of nodes and of collections. *)
Abbreviation node_ptr := nat.
Abbreviation coll_ptr := nat.

(** The Go struct [Node]. *)
Record nodeRef := NodeRef {
  r_pageNum : Z;
  r_items : slice;
  r_childNodes : slice
}.

(** The Go struct [Collection] (collection.go). *)
Record collection := Collection {
  c_name : bytes;
  c_root : Z;
  c_counter : Z;
  c_hasTx : bool;
  c_rootCollection : bool;
  c_dirtyMeta : bool
}.

(** The Go struct [Tx] (tx.go); [None] is a nil map or a nil freelist. *)
Record Tx := mkTx {
  dirtyNodes : option (gmap Z node_ptr);
  pagesToDelete : list Z;
  write : bool;
  tx_root : Z;
  tx_freelist : option freelist;
  collections : option (gmap bytes coll_ptr);
  deletedCollections : option (gset bytes)
}.

(** The Go struct [DB] (db.go): the data access layer and the two locks. *)
Record DB := mkDB {
  ddal : dal;
  writeLock : bool;
  commitWriter : bool;    (* [commitLock.Lock] was called: its writer waits or holds the lock *)
  commitReaders : nat     (* readers that hold [commitLock] *)
}.

Record world := World {
  itemsH : list (list Item);
  kidsH : list (list Z);
  nodesH : list nodeRef;
  collsH : list collection;
  wtx : Tx;
  wdb : DB
}.

(** ** Updates *)

Definition set_items_r (s : slice) (r : nodeRef) : nodeRef := NodeRef (r_pageNum r) s (r_childNodes r).
Definition set_kids_r (s : slice) (r : nodeRef) : nodeRef := NodeRef (r_pageNum r) (r_items r) s.

Definition with_itemsH h w := World h (kidsH w) (nodesH w) (collsH w) (wtx w) (wdb w).
Definition with_kidsH h w := World (itemsH w) h (nodesH w) (collsH w) (wtx w) (wdb w).
Definition with_nodesH h w := World (itemsH w) (kidsH w) h (collsH w) (wtx w) (wdb w).
Definition with_collsH h w := World (itemsH w) (kidsH w) (nodesH w) h (wtx w) (wdb w).
Definition with_wtx t w := World (itemsH w) (kidsH w) (nodesH w) (collsH w) t (wdb w).
Definition with_wdb b w := World (itemsH w) (kidsH w) (nodesH w) (collsH w) (wtx w) b.

Definition with_dirty m t :=
  mkTx m (pagesToDelete t) (write t) (tx_root t) (tx_freelist t) (collections t) (deletedCollections t).
Definition with_toDelete l t :=
  mkTx (dirtyNodes t) l (write t) (tx_root t) (tx_freelist t) (collections t) (deletedCollections t).
Definition with_root r t :=
  mkTx (dirtyNodes t) (pagesToDelete t) (write t) r (tx_freelist t) (collections t) (deletedCollections t).
Definition with_txfree f t :=
  mkTx (dirtyNodes t) (pagesToDelete t) (write t) (tx_root t) f (collections t) (deletedCollections t).
Definition with_colls c t :=
  mkTx (dirtyNodes t) (pagesToDelete t) (write t) (tx_root t) (tx_freelist t) c (deletedCollections t).
Definition with_deleted c t :=
  mkTx (dirtyNodes t) (pagesToDelete t) (write t) (tx_root t) (tx_freelist t) (collections t) c.

Definition with_ddal d b := mkDB d (writeLock b) (commitWriter b) (commitReaders b).

Definition coll_set_root r c :=
  Collection (c_name c) r (c_counter c) (c_hasTx c) (c_rootCollection c) (c_dirtyMeta c).
Definition coll_set_counter n c :=
  Collection (c_name c) (c_root c) n (c_hasTx c) (c_rootCollection c) (c_dirtyMeta c).
Definition coll_set_tx b c :=
  Collection (c_name c) (c_root c) (c_counter c) b (c_rootCollection c) (c_dirtyMeta c).
Definition coll_set_dirty b c :=
  Collection (c_name c) (c_root c) (c_counter c) (c_hasTx c) (c_rootCollection c) b.

(** ** Primitive programs *)

(** Dereference a pointer (the model's pointers are never dangling). *)
Definition load_node (p : node_ptr) : M world nodeRef := fun w => (of_option (nodesH w !! p), w).
Definition upd_node (p : node_ptr) (f : nodeRef -> nodeRef) : M world unit :=
  modS (fun w => with_nodesH (alter f p (nodesH w)) w).
Definition new_node (r : nodeRef) : M world node_ptr := fun w =>
  (Ok (length (nodesH w)), with_nodesH (nodesH w ++ [r]) w).

Definition load_coll (p : coll_ptr) : M world collection := fun w => (of_option (collsH w !! p), w).
Definition upd_coll (p : coll_ptr) (f : collection -> collection) : M world unit :=
  modS (fun w => with_collsH (alter f p (collsH w)) w).
Definition new_coll (c : collection) : M world coll_ptr := fun w =>
  (Ok (length (collsH w)), with_collsH (collsH w ++ [c]) w).

Definition get_tx : M world Tx := fun w => (Ok (wtx w), w).
Definition mod_tx (f : Tx -> Tx) : M world unit := modS (fun w => with_wtx (f (wtx w)) w).
Definition get_dal : M world dal := fun w => (Ok (ddal (wdb w)), w).
Definition lift_dal {A} (m : M dal A) : M world A :=
  zoom (fun w => ddal (wdb w)) (fun d w => with_wdb (with_ddal d (wdb w)) w) m.

(** Slice programs on the item arrays and on the child arrays. *)
Section heaps.
Context {RT : GoRuntime}.

Definition on_items {A} (f : list (list Item) -> A * list (list Item)) : M world A := fun w =>
  let '(a, h) := f (itemsH w) in (Ok a, with_itemsH h w).
Definition on_kids {A} (f : list (list Z) -> A * list (list Z)) : M world A := fun w =>
  let '(a, h) := f (kidsH w) in (Ok a, with_kidsH h w).

Definition items_append (s : slice) (xs : list Item) : M world slice := on_items (append s xs).
Definition kids_append (s : slice) (xs : list Z) : M world slice := on_kids (append s xs).
Definition items_literal (xs : list Item) : M world slice := on_items (literal xs).
Definition kids_literal (xs : list Z) : M world slice := on_kids (literal xs).

Definition items_view (s : slice) : M world (list Item) := fun w => (Ok (view (itemsH w) s), w).
Definition kids_view (s : slice) : M world (list Z) := fun w => (Ok (view (kidsH w) s), w).
Definition items_at (s : slice) (i : nat) : M world Item := fun w => (index s i (itemsH w), w).
Definition kids_at (s : slice) (i : nat) : M world Z := fun w => (index s i (kidsH w), w).

Definition items_store (s : slice) (i : nat) (x : Item) : M world unit := fun w =>
  match store_at s i x (itemsH w) with Ok h => (Ok tt, with_itemsH h w) | _ => (Panic, w) end.
Definition kids_store (s : slice) (i : nat) (x : Z) : M world unit := fun w =>
  match store_at s i x (kidsH w) with Ok h => (Ok tt, with_kidsH h w) | _ => (Panic, w) end.
End heaps.

(** What a node pointer shows. *)
Definition node_of (w : world) (r : nodeRef) : node :=
  Node (r_pageNum r) (view (itemsH w) (r_items r)) (view (kidsH w) (r_childNodes r)).
Definition node_view (p : node_ptr) : M world node :=
  r ← load_node p;
  w ← getS;
  mret (node_of w r).

Lemma bind_get_dal {A} (f : dal -> M world A) w : (get_dal ≫= f) w = f (ddal (wdb w)) w.
Proof. done. Qed.
Lemma bind_get_tx {A} (f : Tx -> M world A) w : (get_tx ≫= f) w = f (wtx w) w.
Proof. done. Qed.
#[export] Hint Rewrite @bind_get_dal @bind_get_tx : mgo.
