(* ===== verification/Tree.v ===== *)
(** * node.go, the tree part, over the transaction's heap

    [Tx]'s node operations (tx.go: [newNode], [getNode], [writeNode],
    [deleteNode]) and the [Node] methods of node.go that search, split, rotate,
    merge and remove.  Each Go statement is one line of the program: slices are
    cut, appended to and stored into through [GoSlice], so sharing of backing
    arrays is as in the code. *)

From S2P Require Import Prelude Freelist Meta Node Float32 Dal GoSlice World.

Open Scope Z_scope.

Section tree.
Context {RT : GoRuntime}.

(** ** Node operations of tx.go *)

Definition tx_getNextPage : M world Z :=
  tx ← get_tx;
  match tx_freelist tx with
  | None => panic
  | Some fr =>
      let '(p, fr) := getNextPage fr in
      mod_tx (with_txfree (Some fr));;
      mret p
  end.

Definition tx_newNode (its kids : slice) : M world node_ptr :=
  pn ← tx_getNextPage;
  new_node (NodeRef pn its kids).

(** A node read from its page: [deserialize] appends the items and the children
    one by one to nil slices. *)
Definition load_page_node (n : node) : M world node_ptr :=
  its ← on_items (append_each nil_slice (items n));
  kids ← on_kids (append_each nil_slice (childNodes n));
  new_node (NodeRef (pageNum n) its kids).

Definition tx_getNode (pn : Z) : M world node_ptr :=
  tx ← get_tx;
  match dirtyNodes tx ≫= (.!! pn) with
  | Some p => mret p
  | None =>
      n ← lift_dal (Dal.getNode pn);
      load_page_node n
  end.

Definition tx_writeNode (p : node_ptr) : M world node_ptr :=
  r ← load_node p;
  tx ← get_tx;
  match dirtyNodes tx with
  | None => panic (* assignment to an entry of a nil map *)
  | Some m =>
      mod_tx (with_dirty (Some (<[r_pageNum r := p]> m)));;
      mret p
  end.

Definition tx_deleteNode (p : node_ptr) : M world unit :=
  r ← load_node p;
  mod_tx (fun tx => with_toDelete (pagesToDelete tx ++ [r_pageNum r]) tx).

(** ** Small [Node] methods *)

Definition writeNodes (ps : list node_ptr) : M world unit := mapM_ (fun p => tx_writeNode p;; mret tt) ps.

Definition node_isLeaf (p : node_ptr) : M world bool :=
  r ← load_node p;
  mret (bool_decide (s_len (r_childNodes r) = 0%nat)).

Definition isLast (i : nat) (parent : nodeRef) : bool := bool_decide (i = s_len (r_items parent)).
Definition isFirst (i : nat) : bool := bool_decide (i = 0%nat).

Definition node_isOverPopulated (p : node_ptr) : M world bool :=
  n ← node_view p; d ← get_dal; mret (isOverPopulated d n).
Definition node_isUnderPopulated (p : node_ptr) : M world bool :=
  n ← node_view p; d ← get_dal; mret (isUnderPopulated d n).
Definition canSpareAnElement (p : node_ptr) : M world bool :=
  n ← node_view p; d ← get_dal; mret (bool_decide (is_Some (getSplitIndex d n))).

Definition set_items (p : node_ptr) (s : slice) : M world unit := upd_node p (set_items_r s).
Definition set_kids (p : node_ptr) (s : slice) : M world unit := upd_node p (set_kids_r s).

(** [p.items[i]] and [p.childNodes[i]]. *)
Definition item_at (p : node_ptr) (i : nat) : M world Item := r ← load_node p; items_at (r_items r) i.
Definition child_at (p : node_ptr) (i : nat) : M world Z := r ← load_node p; kids_at (r_childNodes r) i.

(** ** findKey

    The recursion follows child pages; [fuel] bounds its depth.  The result is
    the index and the node, or [None] for the code's [(-1, nil)], with the list
    of child indexes followed (the code's [ancestorsIndexes]). *)
Fixpoint findKeyHelper (fuel : nat) (p : node_ptr) (k : bytes) (exact : bool) (anc : list nat)
    : M world (option (nat * node_ptr) * list nat) :=
  match fuel with
  | O => fun w => (OutOfFuel, w)
  | S fuel =>
      n ← node_view p;
      let '(wasFound, i) := findKeyInNode n k in
      if wasFound : bool then mret (Some (i, p), anc)
      else
        leaf ← node_isLeaf p;
        if leaf : bool then
          (if exact then mret (None, anc) else mret (Some (i, p), anc))
        else
          let anc := anc ++ [i] in
          pn ← child_at p i;
          nextChild ← tx_getNode pn;
          findKeyHelper fuel nextChild k exact anc
  end.

Definition findKey (fuel : nat) (p : node_ptr) (k : bytes) (exact : bool)
    : M world (option (nat * node_ptr) * list nat) :=
  findKeyHelper fuel p k exact [0%nat].

(** ** addItem *)

Definition addItem (p : node_ptr) (it : Item) (i : nat) : M world nat :=
  n ← load_node p;
  if decide (s_len (r_items n) = i) then
    its ← items_append (r_items n) [it];
    set_items p its;;
    mret i
  else
    lo ← liftO (slice_to (r_items n) (i + 1));
    hi ← liftO (slice_from (r_items n) i);
    xs ← items_view hi;
    its ← items_append lo xs;
    set_items p its;;
    items_store its i it;;
    mret i.

(** ** split: [n] is the parent *)

(** The new node takes the items (and children) after the split index, the
    node keeps those before it; both share the old arrays. *)
Definition split_off (nodeToSplit : node_ptr) (splitIndex : nat) : M world node_ptr :=
  leaf ← node_isLeaf nodeToSplit;
  r ← load_node nodeToSplit;
  if leaf : bool then
    its ← liftO (slice_from (r_items r) (splitIndex + 1));
    kids ← kids_literal [];
    newNode ← tx_newNode its kids;
    tx_writeNode newNode;;
    lo ← liftO (slice_to (r_items r) splitIndex);
    set_items nodeToSplit lo;;
    mret newNode
  else
    its ← liftO (slice_from (r_items r) (splitIndex + 1));
    kids ← liftO (slice_from (r_childNodes r) (splitIndex + 1));
    newNode ← tx_newNode its kids;
    tx_writeNode newNode;;
    lo ← liftO (slice_to (r_items r) splitIndex);
    set_items nodeToSplit lo;;
    klo ← liftO (slice_to (r_childNodes r) (splitIndex + 1));
    set_kids nodeToSplit klo;;
    mret newNode.

(** The parent's children with the new page after child number [i]. *)
Definition insert_child (n : node_ptr) (i : nat) (pn : Z) : M world unit :=
  pr ← load_node n;
  if decide (s_len (r_childNodes pr) = (i + 1)%nat) then
    kids ← kids_append (r_childNodes pr) [pn];
    set_kids n kids
  else
    lo ← liftO (slice_to (r_childNodes pr) (i + 1));
    hi ← liftO (slice_from (r_childNodes pr) i);
    xs ← kids_view hi;
    kids ← kids_append lo xs;
    set_kids n kids;;
    kids_store kids (i + 1) pn.

Definition split (n nodeToSplit : node_ptr) (i : nat) : M world unit :=
  v ← node_view nodeToSplit;
  d ← get_dal;
  match getSplitIndex d v with
  | None => panic (* items[-1] *)
  | Some splitIndex =>
      middleItem ← item_at nodeToSplit splitIndex;
      newNode ← split_off nodeToSplit splitIndex;
      addItem n middleItem i;;
      new ← load_node newNode;
      insert_child n i (r_pageNum new);;
      writeNodes [n; nodeToSplit]
  end.

(** ** Rotations *)

(** In a rotation of inner nodes a child changes sides as well. *)
Definition shift_last (aNode bNode : node_ptr) : M world unit :=
  leaf ← node_isLeaf aNode;
  if leaf : bool then mret tt
  else
    ra ← load_node aNode;
    childNodeToShift ← kids_at (r_childNodes ra) (s_len (r_childNodes ra) - 1);
    klo ← liftO (slice_to (r_childNodes ra) (s_len (r_childNodes ra) - 1));
    set_kids aNode klo;;
    rb ← load_node bNode;
    ys ← kids_view (r_childNodes rb);
    kfirst ← kids_literal [childNodeToShift];
    kids ← kids_append kfirst ys;
    set_kids bNode kids.

Definition rotateRight (aNode pNode bNode : node_ptr) (bNodeIndex : nat) : M world unit :=
  ra ← load_node aNode;
  aNodeItem ← (if decide (s_len (r_items ra) = 0%nat) then panic
               else items_at (r_items ra) (s_len (r_items ra) - 1));
  lo ← liftO (slice_to (r_items ra) (s_len (r_items ra) - 1));
  set_items aNode lo;;
  let pNodeItemIndex := if isFirst bNodeIndex then 0%nat else (bNodeIndex - 1)%nat in
  pNodeItem ← item_at pNode pNodeItemIndex;
  rp ← load_node pNode;
  items_store (r_items rp) pNodeItemIndex aNodeItem;;
  rb ← load_node bNode;
  xs ← items_view (r_items rb);
  first ← items_literal [pNodeItem];
  its ← items_append first xs;
  set_items bNode its;;
  shift_last aNode bNode.

Definition shift_first (bNode aNode : node_ptr) : M world unit :=
  leaf ← node_isLeaf bNode;
  if leaf : bool then mret tt
  else
    rb ← load_node bNode;
    childNodeToShift ← kids_at (r_childNodes rb) 0;
    khi ← liftO (slice_from (r_childNodes rb) 1);
    set_kids bNode khi;;
    ra ← load_node aNode;
    kids ← kids_append (r_childNodes ra) [childNodeToShift];
    set_kids aNode kids.

Definition rotateLeft (aNode pNode bNode : node_ptr) (bNodeIndex : nat) : M world unit :=
  rb ← load_node bNode;
  bNodeItem ← items_at (r_items rb) 0;
  hi ← liftO (slice_from (r_items rb) 1);
  set_items bNode hi;;
  rp ← load_node pNode;
  pNodeItemIndex ←
    (if isLast bNodeIndex rp then
       (if decide (s_len (r_items rp) = 0%nat) then panic else mret (s_len (r_items rp) - 1)%nat)
     else mret bNodeIndex);
  pNodeItem ← item_at pNode pNodeItemIndex;
  items_store (r_items rp) pNodeItemIndex bNodeItem;;
  ra ← load_node aNode;
  its ← items_append (r_items ra) [pNodeItem];
  set_items aNode its;;
  shift_first bNode aNode.

(** ** merge: [n] is the parent, [bNode] its child number [bNodeIndex >= 1] *)

Definition join_children (aNode bNode : node_ptr) : M world unit :=
  leaf ← node_isLeaf aNode;
  if leaf : bool then mret tt
  else
    ra ← load_node aNode;
    rb ← load_node bNode;
    bs ← kids_view (r_childNodes rb);
    kids ← kids_append (r_childNodes ra) bs;
    set_kids aNode kids.

(** The items and children that merging moves: the parent's item and all of
    [bNode] go to [aNode]. *)
Definition merge_into (n aNode bNode : node_ptr) (bNodeIndex : nat) : M world unit :=
  pNodeItem ← item_at n (bNodeIndex - 1);
  rn ← load_node n;
  lo ← liftO (slice_to (r_items rn) (bNodeIndex - 1));
  hi ← liftO (slice_from (r_items rn) bNodeIndex);
  xs ← items_view hi;
  its ← items_append lo xs;
  set_items n its;;
  ra ← load_node aNode;
  its ← items_append (r_items ra) [pNodeItem];
  set_items aNode its;;
  rb ← load_node bNode;
  ys ← items_view (r_items rb);
  its ← items_append its ys;
  set_items aNode its;;
  rn ← load_node n;
  klo ← liftO (slice_to (r_childNodes rn) bNodeIndex);
  khi ← liftO (slice_from (r_childNodes rn) (bNodeIndex + 1));
  ks ← kids_view khi;
  kids ← kids_append klo ks;
  set_kids n kids;;
  join_children aNode bNode.

Definition merge (n bNode : node_ptr) (bNodeIndex : nat) : M world unit :=
  if decide (bNodeIndex = 0%nat) then panic (* childNodes[-1] *)
  else
    pn ← child_at n (bNodeIndex - 1);
    aNode ← tx_getNode pn;
    merge_into n aNode bNode bNodeIndex;;
    writeNodes [aNode; n];;
    tx_deleteNode bNode.

(** ** rebalanceRemove: [n] is the parent of the unbalanced node *)

Definition rebalanceRemove (n unbalancedNode : node_ptr) (i : nat) : M world unit :=
  doneR ←
    (if decide (i <> 0%nat) then
       pn ← child_at n (i - 1);
       leftNode ← tx_getNode pn;
       spare ← canSpareAnElement leftNode;
       if spare : bool then
         rotateRight leftNode n unbalancedNode i;;
         writeNodes [leftNode; n; unbalancedNode];;
         mret true
       else mret false
     else mret false);
  if doneR : bool then mret tt
  else
    rn ← load_node n;
    doneL ←
      (if decide (s_len (r_childNodes rn) <> (i + 1)%nat) then
         pn ← child_at n (i + 1);
         rightNode ← tx_getNode pn;
         spare ← canSpareAnElement rightNode;
         if spare : bool then
           rotateLeft unbalancedNode n rightNode i;;
           writeNodes [unbalancedNode; n; rightNode];;
           mret true
         else mret false
       else mret false);
    if doneL : bool then mret tt
    else if decide (i = 0%nat) then
      pn ← child_at n (i + 1);
      rightNode ← tx_getNode pn;
      merge n rightNode (i + 1)
    else merge n unbalancedNode i.

(** ** Removal *)

Definition removeItemFromLeaf (p : node_ptr) (i : nat) : M world unit :=
  r ← load_node p;
  lo ← liftO (slice_to (r_items r) i);
  hi ← liftO (slice_from (r_items r) (i + 1));
  xs ← items_view hi;
  its ← items_append lo xs;
  set_items p its;;
  tx_writeNode p;;
  mret tt.

(** The descent to the predecessor.  As in the code, the index followed at each
    level is computed from the children of [n], the node removed from, and not
    from the children of the node being descended. *)
Fixpoint descend (fuel : nat) (n aNode : node_ptr) (affected : list nat) : M world (node_ptr * list nat) :=
  match fuel with
  | O => fun w => (OutOfFuel, w)
  | S fuel =>
      leaf ← node_isLeaf aNode;
      if leaf : bool then mret (aNode, affected)
      else
        rn ← load_node n;
        if decide (s_len (r_childNodes rn) = 0%nat) then panic
        else
          let traversingIndex := (s_len (r_childNodes rn) - 1)%nat in
          pn ← child_at aNode traversingIndex;
          aNode ← tx_getNode pn;
          descend fuel n aNode (affected ++ [traversingIndex])
  end.

Definition removeItemFromInternal (fuel : nat) (n : node_ptr) (i : nat) : M world (list nat) :=
  pn ← child_at n i;
  aNode ← tx_getNode pn;
  '(aNode, affectedNodes) ← descend fuel n aNode [i];
  ra ← load_node aNode;
  predecessor ← (if decide (s_len (r_items ra) = 0%nat) then panic
                 else items_at (r_items ra) (s_len (r_items ra) - 1));
  rn ← load_node n;
  items_store (r_items rn) i predecessor;;
  lo ← liftO (slice_to (r_items ra) (s_len (r_items ra) - 1));
  set_items aNode lo;;
  writeNodes [n; aNode];;
  mret affectedNodes.

End tree.
