(* ===== verification/Heap.v ===== *)
(** * The heap of a transaction: what a page shows, the heap invariant, and
    what one step of the tree code changes

    [page_node pn w] is the node a transaction sees under a page number: the
    dirty node when there is one, else the contents of the page in the file.
    Programs that only read extend the heap ([extends]); programs that mutate
    one node stay within the slices it owns ([mutates]). *)

From S2P Require Import Prelude Freelist Meta Node Float32 Dal GoSlice World Tree.

Open Scope Z_scope.

(** What the pointer [p] shows. *)
Definition points (w : world) (p : node_ptr) (n : node) : Prop :=
  exists r, nodesH w !! p = Some r /\ node_of w r = n.

Definition dirty_at (w : world) (pn : Z) : option node_ptr := dirtyNodes (wtx w) ≫= (.!! pn).

Definition page_node (pn : Z) (w : world) : out node :=
  match dirty_at w pn with
  | Some p => r ← of_option (nodesH w !! p); mret (node_of w r)
  | None => fst (Dal.getNode pn (ddal (wdb w)))
  end.

(** The invariant: slices lie in their arrays, and the dirty map files every
    node under its own page number. *)
Record world_ok (w : world) : Prop := {
  ok_slices : forall p r, nodesH w !! p = Some r ->
    slice_ok (itemsH w) (r_items r) /\ slice_ok (kidsH w) (r_childNodes r);
  ok_dirty : forall pn p, dirty_at w pn = Some p ->
    exists r, nodesH w !! p = Some r /\ r_pageNum r = pn
}.

(** No other node has a slice that overlaps the regions of [p]'s slices. *)
Definition owned (w : world) (p : node_ptr) : Prop :=
  exists r, nodesH w !! p = Some r /\
    forall q r', q <> p -> nodesH w !! q = Some r' ->
      region_apart (r_items r) (r_items r') /\ region_apart (r_childNodes r) (r_childNodes r').

(** The heap grows, nothing that was there changes. *)
Record extends (w w' : world) : Prop := {
  ext_nodes : nodesH w `prefix_of` nodesH w';
  ext_items : itemsH w `prefix_of` itemsH w';
  ext_kids : kidsH w `prefix_of` kidsH w';
  ext_colls : collsH w `prefix_of` collsH w';
  ext_tx : wtx w' = wtx w;
  ext_db : wdb w' = wdb w
}.

(** The slices of the node [p] take a step; nothing else of the world changes. *)
Record mutates (p : node_ptr) (w w' : world) : Prop := {
  mut_node : exists r r', nodesH w !! p = Some r /\ r_pageNum r' = r_pageNum r /\
    nodesH w' = <[p := r']> (nodesH w) /\
    slice_step (itemsH w) (itemsH w') (r_items r) (r_items r') /\
    slice_step (kidsH w) (kidsH w') (r_childNodes r) (r_childNodes r');
  mut_colls : collsH w' = collsH w;
  mut_tx : wtx w' = wtx w;
  mut_db : wdb w' = wdb w
}.

(** ** Reading does not change the data access layer *)

Lemma readPage_state pn d : snd (readPage pn d) = d.
Proof.
  unfold readPage. mrun. unfold mbind, M_bind, ReadAt.
  destruct (negb (isOpen d)); [done|]. destruct (file d); [|done]. cases; done.
Qed.

Lemma getNode_state pn d : snd (Dal.getNode pn d) = d.
Proof.
  unfold Dal.getNode. unfold mbind at 1, M_bind at 1. pose proof (readPage_state pn d) as H.
  destruct (readPage pn d) as [[pg| | | |] d']; simpl in H; subst; try done.
  mrun. unfold mbind, M_bind, liftO. destruct (deserialize _ _); try done. by destruct (validate _ _).
Qed.

Lemma getNode_pageNum pn d n d' : Dal.getNode pn d = (Ok n, d') -> pageNum n = pn.
Proof.
  unfold Dal.getNode. intros (a & s & _ & H)%bind_inv. rewrite bind_getS in H.
  apply bind_inv in H as (n' & s' & _ & H). apply bind_inv in H as ([] & s'' & _ & H). by go_inv H.
Qed.

(** ** Views *)

Section heap.
Context {RT : GoRuntime}.

#[export] Instance extends_preorder : PreOrder extends.
Proof.
  split.
  - intros w. by split.
  - intros w1 w2 w3 [] []. split; try (by etrans); congruence.
Qed.

Lemma extends_lookup w w' p r : extends w w' -> nodesH w !! p = Some r -> nodesH w' !! p = Some r.
Proof. intros [H _ _ _ _ _] Hp. by eapply prefix_lookup_Some. Qed.

Lemma extends_node_of w w' p r :
  world_ok w -> extends w w' -> nodesH w !! p = Some r -> node_of w' r = node_of w r.
Proof.
  intros [Hok _] [_ Hi Hk _ _ _] Hr. destruct (Hok p r Hr). unfold node_of.
  by rewrite (view_prefix _ _ _ H Hi), (view_prefix _ _ _ H0 Hk).
Qed.

Lemma extends_points w w' p n : world_ok w -> extends w w' -> points w p n -> points w' p n.
Proof.
  intros Hok He (r & Hr & <-). exists r. split; [by eapply extends_lookup|]. by eapply extends_node_of.
Qed.

Lemma extends_dirty w w' pn : extends w w' -> dirty_at w' pn = dirty_at w pn.
Proof. intros H. unfold dirty_at. by rewrite (ext_tx _ _ H). Qed.

Lemma extends_page w w' pn : world_ok w -> extends w w' -> page_node pn w' = page_node pn w.
Proof.
  intros Hok He. unfold page_node. rewrite (extends_dirty w w' pn He), (ext_db _ _ He).
  destruct (dirty_at w pn) as [p|] eqn:E; [|done].
  destruct (ok_dirty _ Hok _ _ E) as (r & Hr & _). rewrite Hr, (extends_lookup w w' p r He Hr). go_bind.
  by erewrite extends_node_of.
Qed.

Lemma points_inj w p n m : points w p n -> points w p m -> n = m.
Proof. intros (r & Hr & <-) (r' & Hr' & <-). congruence. Qed.

Lemma load_node_points w p n :
  points w p n -> exists r, load_node p w = (Ok r, w) /\ nodesH w !! p = Some r /\ node_of w r = n.
Proof. intros (r & Hr & Hn). exists r. unfold load_node. by rewrite Hr. Qed.

Lemma node_view_points w p n : points w p n -> node_view p w = (Ok n, w).
Proof.
  intros (r & Hr & <-). unfold node_view, load_node, mbind, M_bind. by rewrite Hr.
Qed.

Lemma s_len_items w p r : world_ok w -> nodesH w !! p = Some r ->
  s_len (r_items r) = length (items (node_of w r)).
Proof. intros Hok Hr. destruct (ok_slices _ Hok p r Hr). simpl. by rewrite length_view. Qed.

Lemma s_len_kids w p r : world_ok w -> nodesH w !! p = Some r ->
  s_len (r_childNodes r) = length (childNodes (node_of w r)).
Proof. intros Hok Hr. destruct (ok_slices _ Hok p r Hr). simpl. by rewrite length_view. Qed.

Lemma child_at_points w p n i pn :
  points w p n -> childNodes n !! i = Some pn -> child_at p i w = (Ok pn, w).
Proof.
  intros (r & Hr & <-) Hi. unfold child_at, load_node, kids_at, mbind, M_bind, index. rewrite Hr. simpl in *.
  by rewrite Hi.
Qed.

Lemma item_at_points w p n i it :
  points w p n -> items n !! i = Some it -> item_at p i w = (Ok it, w).
Proof.
  intros (r & Hr & <-) Hi. unfold item_at, load_node, items_at, mbind, M_bind, index. rewrite Hr. simpl in *.
  by rewrite Hi.
Qed.

Lemma node_isLeaf_points w p n : world_ok w -> points w p n -> node_isLeaf p w = (Ok (isLeaf n), w).
Proof.
  intros Hok (r & Hr & <-). unfold node_isLeaf, load_node, mbind, M_bind. rewrite Hr. simpl.
  by rewrite (s_len_kids w p r Hok Hr).
Qed.

(** ** Reading a node *)

Lemma take_prefix_of {A} (st st' : list A) : take (length st) st' = take (length st) st -> st `prefix_of` st'.
Proof. intros H. exists (drop (length st) st'). rewrite <- (take_drop (length st) st') at 1. by rewrite H, firstn_all. Qed.

Lemma nil_slice_ok {A} (st : list (list A)) : slice_ok st nil_slice.
Proof. split; [done|]. done. Qed.

Lemma page_node_pageNum w pn n : world_ok w -> page_node pn w = Ok n -> pageNum n = pn.
Proof.
  intros Hok. unfold page_node. destruct (dirty_at w pn) as [p|] eqn:E.
  - destruct (ok_dirty _ Hok _ _ E) as (r & -> & <-). go_bind. intros H. by go_inv H.
  - destruct (Dal.getNode pn (ddal (wdb w))) as [o d] eqn:G. simpl. intros ->. by eapply getNode_pageNum.
Qed.

(** A node built from slices of new arrays extends the heap, and owns them. *)
Lemma new_node_extends w h1 h2 r :
  world_ok w -> itemsH w `prefix_of` h1 -> kidsH w `prefix_of` h2 ->
  slice_ok h1 (r_items r) -> slice_ok h2 (r_childNodes r) ->
  let w' := World h1 h2 (nodesH w ++ [r]) (collsH w) (wtx w) (wdb w) in
  extends w w' /\ world_ok w' /\ points w' (length (nodesH w)) (node_of w' r).
Proof.
  intros Hok Hi Hk Oi Ok'. split; [|split].
  - split; simpl; try done. by eexists.
  - split.
    + intros p r' Hr. simpl in *. apply lookup_app_Some in Hr as [Hr|[Hl Hr]].
      * destruct (ok_slices _ Hok p r' Hr). split; by eapply slice_ok_prefix.
      * destruct (p - length (nodesH w))%nat; [|by destruct n]. by simplify_eq/=.
    + intros pn p Hd. destruct (ok_dirty _ Hok pn p Hd) as (r' & Hr & ?). exists r'.
      split; [by apply lookup_app_l_Some|done].
  - exists r. split; [|done]. simpl. by rewrite list_lookup_middle.
Qed.

Lemma new_node_owned w h1 h2 r :
  world_ok w -> fresh_from (length (itemsH w)) (r_items r) -> fresh_from (length (kidsH w)) (r_childNodes r) ->
  slice_ok h1 (r_items r) -> slice_ok h2 (r_childNodes r) ->
  let w' := World h1 h2 (nodesH w ++ [r]) (collsH w) (wtx w) (wdb w) in
  owned w' (length (nodesH w)) /\ forall q, owned w q -> owned w' q.
Proof.
  intros Hok Fi Fk Oi Ok'.
  assert (forall p r', nodesH w !! p = Some r' ->
    region_apart (r_items r) (r_items r') /\ region_apart (r_childNodes r) (r_childNodes r')) as Hap.
  { intros p r' Hr. destruct (ok_slices _ Hok p r' Hr) as [H1 H2].
    split; eapply fresh_region_apart; eauto. }
  split.
  - exists r. simpl. rewrite list_lookup_middle by done. split; [done|].
    intros q r' Hq Hr. apply lookup_app_Some in Hr as [Hr|[Hl Hr]]; [by eapply Hap|].
    destruct (q - length (nodesH w))%nat eqn:E; [lia|by destruct n].
  - intros q (rq & Hrq & Hq). exists rq. simpl. split; [by apply lookup_app_l_Some|].
    intros p r' Hp Hr. apply lookup_app_Some in Hr as [Hr|[Hl Hr]]; [by eapply Hq|].
    destruct (p - length (nodesH w))%nat; [|by destruct n]. simplify_eq/=.
    destruct (Hap q rq Hrq). by split; symmetry.
Qed.

Lemma load_page_node_ok w n :
  world_ok w ->
  exists w', load_page_node n w = (Ok (length (nodesH w)), w') /\ extends w w' /\ world_ok w' /\
    points w' (length (nodesH w)) n /\ owned w' (length (nodesH w)) /\ (forall q, owned w q -> owned w' q).
Proof.
  intros Hok. unfold load_page_node, on_items, on_kids, new_node, mbind, M_bind.
  pose proof (append_each_spec (length (itemsH w)) (itemsH w) nil_slice (items n) (nil_slice_ok _) I (le_n _)) as Hi.
  destruct (append_each nil_slice (items n) (itemsH w)) as [si hi]. destruct Hi as (Vi & Oi & Fi & Ti).
  cbn [kidsH with_itemsH].
  pose proof (append_each_spec (length (kidsH w)) (kidsH w) nil_slice (childNodes n) (nil_slice_ok _) I (le_n _)) as Hk.
  destruct (append_each nil_slice (childNodes n) (kidsH w)) as [sk hk]. destruct Hk as (Vk & Ok' & Fk & Tk).
  cbn [nodesH with_itemsH with_kidsH]. apply take_prefix_of in Ti, Tk. eexists. split; [done|].
  set (r := NodeRef (pageNum n) si sk).
  destruct (new_node_extends w hi hk r Hok Ti Tk Oi Ok') as (He & Hok' & Hp).
  destruct (new_node_owned w hi hk r Hok Fi Fk Oi Ok') as (Ho & Hq).
  split; [exact He|]. split; [exact Hok'|]. split; [|by split].
  destruct Hp as (r0 & Hr0 & Hn0). exists r0. split; [exact Hr0|]. etrans; [exact Hn0|].
  unfold node_of. simpl. rewrite Vi, Vk. by destruct n.
Qed.

(** [tx.getNode]: it returns the dirty object of the page, or a new copy that
    owns its slices; an error of the page read is passed on. *)
Lemma tx_getNode_ok w pn n :
  world_ok w -> page_node pn w = Ok n ->
  exists p w', tx_getNode pn w = (Ok p, w') /\ extends w w' /\ world_ok w' /\ points w' p n /\
    (dirty_at w pn = Some p \/ (p = length (nodesH w) /\ owned w' p)) /\
    (forall q, owned w q -> owned w' q).
Proof.
  intros Hok Hn. unfold tx_getNode, get_tx, page_node, dirty_at in *. unfold mbind at 1, M_bind at 1.
  destruct (dirtyNodes (wtx w) ≫= (.!! pn)) as [p|] eqn:E.
  - destruct (ok_dirty _ Hok pn p E) as (r & Hr & Hpn). rewrite Hr in Hn. go_inv Hn.
    exists p, w. split; [done|]. split; [done|]. split; [done|]. split; [by exists r|].
    by split; [left|].
  - unfold lift_dal, zoom. unfold mbind, M_bind. cbv beta.
    pose proof (getNode_state pn (ddal (wdb w))) as Hd.
    destruct (Dal.getNode pn (ddal (wdb w))) as [o d] eqn:G. simpl in Hd, Hn. subst.
    assert (with_wdb (with_ddal (ddal (wdb w)) (wdb w)) w = w) as -> by (by destruct w as [? ? ? ? ? [[]]]).
    destruct (load_page_node_ok w n Hok) as (w' & -> & He & Hok' & Hp & Ho & Hq).
    exists (length (nodesH w)), w'. split; [done|]. split; [done|]. split; [done|]. split; [done|].
    by split; [right|].
Qed.

Lemma tx_getNode_err w pn e : page_node pn w = Err e -> tx_getNode pn w = (Err e, w).
Proof.
  intros Hn. unfold tx_getNode, get_tx, page_node, dirty_at in *. unfold mbind at 1, M_bind at 1.
  destruct (dirtyNodes (wtx w) ≫= (.!! pn)) as [p|] eqn:E; [by destruct (nodesH w !! p)|].
  unfold lift_dal, zoom, mbind, M_bind.
  pose proof (getNode_state pn (ddal (wdb w))) as Hd.
  destruct (Dal.getNode pn (ddal (wdb w))) as [o d]. simpl in Hd, Hn. subst.
  by destruct w as [? ? ? ? ? [[]]].
Qed.

(** ** Mutating a node *)

Lemma step_apart {A} (st st' : list (list A)) s s' t :
  slice_step st st' s s' -> slice_ok st t -> region_apart s t -> region_apart s' t.
Proof. intros S Ht. apply (within_apart _ _ _ _ st (step_within _ _ _ _ S) Ht (le_n _)). Qed.

Lemma mutates_trans p w1 w2 w3 : mutates p w1 w2 -> mutates p w2 w3 -> mutates p w1 w3.
Proof.
  intros [(r1 & r2 & H1 & P1 & N1 & I1 & K1) C1 T1 D1] [(r2' & r3 & H2 & P2 & N2 & I2 & K2) C2 T2 D2].
  rewrite N1, list_lookup_insert_eq in H2 by (by eapply lookup_lt_Some). simplify_eq.
  split; try congruence. exists r1, r3. split; [done|]. split; [congruence|]. split.
  - by rewrite N2, N1, list_insert_insert_eq.
  - split; by eapply slice_step_trans.
Qed.

Section mutation.
Context (p : node_ptr) (w w' : world) (Hok : world_ok w) (Hown : owned w p) (Hmut : mutates p w w').

Lemma mutates_other q r :
  q <> p -> nodesH w !! q = Some r -> nodesH w' !! q = Some r /\ node_of w' r = node_of w r.
Proof.
  intros Hq Hr. destruct Hmut as [(r1 & r2 & H1 & P1 & N1 & I1 & K1) _ _ _].
  destruct Hown as (r1' & H1' & Hap). simplify_eq. destruct (Hap q r Hq Hr) as [Ai Ak].
  rewrite N1, list_lookup_insert_ne by done. split; [done|]. unfold node_of.
  destruct (ok_slices _ Hok q r Hr). by rewrite (step_frame _ _ _ _ I1), (step_frame _ _ _ _ K1).
Qed.

Lemma mutates_points q n : q <> p -> points w q n -> points w' q n.
Proof. intros Hq (r & Hr & <-). destruct (mutates_other q r Hq Hr). by exists r. Qed.

Lemma mutates_dirty pn : dirty_at w' pn = dirty_at w pn.
Proof. unfold dirty_at. by rewrite (mut_tx _ _ _ Hmut). Qed.

Lemma mutates_ok : world_ok w'.
Proof.
  pose proof Hmut as [(r1 & r2 & H1 & P1 & N1 & I1 & K1) _ _ _]. split.
  - intros q r Hr. rewrite N1 in Hr. destruct (decide (q = p)) as [-> | Hq].
    + rewrite list_lookup_insert_eq in Hr by (by eapply lookup_lt_Some). simplify_eq.
      split; [apply I1|apply K1].
    + rewrite list_lookup_insert_ne in Hr by done. destruct (ok_slices _ Hok q r Hr).
      split; [by apply I1|by apply K1].
  - intros pn q. rewrite mutates_dirty. intros Hd. destruct (ok_dirty _ Hok pn q Hd) as (r & Hr & Hpn).
    rewrite N1. destruct (decide (q = p)) as [-> | Hq].
    + exists r2. rewrite list_lookup_insert_eq by (by eapply lookup_lt_Some). split; [done|congruence].
    + exists r. by rewrite list_lookup_insert_ne.
Qed.

Lemma mutates_owned q : owned w q -> owned w' q.
Proof.
  intros (rq & Hrq & Hq). pose proof Hmut as [(r1 & r2 & H1 & P1 & N1 & I1 & K1) _ _ _].
  unfold owned. rewrite N1. destruct (decide (q = p)) as [-> | Hqp].
  - simplify_eq. exists r2. rewrite list_lookup_insert_eq by (by eapply lookup_lt_Some). split; [done|].
    intros q r' Hne Hr'. rewrite list_lookup_insert_ne in Hr' by done. destruct (Hq q r' Hne Hr').
    destruct (ok_slices _ Hok q r' Hr').
    split; [by apply (step_apart _ _ _ _ _ I1)|by apply (step_apart _ _ _ _ _ K1)].
  - exists rq. rewrite list_lookup_insert_ne by done. split; [done|]. intros q' r' Hne Hr'.
    destruct (decide (q' = p)) as [-> | Hp].
    + rewrite list_lookup_insert_eq in Hr' by (by eapply lookup_lt_Some). simplify_eq.
      destruct (Hq p r1 Hne H1) as [Ai Ak]. destruct (ok_slices _ Hok q rq Hrq). symmetry in Ai, Ak.
      split; symmetry; [by apply (step_apart _ _ _ _ _ I1)|by apply (step_apart _ _ _ _ _ K1)].
    + rewrite list_lookup_insert_ne in Hr' by done. by eapply Hq.
Qed.

(** Pages other than the node's own show what they did. *)
Lemma mutates_page pn : dirty_at w pn <> Some p -> page_node pn w' = page_node pn w.
Proof.
  intros Hd. unfold page_node. rewrite mutates_dirty, (mut_db _ _ _ Hmut).
  destruct (dirty_at w pn) as [q|] eqn:E; [|done].
  destruct (ok_dirty _ Hok pn q E) as (r & Hr & _). assert (q <> p) as Hq by congruence.
  destruct (mutates_other q r Hq Hr) as [-> Hn]. rewrite Hr. go_bind. by rewrite Hn.
Qed.

Lemma mutates_other_page n pn : points w p n -> pn <> pageNum n -> page_node pn w' = page_node pn w.
Proof.
  intros (r & Hr & <-) Hpn. apply mutates_page. intros Hd.
  destruct (ok_dirty _ Hok pn p Hd) as (r' & Hr' & Hp'). by simplify_eq.
Qed.
End mutation.

(** ** [items_append], [items_store] and [set_items] on a node *)

Lemma mutates_items w p r s' h :
  world_ok w -> nodesH w !! p = Some r -> slice_step (itemsH w) h (r_items r) s' ->
  let w' := World h (kidsH w) (<[p := set_items_r s' r]> (nodesH w)) (collsH w) (wtx w) (wdb w) in
  mutates p w w' /\ points w' p (Node (r_pageNum r) (view h s') (view (kidsH w) (r_childNodes r))).
Proof.
  intros Hok Hr Hs. destruct (ok_slices _ Hok p r Hr). split.
  - split; simpl; try done. exists r, (set_items_r s' r). repeat (split; [done|]). by apply slice_step_refl.
  - exists (set_items_r s' r). simpl. rewrite list_lookup_insert_eq by (by eapply lookup_lt_Some). done.
Qed.

Lemma mutates_kids w p r s' h :
  world_ok w -> nodesH w !! p = Some r -> slice_step (kidsH w) h (r_childNodes r) s' ->
  let w' := World (itemsH w) h (<[p := set_kids_r s' r]> (nodesH w)) (collsH w) (wtx w) (wdb w) in
  mutates p w w' /\ points w' p (Node (r_pageNum r) (view (itemsH w) (r_items r)) (view h s')).
Proof.
  intros Hok Hr Hs. destruct (ok_slices _ Hok p r Hr). split.
  - split; simpl; try done. exists r, (set_kids_r s' r). repeat (split; [done|]).
    split; [by apply slice_step_refl|done].
  - exists (set_kids_r s' r). simpl. rewrite list_lookup_insert_eq by (by eapply lookup_lt_Some). done.
Qed.

(** [append(s[:lo], s[hi:]...)]: with [lo = hi + 1] the first half of the
    insertions of node.go, with [hi = lo + 1] its removals. *)
Section insertion.
Local Open Scope nat_scope.
Context {A : Type} {InhA : Inhabited A}.
Implicit Types (st : list (list A)) (s : slice) (x : A).

Lemma append_slot_step st s lo hi :
  slice_ok st s -> lo <= s_len s -> hi <= s_len s ->
  exists sl sh s1 st1, slice_to s lo = Ok sl /\ slice_from s hi = Ok sh /\
    append sl (view st sh) st = (s1, st1) /\ slice_step st st1 s s1 /\
    view st1 s1 = take lo (view st s) ++ drop hi (view st s).
Proof.
  intros Hs Hlo Hhi. destruct (slice_to_ok st s lo Hs Hlo) as (sl & E1 & S1 & V1 & _).
  destruct (slice_from_ok st s hi Hs Hhi) as (sh & E2 & S2 & V2 & _).
  pose proof (append_step st sl (view st sh) (step_ok _ _ _ _ S1)) as Ha.
  destruct (append sl (view st sh) st) as [s1 st1] eqn:Ea. destruct Ha as [Sa Va].
  exists sl, sh, s1, st1. repeat (split; [done|]). split; [eauto using slice_step_trans|].
  by rewrite Va, V1, V2.
Qed.

(** The insertions: the slot is then overwritten. *)
Lemma insert_slot_step st s j i x :
  slice_ok st s -> i < s_len s -> j = i \/ j = S i ->
  exists sl sh s1 st1 st2, slice_to s (i + 1) = Ok sl /\ slice_from s i = Ok sh /\
    append sl (view st sh) st = (s1, st1) /\ store_at s1 j x st1 = Ok st2 /\ slice_step st st2 s s1 /\
    view st2 s1 = insert_at j x (view st s).
Proof.
  intros Hs Hi Hj. destruct (append_slot_step st s (i + 1) i Hs ltac:(lia) ltac:(lia))
    as (sl & sh & s1 & st1 & E1 & E2 & E3 & S1 & V1).
  pose proof (length_view st s Hs) as Hl. pose proof (step_ok _ _ _ _ S1) as Hs1.
  assert (s_len s1 = S (s_len s)) as Hl1.
  { rewrite <- (length_view st1 s1 Hs1), V1, length_app, length_take, length_drop. lia. }
  destruct (store_at_ok st1 s1 j x Hs1 ltac:(lia)) as (st2 & E4 & S2 & V2).
  exists sl, sh, s1, st1, st2. repeat (split; [done|]). split; [eauto using slice_step_trans|].
  rewrite V2, V1. unfold insert_at. set (l := view st s) in *.
  destruct (lookup_lt_is_Some_2 l i) as [y Hy]; [lia|].
  destruct Hj as [-> | ->].
  - rewrite Nat.add_1_r, (take_S_r _ _ _ Hy), <- app_assoc.
    rewrite insert_app_r_alt by (rewrite length_take; lia). rewrite length_take, Nat.min_l by lia.
    by rewrite Nat.sub_diag.
  - rewrite Nat.add_1_r, (drop_S _ _ _ Hy).
    rewrite insert_app_r_alt by (rewrite length_take; lia). rewrite length_take, Nat.min_l by lia.
    by rewrite Nat.sub_diag.
Qed.
End insertion.

(** [addItem] inserts the item, in place or in a new array. *)
Lemma addItem_ok w p n it i :
  world_ok w -> points w p n -> (i <= length (items n))%nat ->
  exists w', addItem p it i w = (Ok i, w') /\ mutates p w w' /\
    points w' p (Node (pageNum n) (insert_at i it (items n)) (childNodes n)).
Proof.
  intros Hok (r & Hr & <-) Hi. destruct (ok_slices _ Hok p r Hr) as [Hs _].
  pose proof (length_view _ _ Hs) as Hl. simpl in Hi.
  unfold addItem. erewrite bind_Ok by (unfold load_node; by rewrite Hr). case_decide as Hd.
  - unfold items_append, on_items, set_items, upd_node, mbind, M_bind, modS.
    pose proof (append_step (itemsH w) (r_items r) [it] Hs) as Ha.
    destruct (append (r_items r) [it] (itemsH w)) as [s1 h1]. destruct Ha as [Sa Va].
    eexists. split; [done|]. unfold with_nodesH, with_itemsH. simpl. rewrite (alter_insert _ _ _ _ Hr).
    destruct (mutates_items w p r s1 h1 Hok Hr Sa) as [Hm Hp]. split; [exact Hm|].
    rewrite Va in Hp. replace i with (length (view (itemsH w) (r_items r))) by lia.
    by rewrite insert_at_end.
  - destruct (insert_slot_step (itemsH w) (r_items r) i i it Hs ltac:(lia) ltac:(by left))
      as (sl & sh & s1 & st1 & st2 & E1 & E2 & E3 & E4 & S & V).
    rewrite E1, bind_lift, E2, bind_lift.
    unfold items_view, items_append, on_items, set_items, upd_node, items_store, mbind, M_bind, modS.
    rewrite E3. cbn [itemsH with_nodesH with_itemsH]. rewrite E4.
    eexists. split; [done|]. unfold with_nodesH, with_itemsH. simpl. rewrite (alter_insert _ _ _ _ Hr).
    destruct (mutates_items w p r s1 st2 Hok Hr S) as [Hm Hp]. split; [exact Hm|]. by rewrite V in Hp.
Qed.

(** Overwriting an item in place. *)
Lemma items_store_ok w p r n i it :
  world_ok w -> nodesH w !! p = Some r -> node_of w r = n -> (i < length (items n))%nat ->
  exists w', items_store (r_items r) i it w = (Ok tt, w') /\ mutates p w w' /\
    points w' p (Node (pageNum n) (<[i := it]> (items n)) (childNodes n)).
Proof.
  intros Hok Hr <- Hi. destruct (ok_slices _ Hok p r Hr) as [Hs _].
  pose proof (length_view _ _ Hs) as Hl. simpl in Hi.
  destruct (store_at_ok (itemsH w) (r_items r) i it Hs ltac:(lia)) as (h & E & S & V).
  unfold items_store. rewrite E. eexists. split; [done|].
  destruct (mutates_items w p r (r_items r) h Hok Hr S) as [Hm Hp].
  assert (<[p := set_items_r (r_items r) r]> (nodesH w) = nodesH w) as Eq.
  { apply list_insert_id. rewrite Hr. by destruct r. }
  rewrite Eq in Hm, Hp. split; [exact Hm|]. by rewrite V in Hp.
Qed.

(** ** Filing a node under its page *)

Lemma tx_writeNode_ok w p r m :
  world_ok w -> nodesH w !! p = Some r -> dirtyNodes (wtx w) = Some m ->
  let w' := with_wtx (with_dirty (Some (<[r_pageNum r := p]> m)) (wtx w)) w in
  tx_writeNode p w = (Ok p, w') /\ world_ok w' /\
  page_node (r_pageNum r) w' = Ok (node_of w r) /\
  (forall pn, pn <> r_pageNum r -> page_node pn w' = page_node pn w).
Proof.
  intros Hok Hr Hm w'.
  assert (forall pn, dirty_at w' pn = if decide (pn = r_pageNum r) then Some p else dirty_at w pn) as Hd.
  { intros pn. unfold dirty_at, w'. simpl. rewrite Hm. simpl. case_decide; subst; by simplify_map_eq. }
  split; [|split; [|split]].
  - unfold tx_writeNode, load_node, get_tx, mod_tx, modS, mbind, M_bind. rewrite Hr. simpl. by rewrite Hm.
  - split; [exact (ok_slices _ Hok)|]. intros pn q. rewrite Hd. case_decide; [|apply (ok_dirty _ Hok)].
    intros [= ->]. exists r. by split.
  - unfold page_node. rewrite Hd, decide_True by done. simpl. by rewrite Hr.
  - intros pn Hpn. unfold page_node. by rewrite Hd, decide_False by done.
Qed.

End heap.
