(* ===== verification/Contents.v ===== *)
(** * Search trees as mathematical objects: contents, search, replacement

    A [tree] is what a collection's pages show, read from the root: every node
    with its page number, its items and its subtrees.  [flatten] is the list of
    its items in key order, which is what the collection means as a map; the
    functions [upsert] and [find_item] on sorted lists are the reference
    definitions [Put] and [Find] are compared with. *)

From stdpp Require Import sorting.
From S2P Require Import Prelude Freelist Node.

Open Scope nat_scope.

(** ** Sorted item lists as maps *)

Fixpoint find_item (k : bytes) (l : list Item) : option Item :=
  match l with
  | [] => None
  | it :: l => if decide (key it = k) then Some it else find_item k l
  end.

Fixpoint upsert (k v : bytes) (l : list Item) : list Item :=
  match l with
  | [] => [newItem k v]
  | it :: l =>
      match bytes_compare (key it) k with
      | Lt => it :: upsert k v l
      | Eq => newItem k v :: l
      | Gt => newItem k v :: it :: l
      end
  end.

Definition below (k : bytes) (l : list Item) : Prop := Forall (fun it => bytes_lt (key it) k) l.
Definition above (k : bytes) (l : list Item) : Prop := Forall (fun it => bytes_lt k (key it)) l.

(** ** Trees *)

Inductive tree := Tree (pg : Z) (its : list Item) (kids : list tree).

Definition t_page (t : tree) : Z := let '(Tree pg _ _) := t in pg.
Definition t_items (t : tree) : list Item := let '(Tree _ its _) := t in its.
Definition t_kids (t : tree) : list tree := let '(Tree _ _ kids) := t in kids.

(** The root node of a tree. *)
Definition t_node (t : tree) : node := Node (t_page t) (t_items t) (t_page <$> t_kids t).

Section tree_ind.
Context (P : tree -> Prop).
Context (IH : forall pg its kids, Forall P kids -> P (Tree pg its kids)).

Fixpoint tree_ind' (t : tree) : P t :=
  match t with
  | Tree pg its kids =>
      IH pg its kids
        ((fix go l := match l return Forall P l with
                      | [] => Forall_nil_2 P
                      | k :: l => Forall_cons_2 P k l (tree_ind' k) (go l)
                      end) kids)
  end.
End tree_ind.

Fixpoint interleave (its : list Item) (parts : list (list Item)) {struct parts} : list Item :=
  match parts with
  | [] => its
  | p :: parts =>
      p ++ match its with
           | [] => concat parts
           | it :: its => it :: interleave its parts
           end
  end.

Fixpoint flatten (t : tree) : list Item :=
  let '(Tree _ its kids) := t in interleave its (map flatten kids).

Fixpoint pages (t : tree) : list Z :=
  let '(Tree pg _ kids) := t in pg :: concat (map pages kids).

Fixpoint height (t : tree) : nat :=
  let '(Tree _ _ kids) := t in S (foldr (fun k m => Nat.max (height k) m) 0 kids).

(** An inner node has one child more than items. *)
Fixpoint shape (t : tree) : Prop :=
  let '(Tree _ its kids) := t in
  (kids = [] \/ length kids = S (length its)) /\ foldr (fun k Q => shape k /\ Q) True kids.

(** The path [findKey] follows for a key: the child indexes, and the subtree
    it ends in. *)
Inductive route (k : bytes) : tree -> list nat -> tree -> Prop :=
| route_here t :
    fst (findKeyInNode (t_node t) k) = true \/ t_kids t = [] -> route k t [] t
| route_down t i c idxs st :
    findKeyInNode (t_node t) k = (false, i) -> t_kids t !! i = Some c ->
    route k c idxs st -> route k t (i :: idxs) st.

Fixpoint subtree (idxs : list nat) (t : tree) : option tree :=
  match idxs with
  | [] => Some t
  | i :: idxs => t_kids t !! i ≫= subtree idxs
  end.

(** The tree with the subtree at a path replaced. *)
Fixpoint set_subtree (idxs : list nat) (st t : tree) : tree :=
  match idxs with
  | [] => st
  | i :: idxs => let '(Tree pg its kids) := t in Tree pg its (alter (set_subtree idxs st) i kids)
  end.

(** A node after [Put] has stored the item where the search in it ended. *)
Definition put_here (k v : bytes) (st : tree) : tree :=
  let '(Tree pg its kids) := st in
  let '(found, i) := findKeyInNode (t_node st) k in
  Tree pg (if found : bool then <[i := newItem k v]> its else insert_at i (newItem k v) its) kids.

(** ** Lists *)

Lemma find_item_None k l : find_item k l = None <-> k ∉ keys l.
Proof.
  induction l as [|it l IH]; simpl; [split; [by intros _ ?%not_elem_of_nil|done]|].
  rewrite not_elem_of_cons. case_decide; naive_solver.
Qed.

Lemma find_item_app k l1 l2 : k ∉ keys l1 -> find_item k (l1 ++ l2) = find_item k l2.
Proof.
  induction l1 as [|it l1 IH]; simpl; [done|]. rewrite not_elem_of_cons. intros [H1 H2].
  rewrite decide_False by done. by apply IH.
Qed.

Lemma find_item_some k l it : find_item k l = Some it -> it ∈ l /\ key it = k.
Proof.
  induction l as [|x l IH]; simpl; [done|]. case_decide; [intros [= ->]|]; [by split; [left|]|].
  intros H'. destruct (IH H'). by split; [right|].
Qed.

Lemma below_not_in k l : below k l -> k ∉ keys l.
Proof.
  intros H. unfold keys. intros (it & -> & Hit)%list_elem_of_fmap.
  unfold below in H. rewrite Forall_forall in H. by apply (bytes_lt_not_eq _ _ (H it Hit)).
Qed.

Lemma above_not_in k l : above k l -> k ∉ keys l.
Proof.
  intros H. unfold keys. intros (it & -> & Hit)%list_elem_of_fmap.
  unfold above in H. rewrite Forall_forall in H. by apply (bytes_lt_not_eq _ _ (H it Hit)).
Qed.

Lemma upsert_above k v l : above k l -> upsert k v l = newItem k v :: l.
Proof.
  intros H. destruct l as [|it l]; [done|]. apply Forall_cons in H as [H _]. simpl.
  unfold bytes_lt in H. by rewrite bytes_compare_antisym, H.
Qed.

Lemma upsert_below k v l1 l2 : below k l1 -> upsert k v (l1 ++ l2) = l1 ++ upsert k v l2.
Proof.
  intros H. induction H as [|it l1 Hit _ IH]; [done|]. simpl. unfold bytes_lt in Hit. by rewrite Hit, IH.
Qed.

Lemma upsert_insert k v l1 l2 : below k l1 -> above k l2 -> upsert k v (l1 ++ l2) = l1 ++ newItem k v :: l2.
Proof. intros. by rewrite upsert_below, upsert_above. Qed.

Lemma upsert_replace k v v0 l1 l2 :
  below k l1 -> upsert k v (l1 ++ newItem k v0 :: l2) = l1 ++ newItem k v :: l2.
Proof. intros. rewrite upsert_below by done. simpl. by rewrite bytes_compare_refl. Qed.

Lemma upsert_Forall (R : bytes -> Prop) k v l :
  R k -> Forall (fun it => R (key it)) l -> Forall (fun it => R (key it)) (upsert k v l).
Proof.
  intros Hk Hl. induction Hl as [|it l Hit Hl IH]; simpl; [by repeat constructor|].
  destruct (bytes_compare (key it) k); repeat constructor; auto.
Qed.

Lemma sorted_cons it l : sorted (it :: l) <-> above (key it) l /\ sorted l.
Proof. unfold sorted, above, keys. rewrite fmap_cons, StronglySorted_cons. by rewrite Forall_fmap. Qed.

Lemma sorted_app l1 l2 :
  sorted (l1 ++ l2) <-> (forall a b, a ∈ l1 -> b ∈ l2 -> bytes_lt (key a) (key b)) /\ sorted l1 /\ sorted l2.
Proof.
  unfold sorted, keys. rewrite fmap_app, StronglySorted_app. apply and_iff_compat_r.
  split; [set_solver|]. intros H a b Ha Hb. apply list_elem_of_fmap in Ha as (x & -> & Hx), Hb as (y & -> & Hy).
  by apply H.
Qed.

Lemma upsert_sorted k v l : sorted l -> sorted (upsert k v l).
Proof.
  induction l as [|it l IH]; intros Hs; simpl; [repeat constructor|].
  apply sorted_cons in Hs as [Ha Hs]. destruct (bytes_compare (key it) k) eqn:E.
  - apply bytes_compare_eq in E. subst. by apply sorted_cons.
  - apply sorted_cons. split; [|by apply IH]. by apply (upsert_Forall (bytes_lt (key it))).
  - apply sorted_cons. assert (bytes_lt k (key it)) as Hlt
      by (unfold bytes_lt; by rewrite bytes_compare_antisym, E).
    split; [|by apply sorted_cons]. constructor; [done|].
    eapply Forall_impl; [exact Ha|]. intros x Hx. simpl in Hx. by etrans.
Qed.

(** The map laws of [upsert]. *)
Lemma find_upsert_eq k v l : find_item k (upsert k v l) = Some (newItem k v).
Proof.
  induction l as [|it l IH]; simpl; [by rewrite decide_True|].
  destruct (bytes_compare (key it) k) eqn:E; simpl; rewrite ?decide_True by done; try done.
  rewrite decide_False; [done|]. by apply bytes_lt_not_eq.
Qed.

Lemma find_upsert_ne k v k' l : k' <> k -> find_item k' (upsert k v l) = find_item k' l.
Proof.
  intros Hk. induction l as [|it l IH]; simpl; [by rewrite decide_False by congruence|].
  destruct (bytes_compare (key it) k) eqn:E; simpl.
  - apply bytes_compare_eq in E. by rewrite !decide_False by congruence.
  - by rewrite IH.
  - by rewrite (decide_False (P := k = k')) by congruence.
Qed.

(** ** In-order contents *)

Definition before (its : list Item) (ps : list (list Item)) : list Item :=
  concat (zip_with (fun it p => p ++ [it]) its ps).
Definition after (its : list Item) (ps : list (list Item)) : list Item :=
  concat (zip_with (fun it p => it :: p) its ps).

Lemma interleave_after its p ps : length its = length ps -> interleave its (p :: ps) = p ++ after its ps.
Proof.
  revert p ps. induction its as [|it its IH]; intros p [|q ps] H; simplify_eq/=; [done|].
  by rewrite IH.
Qed.

(** The contents around one child. *)
Lemma interleave_child its1 its2 ps1 p ps2 :
  length its1 = length ps1 -> length its2 = length ps2 ->
  interleave (its1 ++ its2) (ps1 ++ p :: ps2) = before its1 ps1 ++ p ++ after its2 ps2.
Proof.
  revert ps1. induction its1 as [|it its1 IH]; intros [|q ps1] H1 H2; simplify_eq/=.
  - by apply interleave_after.
  - unfold before in *. simpl. rewrite IH by lia. by rewrite <- !app_assoc.
Qed.

(** The contents around one item of an inner node. *)
Lemma interleave_item its1 it its2 ps1 ps2 :
  length ps1 = S (length its1) ->
  interleave (its1 ++ it :: its2) (ps1 ++ ps2) = interleave its1 ps1 ++ it :: interleave its2 ps2.
Proof.
  revert ps1. induction its1 as [|x its1 IH]; intros [|p ps1] H; simplify_eq/=.
  - destruct ps1; [|done]. by rewrite app_nil_r.
  - rewrite IH by lia. by rewrite <- app_assoc.
Qed.

Lemma interleave_items its ps : (ps = [] \/ length ps = S (length its)) -> its ⊆ interleave its ps.
Proof.
  revert ps. induction its as [|it its IH]; intros ps H; [set_solver|].
  destruct ps as [|p [|q ps]]; [done|destruct H; simplify_eq/=|].
  assert (its ⊆ interleave its (q :: ps)) by (apply IH; right; destruct H; simplify_eq/=; lia).
  simpl in *. set_solver.
Qed.

Lemma sorted_items its ps :
  (ps = [] \/ length ps = S (length its)) -> sorted (interleave its ps) -> sorted its.
Proof.
  revert ps. induction its as [|it its IH]; intros ps H Hs; [constructor|].
  destruct ps as [|p [|q ps]]; [done|destruct H; simplify_eq/=|].
  change (sorted (p ++ it :: interleave its (q :: ps))) in Hs.
  apply sorted_app in Hs as (_ & _ & Hs). apply sorted_cons in Hs as [Ha Hs].
  assert (q :: ps = [] \/ length (q :: ps) = S (length its)) as Hl by (right; destruct H; simplify_eq/=; lia).
  apply sorted_cons. split; [|by apply (IH (q :: ps))].
  unfold above in *. rewrite Forall_forall in *. intros x Hx. apply Ha. by apply (interleave_items its (q :: ps)).
Qed.

Lemma t_node_kids t : length (childNodes (t_node t)) = length (t_kids t).
Proof. simpl. apply length_fmap. Qed.

Lemma shape_node t : shape t -> t_kids t = [] \/ length (t_kids t) = S (length (t_items t)).
Proof. destruct t. by intros []. Qed.

Lemma foldr_all {A} (P : A -> Prop) l : foldr (fun k Q => P k /\ Q) True l <-> Forall P l.
Proof. induction l as [|x l IH]; simpl; [by split|]. by rewrite Forall_cons, IH. Qed.

Lemma shape_kids t i c : shape t -> t_kids t !! i = Some c -> shape c.
Proof.
  destruct t as [pg its kids]. intros [_ H] Hc. apply foldr_all in H. simpl in Hc.
  rewrite Forall_lookup in H. by eapply H.
Qed.

Lemma flatten_leaf t : t_kids t = [] -> flatten t = t_items t.
Proof. destruct t as [pg its kids]. simpl. by intros ->. Qed.

(** The contents of a tree around the child number [i]. *)
Lemma flatten_child pg its kids i c :
  length kids = S (length its) -> kids !! i = Some c ->
  let ps := map flatten kids in
  flatten (Tree pg its kids) =
    before (take i its) (take i ps) ++ flatten c ++ after (drop i its) (drop (S i) ps) /\
  forall c', flatten (Tree pg its (<[i := c']> kids)) =
    before (take i its) (take i ps) ++ flatten c' ++ after (drop i its) (drop (S i) ps).
Proof.
  intros Hl Hc ps. pose proof (lookup_lt_Some _ _ _ Hc) as Hi.
  assert (forall q, interleave its (take i ps ++ q :: drop (S i) ps) =
    before (take i its) (take i ps) ++ q ++ after (drop i its) (drop (S i) ps)) as H.
  { intros q. rewrite <- (take_drop i its) at 1. unfold ps.
    apply interleave_child; rewrite ?length_take, ?length_drop, length_map; lia. }
  split.
  - rewrite <- H. simpl. f_equal. unfold ps.
    assert (map flatten kids !! i = Some (flatten c)) as Hp by (rewrite list_lookup_fmap, Hc; done).
    by rewrite (take_drop_middle _ _ _ Hp).
  - intros c'. rewrite <- H. simpl. f_equal. unfold ps.
    change (flatten <$> <[i:=c']> kids = take i (flatten <$> kids) ++ flatten c' :: drop (S i) (flatten <$> kids)).
    rewrite list_fmap_insert. apply insert_take_drop. rewrite length_fmap. lia.
Qed.

(** ** What a route knows *)

Lemma last_in_before its ps : length its = length ps ->
  before its ps = [] \/ exists l it, before its ps = l ++ [it] /\ it ∈ its.
Proof.
  intros H. destruct (decide (its = [])) as [-> |Hne]; [by left|right].
  destruct (exists_last Hne) as (its' & it & ->). rewrite length_app in H. simpl in H.
  destruct (decide (ps = [])) as [-> |Hne2]; [simpl in H; lia|].
  destruct (exists_last Hne2) as (ps' & p & ->). rewrite length_app in H. simpl in H.
  exists (before its' ps' ++ p), it. split; [|set_solver].
  unfold before. rewrite zip_with_app by lia. rewrite concat_app. simpl.
  by rewrite app_nil_r, <- app_assoc.
Qed.

Lemma below_before k its ps :
  length its = length ps -> below k its -> sorted (before its ps) -> below k (before its ps).
Proof.
  intros Hl Hb Hs. destruct (last_in_before its ps Hl) as [-> |(l & it & E & Hit)]; [constructor|].
  rewrite E in *. unfold below in *. rewrite Forall_forall in *. apply sorted_app in Hs as (Hs & _).
  intros x [Hx| ->%list_elem_of_singleton]%elem_of_app; [|by apply Hb].
  etrans; [by apply (Hs x it); set_solver|by apply Hb].
Qed.

Lemma above_after k its ps :
  length its = length ps -> above k its -> sorted (after its ps) -> above k (after its ps).
Proof.
  destruct its as [|it its], ps as [|p ps]; try done.
  unfold after, above. simpl. intros _ [Hk _]%Forall_cons [Ha _]%sorted_cons. constructor; [done|].
  eapply Forall_impl; [exact Ha|]. intros x Hx. simpl in Hx. by etrans.
Qed.

(** In a sorted node, a failed search splits the items strictly. *)
Lemma search_split n k i :
  sorted (items n) -> findKeyInNode n k = (false, i) ->
  (i <= length (items n)) /\ below k (take i (items n)) /\ above k (drop i (items n)).
Proof.
  intros Hs E. destruct (findKeyInNode_split n k false i Hs E) as (Hi & Hb & Ha & Hf).
  split; [done|]. split; [done|]. unfold above. rewrite Forall_forall in *. intros x Hx.
  specialize (Ha x Hx). apply bytes_le_spec in Ha as [?| ->]; [done|]. exfalso.
  destruct (drop i (items n)) as [|y l] eqn:Ed; [by apply not_elem_of_nil in Hx|].
  assert (items n !! i = Some y) as Hy.
  { rewrite <- (Nat.add_0_r i), <- lookup_drop, Ed. done. }
  apply elem_of_cons in Hx as [<- |Hx].
  - assert (false = true) by (apply Hf; exists (value x); by destruct x). done.
  - assert (sorted (drop i (items n))) as Hsd
      by (rewrite <- (take_drop i (items n)) in Hs; by apply sorted_app in Hs as (_ & _ & ?)).
    rewrite Ed in Hsd. apply sorted_cons in Hsd as [Hab _].
    unfold above in Hab. rewrite Forall_forall in Hab. specialize (Hab x Hx).
    assert (y ∈ y :: l) as Hin by set_solver. assert (bytes_le (key x) (key y)) as Hle.
    { destruct (findKeyInNode_split n (key x) false i Hs E) as (_ & _ & Ha' & _). rewrite Ed in Ha'.
      rewrite Forall_forall in Ha'. by apply Ha'. }
    apply bytes_le_spec in Hle as [?|Heq].
    + apply (irreflexivity bytes_lt (key x)). by etrans.
    + rewrite Heq in Hab. by apply (irreflexivity bytes_lt (key y)).
Qed.

Lemma route_context k t idxs st :
  route k t idxs st -> shape t -> sorted (flatten t) ->
  shape st /\ sorted (flatten st) /\ exists l r, flatten t = l ++ flatten st ++ r /\ below k l /\ above k r /\
    forall st', flatten (set_subtree idxs st' t) = l ++ flatten st' ++ r.
Proof.
  induction 1 as [t H|t i c idxs st Hf Hc _ IH]; intros Hsh Hs.
  - split; [done|]. split; [done|]. exists [], []. rewrite app_nil_r. repeat split; try constructor.
    intros st'. by rewrite app_nil_r.
  - pose proof (shape_kids _ _ _ Hsh Hc) as Hshc. destruct t as [pg its kids]. simpl in Hc.
    pose proof (shape_node _ Hsh) as Hl. simpl in Hl.
    destruct Hl as [-> |Hl]; [done|]. destruct (flatten_child pg its kids i c Hl Hc) as [E1 E2].
    set (ps := map flatten kids) in *. assert (length ps = S (length its)) as Hps by (unfold ps; rewrite length_map; lia).
    assert (sorted its) as Hsi by (apply (sorted_items its ps); [by right|exact Hs]).
    destruct (search_split (t_node (Tree pg its kids)) k i Hsi Hf) as (Hi & Hb & Ha). cbn [items t_node t_items] in Hi, Hb, Ha.
    rewrite E1 in Hs. pose proof Hs as Hs'. apply sorted_app in Hs' as (_ & Hsb & Hs').
    apply sorted_app in Hs' as (_ & Hsc & Hsa).
    destruct (IH Hshc Hsc) as (? & ? & l & r & El & Hbl & Har & Eset). split; [done|]. split; [done|].
    exists (before (take i its) (take i ps) ++ l), (r ++ after (drop i its) (drop (S i) ps)).
    rewrite E1, El, !app_assoc. split; [done|]. split; [|split].
    + apply Forall_app. split; [|done]. apply below_before; [|done|done].
      rewrite !length_take. lia.
    + apply Forall_app. split; [done|]. apply above_after; [|done|done].
      rewrite !length_drop. lia.
    + intros st'. simpl. rewrite (alter_insert _ kids i c Hc).
      change (interleave its (map flatten (<[i:=set_subtree idxs st' c]> kids)))
        with (flatten (Tree pg its (<[i:=set_subtree idxs st' c]> kids))).
      by rewrite E2, Eset, !app_assoc.
Qed.

Lemma route_end k t idxs st : route k t idxs st -> fst (findKeyInNode (t_node st) k) = true \/ t_kids st = [].
Proof. by induction 1. Qed.

Lemma route_subtree k t idxs st : route k t idxs st -> subtree idxs t = Some st.
Proof. induction 1 as [|t i c idxs st _ Hc _ IH]; [done|]. simpl. by rewrite Hc. Qed.

(** The contents of a node around one of its items. *)
Lemma flatten_item t i it :
  shape t -> t_items t !! i = Some it ->
  exists l r, flatten t = l ++ it :: r /\
    forall it', flatten (Tree (t_page t) (<[i := it']> (t_items t)) (t_kids t)) = l ++ it' :: r.
Proof.
  destruct t as [pg its kids]. intros [Hl _] Hi. cbn [t_items t_page t_kids] in *.
  pose proof (lookup_lt_Some _ _ _ Hi) as Hlt.
  pose proof (take_drop_middle its i it Hi) as Eits.
  destruct Hl as [-> |Hl].
  - exists (take i its), (drop (S i) its). split; [by symmetry|]. intros it'. simpl. by rewrite insert_take_drop.
  - set (ps := map flatten kids). assert (length ps = S (length its)) as Hps by (unfold ps; by rewrite length_map).
    exists (interleave (take i its) (take (S i) ps)), (interleave (drop (S i) its) (drop (S i) ps)).
    assert (forall x, interleave (take i its ++ x :: drop (S i) its) ps =
      interleave (take i its) (take (S i) ps) ++ x :: interleave (drop (S i) its) (drop (S i) ps)) as H.
    { intros x. rewrite <- (take_drop (S i) ps) at 1. apply interleave_item.
      rewrite !length_take. lia. }
    split; [simpl; fold ps; by rewrite <- H, Eits|]. intros it'. simpl. fold ps. rewrite insert_take_drop by done. apply H.
Qed.

Lemma sorted_around l it r : sorted (l ++ it :: r) -> below (key it) l /\ above (key it) r.
Proof.
  intros (H & _ & [Ha _]%sorted_cons)%sorted_app. split; [|done].
  unfold below. rewrite Forall_forall. intros x Hx. apply H; set_solver.
Qed.

(** The end of the route holds the key if the tree does. *)
Lemma route_find k t idxs st :
  route k t idxs st -> shape t -> sorted (flatten t) ->
  let '(found, i) := findKeyInNode (t_node st) k in
  if found : bool then exists it, t_items st !! i = Some it /\ find_item k (flatten t) = Some it
  else find_item k (flatten t) = None.
Proof.
  intros Hr Hsh Hs. destruct (route_context _ _ _ _ Hr Hsh Hs) as (Hsh' & Hs' & l & r & E & Hb & Ha & _).
  pose proof (route_end _ _ _ _ Hr) as Hend.
  destruct (findKeyInNode (t_node st) k) as [b i] eqn:Ef. rewrite E.
  rewrite find_item_app by (by apply below_not_in).
  assert (sorted (t_items st)) as Hsi.
  { destruct st as [pg its kids]. destruct Hsh' as [Hl _]. apply (sorted_items its (map flatten kids)); [|done].
    destruct Hl as [-> |Hl]; [by left|right; by rewrite length_map]. }
  destruct b.
  - destruct (findKeyInNode_split (t_node st) k true i Hsi Ef) as (_ & _ & _ & [Hf _]). destruct (Hf eq_refl) as [v Hv].
    cbn [items t_node] in Hv. exists (newItem k v). split; [done|].
    destruct (flatten_item st i _ Hsh' Hv) as (l' & r' & E' & _). rewrite E' in Hs' |- *.
    apply sorted_around in Hs' as [Hb' _]. rewrite <- app_assoc, find_item_app by (by apply below_not_in).
    simpl. by rewrite decide_True.
  - destruct Hend as [?|Hk]; [done|]. apply find_item_None. rewrite (flatten_leaf st Hk).
    destruct (search_split (t_node st) k i Hsi Ef) as (_ & Hb' & Ha'). cbn [items t_node] in *.
    rewrite <- (take_drop i (t_items st)). unfold keys. rewrite !fmap_app, !not_elem_of_app.
    split; [split; [by apply below_not_in|by apply above_not_in]|by apply above_not_in].
Qed.

(** Storing at the end of the route is [upsert] on the contents. *)
Lemma route_put k v t idxs st :
  route k t idxs st -> shape t -> sorted (flatten t) ->
  flatten (set_subtree idxs (put_here k v st) t) = upsert k v (flatten t).
Proof.
  intros Hr Hsh Hs. destruct (route_context _ _ _ _ Hr Hsh Hs) as (Hsh' & Hs' & l & r & E & Hb & Ha & Eset).
  rewrite Eset, E, upsert_below by done. f_equal.
  pose proof (route_end _ _ _ _ Hr) as Hend.
  assert (sorted (t_items st)) as Hsi.
  { destruct st as [pg its kids]. destruct Hsh' as [Hl _]. apply (sorted_items its (map flatten kids)); [|done].
    destruct Hl as [-> |Hl]; [by left|right; by rewrite length_map]. }
  unfold put_here. destruct st as [pg its kids].
  destruct (findKeyInNode (t_node (Tree pg its kids)) k) as [b i] eqn:Ef. destruct b.
  - destruct (findKeyInNode_split (t_node (Tree pg its kids)) k true i Hsi Ef) as (_ & _ & _ & [Hf _]). destruct (Hf eq_refl) as [v0 Hv].
    destruct (flatten_item (Tree pg its kids) i _ Hsh' Hv) as (l' & r' & E' & Eset').
    cbn [t_page t_items t_kids] in Eset'. rewrite Eset', E', <- !app_assoc.
    rewrite E' in Hs'. apply sorted_around in Hs' as [Hb' _]. symmetry. by apply upsert_replace.
  - destruct Hend as [?|Hk]; [done|]. simpl in Hk. subst. destruct (search_split (t_node (Tree pg its [])) k i Hsi Ef) as (_ & Hb' & Ha').
    cbn [items t_node t_items] in *. simpl. unfold insert_at. rewrite <- (take_drop i its) at 3.
    rewrite <- !app_assoc, upsert_insert; [done|done|]. apply Forall_app. by split.
Qed.

(** ** Replacing a subtree by one with the same pages *)

Lemma height_le t h : height t <= S h <-> Forall (fun c => height c <= h) (t_kids t).
Proof.
  destruct t as [pg its kids]. simpl. induction kids as [|c kids IH]; simpl.
  - split; [constructor|lia].
  - rewrite Forall_cons. split; [intros; split; [lia|apply IH; lia]|intros [? H%IH]; lia].
Qed.

Lemma height_pos t : 1 <= height t.
Proof. destruct t. simpl. lia. Qed.

Record same_frame (st st' : tree) : Prop := {
  same_page : t_page st' = t_page st;
  same_pages : pages st' = pages st;
  same_height : height st' = height st;
  same_shape : shape st -> shape st'
}.

Lemma set_subtree_frame idxs st st' t :
  subtree idxs t = Some st -> same_frame st st' -> same_frame t (set_subtree idxs st' t).
Proof.
  revert t. induction idxs as [|i idxs IH]; intros [pg its kids] Hsub [Hpg Hps Hh Hs].
  - simpl in *. simplify_eq. by split.
  - simpl in Hsub. destruct (kids !! i) as [c|] eqn:Hc; [|done]. simpl in Hsub.
    destruct (IH c Hsub) as [Cpg Cps Ch Cs]; [by split|]. simpl. rewrite (alter_insert _ kids i c Hc).
    set (c' := set_subtree idxs st' c) in *. split; simpl.
    + done.
    + do 2 f_equal. change (pages <$> <[i:=c']> kids = pages <$> kids). rewrite list_fmap_insert, Cps.
      apply list_insert_id. by rewrite list_lookup_fmap, Hc.
    + f_equal. clear -Hc Ch. revert i Hc. induction kids as [|x kids IH]; intros [|i] Hc; simplify_eq/=.
      * by rewrite Ch.
      * by rewrite (IH _ Hc).
    + rewrite !foldr_all. intros [Hl Hall]. split.
      * rewrite length_insert. destruct Hl as [-> |?]; [by left|by right].
      * apply Forall_insert; [done|]. apply Cs. rewrite Forall_lookup in Hall. by eapply Hall.
Qed.

Lemma put_here_frame k v st :
  fst (findKeyInNode (t_node st) k) = true \/ t_kids st = [] -> same_frame st (put_here k v st).
Proof.
  destruct st as [pg its kids]. intros H. unfold put_here.
  destruct (findKeyInNode (t_node (Tree pg its kids)) k) as [b i]. split; try done.
  simpl in *. intros [Hl Hall]. split; [|done].
  destruct b; [by rewrite length_insert|]. destruct H as [?| ->]; [done|by left].
Qed.

(** ** Splitting a child *)

(** The two halves of a node cut around the item number [s]. *)
Definition left_half (s : nat) (c : tree) : tree :=
  Tree (t_page c) (take s (t_items c)) (take (S s) (t_kids c)).
Definition right_half (s : nat) (np : Z) (c : tree) : tree :=
  Tree np (drop (S s) (t_items c)) (drop (S s) (t_kids c)).

(** [t] with its child number [i], [c], split around the item [mid] number [s]. *)
Definition split_child (i s : nat) (mid : Item) (np : Z) (c t : tree) : tree :=
  Tree (t_page t) (insert_at i mid (t_items t))
    (insert_at (S i) (right_half s np c) (<[i := left_half s c]> (t_kids t))).

Lemma flatten_halves s c mid np :
  shape c -> t_items c !! s = Some mid ->
  flatten c = flatten (left_half s c) ++ mid :: flatten (right_half s np c).
Proof.
  destruct c as [pg its kids]. intros [Hl _] Hs. unfold left_half, right_half. cbn [t_page t_items t_kids] in *.
  pose proof (take_drop_middle its s mid Hs) as E. simpl. rewrite <- E at 1.
  destruct Hl as [-> |Hl]; [by rewrite take_nil, drop_nil|].
  rewrite <- (take_drop (S s) (map flatten kids)) at 1. rewrite interleave_item.
  - by rewrite firstn_map, skipn_map.
  - pose proof (lookup_lt_Some _ _ _ Hs). rewrite !length_take, length_map. lia.
Qed.

Lemma insert_at_middle {A} i (x y z : A) l :
  l !! i = Some x -> insert_at (S i) z (<[i := y]> l) = take i l ++ y :: z :: drop (S i) l.
Proof.
  intros Hx. pose proof (lookup_lt_Some _ _ _ Hx). unfold insert_at.
  rewrite insert_take_drop by done. rewrite take_app_ge by (rewrite length_take; lia).
  rewrite drop_app_ge by (rewrite length_take; lia). rewrite length_take, Nat.min_l by lia.
  replace (S i - i) with 1 by lia. simpl. by rewrite drop_0, <- app_assoc.
Qed.

Lemma split_child_flatten i s mid np c t :
  shape t -> t_kids t !! i = Some c -> t_items c !! s = Some mid ->
  flatten (split_child i s mid np c t) = flatten t.
Proof.
  intros Hsh Hc Hs. pose proof (shape_kids _ _ _ Hsh Hc) as Hshc. destruct t as [pg its kids].
  destruct Hsh as [[-> |Hl] _]; [done|]. simpl in Hc. unfold split_child. cbn [t_page t_items t_kids].
  destruct (flatten_child pg its kids i c Hl Hc) as [-> _].
  rewrite (flatten_halves s c mid np Hshc Hs). simpl. rewrite (insert_at_middle i c) by done.
  pose proof (lookup_lt_Some _ _ _ Hc). unfold insert_at.
  rewrite map_app. cbn [map]. rewrite interleave_child.
  - unfold after. cbn [zip_with concat]. rewrite <- firstn_map, <- skipn_map. by rewrite <- !app_assoc.
  - rewrite length_map, !length_take. lia.
  - simpl. rewrite length_map, !length_drop. lia.
Qed.

Lemma halves_shape s c mid np :
  shape c -> t_items c !! s = Some mid -> shape (left_half s c) /\ shape (right_half s np c).
Proof.
  destruct c as [pg its kids]. unfold left_half, right_half. cbn [t_page t_items t_kids]. intros [Hl Ha] Hs.
  apply foldr_all in Ha. pose proof (lookup_lt_Some _ _ _ Hs). simpl. rewrite !foldr_all.
  rewrite !length_take, !length_drop.
  split; (split; [destruct Hl as [-> |Hl]; [left; by rewrite ?take_nil, ?drop_nil|right; lia]|]).
  - by apply Forall_take.
  - by apply Forall_drop.
Qed.

Lemma split_child_shape i s mid np c t :
  shape t -> t_kids t !! i = Some c -> t_items c !! s = Some mid -> shape (split_child i s mid np c t).
Proof.
  intros Hsh Hc Hs. destruct (halves_shape s c mid np (shape_kids _ _ _ Hsh Hc) Hs) as [Hl Hr].
  destruct t as [pg its kids]. destruct Hsh as [Hk Hall%foldr_all]. simpl in Hc. unfold split_child.
  cbn [t_page t_items t_kids]. simpl. rewrite (insert_at_middle i c) by done. rewrite foldr_all.
  pose proof (lookup_lt_Some _ _ _ Hc). destruct Hk as [-> |Hk]; [done|]. split.
  - right. unfold insert_at. rewrite !length_app. simpl. rewrite !length_take, !length_drop. lia.
  - apply Forall_app. split; [by apply Forall_take|]. constructor; [done|]. constructor; [done|]. by apply Forall_drop.
Qed.

Lemma split_child_height i s mid np c t h :
  t_kids t !! i = Some c -> height t <= h -> height (split_child i s mid np c t) <= h.
Proof.
  intros Hc Hh. destruct h as [|h]; [pose proof (height_pos t); lia|]. apply height_le in Hh. apply height_le.
  unfold split_child. cbn [t_kids]. rewrite (insert_at_middle i c) by done.
  assert (height c <= h) as Hch by (rewrite Forall_lookup in Hh; by eapply Hh).
  destruct h as [|h]; [pose proof (height_pos c); lia|]. apply height_le in Hch.
  apply Forall_app. split; [by apply Forall_take|]. constructor; [|constructor; [|by apply Forall_drop]].
  - apply height_le. by apply Forall_take.
  - apply height_le. by apply Forall_drop.
Qed.

Lemma pages_kids t : pages t = t_page t :: concat (pages <$> t_kids t).
Proof. by destruct t. Qed.

Lemma page_in_pages t : t_page t ∈ pages t.
Proof. rewrite pages_kids. left. Qed.

Lemma kid_pages t i c pn : t_kids t !! i = Some c -> pn ∈ pages c -> pn ∈ pages t.
Proof.
  intros Hc Hp. rewrite pages_kids. right. apply list_elem_of_In, in_concat. exists (pages c).
  split; apply list_elem_of_In; [|done]. eapply list_elem_of_lookup_2. by rewrite list_lookup_fmap, Hc.
Qed.

Lemma split_child_pages i s mid np c t :
  t_kids t !! i = Some c -> pages (split_child i s mid np c t) ≡ₚ np :: pages t.
Proof.
  intros Hc. rewrite !pages_kids. unfold split_child. cbn [t_page t_kids].
  rewrite (insert_at_middle i c) by done. rewrite <- (take_drop_middle _ _ _ Hc) at 3.
  rewrite !fmap_app, !fmap_cons, !concat_app. cbn [concat].
  rewrite (pages_kids c), (pages_kids (left_half s c)), (pages_kids (right_half s np c)).
  unfold left_half, right_half. cbn [t_page t_kids].
  rewrite <- (take_drop (S s) (t_kids c)) at 3. rewrite !fmap_app, !concat_app.
  solve_Permutation.
Qed.
