(* ===== verification/Split.v ===== *)
(** * [split]: what it does to the heap and to the pages

    [split] shares the arrays of the node it splits between the two halves,
    then inserts into the parent's slices.  [split_ok] gives its effect under
    the condition that the parent owns its slices; the halves do not own theirs
    afterwards (see [Findings]). *)

From S2P Require Import Prelude Freelist Meta Node Float32 Dal GoSlice World Tree Heap.

Open Scope Z_scope.

(** The split index leaves at least one item on the left and one in the middle. *)
Lemma split_loop_range d its total i size s :
  split_loop d its total i size = Some s -> (i + length its = total)%nat -> (i + 1 <= s < total)%nat.
Proof.
  revert i size. induction its as [|it its IH]; intros i size H Hl; [done|]. cbn [split_loop] in H.
  cbn [length] in Hl. destruct (f32_lt _ _); simpl in H.
  - case_bool_decide; [simplify_eq; lia|]. apply IH in H; lia.
  - apply IH in H; lia.
Qed.

Lemma getSplitIndex_range d n s : getSplitIndex d n = Some s -> (1 <= s < length (items n))%nat.
Proof. intros H. apply split_loop_range in H; [lia|done]. Qed.

(** The two halves of a node. *)
Definition left_node (s : nat) (n : node) : node :=
  Node (pageNum n) (take s (items n)) (take (S s) (childNodes n)).
Definition right_node (s : nat) (np : Z) (n : node) : node :=
  Node np (drop (S s) (items n)) (drop (S s) (childNodes n)).

Definition with_node p r w := with_nodesH (<[p := r]> (nodesH w)) w.

Section split.
Context {RT : GoRuntime}.

(** ** Cutting a node's slices *)

Lemma recut_ok w c r r' :
  world_ok w -> nodesH w !! c = Some r -> r_pageNum r' = r_pageNum r ->
  slice_step (itemsH w) (itemsH w) (r_items r) (r_items r') ->
  slice_step (kidsH w) (kidsH w) (r_childNodes r) (r_childNodes r') ->
  let w' := with_node c r' w in
  world_ok w' /\ points w' c (node_of w r') /\
  (forall q n, q <> c -> points w q n -> points w' q n) /\
  (forall q, q <> c -> owned w q -> owned w' q) /\
  (forall pn, pn <> r_pageNum r -> page_node pn w' = page_node pn w).
Proof.
  intros Hok Hr Hpn Hi Hk w'. pose proof (lookup_lt_Some _ _ _ Hr) as Hlt.
  assert (forall q, q <> c -> nodesH w' !! q = nodesH w !! q) as Hother
    by (intros q Hq; unfold w', with_node; simpl; by rewrite list_lookup_insert_ne).
  assert (nodesH w' !! c = Some r') as Hc by (unfold w', with_node; simpl; by rewrite list_lookup_insert_eq).
  assert (forall x, node_of w' x = node_of w x) as Hn by done.
  split; [|split; [by exists r'|split; [|split]]].
  - split.
    + intros q rq Hq. destruct (decide (q = c)) as [-> |Hne].
      * rewrite Hc in Hq. simplify_eq. split; [apply Hi|apply Hk].
      * rewrite Hother in Hq by done. by apply (ok_slices _ Hok q).
    + intros pn q Hd. destruct (ok_dirty _ Hok pn q Hd) as (rq & Hq & <-).
      destruct (decide (q = c)) as [-> |Hne]; [|exists rq; by rewrite Hother].
      exists r'. split; [done|]. congruence.
  - intros q n Hne (rq & Hq & <-). exists rq. by rewrite Hother.
  - intros q Hne (rq & Hq & Hap). exists rq. rewrite Hother by done. split; [done|].
    intros q' rq' Hne' Hq'. destruct (decide (q' = c)) as [-> |Hc'].
    + rewrite Hc in Hq'. simplify_eq. destruct (Hap c r Hne' Hr) as [Ai Ak].
      destruct (ok_slices _ Hok q rq Hq). symmetry in Ai, Ak.
      split; symmetry; [by apply (step_apart _ _ _ _ _ Hi)|by apply (step_apart _ _ _ _ _ Hk)].
    + rewrite Hother in Hq' by done. by apply (Hap q').
  - intros pn Hne. unfold page_node. change (dirty_at w' pn) with (dirty_at w pn).
    destruct (dirty_at w pn) as [q|] eqn:Hd; [|done].
    destruct (ok_dirty _ Hok pn q Hd) as (rq & Hq & Hpq).
    assert (q <> c) by congruence. by rewrite Hother.
Qed.

(** ** Allocating a page and filing a new node under it *)

Definition filed (p : node_ptr) (pn : Z) (w : world) : world :=
  with_wtx (with_dirty (option_map (insert pn p) (dirtyNodes (wtx w))) (wtx w)) w.

Lemma filed_ok w p r :
  world_ok w -> nodesH w !! p = Some r -> is_Some (dirtyNodes (wtx w)) ->
  let w' := filed p (r_pageNum r) w in
  tx_writeNode p w = (Ok p, w') /\ world_ok w' /\
  page_node (r_pageNum r) w' = Ok (node_of w r) /\
  (forall pn, pn <> r_pageNum r -> page_node pn w' = page_node pn w).
Proof.
  intros Hok Hr [m Hm]. unfold filed. rewrite Hm. by apply tx_writeNode_ok.
Qed.

(** A new node on slices of [w] (or new arrays), filed under a new page. *)
Lemma tx_newNode_ok w fr np fr' its kids :
  world_ok w -> tx_freelist (wtx w) = Some fr -> getNextPage fr = (np, fr') ->
  slice_ok (itemsH w) its -> slice_ok (kidsH w) kids ->
  let p := length (nodesH w) in
  let r := NodeRef np its kids in
  let w' := with_nodesH (nodesH w ++ [r]) (with_wtx (with_txfree (Some fr') (wtx w)) w) in
  tx_newNode its kids w = (Ok p, w') /\ world_ok w' /\ nodesH w' !! p = Some r /\
  (forall q n, points w q n -> points w' q n) /\
  (forall q rq, nodesH w !! q = Some rq -> region_apart (r_items rq) its ->
     region_apart (r_childNodes rq) kids -> owned w q -> owned w' q) /\
  (forall pn, page_node pn w' = page_node pn w).
Proof.
  intros Hok Hfr Hnp Hi Hk p r w'.
  assert (nodesH w' !! p = Some r) as Hp by (unfold w', p; simpl; by rewrite list_lookup_middle).
  assert (forall q rq, nodesH w !! q = Some rq -> nodesH w' !! q = Some rq) as Hold
    by (intros q rq Hq; unfold w'; simpl; by apply lookup_app_l_Some).
  assert (forall q rq, nodesH w' !! q = Some rq -> q = p /\ rq = r \/ nodesH w !! q = Some rq) as Hinv.
  { intros q rq Hq. unfold w' in Hq. simpl in Hq. apply lookup_app_Some in Hq as [Hq|[Hl Hq]]; [by right|left].
    fold p in Hl. fold p in Hq. destruct (q - p)%nat as [|n] eqn:E; [simplify_eq/=; split; [lia|done]|by destruct n]. }
  split; [|split; [|split; [done|split; [|split]]]].
  - unfold tx_newNode, tx_getNextPage, get_tx, mod_tx, modS, new_node. unfold mbind, M_bind. rewrite Hfr, Hnp. done.
  - split.
    + intros q rq [[-> ->]|Hq]%Hinv; [by split|]. by apply (ok_slices _ Hok q).
    + intros pn q Hd. destruct (ok_dirty _ Hok pn q Hd) as (rq & Hq & ?). exists rq. split; [by apply Hold|done].
  - intros q n (rq & Hq & <-). exists rq. split; [by apply Hold|done].
  - intros q rq Hq Hai Hak (rq' & Hq' & Hap). simplify_eq. exists rq. split; [by apply Hold|].
    intros q' rq' Hne [[-> ->]|Hq'']%Hinv; [done|]. by apply (Hap q').
  - intros pn. unfold page_node. change (dirty_at w' pn) with (dirty_at w pn).
    destruct (dirty_at w pn) as [q|] eqn:Hd; [|done].
    destruct (ok_dirty _ Hok pn q Hd) as (rq & Hq & _). by rewrite Hq, (Hold q rq Hq).
Qed.

(** What the steps of [split_off] leave alone: every node but [c]. *)
Record keeps (c : node_ptr) (w w' : world) : Prop := {
  keeps_points : forall q n, q <> c -> points w q n -> points w' q n;
  keeps_owned : forall q, q <> c -> owned w q -> owned w' q;
  keeps_colls : collsH w' = collsH w;
  keeps_db : wdb w' = wdb w
}.

Lemma keeps_refl c w : keeps c w w.
Proof. by split. Qed.

Lemma keeps_trans c w1 w2 w3 : keeps c w1 w2 -> keeps c w2 w3 -> keeps c w1 w3.
Proof. intros [P1 O1 C1 D1] [P2 O2 C2 D2]. split; auto; congruence. Qed.

(** A new empty array for the children of a leaf. *)
Lemma kids_literal_ok w xs :
  world_ok w ->
  let s := Slice (Some (length (kidsH w))) 0 (length xs) (length xs) in
  let w' := with_kidsH (kidsH w ++ [xs]) w in
  kids_literal xs w = (Ok s, w') /\ extends w w' /\ world_ok w' /\ slice_ok (kidsH w') s /\
  view (kidsH w') s = xs /\ (forall q rq, nodesH w !! q = Some rq -> region_apart (r_childNodes rq) s) /\
  (forall q, owned w q -> owned w' q).
Proof.
  intros Hok s w'. assert (kidsH w `prefix_of` kidsH w') as Hpre by (by eexists).
  assert (slice_ok (kidsH w') s) as Hs.
  { split; [done|]. simpl. exists xs. by rewrite list_lookup_middle. }
  split; [done|]. split; [by split|]. split; [|split; [done|split; [|split]]].
  - split; [|exact (ok_dirty _ Hok)]. intros p r Hr. destruct (ok_slices _ Hok p r Hr).
    split; [done|]. by apply (slice_ok_prefix (kidsH w)).
  - unfold view, arr. simpl. rewrite list_lookup_middle by done. simpl. apply sub_list_full.
  - intros q rq Hq. destruct (ok_slices _ Hok q rq Hq) as [_ Hk]. symmetry.
    apply (fresh_region_apart (kidsH w) (kidsH w')); [done|unfold fresh_from; simpl; lia|done].
  - done.
Qed.

Lemma extends_keeps c w w' :
  world_ok w -> extends w w' -> collsH w' = collsH w -> (forall q, owned w q -> owned w' q) -> keeps c w w'.
Proof.
  intros Hok He Hc Ho. split; [|auto|done|apply He]. intros q n _. by apply extends_points.
Qed.

(** The new half: allocate and file. *)
Lemma new_half_ok w c rc fr np fr' its kids :
  world_ok w -> nodesH w !! c = Some rc -> is_Some (dirtyNodes (wtx w)) ->
  tx_freelist (wtx w) = Some fr -> getNextPage fr = (np, fr') ->
  slice_step (itemsH w) (itemsH w) (r_items rc) its -> slice_ok (kidsH w) kids ->
  (forall q rq, q <> c -> owned w q -> nodesH w !! q = Some rq -> region_apart (r_childNodes rq) kids) ->
  let p := length (nodesH w) in
  let n := Node np (view (itemsH w) its) (view (kidsH w) kids) in
  exists w1 w', tx_newNode its kids w = (Ok p, w1) /\ tx_writeNode p w1 = (Ok p, w') /\
    world_ok w' /\ keeps c w w' /\ points w' p n /\ nodesH w' !! c = Some rc /\
    itemsH w' = itemsH w /\ kidsH w' = kidsH w /\
    wtx w' = with_dirty (option_map (insert np p) (dirtyNodes (wtx w))) (with_txfree (Some fr') (wtx w)) /\
    page_node np w' = Ok n /\ (forall pn, pn <> np -> page_node pn w' = page_node pn w).
Proof.
  intros Hok Hc Hd Hfr Hnp Hi Hk Hap p n.
  destruct (tx_newNode_ok w fr np fr' its kids Hok Hfr Hnp (step_ok _ _ _ _ Hi) Hk)
    as (E1 & Hok1 & Hp1 & Hpts & Hown & Hpage).
  set (w1 := with_nodesH _ _) in *. assert (is_Some (dirtyNodes (wtx w1))) as Hd1 by done.
  destruct (filed_ok w1 p _ Hok1 Hp1 Hd1) as (E2 & Hok2 & Hp2 & Hpage2).
  set (w2 := filed p np w1) in *. exists w1, w2.
  split; [exact E1|]. split; [exact E2|]. split; [exact Hok2|]. split; [|split; [|split; [|split; [done|split; [done|split; [done|]]]]]].
  - split; [|..]; try done.
    + intros q m _ Hq. by apply Hpts.
    + intros q Hq Ho. destruct Ho as (rq & Hrq & Haq). apply (Hown q rq Hrq); [| |by exists rq].
      * destruct (Haq c rc (not_eq_sym Hq) Hc) as [Ai _]. symmetry in Ai. symmetry.
        apply (step_apart _ _ _ _ _ Hi); [by apply (ok_slices _ Hok q)|done].
      * apply (Hap q rq); [done|by exists rq|done].
  - by exists (NodeRef np its kids).
  - unfold w2, filed, w1. simpl. by apply lookup_app_l_Some.
  - split; [exact Hp2|]. intros pn Hne. rewrite <- Hpage. by apply Hpage2.
Qed.

(** The half that stays: the node's slices cut at the split index. *)
Lemma recut_keeps w c rc r' :
  world_ok w -> nodesH w !! c = Some rc -> r_pageNum r' = r_pageNum rc ->
  slice_step (itemsH w) (itemsH w) (r_items rc) (r_items r') ->
  slice_step (kidsH w) (kidsH w) (r_childNodes rc) (r_childNodes r') ->
  keeps c w (with_node c r' w).
Proof.
  intros Hok Hc Hpn Hi Hk. destruct (recut_ok w c rc r' Hok Hc Hpn Hi Hk) as (_ & _ & ? & ? & _). by split.
Qed.

Record split_off_post (c : node_ptr) (cn : node) (s : nat) (np : Z) (fr' : freelist) (w w' : world) : Prop := {
  so_ok : world_ok w';
  so_keeps : keeps c w w';
  so_left : points w' c (left_node s cn);
  so_right : points w' (length (nodesH w)) (right_node s np cn);
  so_page : page_node np w' = Ok (right_node s np cn);
  so_pages : forall pn, pn <> np -> pn <> pageNum cn -> page_node pn w' = page_node pn w;
  so_tx : wtx w' = with_dirty (option_map (insert np (length (nodesH w))) (dirtyNodes (wtx w)))
                     (with_txfree (Some fr') (wtx w))
}.

Lemma set_items_eq w c rc s :
  nodesH w !! c = Some rc -> set_items c s w = (Ok tt, with_node c (set_items_r s rc) w).
Proof. intros H. unfold set_items, upd_node, modS, with_node. by rewrite (alter_insert _ _ _ _ H). Qed.

Lemma set_kids_eq w c rc s :
  nodesH w !! c = Some rc -> set_kids c s w = (Ok tt, with_node c (set_kids_r s rc) w).
Proof. intros H. unfold set_kids, upd_node, modS, with_node. by rewrite (alter_insert _ _ _ _ H). Qed.

Lemma with_node_lookup w c r r0 : nodesH w !! c = Some r0 -> nodesH (with_node c r w) !! c = Some r.
Proof. intros H. unfold with_node. simpl. apply list_lookup_insert_eq. by eapply lookup_lt_Some. Qed.

Section halves.
Context (w : world) (c : node_ptr) (rc : nodeRef) (s : nat) (fr : freelist) (np : Z) (fr' : freelist).
Context (Hok : world_ok w) (Hc : nodesH w !! c = Some rc) (Hd : is_Some (dirtyNodes (wtx w))).
Context (Hfr : tx_freelist (wtx w) = Some fr) (Hnp : getNextPage fr = (np, fr')).
Context (Hs : (s < length (items (node_of w rc)))%nat) (Hne : np <> r_pageNum rc).

(** Cutting the node of [w2] down to its left half. *)
Lemma split_off_post_intro w2 r' newp :
  keeps c w w2 -> world_ok w2 -> nodesH w2 !! c = Some rc -> itemsH w2 = itemsH w -> newp <> c ->
  points w2 newp (right_node s np (node_of w rc)) ->
  page_node np w2 = Ok (right_node s np (node_of w rc)) ->
  (forall pn, pn <> np -> page_node pn w2 = page_node pn w) ->
  wtx w2 = with_dirty (option_map (insert np newp) (dirtyNodes (wtx w))) (with_txfree (Some fr') (wtx w)) ->
  newp = length (nodesH w) -> r_pageNum r' = r_pageNum rc ->
  slice_step (itemsH w) (itemsH w) (r_items rc) (r_items r') ->
  slice_step (kidsH w2) (kidsH w2) (r_childNodes rc) (r_childNodes r') ->
  node_of w2 r' = left_node s (node_of w rc) ->
  split_off_post c (node_of w rc) s np fr' w (with_node c r' w2).
Proof.
  intros Hk Hok2 Hc2 Hi2 Hnc Hpn Hpg Hpgs Htx -> Hrp Hsi Hsk Hl.
  destruct (recut_ok w2 c rc r' Hok2 Hc2 Hrp ltac:(by rewrite Hi2) Hsk) as (K1 & K2 & K3 & K4 & K5).
  split; try done.
  - eapply keeps_trans; [exact Hk|]. apply recut_keeps with rc; try done. by rewrite Hi2.
  - by rewrite <- Hl.
  - by apply K3.
  - by rewrite K5.
  - intros pn H1 H2. rewrite K5 by done. by apply Hpgs.
Qed.

Lemma split_off_leaf :
  isLeaf (node_of w rc) = true ->
  exists w', split_off c s w = (Ok (length (nodesH w)), w') /\
    split_off_post c (node_of w rc) s np fr' w w'.
Proof using All.
  intros El. unfold split_off. mstep (node_isLeaf_points w c (node_of w rc) Hok (ex_intro _ rc (conj Hc eq_refl))).
  erewrite bind_Ok by (unfold load_node; by rewrite Hc). rewrite El.
  apply isLeaf_true in El. destruct (ok_slices _ Hok c rc Hc) as [Hsi Hsk].
  pose proof (s_len_items w c rc Hok Hc) as Hli.
  destruct (slice_from_ok (itemsH w) (r_items rc) (s + 1) Hsi ltac:(lia)) as (sh & E1 & S1 & V1 & _).
  destruct (slice_to_ok (itemsH w) (r_items rc) s Hsi ltac:(lia)) as (sl & E2 & S2 & V2 & _).
  rewrite E1, bind_lift. destruct (kids_literal_ok w [] Hok) as (E3 & He & Hok0 & Hks & Hkv & Hka & Hko).
  mstep E3. set (ks := Slice _ 0 _ _) in *. set (w0 := with_kidsH _ w) in *.
  destruct (new_half_ok w0 c rc fr np fr' sh ks Hok0 Hc Hd Hfr Hnp S1 Hks)
    as (w1 & w2 & E4 & E5 & Hok2 & Hk2 & Hp2 & Hc2 & Hi2 & Hkh2 & Htx2 & Hpg2 & Hpgs2).
  { intros q rq _ _ Hq. by apply (Hka q). }
  mstep E4. mstep E5. rewrite E2, bind_lift. mstep (set_items_eq w2 c rc sl Hc2).
  eexists. split; [done|].
  assert (Node np (view (itemsH w0) sh) (view (kidsH w0) ks) = right_node s np (node_of w rc)) as Er.
  { unfold right_node. cbn [items childNodes node_of] in *. rewrite El, drop_nil, Hkv. f_equal.
    change (itemsH w0) with (itemsH w). by rewrite V1, Nat.add_1_r. }
  rewrite Er in *. assert (slice_step (kidsH w2) (kidsH w2) (r_childNodes rc) (r_childNodes rc)) as Hsk2.
  { apply slice_step_refl. by apply (ok_slices _ Hok2 c). }
  apply split_off_post_intro with (length (nodesH w)); try done.
  - eapply keeps_trans; [|exact Hk2]. by apply extends_keeps.
  - pose proof (lookup_lt_Some _ _ _ Hc). lia.
  - intros pn Hpn. rewrite Hpgs2 by done. by apply extends_page.
  - unfold node_of, left_node. simpl. rewrite Hi2, Hkh2. simpl in El. rewrite El, take_nil.
    change (itemsH w0) with (itemsH w). rewrite V2. f_equal.
    rewrite (view_prefix (kidsH w)); [done|done|apply He].
Qed.

Lemma split_off_inner :
  isLeaf (node_of w rc) = false -> length (childNodes (node_of w rc)) = S (length (items (node_of w rc))) ->
  exists w', split_off c s w = (Ok (length (nodesH w)), w') /\
    split_off_post c (node_of w rc) s np fr' w w'.
Proof using All.
  intros El Hlen. unfold split_off. mstep (node_isLeaf_points w c (node_of w rc) Hok (ex_intro _ rc (conj Hc eq_refl))).
  erewrite bind_Ok by (unfold load_node; by rewrite Hc). rewrite El.
  destruct (ok_slices _ Hok c rc Hc) as [Hsi Hsk].
  pose proof (s_len_items w c rc Hok Hc) as Hli. pose proof (s_len_kids w c rc Hok Hc) as Hlk.
  destruct (slice_from_ok (itemsH w) (r_items rc) (s + 1) Hsi ltac:(lia)) as (sh & E1 & S1 & V1 & _).
  destruct (slice_to_ok (itemsH w) (r_items rc) s Hsi ltac:(lia)) as (sl & E2 & S2 & V2 & _).
  destruct (slice_from_ok (kidsH w) (r_childNodes rc) (s + 1) Hsk ltac:(lia)) as (kh & E3 & S3 & V3 & _).
  destruct (slice_to_ok (kidsH w) (r_childNodes rc) (s + 1) Hsk ltac:(lia)) as (kl & E4 & S4 & V4 & _).
  rewrite E1, bind_lift, E3, bind_lift.
  destruct (new_half_ok w c rc fr np fr' sh kh Hok Hc Hd Hfr Hnp S1 (step_ok _ _ _ _ S3))
    as (w1 & w2 & E5 & E6 & Hok2 & Hk2 & Hp2 & Hc2 & Hi2 & Hkh2 & Htx2 & Hpg2 & Hpgs2).
  { intros q rq Hq (rq' & Hrq & Haq) Hrq'. simplify_eq. destruct (Haq c rc (not_eq_sym Hq) Hc) as [_ Ak].
    symmetry in Ak. symmetry. apply (step_apart _ _ _ _ _ S3); [by apply (ok_slices _ Hok q)|done]. }
  mstep E5. mstep E6. rewrite E2, bind_lift. mstep (set_items_eq w2 c rc sl Hc2).
  rewrite E4, bind_lift. mstep (set_kids_eq _ c _ kl (with_node_lookup w2 c (set_items_r sl rc) rc Hc2)).
  assert (with_node c (set_kids_r kl (set_items_r sl rc)) (with_node c (set_items_r sl rc) w2) =
    with_node c (NodeRef (r_pageNum rc) sl kl) w2) as ->.
  { unfold with_node. simpl. unfold with_nodesH. simpl. by rewrite list_insert_insert_eq. }
  eexists. split; [done|].
  assert (Node np (view (itemsH w) sh) (view (kidsH w) kh) = right_node s np (node_of w rc)) as Er.
  { unfold right_node. cbn [items childNodes node_of]. by rewrite V1, V3, Nat.add_1_r. }
  rewrite Er in *. apply split_off_post_intro with (length (nodesH w)); try done.
  - pose proof (lookup_lt_Some _ _ _ Hc). lia.
  - by rewrite Hkh2.
  - unfold node_of, left_node. simpl. by rewrite Hi2, Hkh2, V2, V4, Nat.add_1_r.
Qed.
End halves.

Lemma split_off_ok w c cn s fr np fr' :
  world_ok w -> points w c cn -> (s < length (items cn))%nat -> children_ok cn ->
  is_Some (dirtyNodes (wtx w)) -> tx_freelist (wtx w) = Some fr -> getNextPage fr = (np, fr') ->
  np <> pageNum cn ->
  exists w', split_off c s w = (Ok (length (nodesH w)), w') /\ split_off_post c cn s np fr' w w'.
Proof.
  intros Hok (rc & Hc & <-) Hs Hch Hd Hfr Hnp Hne. destruct (isLeaf (node_of w rc)) eqn:El.
  - by eapply split_off_leaf.
  - apply isLeaf_false in El as El'. destruct Hch as [?|Hl]; [done|]. by eapply split_off_inner.
Qed.

(** ** The parent *)

Lemma insert_child_ok w p n i pn :
  world_ok w -> points w p n -> (i < length (childNodes n))%nat ->
  exists w', insert_child p i pn w = (Ok tt, w') /\ mutates p w w' /\
    points w' p (Node (pageNum n) (items n) (insert_at (S i) pn (childNodes n))).
Proof.
  intros Hok (r & Hr & <-) Hi. destruct (ok_slices _ Hok p r Hr) as [_ Hs].
  pose proof (length_view _ _ Hs) as Hl. simpl in Hi.
  unfold insert_child. erewrite bind_Ok by (unfold load_node; by rewrite Hr). case_decide as Hd.
  - unfold kids_append, on_kids, mbind, M_bind.
    pose proof (append_step (kidsH w) (r_childNodes r) [pn] Hs) as Ha.
    destruct (append (r_childNodes r) [pn] (kidsH w)) as [s1 h1]. destruct Ha as [Sa Va].
    eexists. split; [by apply set_kids_eq|].
    destruct (mutates_kids w p r s1 h1 Hok Hr Sa) as [Hm Hp]. split; [exact Hm|].
    rewrite Va in Hp. replace (S i) with (length (view (kidsH w) (r_childNodes r))) by lia.
    by rewrite insert_at_end.
  - destruct (insert_slot_step (kidsH w) (r_childNodes r) (S i) i pn Hs ltac:(lia) ltac:(by right))
      as (sl & sh & s1 & st1 & st2 & E1 & E2 & E3 & E4 & S & V).
    rewrite E1, bind_lift, E2, bind_lift. rewrite Nat.add_1_r.
    unfold kids_view, kids_append, on_kids, set_kids, upd_node, kids_store, mbind, M_bind, modS.
    rewrite E3. cbn [kidsH with_nodesH with_kidsH]. rewrite E4.
    eexists. split; [done|]. unfold with_nodesH, with_kidsH. simpl. rewrite (alter_insert _ _ _ _ Hr).
    destruct (mutates_kids w p r s1 st2 Hok Hr S) as [Hm Hp]. split; [exact Hm|]. by rewrite V in Hp.
Qed.

Lemma mutates_keeps p w w' : world_ok w -> owned w p -> mutates p w w' -> keeps p w w'.
Proof.
  intros Hok Ho Hm. split; [|..]; try apply Hm.
  - intros q n Hq. by apply (mutates_points p w w').
  - intros q _. by apply (mutates_owned p w w').
Qed.

(** [writeNodes] of two nodes with different pages. *)
Lemma writeNodes_two w p q np nq :
  world_ok w -> points w p np -> points w q nq -> is_Some (dirtyNodes (wtx w)) -> pageNum np <> pageNum nq ->
  let w' := filed q (pageNum nq) (filed p (pageNum np) w) in
  writeNodes [p; q] w = (Ok tt, w') /\ world_ok w' /\
  page_node (pageNum np) w' = Ok np /\ page_node (pageNum nq) w' = Ok nq /\
  (forall pn, pn <> pageNum np -> pn <> pageNum nq -> page_node pn w' = page_node pn w).
Proof.
  intros Hok (rp & Hp & <-) (rq & Hq & <-) Hd Hne w'.
  destruct (filed_ok w p rp Hok Hp Hd) as (E1 & Hok1 & G1 & F1). cbn [pageNum node_of] in *.
  set (w1 := filed p (r_pageNum rp) w) in *.
  assert (is_Some (dirtyNodes (wtx w1))) as Hd1 by (destruct Hd as [m Hm]; unfold w1, filed; simpl; by rewrite Hm).
  destruct (filed_ok w1 q rq Hok1 Hq Hd1) as (E2 & Hok2 & G2 & F2).
  split; [|split; [exact Hok2|split; [|split; [exact G2|]]]].
  - unfold writeNodes. cbn [mapM_]. rewrite !bind_assoc. mstep E1. rewrite bind_ret, !bind_assoc. mstep E2. done.
  - rewrite <- G1. by apply F2.
  - intros pn H1 H2. rewrite <- F1 by done. by apply F2.
Qed.

(** [n.split(c, i)]: the parent gets the middle item and the new page, the
    children get the halves; no other page changes. *)
Record split_post (n c : node_ptr) (nd cn : node) (i s : nat) (mid : Item) (np : Z) (fr' : freelist)
    (w w' : world) : Prop := {
  sp_ok : world_ok w';
  sp_parent : points w' n (Node (pageNum nd) (insert_at i mid (items nd)) (insert_at (S i) np (childNodes nd)));
  sp_parent_page : page_node (pageNum nd) w' =
    Ok (Node (pageNum nd) (insert_at i mid (items nd)) (insert_at (S i) np (childNodes nd)));
  sp_left_page : page_node (pageNum cn) w' = Ok (left_node s cn);
  sp_right_page : page_node np w' = Ok (right_node s np cn);
  sp_pages : forall pn, pn <> np -> pn <> pageNum cn -> pn <> pageNum nd -> page_node pn w' = page_node pn w;
  sp_points : forall q m, q <> n -> q <> c -> points w q m -> points w' q m;
  sp_owned : forall q, q <> c -> owned w q -> owned w' q;
  sp_colls : collsH w' = collsH w;
  sp_db : wdb w' = wdb w;
  sp_tx : wtx w' = with_dirty (insert (pageNum cn) c <$> (insert (pageNum nd) n <$>
            (insert np (length (nodesH w)) <$> dirtyNodes (wtx w)))) (with_txfree (Some fr') (wtx w))
}.

(** [addItem] then [insert_child], on the parent [n]. *)
Lemma parent_ok w n nd mid i np :
  world_ok w -> points w n nd -> owned w n -> (i <= length (items nd))%nat ->
  length (childNodes nd) = S (length (items nd)) ->
  exists w1 w', addItem n mid i w = (Ok i, w1) /\ insert_child n i np w1 = (Ok tt, w') /\
    world_ok w' /\ keeps n w w' /\ owned w' n /\ wtx w1 = wtx w /\ wtx w' = wtx w /\
    (forall q r, q <> n -> nodesH w !! q = Some r -> nodesH w1 !! q = Some r) /\
    points w' n (Node (pageNum nd) (insert_at i mid (items nd)) (insert_at (S i) np (childNodes nd))) /\
    (forall pn, pn <> pageNum nd -> page_node pn w' = page_node pn w).
Proof.
  intros Hok Hn Hown Hi Hlen.
  destruct (addItem_ok w n nd mid i Hok Hn Hi) as (w1 & E1 & M1 & Hn1).
  pose proof (mutates_ok n w w1 Hok M1) as O1. pose proof (mutates_keeps n w w1 Hok Hown M1) as K1.
  pose proof (mutates_owned n w w1 Hok M1 n Hown) as Hown1.
  destruct (insert_child_ok w1 n _ i np O1 Hn1 ltac:(simpl; lia)) as (w2 & E2 & M2 & Hn2).
  exists w1, w2. split; [done|]. split; [done|]. split; [by apply (mutates_ok n w1)|].
  split; [eapply keeps_trans; [exact K1|by apply (mutates_keeps n w1)]|].
  split; [by apply (mutates_owned n w1)|]. split; [apply M1|].
  split; [by rewrite (mut_tx _ _ _ M2), (mut_tx _ _ _ M1)|].
  split; [intros q r Hq Hr; by apply (mutates_other n w w1 Hok Hown M1)|]. split; [done|].
  intros pn Hpn. rewrite (mutates_other_page n w1 w2 O1 Hown1 M2 _ pn Hn1) by done.
  by apply (mutates_other_page n w w1 Hok Hown M1 nd).
Qed.

Lemma split_ok w n c nd cn i s fr np fr' :
  world_ok w -> points w n nd -> points w c cn -> n <> c -> owned w n -> pageNum nd <> pageNum cn ->
  is_Some (dirtyNodes (wtx w)) -> tx_freelist (wtx w) = Some fr -> getNextPage fr = (np, fr') ->
  np <> pageNum cn -> np <> pageNum nd -> children_ok cn ->
  length (childNodes nd) = S (length (items nd)) -> (i <= length (items nd))%nat ->
  getSplitIndex (ddal (wdb w)) cn = Some s ->
  exists w' mid, items cn !! s = Some mid /\ split n c i w = (Ok tt, w') /\
    split_post n c nd cn i s mid np fr' w w'.
Proof.
  intros Hok Hn Hc Hnc Hown Hpg Hd Hfr Hnp Hnec Hnen Hch Hlen Hi Hsi.
  pose proof (getSplitIndex_range _ _ _ Hsi) as Hs. destruct (lookup_lt_is_Some_2 (items cn) s) as [mid Hmid]; [lia|].
  destruct (split_off_ok w c cn s fr np fr' Hok Hc ltac:(lia) Hch Hd Hfr Hnp Hnec) as (w1 & E1 & [O1 K1 L1 R1 P1 F1 T1]).
  assert (forall q m, points w q m -> length (nodesH w) <> q) as Hnew
    by (intros q m (? & ?%lookup_lt_Some & _); lia).
  pose proof (Hnew n nd Hn) as Hn'. pose proof (Hnew c cn Hc) as Hc'.
  destruct (parent_ok w1 n nd mid i np O1 (keeps_points _ _ _ K1 n nd Hnc Hn) (keeps_owned _ _ _ K1 n Hnc Hown) Hi Hlen)
    as (w2 & w3 & E2 & E3 & O3 & K3 & Hown3 & T2 & T3 & N2 & Hn3 & F3).
  pose proof (keeps_points _ _ _ K3 c _ (not_eq_sym Hnc) L1) as Hc3.
  assert (is_Some (dirtyNodes (wtx w3))) as Hd3 by (rewrite T3, T1; destruct Hd as [m ->]; done).
  destruct (writeNodes_two w3 n c _ _ O3 Hn3 Hc3 Hd3 Hpg) as (E4 & O4 & G1 & G2 & F4). cbn [pageNum left_node] in *.
  exists (filed c (pageNum cn) (filed n (pageNum nd) w3)), mid. split; [done|]. split.
  - unfold split. mstep (node_view_points w c cn Hc). rewrite bind_get_dal, Hsi.
    mstep (item_at_points w c cn s mid Hc Hmid). mstep E1. mstep E2.
    destruct R1 as (r1 & Hr1 & Hr1n). assert (r_pageNum r1 = np) as Hrp by (by injection Hr1n).
    erewrite bind_Ok by (unfold load_node; rewrite (N2 _ r1 Hn' Hr1); done).
    rewrite Hrp. mstep E3. exact E4.
  - split; try done.
    + rewrite F4, F3 by done. exact P1.
    + intros pn H1 H2 H3. rewrite F4, F3 by done. by apply F1.
    + intros q m Hq1 Hq2 Hq. by apply (keeps_points _ _ _ K3), (keeps_points _ _ _ K1).
    + intros q Hq1 Hq. destruct (decide (q = n)) as [-> |Hqn]; [done|].
      by apply (keeps_owned _ _ _ K3), (keeps_owned _ _ _ K1).
    + etrans; [exact (keeps_colls _ _ _ K3)|apply K1].
    + etrans; [exact (keeps_db _ _ _ K3)|apply K1].
    + unfold filed. simpl. rewrite T3, T1. by destruct Hd as [m ->].
Qed.

End split.
