(* ===== verification/Collection.v ===== *)
(** * collection.go: a collection is a B-tree with a name, a root and a counter

    A collection is reached through a pointer ([coll_ptr]): [GetCollection]
    hands out the tracked object, and [setRoot] and [ID] change it in place. *)

From S2P Require Import Prelude Freelist Meta Node Float32 Dal GoSlice World Tree.

Open Scope Z_scope.

Definition newCollection (name : bytes) (root : Z) : collection := Collection name root 0 false false false.
Definition newEmptyCollection : collection := Collection [] 0 0 false false false.

(** ** The stored form: an item named after the collection *)

Definition serialize (c : collection) : out Item :=
  let b := replicate collectionSize 0 in
  let leftPos := 0%nat in
  b ← put_le 8 (c_root c) leftPos b;
  let leftPos := (leftPos + pageNumSize)%nat in
  b ← put_le 8 (c_counter c) leftPos b;
  mret (newItem (c_name c) b).

Definition deserialize (c : collection) (it : Item) : out collection :=
  if decide (length (value it) <> 0%nat) then
    let leftPos := 0%nat in
    root ← get_le 8 leftPos (value it);
    let leftPos := (leftPos + pageNumSize)%nat in
    counter ← get_le 8 leftPos (value it);
    mret (Collection (key it) root counter (c_hasTx c) (c_rootCollection c) (c_dirtyMeta c))
  else mret (Collection (key it) (c_root c) (c_counter c) (c_hasTx c) (c_rootCollection c) (c_dirtyMeta c)).

Section collection.
Context {RT : GoRuntime}.

(** [tx.trackCollection] (tx.go); assigning to an entry of a nil map panics. *)
Definition trackCollection (p : coll_ptr) : M world unit :=
  c ← load_coll p;
  tx ← get_tx;
  if negb (write tx) || c_rootCollection c then mret tt
  else
    match collections tx with
    | None => panic
    | Some m => mod_tx (with_colls (Some (<[c_name c := p]> m)))
    end.

(** [c.tx.write]; [c.tx] is nil before the collection is attached. *)
Definition coll_write (p : coll_ptr) : M world bool :=
  c ← load_coll p;
  tx ← get_tx;
  if c_hasTx c then mret (write tx) else panic.

Definition markMetadataDirty (p : coll_ptr) : M world unit :=
  c ← load_coll p;
  tx ← get_tx;
  if c_rootCollection c || negb (c_hasTx c) || negb (write tx) then mret tt
  else
    upd_coll p (coll_set_dirty true);;
    trackCollection p.

Definition ID (p : coll_ptr) : M world Z :=
  w ← coll_write p;
  if negb w then mret 0
  else
    c ← load_coll p;
    let id := c_counter c in
    upd_coll p (coll_set_counter (u64 (c_counter c + 1)));;
    markMetadataDirty p;;
    mret id.

Definition setRoot (p : coll_ptr) (root : Z) : M world unit :=
  c ← load_coll p;
  if decide (c_root c = root) then mret tt
  else
    upd_coll p (coll_set_root root);;
    if c_rootCollection c then mod_tx (with_root root)
    else markMetadataDirty p.

(** The loop of [getNodes] after the root: [indexes] without its first entry. *)
Fixpoint walk (child : node_ptr) (indexes : list nat) : M world (list node_ptr) :=
  match indexes with
  | [] => mret []
  | i :: indexes =>
      pn ← child_at child i;
      child ← tx_getNode pn;
      rest ← walk child indexes;
      mret (child :: rest)
  end.

Definition getNodes (p : coll_ptr) (indexes : list nat) : M world (list node_ptr) :=
  c ← load_coll p;
  root ← tx_getNode (c_root c);
  rest ← walk root (tail indexes);
  mret (root :: rest).

(** The triples (parent, node, index of the node in the parent) that the
    rebalancing loops visit, from the deepest node up. *)
Definition levels (ancestors : list node_ptr) (indexes : list nat) : list (node_ptr * node_ptr * nat) :=
  rev (zip (zip ancestors (tail ancestors)) (tail indexes)).

Definition put_levels (ls : list (node_ptr * node_ptr * nat)) : M world unit :=
  mapM_ (fun '(pnode, n, nodeIndex) =>
    over ← node_isOverPopulated n;
    if over : bool then split pnode n nodeIndex else mret tt) ls.

(** The item goes to the place the search ended at: it replaces the item there
    if that has the key, else it is inserted. *)
Definition store_item (nodeToInsertIn : node_ptr) (k : bytes) (i : Item) (insertionIndex : nat) : M world unit :=
  v ← node_view nodeToInsertIn;
  r ← load_node nodeToInsertIn;
  (if decide (key <$> (items v !! insertionIndex) = Some k) then
     items_store (r_items r) insertionIndex i
   else
     addItem nodeToInsertIn i insertionIndex;; mret tt);;
  tx_writeNode nodeToInsertIn;;
  mret tt.

(** The root gets a new root above it when it is overpopulated. *)
Definition grow_root (p : coll_ptr) (rootNode : node_ptr) : M world unit :=
  over ← node_isOverPopulated rootNode;
  if over : bool then
    rr ← load_node rootNode;
    its ← items_literal [];
    kids ← kids_literal [r_pageNum rr];
    newRoot ← tx_newNode its kids;
    split newRoot rootNode 0;;
    tx_writeNode newRoot;;
    nr ← load_node newRoot;
    setRoot p (r_pageNum nr)
  else mret tt.

Definition Put (fuel : nat) (p : coll_ptr) (k v : bytes) : M world unit :=
  wr ← coll_write p;
  if negb wr then throw ErrWriteInsideReadTx
  else
    let i := newItem k v in
    d ← get_dal;
    liftO (item_validate i (pageSize d));;
    c ← load_coll p;
    if decide (c_root c = 0) then
      its ← items_literal [i];
      kids ← kids_literal [];
      n ← tx_newNode its kids;
      tx_writeNode n;;
      r ← load_node n;
      setRoot p (r_pageNum r)
    else
      root ← tx_getNode (c_root c);
      '(found, ancestorsIndexes) ← findKey fuel root (key i) false;
      match found with
      | None => panic (* does not occur: the search is not exact *)
      | Some (insertionIndex, nodeToInsertIn) =>
          store_item nodeToInsertIn k i insertionIndex;;
          ancestors ← getNodes p ancestorsIndexes;
          put_levels (levels ancestors ancestorsIndexes);;
          match ancestors with
          | [] => panic (* does not occur: getNodes returns the root first *)
          | rootNode :: _ => grow_root p rootNode
          end
      end.

Definition Find (fuel : nat) (p : coll_ptr) (k : bytes) : M world (option Item) :=
  c ← load_coll p;
  (if c_hasTx c then mret tt else panic);;
  n ← tx_getNode (c_root c);
  '(found, _) ← findKey fuel n k true;
  match found with
  | None => mret None
  | Some (i, containingNode) =>
      it ← item_at containingNode i;
      mret (Some it)
  end.

Definition remove_levels (ls : list (node_ptr * node_ptr * nat)) : M world unit :=
  mapM_ (fun '(pnode, n, nodeIndex) =>
    under ← node_isUnderPopulated n;
    if under : bool then rebalanceRemove pnode n nodeIndex else mret tt) ls.

Definition Remove (fuel : nat) (p : coll_ptr) (k : bytes) : M world unit :=
  wr ← coll_write p;
  if negb wr then throw ErrWriteInsideReadTx
  else
    c ← load_coll p;
    rootNode ← tx_getNode (c_root c);
    '(found, ancestorsIndexes) ← findKey fuel rootNode k true;
    match found with
    | None => mret tt
    | Some (removeItemIndex, nodeToRemoveFrom) =>
        leaf ← node_isLeaf nodeToRemoveFrom;
        ancestorsIndexes ←
          (if leaf : bool then
             removeItemFromLeaf nodeToRemoveFrom removeItemIndex;;
             mret ancestorsIndexes
           else
             affectedNodes ← removeItemFromInternal fuel nodeToRemoveFrom removeItemIndex;
             mret (ancestorsIndexes ++ affectedNodes));
        ancestors ← getNodes p ancestorsIndexes;
        remove_levels (levels ancestors ancestorsIndexes);;
        match ancestors with
        | [] => panic (* does not occur: getNodes returns the root first *)
        | rootNode :: rest =>
            r ← load_node rootNode;
            if decide (s_len (r_items r) = 0%nat /\ (0 < s_len (r_childNodes r))%nat) then
              match rest with
              | [] => panic (* ancestors[1] *)
              | a1 :: _ => r1 ← load_node a1; setRoot p (r_pageNum r1)
              end
            else mret tt
        end
    end.

End collection.
