(* ===== verification/Search.v ===== *)
(** * Reading a collection: the tree its pages show, [findKey], [getNodes], [Find]

    [repr w t]: in the world [w], the pages of [t] show the nodes of [t].  On
    such a world [findKey] follows the [route] of the key, [getNodes] walks
    down a path, and [Find] is [find_item] on the contents. *)

From S2P Require Import Prelude Freelist Meta Node Float32 Dal GoSlice World Tree Heap Contents Collection.

Open Scope Z_scope.

Fixpoint repr (w : world) (t : tree) : Prop :=
  page_node (t_page t) w = Ok (t_node t) /\
  let '(Tree _ _ kids) := t in foldr (fun k Q => repr w k /\ Q) True kids.

(** What a program that only reads leaves of the world. *)
Record reads (w w' : world) : Prop := {
  reads_extends : extends w w';
  reads_ok : world_ok w';
  reads_owned : forall q, owned w q -> owned w' q
}.

(** The dirty nodes of a tree own their slices. *)
Definition tree_owned (w : world) (t : tree) : Prop :=
  forall pn p, pn ∈ pages t -> dirty_at w pn = Some p -> owned w p.

(** The pointer shows the root node of [t], and the node owns its slices. *)
Definition handle (w : world) (p : node_ptr) (t : tree) : Prop := points w p (t_node t) /\ owned w p.

(** The pointers along a path, from the root of [t]. *)
Inductive chain (w : world) : tree -> list nat -> list node_ptr -> Prop :=
| chain_nil t p : handle w p t -> chain w t [] [p]
| chain_cons t i c idxs p ps :
    handle w p t -> t_kids t !! i = Some c -> chain w c idxs ps -> chain w t (i :: idxs) (p :: ps).

Lemma repr_unfold w t : repr w t <-> page_node (t_page t) w = Ok (t_node t) /\ Forall (repr w) (t_kids t).
Proof. destruct t as [pg its kids]. simpl. by rewrite foldr_all. Qed.

Lemma repr_frame w w' t :
  (forall pn, pn ∈ pages t -> page_node pn w' = page_node pn w) -> repr w t -> repr w' t.
Proof.
  revert w w'. induction t as [pg its kids IH] using tree_ind'. intros w w' Hf Hr.
  apply repr_unfold in Hr as [Hn Hk]. apply repr_unfold. split.
  - rewrite Hf; [done|apply page_in_pages].
  - simpl in *. rewrite Forall_lookup in IH, Hk |- *. intros i c Hc.
    eapply (IH i c Hc); [|by eapply Hk]. intros pn Hp. apply Hf. exact (kid_pages (Tree pg its kids) i c pn Hc Hp).
Qed.

#[export] Instance reads_trans : Transitive reads.
Proof. intros w1 w2 w3 [] []. split; [by etrans|done|auto]. Qed.

Section search.
Context {RT : GoRuntime}.

Lemma reads_refl w : world_ok w -> reads w w.
Proof. by split. Qed.

Lemma reads_page w w' pn : world_ok w -> reads w w' -> page_node pn w' = page_node pn w.
Proof. intros Hok []. by apply extends_page. Qed.

Lemma reads_repr w w' t : world_ok w -> reads w w' -> repr w t -> repr w' t.
Proof. intros Hok Hr. apply repr_frame. intros. by apply reads_page. Qed.

Lemma reads_tree_owned w w' t : reads w w' -> tree_owned w t -> tree_owned w' t.
Proof.
  intros [He _ Ho] Ht pn p Hp Hd. rewrite (extends_dirty w w' pn He) in Hd. eauto.
Qed.

Lemma reads_points w w' p n : world_ok w -> reads w w' -> points w p n -> points w' p n.
Proof. intros Hok Hr. by apply extends_points, Hr. Qed.

Lemma reads_handle w w' p t : world_ok w -> reads w w' -> handle w p t -> handle w' p t.
Proof. intros Hok Hr [Ho Hw]. split; [by apply (reads_points w)|by apply Hr]. Qed.

Lemma tree_owned_kid w t i c : t_kids t !! i = Some c -> tree_owned w t -> tree_owned w c.
Proof. intros Hc Ht pn p Hp. apply Ht. by eapply kid_pages. Qed.

Lemma repr_kid w t i c : t_kids t !! i = Some c -> repr w t -> repr w c.
Proof. intros Hc [_ Hk]%repr_unfold. rewrite Forall_lookup in Hk. by eapply Hk. Qed.

(** Opening the root node of a represented tree. *)
Lemma open_tree w t :
  world_ok w -> repr w t ->
  exists p w', tx_getNode (t_page t) w = (Ok p, w') /\ reads w w' /\ points w' p (t_node t) /\
    (tree_owned w t -> owned w' p).
Proof.
  intros Hok [Hn _]%repr_unfold.
  destruct (tx_getNode_ok w (t_page t) (t_node t) Hok Hn) as (p & w' & E & He & Hok' & Hp & Hd & Hq).
  exists p, w'. split; [done|]. split; [by split|]. split; [done|].
  intros Ho. destruct Hd as [Hd|[_ Hd]]; [|done]. apply Hq. eapply Ho; [apply page_in_pages|done].
Qed.

(** [findKey] follows the route of the key. *)
Lemma findKeyHelper_ok k exact fuel : forall t w p anc,
  world_ok w -> repr w t -> points w p (t_node t) -> shape t -> (height t <= fuel)%nat ->
  exists w' idxs st q, let '(found, i) := findKeyInNode (t_node st) k in
    findKeyHelper fuel p k exact anc w =
      (Ok (if found || negb exact then Some (i, q) else None, anc ++ idxs), w') /\
    reads w w' /\ route k t idxs st /\ points w' q (t_node st) /\ (tree_owned w t -> owned w p -> owned w' q).
Proof.
  induction fuel as [|fuel IH]; intros t w p anc Hok Hr Hh Hsh Hf; [pose proof (height_pos t); lia|].
  rename Hh into Hp. cbn [findKeyHelper]. mstep (node_view_points w p _ Hp).
  destruct (findKeyInNode (t_node t) k) as [b i] eqn:E. destruct b.
  { exists w, [], t, p. rewrite E, app_nil_r. simpl. split; [done|]. split; [by apply reads_refl|].
    split; [|done]. constructor. left. by rewrite E. }
  mstep (node_isLeaf_points w p _ Hok Hp). destruct (isLeaf (t_node t)) eqn:El.
  { apply isLeaf_true in El. exists w, [], t, p. rewrite E, app_nil_r. simpl.
    split; [by destruct exact|]. split; [by apply reads_refl|]. split; [|done]. constructor. right.
    by apply (fmap_nil_inv t_page). }
  apply isLeaf_false in El.
  destruct (shape_node t Hsh) as [Hn|Hl]; [exfalso; apply El; simpl; by rewrite Hn|].
  assert (i <= length (t_items t))%nat as Hi by (exact (findKeyInNode_le _ _ _ _ E)).
  destruct (lookup_lt_is_Some_2 (t_kids t) i) as [c Hc]; [lia|].
  assert (childNodes (t_node t) !! i = Some (t_page c)) as Hpn by (simpl; by rewrite list_lookup_fmap, Hc).
  mstep (child_at_points w p _ i _ Hp Hpn).
  destruct (open_tree w c Hok (repr_kid _ _ _ _ Hc Hr)) as (q & w1 & Eq & Hrd & Ho & Hw). mstep Eq.
  destruct (IH c w1 q (anc ++ [i]) (reads_ok _ _ Hrd)) as (w' & idxs & st & q' & H').
  - apply (reads_repr w); [done|done|by apply (repr_kid w t i)].
  - done.
  - by eapply shape_kids.
  - apply height_le in Hf. rewrite Forall_lookup in Hf. by eapply Hf.
  - exists w', (i :: idxs), st, q'. destruct (findKeyInNode (t_node st) k) as [b' i'].
    destruct H' as (E' & Hrd' & Hrt & Hh' & Hw'). rewrite E', <- app_assoc. split; [done|].
    split; [by etrans|]. split; [by eapply route_down|]. split; [done|]. intros Hto _.
    pose proof (tree_owned_kid _ _ _ _ Hc Hto) as Htc. apply Hw'; [by apply (reads_tree_owned w)|by apply Hw].
Qed.

(** [getNodes] walks down a path. *)
Lemma walk_ok idxs : forall t w p st,
  world_ok w -> repr w t -> tree_owned w t -> handle w p t -> subtree idxs t = Some st ->
  exists w' ps, walk p idxs w = (Ok ps, w') /\ reads w w' /\ chain w' t idxs (p :: ps).
Proof.
  induction idxs as [|i idxs IH]; intros t w p st Hok Hr Hto Hh Hsub; cbn [walk].
  { exists w, []. split; [done|]. split; [by apply reads_refl|by constructor]. }
  simpl in Hsub. destruct (t_kids t !! i) as [c|] eqn:Hc; [|done]. simpl in Hsub.
  assert (childNodes (t_node t) !! i = Some (t_page c)) as Hpn by (simpl; by rewrite list_lookup_fmap, Hc).
  mstep (child_at_points w p _ i _ (proj1 Hh) Hpn).
  destruct (open_tree w c Hok (repr_kid _ _ _ _ Hc Hr)) as (q & w1 & Eq & Hrd & Ho & Hw). mstep Eq.
  pose proof (tree_owned_kid _ _ _ _ Hc Hto) as Htc.
  destruct (IH c w1 q st (reads_ok _ _ Hrd)) as (w' & ps & Ew & Hrd' & Hch).
  - apply (reads_repr w); [done|done|by apply (repr_kid w t i)].
  - by apply (reads_tree_owned w).
  - split; [done|by apply Hw].
  - done.
  - mstep Ew. exists w', (q :: ps). split; [done|]. split; [by etrans|].
    econstructor; [|done|done]. apply (reads_handle w); [done|by etrans|done].
Qed.

Lemma getNodes_ok idxs t w p c st :
  world_ok w -> repr w t -> tree_owned w t -> subtree idxs t = Some st ->
  collsH w !! p = Some c -> c_root c = t_page t ->
  exists w' ps, getNodes p (0%nat :: idxs) w = (Ok ps, w') /\ reads w w' /\ chain w' t idxs ps.
Proof.
  intros Hok Hr Hto Hsub Hp Hroot. unfold getNodes. erewrite bind_Ok by (unfold load_coll; by rewrite Hp).
  rewrite Hroot. destruct (open_tree w t Hok Hr) as (q & w1 & Eq & Hrd & Ho & Hw). mstep Eq. cbn [tail].
  destruct (walk_ok idxs t w1 q st) as (w' & ps & Ew & Hrd' & Hch); try done.
  - apply Hrd.
  - by apply (reads_repr w).
  - by apply (reads_tree_owned w).
  - split; [done|by apply Hw].
  - mstep Ew. exists w', (q :: ps). split; [done|]. split; [by etrans|done].
Qed.

Lemma Find_gen w p c t k fuel :
  world_ok w -> collsH w !! p = Some c -> c_hasTx c = true -> c_root c = t_page t ->
  repr w t -> shape t -> sorted (flatten t) -> (height t <= fuel)%nat ->
  exists w', Find fuel p k w = (Ok (find_item k (flatten t)), w') /\ reads w w'.
Proof.
  intros Hok Hp Htx Hroot Hr Hsh Hs Hf. unfold Find. erewrite bind_Ok by (unfold load_coll; by rewrite Hp).
  rewrite Htx, bind_ret, Hroot. destruct (open_tree w t Hok Hr) as (q & w1 & Eq & Hrd & Ho & _). mstep Eq.
  destruct (findKeyHelper_ok k true fuel t w1 q [0%nat]) as (w' & idxs & st & q' & H).
  - apply Hrd.
  - by apply (reads_repr w).
  - done.
  - done.
  - done.
  - destruct (findKeyInNode (t_node st) k) as [b i] eqn:E. destruct H as (Ek & Hrd' & Hrt & Hh & _).
    unfold findKey. mstep Ek. exists w'. pose proof (route_find _ _ _ _ Hrt Hsh Hs) as Hfi. rewrite E in Hfi.
    split; [|by etrans]. destruct b; simpl.
    + destruct Hfi as (it & Hit & ->). mstep (item_at_points w' q' _ i it Hh Hit). done.
    + by rewrite Hfi.
Qed.

(** ** Properties *)

(** C6: [Find] on a collection whose pages show a search tree returns the item
    the contents hold for the key, or nothing when there is none, at every
    depth (the fuel is the height of the tree), and changes nothing of the
    transaction but adding copies of the nodes it read. *)
Theorem Find_correct w p c t k fuel :
  world_ok w -> collsH w !! p = Some c -> c_hasTx c = true -> c_root c = t_page t ->
  repr w t -> shape t -> sorted (flatten t) -> (height t <= fuel)%nat ->
  exists w', Find fuel p k w = (Ok (find_item k (flatten t)), w') /\ reads w w'.
Proof. apply Find_gen. Qed.

End search.

(** A two-level collection in a write transaction: page 2 is the root, pages 3
    and 4 its leaves. *)
Definition demo_item (k v : Z) : Item := newItem [k] [v].
Definition demo_tree : tree :=
  Tree 2 [demo_item 5 50] [Tree 3 [demo_item 1 10; demo_item 3 30] []; Tree 4 [demo_item 7 70] []].
Definition demo_nodes : list nodeRef :=
  [NodeRef 2 (Slice (Some 0%nat) 0 1 1) (Slice (Some 0%nat) 0 2 2);
   NodeRef 3 (Slice (Some 1%nat) 0 2 4) nil_slice;
   NodeRef 4 (Slice (Some 2%nat) 0 1 1) nil_slice].
Definition demo_dal : dal :=
  Dal 4096 (MinFillPercent DefaultOptions) (MaxFillPercent DefaultOptions) (Some []) true None
    (Meta 2 1) (Freelist 4 []).
Definition demo_world : world :=
  World [[demo_item 5 50]; [demo_item 1 10; demo_item 3 30; demo_item 0 0; demo_item 0 0]; [demo_item 7 70]]
    [[3; 4]] demo_nodes [Collection [99] 2 0 true false false]
    (mkTx (Some (<[2 := 0%nat]> (<[3 := 1%nat]> (<[4 := 2%nat]> ∅)))) [] true 1 (Some (Freelist 4 []))
       (Some ∅) (Some ∅))
    (mkDB demo_dal true false 0).

Lemma demo_world_ok : world_ok demo_world.
Proof.
  split.
  - intros p r Hr. destruct p as [|[|[|p]]]; try done; simplify_eq/=; split;
      (split; [simpl; lia|]); try done; eexists; (split; [done|simpl; lia]).
  - intros pn p Hd. unfold dirty_at in Hd. simpl in Hd.
    destruct (decide (pn = 2)) as [-> |]; [|destruct (decide (pn = 3)) as [-> |];
      [|destruct (decide (pn = 4)) as [-> |]]]; simplify_map_eq; eexists; split; done.
Qed.

Lemma demo_repr : repr demo_world demo_tree.
Proof. repeat split. Qed.

Lemma demo_shape : shape demo_tree.
Proof. simpl. repeat split; auto. Qed.

Lemma demo_sorted : sorted (flatten demo_tree).
Proof. unfold sorted, keys. simpl. repeat constructor. Qed.

Lemma demo_owned : tree_owned demo_world demo_tree.
Proof.
  intros pn p _ Hd. unfold dirty_at in Hd. simpl in Hd.
  assert (p = 0%nat \/ p = 1%nat \/ p = 2%nat) as Hp.
  { destruct (decide (pn = 2)) as [-> |]; [|destruct (decide (pn = 3)) as [-> |];
      [|destruct (decide (pn = 4)) as [-> |]]]; simplify_map_eq; auto. }
  destruct Hp as [-> |[-> | ->]]; (eexists; split; [done|]); intros q r' Hne Hr';
    destruct q as [|[|[|q]]]; try done; simplify_eq/=; unfold region_apart; simpl;
    (split; first [by left|right; lia]).
Qed.

Lemma Find_correct_witness :
  exists w', Find 2 0 [7] demo_world = (Ok (Some (demo_item 7 70)), w') /\ reads demo_world w'.
Proof.
  apply (Find_correct demo_world 0 (Collection [99] 2 0 true false false) demo_tree [7] 2
    demo_world_ok eq_refl eq_refl eq_refl demo_repr demo_shape demo_sorted).
  simpl. lia.
Defined.
