(* ===== verification/Shrink.v ===== *)
(** * Removal and rebalancing on search trees

    The reference operation [remove_item] on sorted lists, removing an item at
    the end of a route, and the three ways [rebalanceRemove] moves items
    between two neighbours and their parent: all on trees, where their effect
    on the contents is stated. *)

From S2P Require Import Prelude Freelist Node Contents.

Open Scope nat_scope.

(** ** Removing a key from a sorted list *)

Definition remove_item (k : bytes) (l : list Item) : list Item := filter (fun it => key it <> k) l.

Lemma find_remove_eq k l : find_item k (remove_item k l) = None.
Proof.
  apply find_item_None. unfold keys. intros (it & -> & Hit)%list_elem_of_fmap.
  by apply list_elem_of_filter in Hit as [? _].
Qed.

Lemma find_remove_ne k k' l : k' <> k -> find_item k' (remove_item k l) = find_item k' l.
Proof.
  intros Hne. unfold remove_item. induction l as [|it l IH]; [done|]. rewrite filter_cons. cbn [find_item].
  destruct (decide (key it <> k)) as [Hk|Hk]; cbn [find_item].
  - by rewrite IH.
  - rewrite (decide_False (P := key it = k')); [done|]. apply dec_stable in Hk. congruence.
Qed.

Lemma remove_sorted k l : sorted l -> sorted (remove_item k l).
Proof.
  unfold remove_item. induction l as [|it l IH]; [done|]. intros [Ha Hs]%sorted_cons. rewrite filter_cons.
  case_decide; [|by apply IH]. apply sorted_cons. split; [|by apply IH]. unfold above in *.
  rewrite Forall_forall in *. intros x [_ Hx]%list_elem_of_filter. by apply Ha.
Qed.

Lemma remove_absent k l : k ∉ keys l -> remove_item k l = l.
Proof.
  unfold remove_item. induction l as [|it l IH]; [done|]. unfold keys. cbn [fmap list_fmap].
  rewrite not_elem_of_cons. intros [H1 H2]. rewrite filter_cons_True by congruence. by rewrite IH.
Qed.

(** In a sorted list there is one item to remove. *)
Lemma remove_around k l it r : sorted (l ++ it :: r) -> key it = k -> remove_item k (l ++ it :: r) = l ++ r.
Proof.
  intros Hs <-. apply sorted_around in Hs as [Hb Ha]. unfold remove_item. rewrite filter_app, filter_cons_False by naive_solver.
  f_equal; apply remove_absent; [by apply below_not_in|by apply above_not_in].
Qed.

(** ** Uniform trees *)

(** All leaves are [n] levels below. *)
Fixpoint level (n : nat) (t : tree) : Prop :=
  match n with
  | O => t_kids t = []
  | S n => t_kids t <> [] /\ Forall (level n) (t_kids t)
  end.

(** Every node holds an item. *)
Fixpoint filled (t : tree) : Prop :=
  let '(Tree _ its kids) := t in its <> [] /\ foldr (fun k Q => filled k /\ Q) True kids.

Lemma filled_unfold t : filled t <-> t_items t <> [] /\ Forall filled (t_kids t).
Proof. destruct t as [pg its kids]. simpl. by rewrite foldr_all. Qed.

Lemma level_kid n t i c : level n t -> t_kids t !! i = Some c -> exists m, n = S m /\ level m c.
Proof.
  intros Hl Hc. destruct n as [|m]; cbn [level] in Hl; [by rewrite Hl in Hc|].
  destruct Hl as [_ Hl]. rewrite Forall_lookup in Hl. exists m. split; [done|]. by eapply Hl.
Qed.

(** ** Two neighbouring children *)

(** The children [a] and [c] of [t], number [i] and the next, and the item
    [m] between them. *)
Record neighbours (t : tree) (i : nat) (K1 : list tree) (a c : tree) (K2 : list tree)
    (I1 : list Item) (m : Item) (I2 : list Item) : Prop := {
  nb_kids : t_kids t = K1 ++ a :: c :: K2;
  nb_items : t_items t = I1 ++ m :: I2;
  nb_klen : length K1 = i;
  nb_ilen : length I1 = i
}.

Lemma neighbours_at t i a c :
  shape t -> t_kids t !! i = Some a -> t_kids t !! S i = Some c ->
  exists K1 K2 I1 m I2, neighbours t i K1 a c K2 I1 m I2.
Proof.
  intros Hs Ha Hc. destruct (shape_node t Hs) as [E|E]; [by rewrite E in Ha|].
  pose proof (lookup_lt_Some _ _ _ Hc). destruct (lookup_lt_is_Some_2 (t_items t) i) as [m Hm]; [lia|].
  exists (take i (t_kids t)), (drop (S (S i)) (t_kids t)), (take i (t_items t)), m, (drop (S i) (t_items t)).
  split.
  - rewrite <- (drop_S _ _ _ Hc). by rewrite (take_drop_middle _ _ _ Ha).
  - by rewrite (take_drop_middle _ _ _ Hm).
  - rewrite length_take. lia.
  - pose proof (lookup_lt_Some _ _ _ Hm). rewrite length_take. lia.
Qed.

(** The contents around the two. *)
Lemma flatten_neighbours t i K1 a c K2 I1 m I2 :
  shape t -> neighbours t i K1 a c K2 I1 m I2 ->
  exists l r, flatten t = l ++ (flatten a ++ m :: flatten c) ++ r /\
    (forall pg x a' c', flatten (Tree pg (I1 ++ x :: I2) (K1 ++ a' :: c' :: K2)) = l ++ (flatten a' ++ x :: flatten c') ++ r) /\
    (forall pg a', flatten (Tree pg (I1 ++ I2) (K1 ++ a' :: K2)) = l ++ flatten a' ++ r).
Proof.
  intros Hs [Hk Hi Lk Li]. destruct (shape_node t Hs) as [E|E]; [by rewrite Hk in E; destruct K1|].
  rewrite Hk, Hi, !length_app in E. cbn [length] in E.
  exists (before I1 (map flatten K1)), (after I2 (map flatten K2)).
  assert (forall pg x a' c', flatten (Tree pg (I1 ++ x :: I2) (K1 ++ a' :: c' :: K2)) =
    before I1 (map flatten K1) ++ (flatten a' ++ x :: flatten c') ++ after I2 (map flatten K2)) as H.
  { intros pg x a' c'. cbn [flatten]. rewrite map_app. cbn [map]. rewrite interleave_child.
    - unfold after. cbn [zip_with concat]. by rewrite <- !app_assoc.
    - rewrite length_map. lia.
    - cbn [length]. rewrite length_map. lia. }
  split; [|split; [exact H|]].
  - destruct t as [pg its kids]. cbn [t_kids t_items] in *. subst. apply H.
  - intros pg a'. cbn [flatten]. rewrite map_app. cbn [map]. apply interleave_child; rewrite length_map; lia.
Qed.

Lemma Forall_neighbours (P : tree -> Prop) t i K1 a c K2 I1 m I2 :
  neighbours t i K1 a c K2 I1 m I2 -> Forall P (t_kids t) -> Forall P K1 /\ P a /\ P c /\ Forall P K2.
Proof.
  intros [-> _ _ _] H. apply Forall_app in H as [? H]. apply Forall_cons in H as [? H].
  by apply Forall_cons in H as [? ?].
Qed.

Lemma shape_unfold t : shape t <-> (t_kids t = [] \/ length (t_kids t) = S (length (t_items t))) /\ Forall shape (t_kids t).
Proof. destruct t as [pg its kids]. simpl. by rewrite foldr_all. Qed.

(** ** What rebalancing does to a tree *)

(** [t'] has the contents of [t], at the same root page, on some of its pages. *)
Record shrunk (n : nat) (t t' : tree) : Prop := {
  sh_page : t_page t' = t_page t;
  sh_flatten : flatten t' = flatten t;
  sh_shape : shape t';
  sh_level : level n t';
  sh_pages : exists gone, pages t ≡ₚ gone ++ pages t'
}.

Lemma shrunk_refl n t : shape t -> level n t -> shrunk n t t.
Proof. intros. split; try done. by exists []. Qed.

Lemma shrunk_trans n t1 t2 t3 : shrunk n t1 t2 -> shrunk n t2 t3 -> shrunk n t1 t3.
Proof.
  intros [P1 F1 S1 L1 (g1 & E1)] [P2 F2 S2 L2 (g2 & E2)]. split; try congruence; try done.
  exists (g1 ++ g2). rewrite E1, E2. by rewrite app_assoc.
Qed.

Lemma shrunk_in n t t' pn : shrunk n t t' -> pn ∈ pages t' -> pn ∈ pages t.
Proof. intros [_ _ _ _ (g & E)] H. rewrite E. apply elem_of_app. by right. Qed.

Lemma shrunk_nodup n t t' : shrunk n t t' -> NoDup (pages t) -> NoDup (pages t').
Proof. intros [_ _ _ _ (g & E)] H. rewrite E in H. by apply NoDup_app in H as (_ & _ & ?). Qed.

(** Two nodes on the same level before and after an exchange with the item
    between them: a rotation. *)
Record exchanged (n : nat) (a : tree) (m : Item) (c : tree) (a' : tree) (x : Item) (c' : tree) : Prop := {
  ex_a : t_page a' = t_page a;
  ex_c : t_page c' = t_page c;
  ex_flatten : flatten a' ++ x :: flatten c' = flatten a ++ m :: flatten c;
  ex_shape : shape a' /\ shape c';
  ex_level : level n a' /\ level n c';
  ex_kids : t_kids a' ++ t_kids c' = t_kids a ++ t_kids c
}.

Lemma pages_unfold pg its kids : pages (Tree pg its kids) = pg :: concat (map pages kids).
Proof. done. Qed.

Lemma exchanged_shrunk n t i K1 a c K2 I1 m I2 a' x c' :
  shape t -> level (S n) t -> neighbours t i K1 a c K2 I1 m I2 -> exchanged n a m c a' x c' ->
  shrunk (S n) t (Tree (t_page t) (I1 ++ x :: I2) (K1 ++ a' :: c' :: K2)).
Proof.
  intros Hs [_ Hl] Hnb [Ea Ec Ef [Sa Sc] [La Lc] Ek]. pose proof Hs as Hs'. apply shape_unfold in Hs' as [Hlen Hsk].
  destruct (Forall_neighbours _ _ _ _ _ _ _ _ _ _ Hnb Hsk) as (S1 & _ & _ & S2).
  destruct (Forall_neighbours _ _ _ _ _ _ _ _ _ _ Hnb Hl) as (L1 & _ & _ & L2).
  destruct (flatten_neighbours t i K1 a c K2 I1 m I2 Hs Hnb) as (l & r & Ft & Fx & _).
  destruct Hnb as [Hk Hi Lk Li]. split.
  - done.
  - by rewrite Fx, Ft, Ef.
  - apply shape_unfold. cbn [t_kids t_items]. split.
    + right. destruct Hlen as [Hn|Hn]; [by rewrite Hk in Hn; destruct K1|].
      rewrite Hk, Hi, !length_app in Hn. cbn [length] in Hn. rewrite !length_app. cbn [length]. lia.
    + apply Forall_app. split; [done|]. by repeat constructor.
  - cbn [level t_kids]. split; [by destruct K1|]. apply Forall_app. split; [done|]. by repeat constructor.
  - exists []. cbn [app]. rewrite (pages_kids t), Hk, pages_unfold. rewrite map_app, fmap_app. cbn [map fmap list_fmap].
    rewrite !concat_app. cbn [concat]. change (map pages K1) with (pages <$> K1). change (map pages K2) with (pages <$> K2).
    rewrite (pages_kids a), (pages_kids c), (pages_kids a'), (pages_kids c'), Ea, Ec.
    pose proof (f_equal (fun l => concat (pages <$> l)) Ek) as E.
    cbv beta in E. rewrite !fmap_app, !concat_app in E.
    set (A := concat (pages <$> t_kids a)) in *. set (C := concat (pages <$> t_kids c)) in *.
    set (A' := concat (pages <$> t_kids a')) in *. set (C' := concat (pages <$> t_kids c')) in *.
    assert (A' ++ C' ≡ₚ A ++ C) as Ep by by rewrite E.
    transitivity (t_page t :: concat (pages <$> K1) ++ t_page a :: t_page c :: (A ++ C) ++ concat (pages <$> K2)); [solve_Permutation|].
    rewrite <- Ep. solve_Permutation.
Qed.

(** The two rotations: the item next to the parent's goes up, the parent's goes
    down, and with inner nodes the child between them changes sides. *)
Lemma exchange_right n a m c ia x ka k :
  shape a -> shape c -> level n a -> level n c -> t_items a = ia ++ [x] ->
  (t_kids a = [] /\ ka = [] /\ k = [] \/ exists y, k = [y] /\ t_kids a = ka ++ [y]) ->
  exchanged n a m c (Tree (t_page a) ia ka) x (Tree (t_page c) (m :: t_items c) (k ++ t_kids c)).
Proof.
  intros [Ha Sa]%shape_unfold [Hc Sc]%shape_unfold La Lc Ei Hk. destruct a as [pa its kids], c as [pc itsc kidsc].
  cbn [t_page t_items t_kids] in *. subst its. destruct Hk as [(-> & -> & ->)|(y & -> & ->)].
  - destruct n as [|n]; [|by destruct La]. cbn [level t_kids] in Lc. subst kidsc. split; try done.
    + simpl. by rewrite <- app_assoc.
    + split; apply shape_unfold; (split; [by left|done]).
  - destruct n as [|n]; [by destruct ka|]. destruct La as [_ La], Lc as [Hne Lc]. cbn [t_kids] in *.
    destruct Ha as [Ha|Ha]; [by destruct ka|]. rewrite !length_app in Ha. cbn [length] in Ha.
    destruct Hc as [->|Hc]; [done|]. apply Forall_app in La as [La [Ly _]%Forall_cons]. apply Forall_app in Sa as [Sa [Sy _]%Forall_cons].
    split; try done.
    + cbn [flatten]. rewrite !map_app. cbn [map app]. rewrite interleave_item by (rewrite length_map; lia).
      cbn [interleave concat]. by rewrite app_nil_r, <- app_assoc.
    + split; apply shape_unfold; cbn [t_kids t_items app].
      * split; [right; lia|done].
      * split; [right; cbn [length]; lia|by constructor].
    + split; cbn [level t_kids app].
      * split; [|done]. intros ->. simpl in Ha. lia.
      * split; [done|by constructor].
    + cbn [t_kids app]. by rewrite <- app_assoc.
Qed.

Lemma exchange_left n a m c x ic k kc :
  shape a -> shape c -> level n a -> level n c -> t_items c = x :: ic ->
  (t_kids c = [] /\ kc = [] /\ k = [] \/ exists y, k = [y] /\ t_kids c = y :: kc) ->
  exchanged n a m c (Tree (t_page a) (t_items a ++ [m]) (t_kids a ++ k)) x (Tree (t_page c) ic kc).
Proof.
  intros [Ha Sa]%shape_unfold [Hc Sc]%shape_unfold La Lc Ei Hk. destruct a as [pa itsa kidsa], c as [pc its kids].
  cbn [t_page t_items t_kids] in *. subst its. destruct Hk as [(-> & -> & ->)|(y & -> & ->)].
  - destruct n as [|n]; [|by destruct Lc]. cbn [level t_kids] in La. subst kidsa. split; try done.
    + simpl. by rewrite <- app_assoc.
    + split; apply shape_unfold; (split; [by left|done]).
  - destruct n as [|n]; [done|]. destruct Lc as [_ Lc], La as [Hne La]. cbn [t_kids] in *.
    destruct Hc as [Hc|Hc]; [done|]. cbn [length] in Hc. destruct Ha as [->|Ha]; [done|].
    apply Forall_cons in Lc as [Ly Lc]. apply Forall_cons in Sc as [Sy Sc].
    split; try done.
    + cbn [flatten]. rewrite !map_app. cbn [map]. rewrite interleave_item by (rewrite length_map; lia).
      cbn [interleave concat app]. by rewrite app_nil_r, <- app_assoc.
    + split; apply shape_unfold; cbn [t_kids t_items].
      * rewrite !length_app. cbn [length]. split; [right; lia|]. apply Forall_app. split; [done|by constructor].
      * split; [right; lia|done].
    + split; cbn [level t_kids].
      * split; [by destruct kidsa|]. apply Forall_app. split; [done|by constructor].
      * split; [|done]. intros ->. simpl in Hc. lia.
    + cbn [t_kids]. by rewrite <- app_assoc.
Qed.

(** Merging two neighbours into the left one. *)
Definition merged (a : tree) (m : Item) (c : tree) : tree :=
  Tree (t_page a) (t_items a ++ m :: t_items c) (t_kids a ++ t_kids c).

Lemma merged_ok n a m c :
  shape a -> shape c -> level n a -> level n c ->
  flatten (merged a m c) = flatten a ++ m :: flatten c /\ shape (merged a m c) /\ level n (merged a m c).
Proof.
  intros [Ha Sa]%shape_unfold [Hc Sc]%shape_unfold La Lc. destruct a as [pa ia ka], c as [pc ic kc].
  unfold merged. cbn [t_page t_items t_kids] in *. destruct n as [|n]; cbn [level t_kids] in La, Lc.
  - subst. split; [done|]. split; [|done]. apply shape_unfold. split; [by left|done].
  - destruct La as [Na La], Lc as [Nc Lc], Ha as [->|Ha], Hc as [->|Hc]; try done.
    split; [|split].
    + cbn [flatten]. rewrite map_app. apply interleave_item. by rewrite length_map.
    + apply shape_unfold. cbn [t_kids t_items]. rewrite !length_app. cbn [length]. split; [right; lia|]. by apply Forall_app.
    + cbn [level t_kids]. split; [by destruct ka|]. by apply Forall_app.
Qed.

Lemma merged_shrunk n t i K1 a c K2 I1 m I2 :
  shape t -> level (S n) t -> neighbours t i K1 a c K2 I1 m I2 ->
  shrunk (S n) t (Tree (t_page t) (I1 ++ I2) (K1 ++ merged a m c :: K2)).
Proof.
  intros Hs [_ Hl] Hnb. pose proof Hs as Hs'. apply shape_unfold in Hs' as [Hlen Hsk].
  destruct (Forall_neighbours _ _ _ _ _ _ _ _ _ _ Hnb Hsk) as (S1 & Sa & Sc & S2).
  destruct (Forall_neighbours _ _ _ _ _ _ _ _ _ _ Hnb Hl) as (L1 & La & Lc & L2).
  destruct (flatten_neighbours t i K1 a c K2 I1 m I2 Hs Hnb) as (l & r & Ft & _ & Fx).
  destruct (merged_ok n a m c Sa Sc La Lc) as (Ef & Sm & Lm). destruct Hnb as [Hk Hi Lk Li]. split.
  - done.
  - by rewrite Fx, Ft, Ef.
  - apply shape_unfold. cbn [t_kids t_items]. split.
    + right. destruct Hlen as [Hn|Hn]; [by rewrite Hk in Hn; destruct K1|].
      rewrite Hk, Hi, !length_app in Hn. cbn [length] in Hn. rewrite !length_app. cbn [length]. lia.
    + apply Forall_app. split; [done|]. by constructor.
  - cbn [level t_kids]. split; [by destruct K1|]. apply Forall_app. split; [done|]. by constructor.
  - exists [t_page c]. rewrite (pages_kids t), Hk, pages_unfold. rewrite map_app, fmap_app. cbn [map fmap list_fmap].
    rewrite !concat_app. cbn [concat]. change (map pages K1) with (pages <$> K1). change (map pages K2) with (pages <$> K2).
    rewrite (pages_kids a), (pages_kids c), (pages_kids (merged a m c)). unfold merged. cbn [t_page t_kids].
    rewrite fmap_app, concat_app. solve_Permutation.
Qed.

(** ** Taking an item out of a leaf *)

Lemma flatten_subtree idxs t st :
  subtree idxs t = Some st -> shape t ->
  shape st /\ exists l r, flatten t = l ++ flatten st ++ r /\
    forall st', flatten (set_subtree idxs st' t) = l ++ flatten st' ++ r.
Proof.
  revert t. induction idxs as [|i idxs IH]; intros t Hsub Hs.
  - injection Hsub as <-. split; [done|]. exists [], []. rewrite app_nil_r. split; [done|]. intros st'. by rewrite app_nil_r.
  - cbn [subtree] in Hsub. destruct (t_kids t !! i) as [c|] eqn:Hc; [|done]. cbn [mbind option_bind] in Hsub.
    destruct (IH c Hsub (shape_kids _ _ _ Hs Hc)) as (Hst & l & r & E & Eset). split; [done|].
    destruct t as [pg its kids]. cbn [t_kids] in Hc. pose proof (shape_node _ Hs) as Hl. cbn [t_kids t_items] in Hl.
    destruct Hl as [->|Hl]; [done|]. destruct (flatten_child pg its kids i c Hl Hc) as [E1 E2].
    set (ps := map flatten kids) in *.
    exists (before (take i its) (take i ps) ++ l), (r ++ after (drop i its) (drop (S i) ps)).
    split; [by rewrite E1, E, !app_assoc|]. intros st'. cbn [set_subtree]. rewrite (alter_insert _ kids i c Hc).
    by rewrite E2, Eset, !app_assoc.
Qed.

(** The leaf at the end of a route without its item number [i]. *)
Definition leaf_without (i : nat) (st : tree) : tree := Tree (t_page st) (delete i (t_items st)) [].

Lemma remove_leaf k idxs t st i it :
  subtree idxs t = Some st -> shape t -> sorted (flatten t) -> t_kids st = [] ->
  t_items st !! i = Some it -> key it = k ->
  flatten (set_subtree idxs (leaf_without i st) t) = remove_item k (flatten t).
Proof.
  intros Hsub Hs Hso Hk Hi Hkey. destruct (flatten_subtree idxs t st Hsub Hs) as (_ & l & r & E & Eset).
  rewrite Eset, E. rewrite (flatten_leaf st Hk) in *. unfold leaf_without. cbn [flatten map interleave].
  rewrite delete_take_drop. rewrite E in Hso. pose proof (take_drop_middle _ _ _ Hi) as Ei.
  set (L := take i (t_items st)) in *. set (R := drop (S i) (t_items st)) in *. rewrite <- Ei in Hso |- *.
  assert (l ++ (L ++ it :: R) ++ r = (l ++ L) ++ it :: R ++ r) as El by (by rewrite <- !app_assoc).
  rewrite El in Hso |- *. rewrite (remove_around k _ it _ Hso Hkey). by rewrite <- !app_assoc.
Qed.

(** ** Replacing a child, or the subtree at a path *)

(** [t] with another tree for its child number [i]. *)
Definition with_kid (i : nat) (c t : tree) : tree := Tree (t_page t) (t_items t) (<[i := c]> (t_kids t)).

Lemma with_kid_id i c t : t_kids t !! i = Some c -> with_kid i c t = t.
Proof. destruct t as [pg its kids]. unfold with_kid. simpl. intros Hc. by rewrite list_insert_id. Qed.

Lemma with_kid_pages i c c' t :
  t_kids t !! i = Some c -> exists rest, pages t ≡ₚ pages c ++ rest /\ pages (with_kid i c' t) ≡ₚ pages c' ++ rest.
Proof.
  intros Hc. exists (t_page t :: concat (pages <$> take i (t_kids t)) ++ concat (pages <$> drop (S i) (t_kids t))).
  rewrite (pages_kids t), (pages_kids (with_kid i c' t)). unfold with_kid. cbn [t_page t_kids]. pose proof (lookup_lt_Some _ _ _ Hc).
  rewrite insert_take_drop by done. rewrite <- (take_drop_middle _ _ _ Hc) at 1.
  rewrite !fmap_app, !fmap_cons, !concat_app. cbn [concat]. split; solve_Permutation.
Qed.

Lemma with_kid_height i c c' t :
  t_kids t !! i = Some c -> (height c' <= height c)%nat -> (height (with_kid i c' t) <= height t)%nat.
Proof.
  intros Hc Hh. destruct t as [pg its kids]. unfold with_kid. cbn [t_page t_items t_kids] in *. cbn [height].
  apply le_n_S. revert i Hc. induction kids as [|x kids IH]; intros [|i] Hc; simplify_eq/=; [lia|].
  specialize (IH i Hc). lia.
Qed.

Lemma with_kid_shape i c c' t : shape t -> t_kids t !! i = Some c -> shape c' -> shape (with_kid i c' t).
Proof.
  destruct t as [pg its kids]. unfold with_kid. cbn [t_page t_items t_kids]. intros [Hl Ha] Hc Hs. simpl.
  rewrite foldr_all in *. rewrite length_insert. split; [|by apply Forall_insert].
  destruct Hl as [-> |?]; [done|by right].
Qed.

Lemma with_kid_flatten i c c' t :
  shape t -> t_kids t !! i = Some c -> flatten c' = flatten c -> flatten (with_kid i c' t) = flatten t.
Proof.
  destruct t as [pg its kids]. unfold with_kid. cbn [t_page t_items t_kids]. intros [Hl _] Hc Hf.
  destruct Hl as [-> |Hl]; [done|]. destruct (flatten_child pg its kids i c Hl Hc) as [-> E]. by rewrite E, Hf.
Qed.

Lemma set_subtree_cons i idxs st' t c :
  t_kids t !! i = Some c -> set_subtree (i :: idxs) st' t = with_kid i (set_subtree idxs st' c) t.
Proof. destruct t as [pg its kids]. cbn [t_kids]. intros Hc. cbn [set_subtree]. by rewrite (alter_insert _ kids i c Hc). Qed.

Lemma subtree_pages idxs t st : subtree idxs t = Some st -> pages st ⊆ pages t.
Proof.
  revert t. induction idxs as [|i idxs IH]; intros t Hsub; simpl in Hsub; [by simplify_eq|].
  destruct (t_kids t !! i) as [c|] eqn:Hc; [|done]. intros x Hx. apply (kid_pages t i c); [done|]. by apply (IH c).
Qed.

Lemma level_set idxs st st' t n :
  level n t -> subtree idxs t = Some st -> (forall m, level m st -> level m st') -> level n (set_subtree idxs st' t).
Proof.
  revert t n. induction idxs as [|i idxs IH]; intros t n Hl Hsub Hst; simpl in Hsub; [simplify_eq; by apply Hst|].
  destruct (t_kids t !! i) as [c|] eqn:Hc; [|done]. rewrite (set_subtree_cons i idxs st' t c Hc).
  destruct (level_kid n t i c Hl Hc) as (m & -> & Hlc). destruct Hl as [Hne Hl]. split; unfold with_kid; cbn [t_kids].
  - intros E. apply (f_equal length) in E. rewrite length_insert in E. by destruct (t_kids t).
  - apply Forall_insert; [done|]. by apply IH.
Qed.

Lemma level_height n t : level n t -> height t = S n.
Proof.
  revert t. induction n as [|n IH]; intros [pg its kids] Hl; simpl in Hl; [by subst|].
  destruct Hl as [Hne Hl]. simpl. f_equal. destruct kids as [|c kids]; [done|]. apply Forall_cons in Hl as [Hc Hl].
  simpl. rewrite (IH c Hc). clear Hne Hc. induction Hl as [|x kids Hx Hl IHk]; simpl; [done|]. rewrite (IH x Hx). lia.
Qed.

(** Every node of the tree holds an item; the root may be an empty leaf. *)
Definition tidy (t : tree) : Prop := Forall filled (t_kids t) /\ (t_kids t <> [] -> t_items t <> []).

Lemma filled_tidy t : filled t -> tidy t.
Proof. by intros [? ?]%filled_unfold. Qed.

Lemma subtree_tidy idxs t st : tidy t -> subtree idxs t = Some st -> tidy st.
Proof.
  revert t. induction idxs as [|i idxs IH]; intros t Ht Hsub; simpl in Hsub; [by simplify_eq|].
  destruct (t_kids t !! i) as [c|] eqn:Hc; [|done]. apply (IH c); [|done]. apply filled_tidy.
  destruct Ht as [Hf _]. rewrite Forall_lookup in Hf. by apply (Hf i).
Qed.

(** The invariants of the form of a tree that [t'] has when [t] has them. *)
Record same_form (t t' : tree) : Prop := {
  sf_level : forall n, level n t -> level n t';
  sf_tidy : tidy t -> tidy t'
}.

#[export] Instance same_form_preorder : PreOrder same_form.
Proof.
  split.
  - by intros t.
  - intros t1 t2 t3 [L1 T1] [L2 T2]. split; auto.
Qed.

Lemma put_here_items k v st : t_items (put_here k v st) <> [] /\ t_kids (put_here k v st) = t_kids st.
Proof.
  destruct st as [pg its kids]. unfold put_here. destruct (findKeyInNode _ k) as [[] i] eqn:E; (split; [|done]); cbn [t_items].
  - intros Hn. apply (f_equal length) in Hn. rewrite length_insert in Hn. apply nil_length_inv in Hn.
    unfold findKeyInNode in E. cbn in E. by rewrite Hn in E.
  - unfold insert_at. by destruct (take i its).
Qed.

Lemma filled_set idxs st st' t : filled t -> subtree idxs t = Some st -> filled st' -> filled (set_subtree idxs st' t).
Proof.
  revert t. induction idxs as [|i idxs IH]; intros t Hf Hsub Hst; simpl in Hsub; [done|].
  destruct (t_kids t !! i) as [c|] eqn:Hc; [|done]. rewrite (set_subtree_cons i idxs st' t c Hc).
  apply filled_unfold in Hf as [Hne Hf]. apply filled_unfold. split; [done|]. unfold with_kid. cbn [t_kids].
  apply Forall_insert; [done|]. apply IH; [|done|done]. rewrite Forall_lookup in Hf. by eapply Hf.
Qed.

(** Storing an item leaves the form of the tree. *)
Lemma put_form k v t idxs st :
  subtree idxs t = Some st -> same_form t (set_subtree idxs (put_here k v st) t).
Proof.
  intros Hsub. destruct (put_here_items k v st) as [Hi Hk]. split.
  - intros n Hl. apply (level_set idxs st); [done|done|]. intros m. destruct m; simpl; by rewrite Hk.
  - intros Ht. pose proof (subtree_tidy _ _ _ Ht Hsub) as [Hf _]. destruct Ht as [Hft Hnt].
    assert (filled (put_here k v st)) as Hp by (apply filled_unfold; by rewrite Hk).
    destruct idxs as [|i idxs]; [by apply filled_tidy|]. simpl in Hsub.
    destruct (t_kids t !! i) as [c|] eqn:Hc; [|done]. rewrite (set_subtree_cons i idxs _ t c Hc).
    unfold with_kid. split; cbn [t_kids t_items].
    + apply Forall_insert; [done|]. rewrite Forall_lookup in Hft. apply (filled_set idxs st); [by eapply Hft|done|done].
    + intros _. apply Hnt. intros E. by rewrite E in Hc.
Qed.
