(* ===== verification/Rotate.v ===== *)
(** * Rotations and merge, on the heap

    What the statements of [rotateRight], [rotateLeft] and [merge] do to nodes
    that own their slices: each shows a new node, every other node and page
    shows what it did. *)

From S2P Require Import Prelude Freelist Meta Node Float32 Dal GoSlice World Tree Heap Contents Split.

Open Scope Z_scope.

(** No node has changed its page number. *)
Definition same_numbers (w w' : world) : Prop :=
  forall q r, nodesH w !! q = Some r -> exists r', nodesH w' !! q = Some r' /\ r_pageNum r' = r_pageNum r.

#[export] Instance same_numbers_preorder : PreOrder same_numbers.
Proof.
  split.
  - intros w q r Hr. by exists r.
  - intros w1 w2 w3 H12 H23 q r Hr. destruct (H12 q r Hr) as (r2 & H2 & <-). exact (H23 q r2 H2).
Qed.

Lemma mutates_numbers p w w' : mutates p w w' -> same_numbers w w'.
Proof.
  intros [(r & r' & Hr & Hn & E & _) _ _ _] q x Hx. rewrite E. destruct (decide (q = p)) as [-> |Hq].
  - exists r'. rewrite list_lookup_insert_eq by (by eapply lookup_lt_Some). split; [done|congruence].
  - exists x. by rewrite list_lookup_insert_ne.
Qed.

(** The nodes [ps] have been changed, nothing else. *)
Record mutated (ps : list node_ptr) (w w' : world) : Prop := {
  md_ok : world_ok w';
  md_points : forall q n, q ∉ ps -> points w q n -> points w' q n;
  md_owned : forall q, owned w q -> owned w' q;
  md_page : forall pn, (forall p, dirty_at w pn = Some p -> p ∉ ps) -> page_node pn w' = page_node pn w;
  md_colls : collsH w' = collsH w;
  md_tx : wtx w' = wtx w;
  md_db : wdb w' = wdb w;
  md_nums : same_numbers w w'
}.

Lemma mutated_one p w w' : world_ok w -> owned w p -> mutates p w w' -> mutated [p] w w'.
Proof.
  intros Hok Ho Hm. split; try apply Hm.
  - by apply (mutates_ok p w w').
  - intros q n Hq. apply (mutates_points p w w'); try done. set_solver.
  - intros q. by apply (mutates_owned p w w').
  - intros pn Hp. apply (mutates_page p w w'); try done. intros E. apply (Hp p E). set_solver.
  - by apply (mutates_numbers p).
Qed.

Lemma mutated_trans ps w1 w2 w3 : mutated ps w1 w2 -> mutated ps w2 w3 -> mutated ps w1 w3.
Proof.
  intros [O1 P1 W1 G1 C1 T1 D1 N1] [O2 P2 W2 G2 C2 T2 D2 N2]. split; try done; try congruence.
  - auto.
  - auto.
  - intros pn Hp. rewrite G2, G1; [done|done|]. intros p. unfold dirty_at. rewrite T1. apply Hp.
  - by etrans.
Qed.

Lemma mutated_mono ps qs w w' : ps ⊆ qs -> mutated ps w w' -> mutated qs w w'.
Proof.
  intros Hs [O P W G C T D N]. split; try done.
  - intros q n Hq. apply P. set_solver.
  - intros pn Hp. apply G. intros p E. specialize (Hp p E). set_solver.
Qed.

Lemma mutated_refl ps w : world_ok w -> mutated ps w w.
Proof. by split. Qed.

(** [append([]T{x}, s...)] moves to a new array. *)
Lemma prepend_step `{Inhabited A} {RT : GoRuntime} (st : list (list A)) s x :
  slice_ok st s ->
  let '(l, st1) := literal [x] st in
  let '(s2, st2) := append l (view st s) st1 in
  slice_step st st2 s s2 /\ view st2 s2 = x :: view st s.
Proof.
  intros Hs. unfold literal. set (l := Slice (Some (length st)) 0 _ _). set (st1 := st ++ [[x]]).
  assert (st `prefix_of` st1) as Hpre by (by eexists).
  assert (slice_ok st1 l) as Hl.
  { split; [done|]. unfold l. cbn [s_arr s_off s_cap]. exists [x]. unfold st1. split; [by apply list_lookup_middle|simpl; lia]. }
  assert (length st <= length st1)%nat as Hgr by (unfold st1; rewrite length_app; lia).
  assert (fresh_from (length st) l) as Hfl by (unfold fresh_from, l; cbn [s_arr]; lia).
  pose proof (append_step st1 l (view st s) Hl) as Ha. pose proof (append_fresh (length st) st1 l (view st s) Hfl Hgr) as Hf.
  destruct (append l (view st s) st1) as [s2 st2]. destruct Ha as [S V]. destruct Hf as (Hf2 & Hg2 & _). split.
  - split; [done|apply S|..].
    + intros t Ht. apply S. by apply (slice_ok_prefix st).
    + right. split; [|done]. destruct (step_within _ _ _ _ S) as [(E & _)|[? _]]; [by rewrite E|done].
    + intros t Ht _. rewrite (step_frame _ _ _ _ S t (slice_ok_prefix _ _ _ Ht Hpre)); [by apply view_prefix|].
      by apply (fresh_region_apart st st1).
  - rewrite V. unfold view at 1, arr. cbn [s_arr l s_off s_len]. unfold st1. by rewrite list_lookup_middle.
Qed.

Section rotate.
Context {RT : GoRuntime}.

(** ** One statement on one node *)

(** After a statement the node at [p] has the slices of [r'] and shows [n]. *)
Definition set_to (p : node_ptr) (w : world) (r' : nodeRef) (n : node) (w' : world) : Prop :=
  mutates p w w' /\ nodesH w' !! p = Some r' /\ node_of w' r' = n.

Lemma set_to_points p w r' n w' : set_to p w r' n w' -> points w' p n.
Proof. intros (_ & Hr & Hn). by exists r'. Qed.

Lemma set_items_to w p r s' h :
  world_ok w -> nodesH w !! p = Some r -> slice_step (itemsH w) h (r_items r) s' ->
  exists w', set_items p s' (with_itemsH h w) = (Ok tt, w') /\
    set_to p w (set_items_r s' r) (Node (r_pageNum r) (view h s') (view (kidsH w) (r_childNodes r))) w'.
Proof.
  intros Hok Hr Hs. destruct (mutates_items w p r s' h Hok Hr Hs) as [Hm (r' & Hr' & Hn)].
  eexists. split.
  - unfold set_items, upd_node, modS, with_nodesH, with_itemsH. cbn. by rewrite (alter_insert _ _ _ _ Hr).
  - split; [exact Hm|]. cbn in Hr'. rewrite list_lookup_insert_eq in Hr' by (by eapply lookup_lt_Some). simplify_eq.
    split; [|done]. cbn. by apply list_lookup_insert_eq; eapply lookup_lt_Some.
Qed.

Lemma set_kids_to w p r s' h :
  world_ok w -> nodesH w !! p = Some r -> slice_step (kidsH w) h (r_childNodes r) s' ->
  exists w', set_kids p s' (with_kidsH h w) = (Ok tt, w') /\
    set_to p w (set_kids_r s' r) (Node (r_pageNum r) (view (itemsH w) (r_items r)) (view h s')) w'.
Proof.
  intros Hok Hr Hs. destruct (mutates_kids w p r s' h Hok Hr Hs) as [Hm (r' & Hr' & Hn)].
  eexists. split.
  - unfold set_kids, upd_node, modS, with_nodesH, with_kidsH. cbn. by rewrite (alter_insert _ _ _ _ Hr).
  - split; [exact Hm|]. cbn in Hr'. rewrite list_lookup_insert_eq in Hr' by (by eapply lookup_lt_Some). simplify_eq.
    split; [|done]. cbn. by apply list_lookup_insert_eq; eapply lookup_lt_Some.
Qed.

Lemma with_itemsH_id w : with_itemsH (itemsH w) w = w.
Proof. by destruct w. Qed.
Lemma with_kidsH_id w : with_kidsH (kidsH w) w = w.
Proof. by destruct w. Qed.

Section statements.
Context (w : world) (p : node_ptr) (r : nodeRef) (Hok : world_ok w) (Hr : nodesH w !! p = Some r).
Notation n := (node_of w r).

Lemma items_len : s_len (r_items r) = length (items n).
Proof. by apply (s_len_items w p). Qed.
Lemma kids_len : s_len (r_childNodes r) = length (childNodes n).
Proof. by apply (s_len_kids w p). Qed.

(** [p.items = p.items[:k]] and [p.items = p.items[k:]]. *)
Lemma take_items k :
  (k <= length (items n))%nat ->
  exists s w', slice_to (r_items r) k = Ok s /\ set_items p s w = (Ok tt, w') /\
    set_to p w (set_items_r s r) (Node (pageNum n) (take k (items n)) (childNodes n)) w'.
Proof.
  intros Hk. destruct (ok_slices _ Hok p r Hr) as [Hs _]. rewrite <- items_len in Hk.
  destruct (slice_to_ok (itemsH w) (r_items r) k Hs Hk) as (s & E & S & V & _).
  destruct (set_items_to w p r s (itemsH w) Hok Hr S) as (w' & Es & Hw). rewrite with_itemsH_id in Es.
  exists s, w'. split; [done|]. split; [done|]. by rewrite V in Hw.
Qed.

Lemma drop_items k :
  (k <= length (items n))%nat ->
  exists s w', slice_from (r_items r) k = Ok s /\ set_items p s w = (Ok tt, w') /\
    set_to p w (set_items_r s r) (Node (pageNum n) (drop k (items n)) (childNodes n)) w'.
Proof.
  intros Hk. destruct (ok_slices _ Hok p r Hr) as [Hs _]. rewrite <- items_len in Hk.
  destruct (slice_from_ok (itemsH w) (r_items r) k Hs Hk) as (s & E & S & V & _).
  destruct (set_items_to w p r s (itemsH w) Hok Hr S) as (w' & Es & Hw). rewrite with_itemsH_id in Es.
  exists s, w'. split; [done|]. split; [done|]. by rewrite V in Hw.
Qed.

Lemma take_kids k :
  (k <= length (childNodes n))%nat ->
  exists s w', slice_to (r_childNodes r) k = Ok s /\ set_kids p s w = (Ok tt, w') /\
    set_to p w (set_kids_r s r) (Node (pageNum n) (items n) (take k (childNodes n))) w'.
Proof.
  intros Hk. destruct (ok_slices _ Hok p r Hr) as [_ Hs]. rewrite <- kids_len in Hk.
  destruct (slice_to_ok (kidsH w) (r_childNodes r) k Hs Hk) as (s & E & S & V & _).
  destruct (set_kids_to w p r s (kidsH w) Hok Hr S) as (w' & Es & Hw). rewrite with_kidsH_id in Es.
  exists s, w'. split; [done|]. split; [done|]. by rewrite V in Hw.
Qed.

Lemma drop_kids k :
  (k <= length (childNodes n))%nat ->
  exists s w', slice_from (r_childNodes r) k = Ok s /\ set_kids p s w = (Ok tt, w') /\
    set_to p w (set_kids_r s r) (Node (pageNum n) (items n) (drop k (childNodes n))) w'.
Proof.
  intros Hk. destruct (ok_slices _ Hok p r Hr) as [_ Hs]. rewrite <- kids_len in Hk.
  destruct (slice_from_ok (kidsH w) (r_childNodes r) k Hs Hk) as (s & E & S & V & _).
  destruct (set_kids_to w p r s (kidsH w) Hok Hr S) as (w' & Es & Hw). rewrite with_kidsH_id in Es.
  exists s, w'. split; [done|]. split; [done|]. by rewrite V in Hw.
Qed.

(** [p.items = append(p.items, xs...)]. *)
Lemma append_items xs :
  exists s w1 w', items_append (r_items r) xs w = (Ok s, w1) /\ set_items p s w1 = (Ok tt, w') /\
    set_to p w (set_items_r s r) (Node (pageNum n) (items n ++ xs) (childNodes n)) w'.
Proof.
  destruct (ok_slices _ Hok p r Hr) as [Hs _]. pose proof (append_step (itemsH w) (r_items r) xs Hs) as Ha.
  unfold items_append, on_items. destruct (append (r_items r) xs (itemsH w)) as [s h]. destruct Ha as [S V].
  destruct (set_items_to w p r s h Hok Hr S) as (w' & Es & Hw).
  exists s, (with_itemsH h w), w'. split; [done|]. split; [done|]. by rewrite V in Hw.
Qed.

Lemma append_kids xs :
  exists s w1 w', kids_append (r_childNodes r) xs w = (Ok s, w1) /\ set_kids p s w1 = (Ok tt, w') /\
    set_to p w (set_kids_r s r) (Node (pageNum n) (items n) (childNodes n ++ xs)) w'.
Proof.
  destruct (ok_slices _ Hok p r Hr) as [_ Hs]. pose proof (append_step (kidsH w) (r_childNodes r) xs Hs) as Ha.
  unfold kids_append, on_kids. destruct (append (r_childNodes r) xs (kidsH w)) as [s h]. destruct Ha as [S V].
  destruct (set_kids_to w p r s h Hok Hr S) as (w' & Es & Hw).
  exists s, (with_kidsH h w), w'. split; [done|]. split; [done|]. by rewrite V in Hw.
Qed.

(** [p.items = append(p.items[:lo], p.items[hi:]...)]. *)
Lemma remove_items lo hi :
  (lo <= length (items n))%nat -> (hi <= length (items n))%nat ->
  exists sl sh s w1 w', slice_to (r_items r) lo = Ok sl /\ slice_from (r_items r) hi = Ok sh /\
    items_append sl (view (itemsH w) sh) w = (Ok s, w1) /\ set_items p s w1 = (Ok tt, w') /\
    set_to p w (set_items_r s r) (Node (pageNum n) (take lo (items n) ++ drop hi (items n)) (childNodes n)) w'.
Proof.
  intros Hlo Hhi. destruct (ok_slices _ Hok p r Hr) as [Hs _]. rewrite <- items_len in Hlo, Hhi.
  destruct (append_slot_step (itemsH w) (r_items r) lo hi Hs Hlo Hhi) as (sl & sh & s & h & E1 & E2 & E3 & S & V).
  destruct (set_items_to w p r s h Hok Hr S) as (w' & Es & Hw).
  exists sl, sh, s, (with_itemsH h w), w'. split; [done|]. split; [done|].
  split; [by unfold items_append, on_items; rewrite E3|]. split; [done|]. by rewrite V in Hw.
Qed.

Lemma remove_kids lo hi :
  (lo <= length (childNodes n))%nat -> (hi <= length (childNodes n))%nat ->
  exists sl sh s w1 w', slice_to (r_childNodes r) lo = Ok sl /\ slice_from (r_childNodes r) hi = Ok sh /\
    kids_append sl (view (kidsH w) sh) w = (Ok s, w1) /\ set_kids p s w1 = (Ok tt, w') /\
    set_to p w (set_kids_r s r) (Node (pageNum n) (items n) (take lo (childNodes n) ++ drop hi (childNodes n))) w'.
Proof.
  intros Hlo Hhi. destruct (ok_slices _ Hok p r Hr) as [_ Hs]. rewrite <- kids_len in Hlo, Hhi.
  destruct (append_slot_step (kidsH w) (r_childNodes r) lo hi Hs Hlo Hhi) as (sl & sh & s & h & E1 & E2 & E3 & S & V).
  destruct (set_kids_to w p r s h Hok Hr S) as (w' & Es & Hw).
  exists sl, sh, s, (with_kidsH h w), w'. split; [done|]. split; [done|].
  split; [by unfold kids_append, on_kids; rewrite E3|]. split; [done|]. by rewrite V in Hw.
Qed.

(** [p.items = append([]*Item{x}, p.items...)]. *)
Lemma prepend_items x :
  exists s0 w0 s w1 w', items_literal [x] w = (Ok s0, w0) /\
    items_append s0 (view (itemsH w) (r_items r)) w0 = (Ok s, w1) /\ set_items p s w1 = (Ok tt, w') /\
    set_to p w (set_items_r s r) (Node (pageNum n) (x :: items n) (childNodes n)) w'.
Proof.
  destruct (ok_slices _ Hok p r Hr) as [Hs _]. pose proof (prepend_step (itemsH w) (r_items r) x Hs) as Ha.
  unfold items_literal, items_append, on_items. destruct (literal [x] (itemsH w)) as [s0 h0].
  cbn [itemsH with_itemsH]. destruct (append s0 (view (itemsH w) (r_items r)) h0) as [s h] eqn:E. destruct Ha as [S V].
  destruct (set_items_to w p r s h Hok Hr S) as (w' & Es & Hw).
  exists s0, (with_itemsH h0 w), s, (with_itemsH h w), w'. split; [done|].
  split; [cbn [itemsH with_itemsH]; by rewrite E|]. split; [done|]. by rewrite V in Hw.
Qed.

Lemma prepend_kids x :
  exists s0 w0 s w1 w', kids_literal [x] w = (Ok s0, w0) /\
    kids_append s0 (view (kidsH w) (r_childNodes r)) w0 = (Ok s, w1) /\ set_kids p s w1 = (Ok tt, w') /\
    set_to p w (set_kids_r s r) (Node (pageNum n) (items n) (x :: childNodes n)) w'.
Proof.
  destruct (ok_slices _ Hok p r Hr) as [_ Hs]. pose proof (prepend_step (kidsH w) (r_childNodes r) x Hs) as Ha.
  unfold kids_literal, kids_append, on_kids. destruct (literal [x] (kidsH w)) as [s0 h0].
  cbn [kidsH with_kidsH]. destruct (append s0 (view (kidsH w) (r_childNodes r)) h0) as [s h] eqn:E. destruct Ha as [S V].
  destruct (set_kids_to w p r s h Hok Hr S) as (w' & Es & Hw).
  exists s0, (with_kidsH h0 w), s, (with_kidsH h w), w'. split; [done|].
  split; [cbn [kidsH with_kidsH]; by rewrite E|]. split; [done|]. by rewrite V in Hw.
Qed.
End statements.

Lemma set_to_mutated p w r' n w' ps :
  world_ok w -> owned w p -> p ∈ ps -> set_to p w r' n w' -> mutated ps w w'.
Proof.
  intros Hok Ho Hp (Hm & _). apply (mutated_mono [p]); [set_solver|]. by apply mutated_one.
Qed.

Lemma load_ok p w r : nodesH w !! p = Some r -> load_node p w = (Ok r, w).
Proof. intros Hr. unfold load_node. by rewrite Hr. Qed.

(** The child that changes sides in a rotation of inner nodes: [k] from
    [before] (the giving node's children) to [after]. *)
Definition moves_last (before after k : list Z) : Prop :=
  before = [] /\ after = [] /\ k = [] \/ exists y, k = [y] /\ before = after ++ [y].
Definition moves_first (before after k : list Z) : Prop :=
  before = [] /\ after = [] /\ k = [] \/ exists y, k = [y] /\ before = y :: after.

(** Three different nodes, each with its own slices. *)
Record trio (w : world) (a p b : node_ptr) (na np nb : node) : Prop := {
  tr_ap : a <> p;
  tr_ab : a <> b;
  tr_pb : p <> b;
  tr_a : points w a na;
  tr_p : points w p np;
  tr_b : points w b nb;
  tr_oa : owned w a;
  tr_op : owned w p;
  tr_ob : owned w b
}.

Lemma trio_a w a p b na np nb r' n w' :
  world_ok w -> trio w a p b na np nb -> set_to a w r' n w' -> mutated [a; p; b] w w' /\ trio w' a p b n np nb.
Proof.
  intros Hok [A B C D E F G H I] S. pose proof (set_to_mutated a w r' n w' [a] Hok G ltac:(set_solver) S) as M.
  split; [by apply (mutated_mono [a]); [set_solver|]|].
  split; try done; try (by apply (md_owned _ _ _ M)); [by apply (set_to_points a w r')|..]; apply (md_points _ _ _ M); set_solver.
Qed.

Lemma trio_p w a p b na np nb r' n w' :
  world_ok w -> trio w a p b na np nb -> set_to p w r' n w' -> mutated [a; p; b] w w' /\ trio w' a p b na n nb.
Proof.
  intros Hok [A B C D E F G H I] S. pose proof (set_to_mutated p w r' n w' [p] Hok H ltac:(set_solver) S) as M.
  split; [by apply (mutated_mono [p]); [set_solver|]|].
  split; try done; try (by apply (md_owned _ _ _ M)); [|by apply (set_to_points p w r')|]; apply (md_points _ _ _ M); set_solver.
Qed.

Lemma trio_b w a p b na np nb r' n w' :
  world_ok w -> trio w a p b na np nb -> set_to b w r' n w' -> mutated [a; p; b] w w' /\ trio w' a p b na np n.
Proof.
  intros Hok [A B C D E F G H I] S. pose proof (set_to_mutated b w r' n w' [b] Hok I ltac:(set_solver) S) as M.
  split; [by apply (mutated_mono [b]); [set_solver|]|].
  split; try done; try (by apply (md_owned _ _ _ M)); [..|by apply (set_to_points b w r')]; apply (md_points _ _ _ M); set_solver.
Qed.

(** [p.items[i] = x]. *)
Lemma store_item_to w p r i x :
  world_ok w -> nodesH w !! p = Some r -> (i < length (items (node_of w r)))%nat ->
  exists w' r', items_store (r_items r) i x w = (Ok tt, w') /\
    set_to p w r' (Node (r_pageNum r) (<[i := x]> (items (node_of w r))) (childNodes (node_of w r))) w'.
Proof.
  intros Hok Hr Hi. destruct (items_store_ok w p r (node_of w r) i x Hok Hr eq_refl Hi) as (w' & E & Hm & (r' & Hr' & Hn)).
  exists w', r'. split; [done|]. by split.
Qed.

Lemma items_at_ok w p r i x :
  nodesH w !! p = Some r -> items (node_of w r) !! i = Some x -> items_at (r_items r) i w = (Ok x, w).
Proof. intros _ Hi. unfold items_at, index. cbn in Hi. by rewrite Hi. Qed.
Lemma kids_at_ok w p r i x :
  nodesH w !! p = Some r -> childNodes (node_of w r) !! i = Some x -> kids_at (r_childNodes r) i w = (Ok x, w).
Proof. intros _ Hi. unfold kids_at, index. cbn in Hi. by rewrite Hi. Qed.

Lemma lookup_last {A} (l : list A) x : (l ++ [x]) !! (length (l ++ [x]) - 1)%nat = Some x.
Proof. rewrite length_app. cbn [length]. replace (length l + 1 - 1)%nat with (length l) by lia. by apply list_lookup_middle. Qed.
Lemma take_init {A} (l : list A) x : take (length (l ++ [x]) - 1) (l ++ [x]) = l.
Proof. rewrite length_app. cbn [length]. replace (length l + 1 - 1)%nat with (length l) by lia. apply take_app_length. Qed.

(** ** The rotations *)

Lemma shift_last_ok w a p b na np nb :
  world_ok w -> trio w a p b na np nb ->
  exists w' ka k, shift_last a b w = (Ok tt, w') /\ mutated [a; p; b] w w' /\ moves_last (childNodes na) ka k /\
    trio w' a p b (Node (pageNum na) (items na) ka) np (Node (pageNum nb) (items nb) (k ++ childNodes nb)).
Proof.
  intros Hok T. unfold shift_last. mstep (node_isLeaf_points w a _ Hok (tr_a _ _ _ _ _ _ _ T)).
  destruct (isLeaf na) eqn:El.
  { apply isLeaf_true in El. exists w, [], []. split; [done|]. split; [by apply mutated_refl|]. split; [by left|].
    destruct na, nb. cbn in *. by subst. }
  apply isLeaf_false in El. destruct (exists_last El) as (ka & y & Ek).
  destruct (tr_a _ _ _ _ _ _ _ T) as (ra & Hra & Ena). mstep (load_ok a w ra Hra).
  pose proof (kids_len w a ra Hok Hra) as Hlk. rewrite Ena, Ek in Hlk. rewrite Hlk.
  mstep (kids_at_ok w a ra _ y Hra ltac:(rewrite Ena, Ek; apply lookup_last)).
  destruct (take_kids w a ra Hok Hra (length (ka ++ [y]) - 1)) as (s1 & w1 & E1 & F1 & S1); [rewrite Ena, Ek; lia|].
  rewrite E1, bind_lift. mstep F1. rewrite Ena, Ek, take_init in S1.
  destruct (trio_a _ _ _ _ _ _ _ _ _ _ Hok T S1) as [M1 T1].
  destruct (tr_b _ _ _ _ _ _ _ T1) as (rb & Hrb & Enb). mstep (load_ok b w1 rb Hrb).
  change (kids_view (r_childNodes rb)) with (fun w0 : world => (Ok (view (kidsH w0) (r_childNodes rb)), w0)).
  unfold mbind at 1, M_bind at 1.
  destruct (prepend_kids w1 b rb (md_ok _ _ _ M1) Hrb y) as (s2 & w20 & s3 & w21 & w2 & E2 & F2 & G2 & S2).
  mstep E2. mstep F2. rewrite Enb in S2.
  destruct (trio_b _ _ _ _ _ _ _ _ _ _ (md_ok _ _ _ M1) T1 S2) as [M2 T2].
  exists w2, ka, [y]. split; [done|]. split; [by eapply mutated_trans|]. split; [right; by exists y|]. exact T2.
Qed.

Lemma shift_first_ok w a p b na np nb :
  world_ok w -> trio w a p b na np nb ->
  exists w' kb k, shift_first b a w = (Ok tt, w') /\ mutated [a; p; b] w w' /\ moves_first (childNodes nb) kb k /\
    trio w' a p b (Node (pageNum na) (items na) (childNodes na ++ k)) np (Node (pageNum nb) (items nb) kb).
Proof.
  intros Hok T. unfold shift_first. mstep (node_isLeaf_points w b _ Hok (tr_b _ _ _ _ _ _ _ T)).
  destruct (isLeaf nb) eqn:El.
  { apply isLeaf_true in El. exists w, [], []. rewrite app_nil_r. split; [done|]. split; [by apply mutated_refl|].
    split; [by left|]. destruct na, nb. cbn in *. by subst. }
  apply isLeaf_false in El. destruct (childNodes nb) as [|y kb] eqn:Ek; [done|].
  destruct (tr_b _ _ _ _ _ _ _ T) as (rb & Hrb & Enb). mstep (load_ok b w rb Hrb).
  mstep (kids_at_ok w b rb 0 y Hrb ltac:(by rewrite Enb, Ek)).
  destruct (drop_kids w b rb Hok Hrb 1) as (s1 & w1 & E1 & F1 & S1); [rewrite Enb, Ek; simpl; lia|].
  rewrite E1, bind_lift. mstep F1. rewrite Enb, Ek in S1. change (drop 1 (y :: kb)) with kb in S1.
  destruct (trio_b _ _ _ _ _ _ _ _ _ _ Hok T S1) as [M1 T1].
  destruct (tr_a _ _ _ _ _ _ _ T1) as (ra & Hra & Ena). mstep (load_ok a w1 ra Hra).
  destruct (append_kids w1 a ra (md_ok _ _ _ M1) Hra [y]) as (s2 & w21 & w2 & E2 & F2 & S2).
  mstep E2. rewrite Ena in S2. destruct (trio_a _ _ _ _ _ _ _ _ _ _ (md_ok _ _ _ M1) T1 S2) as [M2 T2].
  exists w2, kb, [y]. split; [done|]. split; [by eapply mutated_trans|]. split; [right; by exists y|]. exact T2.
Qed.

(** Merging: the children of [nb] go behind those of [na], unless [na] is a leaf. *)
Lemma join_children_ok w a p b na np nb :
  world_ok w -> trio w a p b na np nb -> (isLeaf na = true -> childNodes nb = []) ->
  exists w', join_children a b w = (Ok tt, w') /\ mutated [a; p; b] w w' /\
    trio w' a p b (Node (pageNum na) (items na) (childNodes na ++ childNodes nb)) np nb.
Proof.
  intros Hok T Hlf. unfold join_children. mstep (node_isLeaf_points w a _ Hok (tr_a _ _ _ _ _ _ _ T)).
  destruct (isLeaf na) eqn:El.
  { exists w. rewrite (Hlf eq_refl), app_nil_r. split; [done|]. split; [by apply mutated_refl|]. by destruct na. }
  destruct (tr_a _ _ _ _ _ _ _ T) as (ra & Hra & Ena). mstep (load_ok a w ra Hra).
  destruct (tr_b _ _ _ _ _ _ _ T) as (rb & Hrb & Enb). mstep (load_ok b w rb Hrb).
  change (kids_view (r_childNodes rb)) with (fun w0 : world => (Ok (view (kidsH w0) (r_childNodes rb)), w0)).
  unfold mbind at 1, M_bind at 1.
  destruct (append_kids w a ra Hok Hra (view (kidsH w) (r_childNodes rb))) as (s1 & w11 & w1 & E1 & F1 & S1).
  mstep E1. rewrite Ena in S1. change (view (kidsH w) (r_childNodes rb)) with (childNodes (node_of w rb)) in S1.
  rewrite Enb in S1. destruct (trio_a _ _ _ _ _ _ _ _ _ _ Hok T S1) as [M1 T1].
  exists w1. split; [done|]. split; [done|]. exact T1.
Qed.

Lemma rotateRight_ok w a p b na np nb bi ia x m :
  world_ok w -> trio w a p b na np nb -> items na = ia ++ [x] -> items np !! (bi - 1)%nat = Some m ->
  exists w' ka k, rotateRight a p b bi w = (Ok tt, w') /\ mutated [a; p; b] w w' /\ moves_last (childNodes na) ka k /\
    trio w' a p b (Node (pageNum na) ia ka) (Node (pageNum np) (<[(bi - 1)%nat := x]> (items np)) (childNodes np))
      (Node (pageNum nb) (m :: items nb) (k ++ childNodes nb)).
Proof.
  intros Hok T Hia Hm. unfold rotateRight.
  assert ((if isFirst bi then 0%nat else (bi - 1)%nat) = (bi - 1)%nat) as Ej.
  { unfold isFirst. destruct (bool_decide_reflect (bi = 0%nat)) as [-> |]; done. }
  destruct (tr_a _ _ _ _ _ _ _ T) as (ra & Hra & Ena). mstep (load_ok a w ra Hra).
  pose proof (items_len w a ra Hok Hra) as Hla. rewrite Ena, Hia in Hla. rewrite Hla.
  rewrite decide_False by (rewrite length_app; simpl; lia).
  mstep (items_at_ok w a ra _ x Hra ltac:(rewrite Ena, Hia; apply lookup_last)).
  destruct (take_items w a ra Hok Hra (length (ia ++ [x]) - 1)) as (s1 & w1 & E1 & F1 & S1); [rewrite Ena, Hia; lia|].
  rewrite E1, bind_lift. mstep F1. rewrite Ena, Hia, take_init in S1.
  destruct (trio_a _ _ _ _ _ _ _ _ _ _ Hok T S1) as [M1 T1]. cbn zeta. rewrite Ej.
  mstep (item_at_points w1 p np _ m (tr_p _ _ _ _ _ _ _ T1) Hm).
  destruct (tr_p _ _ _ _ _ _ _ T1) as (rp & Hrp & Enp). mstep (load_ok p w1 rp Hrp).
  destruct (store_item_to w1 p rp (bi - 1) x (md_ok _ _ _ M1) Hrp) as (w2 & r2 & E2 & S2); [rewrite Enp; by eapply lookup_lt_Some|].
  mstep E2. rewrite Enp in S2. change (r_pageNum rp) with (pageNum (node_of w1 rp)) in S2. rewrite Enp in S2.
  destruct (trio_p _ _ _ _ _ _ _ _ _ _ (md_ok _ _ _ M1) T1 S2) as [M2 T2].
  destruct (tr_b _ _ _ _ _ _ _ T2) as (rb & Hrb & Enb). mstep (load_ok b w2 rb Hrb).
  change (items_view (r_items rb)) with (fun w0 : world => (Ok (view (itemsH w0) (r_items rb)), w0)).
  unfold mbind at 1, M_bind at 1.
  destruct (prepend_items w2 b rb (md_ok _ _ _ M2) Hrb m) as (s0 & w20 & s3 & w21 & w3 & E3 & F3 & G3 & S3).
  mstep E3. mstep F3. mstep G3. rewrite Enb in S3.
  destruct (trio_b _ _ _ _ _ _ _ _ _ _ (md_ok _ _ _ M2) T2 S3) as [M3 T3].
  destruct (shift_last_ok w3 a p b _ _ _ (md_ok _ _ _ M3) T3) as (w' & ka & k & Es & M4 & Hmv & T4).
  exists w', ka, k. split; [done|]. split; [|by split].
  do 3 (eapply mutated_trans; [eassumption|]). exact M4.
Qed.

Lemma rotateLeft_ok w a p b na np nb i ib x m :
  world_ok w -> trio w a p b na np nb -> items nb = x :: ib -> items np !! i = Some m ->
  exists w' kb k, rotateLeft a p b i w = (Ok tt, w') /\ mutated [a; p; b] w w' /\ moves_first (childNodes nb) kb k /\
    trio w' a p b (Node (pageNum na) (items na ++ [m]) (childNodes na ++ k))
      (Node (pageNum np) (<[i := x]> (items np)) (childNodes np)) (Node (pageNum nb) ib kb).
Proof.
  intros Hok T Hib Hm. unfold rotateLeft.
  destruct (tr_b _ _ _ _ _ _ _ T) as (rb & Hrb & Enb). mstep (load_ok b w rb Hrb).
  mstep (items_at_ok w b rb 0 x Hrb ltac:(by rewrite Enb, Hib)).
  destruct (drop_items w b rb Hok Hrb 1) as (s1 & w1 & E1 & F1 & S1); [rewrite Enb, Hib; simpl; lia|].
  rewrite E1, bind_lift. mstep F1. rewrite Enb, Hib in S1. change (drop 1 (x :: ib)) with ib in S1.
  destruct (trio_b _ _ _ _ _ _ _ _ _ _ Hok T S1) as [M1 T1].
  destruct (tr_p _ _ _ _ _ _ _ T1) as (rp & Hrp & Enp). mstep (load_ok p w1 rp Hrp).
  pose proof (items_len w1 p rp (md_ok _ _ _ M1) Hrp) as Hlp. rewrite Enp in Hlp.
  pose proof (lookup_lt_Some _ _ _ Hm) as Hi.
  assert (isLast i rp = false) as -> by (unfold isLast; apply bool_decide_eq_false; lia).
  rewrite bind_ret. mstep (item_at_points w1 p np i m (tr_p _ _ _ _ _ _ _ T1) Hm).
  destruct (store_item_to w1 p rp i x (md_ok _ _ _ M1) Hrp) as (w2 & r2 & E2 & S2); [by rewrite Enp|].
  mstep E2. rewrite Enp in S2. change (r_pageNum rp) with (pageNum (node_of w1 rp)) in S2. rewrite Enp in S2.
  destruct (trio_p _ _ _ _ _ _ _ _ _ _ (md_ok _ _ _ M1) T1 S2) as [M2 T2].
  destruct (tr_a _ _ _ _ _ _ _ T2) as (ra & Hra & Ena). mstep (load_ok a w2 ra Hra).
  destruct (append_items w2 a ra (md_ok _ _ _ M2) Hra [m]) as (s3 & w21 & w3 & E3 & F3 & S3).
  mstep E3. mstep F3. rewrite Ena in S3.
  destruct (trio_a _ _ _ _ _ _ _ _ _ _ (md_ok _ _ _ M2) T2 S3) as [M3 T3].
  destruct (shift_first_ok w3 a p b _ _ _ (md_ok _ _ _ M3) T3) as (w' & kb & k & Es & M4 & Hmv & T4).
  exists w', kb, k. split; [done|]. split; [|by split].
  do 3 (eapply mutated_trans; [eassumption|]). exact M4.
Qed.

(** ** Merging *)

Lemma merge_into_ok w a p b na np nb j m :
  world_ok w -> trio w a p b na np nb -> (1 <= j)%nat -> items np !! (j - 1)%nat = Some m ->
  (j + 1 <= length (childNodes np))%nat -> (isLeaf na = true -> childNodes nb = []) ->
  exists w', merge_into p a b j w = (Ok tt, w') /\ mutated [a; p; b] w w' /\
    trio w' a p b (Node (pageNum na) (items na ++ m :: items nb) (childNodes na ++ childNodes nb))
      (Node (pageNum np) (take (j - 1) (items np) ++ drop j (items np)) (take j (childNodes np) ++ drop (j + 1) (childNodes np))) nb.
Proof.
  intros Hok T Hj Hm Hk Hlf. unfold merge_into. pose proof (lookup_lt_Some _ _ _ Hm) as Hlt.
  mstep (item_at_points w p np _ m (tr_p _ _ _ _ _ _ _ T) Hm).
  destruct (tr_p _ _ _ _ _ _ _ T) as (rp & Hrp & Enp). mstep (load_ok p w rp Hrp).
  destruct (remove_items w p rp Hok Hrp (j - 1) j) as (sl & sh & s1 & w11 & w1 & E1 & E2 & E3 & F1 & S1);
    [rewrite Enp; lia..|].
  rewrite E1, bind_lift, E2, bind_lift.
  change (items_view sh) with (fun w0 : world => (Ok (view (itemsH w0) sh), w0)). unfold mbind at 1, M_bind at 1.
  mstep E3. mstep F1. rewrite Enp in S1. destruct (trio_p _ _ _ _ _ _ _ _ _ _ Hok T S1) as [M1 T1].
  destruct (tr_a _ _ _ _ _ _ _ T1) as (ra & Hra & Ena). mstep (load_ok a w1 ra Hra).
  destruct (append_items w1 a ra (md_ok _ _ _ M1) Hra [m]) as (s2 & w21 & w2 & E4 & F2 & S2).
  mstep E4. mstep F2. rewrite Ena in S2. destruct (trio_a _ _ _ _ _ _ _ _ _ _ (md_ok _ _ _ M1) T1 S2) as [M2 T2].
  destruct S2 as (_ & Hra2 & Ena2).
  destruct (tr_b _ _ _ _ _ _ _ T2) as (rb & Hrb & Enb). mstep (load_ok b w2 rb Hrb).
  change (items_view (r_items rb)) with (fun w0 : world => (Ok (view (itemsH w0) (r_items rb)), w0)). unfold mbind at 1, M_bind at 1.
  destruct (append_items w2 a (set_items_r s2 ra) (md_ok _ _ _ M2) Hra2 (items (node_of w2 rb))) as (s3 & w31 & w3 & E5 & F3 & S3).
  cbn [r_items set_items_r] in E5. change (items (node_of w2 rb)) with (view (itemsH w2) (r_items rb)) in E5.
  mstep E5. mstep F3. rewrite Ena2, Enb in S3. cbn [pageNum items childNodes] in S3.
  destruct (trio_a _ _ _ _ _ _ _ _ _ _ (md_ok _ _ _ M2) T2 S3) as [M3 T3].
  destruct (tr_p _ _ _ _ _ _ _ T3) as (rp3 & Hrp3 & Enp3). mstep (load_ok p w3 rp3 Hrp3).
  destruct (remove_kids w3 p rp3 (md_ok _ _ _ M3) Hrp3 j (j + 1)) as (kl & kh & s4 & w41 & w4 & G1 & G2 & G3 & F4 & S4);
    [rewrite Enp3; cbn [childNodes]; lia..|].
  rewrite G1, bind_lift, G2, bind_lift.
  change (kids_view kh) with (fun w0 : world => (Ok (view (kidsH w0) kh), w0)). unfold mbind at 1, M_bind at 1.
  mstep G3. mstep F4. rewrite Enp3 in S4. cbn [pageNum items childNodes] in S4.
  destruct (trio_p _ _ _ _ _ _ _ _ _ _ (md_ok _ _ _ M3) T3 S4) as [M4 T4].
  destruct (join_children_ok w4 a p b _ _ _ (md_ok _ _ _ M4) T4 Hlf) as (w5 & E6 & M5 & T5).
  exists w5. split; [done|]. split; [do 4 (eapply mutated_trans; [eassumption|]); exact M5|].
  cbn [pageNum items childNodes] in T5. by rewrite <- app_assoc in T5.
Qed.

End rotate.
