(* ===== verification/Insert.v ===== *)
(** * [Put]: insertion with any number of splits keeps the search tree

    On a collection whose pages show a search tree, [Put] succeeds and the
    pages show a search tree again whose contents are [upsert] of the old ones;
    pages of other collections show what they did.  The hypotheses say what the
    code relies on: dirty nodes of the tree own their slices, an overpopulated
    node can be split ([splittable], proved of the default options), and the
    tree's pages are live in the transaction's freelist. *)

From S2P Require Import Prelude Freelist Meta Node Float32 Dal GoSlice World Tree Heap Contents Split Collection Search Shrink.

Open Scope Z_scope.

(** Every overpopulated node of legal items has a split index. *)
Definition splittable (d : dal) : Prop :=
  forall n, Forall item_ok (items n) -> isOverPopulated d n = true -> is_Some (getSplitIndex d n).

(** What the transaction needs to allocate [n] more pages. *)
Record tx_ready (w : world) (fr : freelist) (n : nat) : Prop := {
  ready_dirty : is_Some (dirtyNodes (wtx w));
  ready_freelist : tx_freelist (wtx w) = Some fr;
  ready_wf : freelist_wf fr;
  ready_room : maxPage fr + Z.of_nat n < 2 ^ 64
}.

(** Distinct pages, all given out by the freelist. *)
Definition pages_live (fr : freelist) (t : tree) : Prop := NoDup (pages t) /\ Forall (live fr) (pages t).

(** [t'] holds what [t] holds, on the pages of [t] and [n] new ones
    that [fr] had not given out. *)
Record grown (n : nat) (fr : freelist) (t : tree) (fr' : freelist) (t' : tree) : Prop := {
  gr_page : t_page t' = t_page t;
  gr_flatten : flatten t' = flatten t;
  gr_shape : shape t';
  gr_height : (height t' <= height t)%nat;
  gr_pages : exists new, pages t' ≡ₚ new ++ pages t /\ Forall (fun pn => ~ live fr pn) new /\ length new = n;
  gr_live : pages_live fr' t';
  gr_keep : forall pn, live fr pn -> live fr' pn;
  gr_wf : freelist_wf fr';
  gr_max : maxPage fr' <= maxPage fr + Z.of_nat n
}.

Lemma getNextPage_max fr p fr' : freelist_wf fr -> getNextPage fr = (p, fr') -> maxPage fr' <= maxPage fr + 1.
Proof.
  intros [Hm _ _] E. destruct (decide (releasedPages fr = [])) as [Hn|Hn].
  - unfold getNextPage in E. rewrite Hn in E. simpl in E. go_inv E. simpl. unfold u64.
    destruct (decide (maxPage fr + 1 = 2 ^ 64)) as [-> |?]; [rewrite Z_mod_same_full; lia|].
    rewrite Z.mod_small; lia.
  - destruct (exists_last Hn) as (l & x & El). rewrite (getNextPage_released _ _ _ El) in E. go_inv E. simpl. lia.
Qed.

Lemma grown_refl fr t : shape t -> pages_live fr t -> freelist_wf fr -> grown 0 fr t fr t.
Proof. intros. split; try done; [by exists []|lia]. Qed.

Lemma grown_trans n m fr1 t1 fr2 t2 fr3 t3 :
  grown n fr1 t1 fr2 t2 -> grown m fr2 t2 fr3 t3 -> grown (n + m) fr1 t1 fr3 t3.
Proof.
  intros [P1 F1 S1 H1 (new1 & N1 & A1 & C1) L1 K1 W1 M1] [P2 F2 S2 H2 (new2 & N2 & A2 & C2) L2 K2 W2 M2].
  split; try congruence; auto; try lia.
  exists (new2 ++ new1). split; [rewrite N2, N1; solve_Permutation|].
  split; [|rewrite length_app; lia]. apply Forall_app. split; [|done].
  eapply Forall_impl; [exact A2|]. naive_solver.
Qed.

(** Lifting the growth of a child to its parent. *)
Lemma grown_kid n fr t fr' i c c' :
  shape t -> pages_live fr t -> t_kids t !! i = Some c -> grown n fr c fr' c' ->
  grown n fr t fr' (with_kid i c' t).
Proof.
  intros Hsh [Hnd Hlive] Hc [P F S H (new & N & A & C) [Lnd Ll] K W M].
  destruct (with_kid_pages i c c' t Hc) as (rest & E1 & E2).
  assert (pages (with_kid i c' t) ≡ₚ new ++ pages t) as E by (rewrite E2, E1, N; solve_Permutation).
  split; auto.
  - by apply (with_kid_flatten i c).
  - by apply (with_kid_shape i c).
  - by apply (with_kid_height i c).
  - by exists new.
  - split; rewrite E.
    + apply NoDup_app. rewrite N in Lnd. apply NoDup_app in Lnd as (? & _ & _). split; [done|]. split; [|done].
      intros x Hx Hx'. rewrite Forall_forall in A, Hlive. by apply (A x Hx), Hlive.
    + apply Forall_app. rewrite N in Ll. apply Forall_app in Ll as [? _]. split; [done|].
      eapply Forall_impl; [exact Hlive|done].
Qed.

(** Splitting a child allocates one page. *)
Lemma grown_split fr t i s mid c np fr' :
  shape t -> pages_live fr t -> t_kids t !! i = Some c -> t_items c !! s = Some mid ->
  freelist_wf fr -> maxPage fr < 2 ^ 64 - 1 -> getNextPage fr = (np, fr') ->
  grown 1 fr t fr' (split_child i s mid np c t).
Proof.
  intros Hsh [Hnd Hl] Hc Hs Hwf Hmax Hnp. destruct (getNextPage_spec _ _ _ Hwf Hmax Hnp) as (Hnl & Hwf' & Hlive).
  pose proof (split_child_pages i s mid np c t Hc) as E. split; auto.
  - by apply split_child_flatten.
  - by apply split_child_shape.
  - by apply split_child_height.
  - exists [np]. split; [done|]. split; [by apply Forall_singleton|done].
  - rewrite Forall_forall in Hl. split; rewrite E.
    + apply NoDup_cons. split; [|done]. intros Hin. by apply Hnl, Hl.
    + apply Forall_cons. split; [apply Hlive; by left|]. rewrite Forall_forall. intros x Hx. apply Hlive. right. by apply Hl.
  - intros pn Hpn. apply Hlive. by right.
  - by eapply getNextPage_max.
Qed.

Section insert.
Context {RT : GoRuntime}.

(** ** Trees in a changed world *)

Lemma node_fresh_page t c i : t_kids t !! i = Some c -> NoDup (pages t) -> t_page t ∉ pages c.
Proof.
  intros Hc Hnd Hin. rewrite pages_kids in Hnd. apply NoDup_cons in Hnd as [Hn _]. apply Hn.
  apply list_elem_of_In, in_concat. exists (pages c). split; apply list_elem_of_In; [|done].
  eapply list_elem_of_lookup_2. by rewrite list_lookup_fmap, Hc.
Qed.

(** The pages of another child are apart from those of child [i]. *)
Lemma sibling_pages t i j c c' pn :
  NoDup (pages t) -> t_kids t !! i = Some c -> t_kids t !! j = Some c' -> i <> j ->
  pn ∈ pages c -> pn ∉ pages c'.
Proof.
  intros Hnd Hi Hj Hne Hp Hp'. rewrite pages_kids in Hnd. apply NoDup_cons in Hnd as [_ Hnd].
  revert i j Hi Hj Hne. induction (t_kids t) as [|x kids IH]; intros i j Hi Hj Hne; [done|].
  rewrite fmap_cons in Hnd. cbn [concat] in Hnd. apply NoDup_app in Hnd as (_ & Hdis & Hnd).
  assert (forall k y, kids !! k = Some y -> forall q, q ∈ pages y -> q ∈ concat (pages <$> kids)) as Hin.
  { intros k y Hk q Hq. apply list_elem_of_In, in_concat. exists (pages y). split; apply list_elem_of_In; [|done].
    eapply list_elem_of_lookup_2. by rewrite list_lookup_fmap, Hk. }
  destruct i as [|i], j as [|j]; simplify_eq/=; [..|by apply (IH Hnd i j); auto].
  - by apply (Hdis pn Hp), (Hin j c').
  - by apply (Hdis pn Hp'), (Hin i c).
Qed.

(** Replacing a child in the world and in the tree. *)
Lemma repr_with_kid w w' t i c c' :
  repr w t -> NoDup (pages t) -> t_kids t !! i = Some c -> t_page c' = t_page c -> repr w' c' ->
  (forall pn, pn ∈ pages t -> pn ∉ pages c -> page_node pn w' = page_node pn w) ->
  repr w' (with_kid i c' t).
Proof.
  intros Hr Hnd Hc Hpg Hr' Hf. pose proof (node_fresh_page t c i Hc Hnd) as Hroot.
  apply repr_unfold in Hr as [Hn Hk]. apply repr_unfold. unfold with_kid. cbn [t_page t_kids]. split.
  - rewrite Hf; [|apply page_in_pages|done]. rewrite Hn. unfold t_node. cbn [t_page t_items t_kids].
    do 2 f_equal. rewrite list_fmap_insert, Hpg. symmetry. apply list_insert_id. by rewrite list_lookup_fmap, Hc.
  - rewrite Forall_lookup in Hk |- *. intros j x Hx. destruct (decide (j = i)) as [-> |Hne].
    + rewrite list_lookup_insert_eq in Hx by (by eapply lookup_lt_Some). by simplify_eq.
    + rewrite list_lookup_insert_ne in Hx by done. apply (repr_frame w); [|by apply (Hk j)].
      intros pn Hpn. apply Hf; [by apply (kid_pages t j x)|].
      by apply (sibling_pages t j i x c).
Qed.

(** Replacing the subtree at a path, when its root node changed only. *)
Lemma repr_set_subtree idxs : forall w w' t st st',
  repr w t -> NoDup (pages t) -> subtree idxs t = Some st -> same_frame st st' -> t_kids st' = t_kids st ->
  page_node (t_page st) w' = Ok (t_node st') ->
  (forall pn, pn <> t_page st -> page_node pn w' = page_node pn w) ->
  repr w' (set_subtree idxs st' t).
Proof.
  induction idxs as [|i idxs IH]; intros w w' t st st' Hr Hnd Hsub Hfr Hk Hn Hf; simpl in *.
  - simplify_eq. pose proof Hr as [_ Hrk]%repr_unfold. apply repr_unfold.
    rewrite (same_page _ _ Hfr), Hk. split; [done|]. rewrite Forall_lookup in Hrk |- *. intros i c Hc.
    apply (repr_frame w); [|by apply (Hrk i)]. intros pn Hpn. apply Hf. intros ->.
    by apply (node_fresh_page st c i Hc Hnd).
  - destruct (t_kids t !! i) as [c|] eqn:Hc; [|done]. simpl in Hsub.
    pose proof (set_subtree_frame idxs st st' c Hsub Hfr) as [Cpg Cps _ _].
    assert (set_subtree (i :: idxs) st' t = with_kid i (set_subtree idxs st' c) t) as E.
    { destruct t as [pg its kids]. simpl in *. unfold with_kid. by rewrite (alter_insert _ kids i c Hc). }
    change (let '(Tree pg its kids) := t in Tree pg its (alter (set_subtree idxs st') i kids))
      with (set_subtree (i :: idxs) st' t). rewrite E.
    destruct (with_kid_pages i c c t Hc) as (rest & Epg & _).
    rewrite Epg in Hnd. pose proof Hnd as Hnd'. apply NoDup_app in Hnd' as (Hndc & _ & _).
    rewrite <- Epg in Hnd.
    apply (repr_with_kid w w' t i c); [done|done|done|done| |].
    + apply (IH w w' c st); try done. by apply (repr_kid w t i).
    + intros pn _ Hpn. apply Hf. intros ->. apply Hpn. clear -Hsub.
      revert c Hsub. induction idxs as [|j idxs IH]; intros c Hsub; simpl in Hsub.
      * simplify_eq. apply page_in_pages.
      * destruct (t_kids c !! j) as [x|] eqn:Hx; [|done]. apply (kid_pages c j x); [done|]. by apply IH.
Qed.

(** Splitting a child, in the world and in the tree. *)
Lemma repr_split w w' t i s mid np c :
  Forall (repr w) (t_kids t) -> NoDup (pages t) -> t_kids t !! i = Some c -> np ∉ pages t ->
  page_node (t_page t) w' = Ok (t_node (split_child i s mid np c t)) ->
  page_node (t_page c) w' = Ok (left_node s (t_node c)) -> page_node np w' = Ok (right_node s np (t_node c)) ->
  (forall pn, pn <> np -> pn <> t_page c -> pn <> t_page t -> page_node pn w' = page_node pn w) ->
  repr w' (split_child i s mid np c t).
Proof.
  intros Hk Hnd Hc Hnp Hp Hl Hrt Hf. pose proof (node_fresh_page t c i Hc Hnd) as Hroot.
  apply repr_unfold. split; [done|].
  unfold split_child. cbn [t_kids]. rewrite (insert_at_middle i c) by done.
  rewrite Forall_lookup in Hk.
  assert (forall j x, t_kids t !! j = Some x -> j <> i -> repr w' x) as Hside.
  { intros j x Hx Hne. apply (repr_frame w); [|by apply (Hk j)]. intros pn Hpn. apply Hf.
    - intros ->. apply Hnp. by apply (kid_pages t j x).
    - intros ->. apply (sibling_pages t j i x c (t_page c)); try done. apply page_in_pages.
    - intros ->. by apply (node_fresh_page t x j Hx Hnd). }
  assert (Forall (repr w') (t_kids c)) as Hkc.
  { pose proof (Hk i c Hc) as Hrc. pose proof Hrc as [_ Hkc]%repr_unfold. rewrite Forall_lookup in Hkc |- *.
    destruct (with_kid_pages i c c t Hc) as (rest & Epg & _). rewrite Epg in Hnd.
    apply NoDup_app in Hnd as (Hndc & _ & _).
    intros j x Hx. apply (repr_frame w); [|by apply (Hkc j)]. intros pn Hpn.
    assert (pn ∈ pages c) as Hpc by (by apply (kid_pages c j x)). apply Hf.
    - intros ->. apply Hnp. by apply (kid_pages t i c).
    - intros ->. by apply (node_fresh_page c x j Hx Hndc).
    - intros ->. done. }
  apply Forall_app. split; [|constructor; [|constructor]].
  - apply Forall_lookup. intros j x Hx. apply lookup_take_Some in Hx as [Hx ?]. apply (Hside j x Hx). lia.
  - apply repr_unfold. unfold left_half. cbn [t_page t_kids t_items]. split; [|by apply Forall_take].
    rewrite Hl. unfold left_node, t_node. simpl. by rewrite fmap_take.
  - apply repr_unfold. unfold right_half. cbn [t_page t_kids t_items]. split; [|by apply Forall_drop].
    rewrite Hrt. unfold right_node, t_node. simpl. by rewrite fmap_drop.
  - apply Forall_lookup. intros j x Hx. rewrite lookup_drop in Hx. apply (Hside _ x Hx). lia.
Qed.

(** ** The rebalancing loop *)

(** The outcome of the loop on the subtree [t] whose path is [ps]. *)
Record rebalanced (n : nat) (fr : freelist) (t : tree) (ps : list node_ptr) (w : world)
    (fr' : freelist) (t' : tree) (w' : world) : Prop := {
  rb_ok : world_ok w';
  rb_repr : repr w' t';
  rb_grown : grown n fr t fr' t';
  rb_tx : exists m, wtx w' = with_dirty (Some m) (with_txfree (Some fr') (wtx w));
  rb_db : wdb w' = wdb w;
  rb_colls : collsH w' = collsH w;
  rb_pages : forall pn, pn ∉ pages t' -> page_node pn w' = page_node pn w;
  rb_points : forall q m, q ∉ ps -> points w q m -> points w' q m;
  rb_owned : forall q, q ∉ ps -> owned w q -> owned w' q
}.

Lemma rebalanced_refl fr t ps w :
  world_ok w -> repr w t -> shape t -> pages_live fr t -> tx_ready w fr 0 -> rebalanced 0 fr t ps w fr t w.
Proof.
  intros Hok Hr Hsh Hl [[m Hm] Hfr Hwf _]. split; try done; [by apply grown_refl|].
  exists m. rewrite <- Hm, <- Hfr. by destruct w as [? ? ? ? []].
Qed.

Lemma tx_ready_after n fr t ps w fr' t' w' m :
  rebalanced n fr t ps w fr' t' w' -> maxPage fr + Z.of_nat n + Z.of_nat m < 2 ^ 64 -> tx_ready w' fr' m.
Proof.
  intros [_ _ G [d Ht] _ _ _ _ _] Hm. pose proof (gr_max _ _ _ _ _ G).
  split; [by rewrite Ht|by rewrite Ht|apply G|lia].
Qed.

(** The pointers of a chain show nodes of the tree. *)
Lemma chain_page w t idxs ps q :
  chain w t idxs ps -> q ∈ ps -> exists n, points w q n /\ pageNum n ∈ pages t.
Proof.
  induction 1 as [t p [Hp _]|t i c idxs p ps [Hp _] Hc _ IH].
  - intros ->%list_elem_of_singleton. exists (t_node t). split; [done|apply page_in_pages].
  - intros [->|Hq]%elem_of_cons.
    + exists (t_node t). split; [done|apply page_in_pages].
    + destruct (IH Hq) as (n & Hn & Hpg). exists n. split; [done|]. by apply (kid_pages t i c).
Qed.

Lemma chain_head_fresh w t i c idxs p ps :
  NoDup (pages t) -> handle w p t -> t_kids t !! i = Some c -> chain w c idxs ps -> p ∉ ps.
Proof.
  intros Hnd [Hp _] Hc Hch Hin. destruct (chain_page _ _ _ _ _ Hch Hin) as (n & Hn & Hpg).
  pose proof (points_inj _ _ _ _ Hp Hn) as <-. by apply (node_fresh_page t c i).
Qed.

(** A loop of one level more. *)
Lemma levels_cons p q ps i idxs j :
  levels (p :: q :: ps) (j :: i :: idxs) = levels (q :: ps) (i :: idxs) ++ [(p, q, i)].
Proof. done. Qed.

Lemma put_levels_snoc ls p q i w w1 over :
  put_levels ls w = (Ok tt, w1) -> node_isOverPopulated q w1 = (Ok over, w1) ->
  put_levels (ls ++ [(p, q, i)]) w = (if over then split p q i else mret tt) w1.
Proof.
  intros Hls Ho. unfold put_levels in *. rewrite (mapM_snoc _ _ _ _ _ Hls). by mstep Ho.
Qed.

Lemma node_isOverPopulated_points w p n :
  points w p n -> node_isOverPopulated p w = (Ok (isOverPopulated (ddal (wdb w)) n), w).
Proof. intros Hp. unfold node_isOverPopulated. by mstep (node_view_points w p n Hp). Qed.

(** The subtree below [p] has been rebalanced: [p] still shows its node. *)
Lemma rebalanced_kid n fr t ps w fr' i c c' w' p idxs :
  rebalanced n fr c ps w fr' c' w' -> repr w t -> shape t -> pages_live fr t -> t_kids t !! i = Some c ->
  handle w p t -> chain w c idxs ps ->
  rebalanced n fr t (p :: ps) w fr' (with_kid i c' t) w' /\ handle w' p (with_kid i c' t).
Proof.
  intros [O R G T D C P Q W] Hr Hsh Hlive Hc Hh Hch. destruct Hlive as [Hnd Hlv].
  pose proof (chain_head_fresh _ _ _ _ _ _ _ Hnd Hh Hc Hch) as Hp.
  pose proof (grown_kid n fr t fr' i c c' Hsh (conj Hnd Hlv) Hc G) as G'.
  destruct (with_kid_pages i c c' t Hc) as (rest & E1 & E2). split.
  - split; try done.
    + apply (repr_with_kid w w' t i c c' Hr Hnd Hc (gr_page _ _ _ _ _ G) R).
      intros pn Hin Hnin. apply P. destruct G as [_ _ _ _ (new & Hnew & Hnl & _) _ _ _ _]. rewrite Hnew.
      rewrite Forall_forall in Hnl, Hlv. intros [?|?]%elem_of_app; [|done]. by apply (Hnl pn), Hlv.
    + intros pn Hpn. apply P. rewrite E2 in Hpn. set_solver.
    + intros q m Hq. apply Q. set_solver.
    + intros q Hq. apply W. set_solver.
  - destruct Hh as [Hpt Ho]. split; [|by apply W].
    assert (t_node (with_kid i c' t) = t_node t) as ->; [|by apply Q].
    unfold t_node, with_kid. cbn [t_page t_items t_kids]. f_equal. rewrite list_fmap_insert, (gr_page _ _ _ _ _ G).
    apply list_insert_id. by rewrite list_lookup_fmap, Hc.
Qed.

Lemma rebalanced_trans n m fr1 t1 fr2 t2 fr3 t3 ps1 ps2 w1 w2 w3 :
  rebalanced n fr1 t1 ps1 w1 fr2 t2 w2 -> rebalanced m fr2 t2 ps2 w2 fr3 t3 w3 -> ps2 ⊆ ps1 ->
  rebalanced (n + m) fr1 t1 ps1 w1 fr3 t3 w3.
Proof.
  intros [O1 R1 G1 [d1 T1] D1 C1 P1 Q1 W1] [O2 R2 G2 [d2 T2] D2 C2 P2 Q2 W2] Hsub.
  split; try done; try congruence.
  - by eapply grown_trans.
  - exists d2. by rewrite T2, T1.
  - intros pn Hpn. rewrite P2, P1; [done| |done]. destruct (gr_pages _ _ _ _ _ G2) as (new & E & _).
    rewrite E in Hpn. set_solver.
  - intros q x Hq Hx. apply Q2; [set_solver|by apply Q1].
  - intros q Hq Hx. apply W2; [set_solver|by apply W1].
Qed.

(** One split of the loop. *)
Lemma rebalanced_split fr t w i c p q :
  world_ok w -> repr w t -> shape t -> pages_live fr t -> tx_ready w fr 1 -> t_kids t !! i = Some c ->
  handle w p t -> points w q (t_node c) -> Forall item_ok (t_items c) -> splittable (ddal (wdb w)) ->
  isOverPopulated (ddal (wdb w)) (t_node c) = true ->
  exists fr' t' w', split p q i w = (Ok tt, w') /\ rebalanced 1 fr t [p; q] w fr' t' w' /\ handle w' p t'.
Proof.
  intros Hok Hr Hsh [Hnd Hlv] [Hd Hfr Hwf Hroom] Hc [Hp Hown] Hq Hit Hspl Hover.
  destruct (getNextPage fr) as [np fr'] eqn:Hnp.
  assert (maxPage fr < 2 ^ 64 - 1) as Hmax by lia.
  destruct (getNextPage_spec fr np fr' Hwf Hmax Hnp) as (Hnl & _).
  destruct (Hspl (t_node c) Hit Hover) as [s Hs].
  assert (np ∉ pages t) as Hfresh by (intros Hin; apply Hnl; rewrite Forall_forall in Hlv; by apply Hlv).
  pose proof (node_fresh_page t c i Hc Hnd) as Hpc. pose proof (page_in_pages c) as Hcc.
  assert (t_page t <> t_page c) as Hne by (intros E; by rewrite E in Hpc).
  assert (p <> q) as Hpq by (intros ->; pose proof (points_inj _ _ _ _ Hp Hq) as E; by injection E).
  destruct (shape_node t Hsh) as [Hk|Hk]; [by rewrite Hk in Hc|].
  pose proof (lookup_lt_Some _ _ _ Hc) as Hi. pose proof (page_in_pages t) as Htt.
  assert (children_ok (t_node c)) as Hch.
  { destruct (shape_node c (shape_kids _ _ _ Hsh Hc)) as [E|E].
    - left. simpl. by rewrite E.
    - right. simpl. by rewrite length_fmap. }
  destruct (split_ok w p q (t_node t) (t_node c) i s fr np fr') as (w' & mid & Hmid & E & S);
    simpl; rewrite ?length_fmap; try done; try lia.
  { intros ->. apply Hfresh. by apply (kid_pages t i c). }
  { by intros ->. }
  destruct S as [O P PP PL PR PO PQ PW PC PD PT]. cbn [pageNum items childNodes t_node] in *.
  assert (Node (t_page t) (insert_at i mid (t_items t)) (insert_at (S i) np (t_page <$> t_kids t)) =
    t_node (split_child i s mid np c t)) as En.
  { unfold t_node, split_child. cbn [t_page t_items t_kids]. f_equal. unfold insert_at.
    rewrite fmap_app, fmap_cons, fmap_take, fmap_drop, list_fmap_insert. simpl.
    by rewrite (list_insert_id (t_page <$> t_kids t) i (t_page c)) by (by rewrite list_lookup_fmap, Hc). }
  rewrite En in *. exists fr', (split_child i s mid np c t), w'. split; [done|]. split; [|by split; [|apply PW]].
  pose proof (split_child_pages i s mid np c t Hc) as Epg. split; try done.
  - apply (repr_split w); try done. by apply repr_unfold in Hr as [_ ?].
  - by apply grown_split.
  - destruct Hd as [m Hm]. rewrite PT, Hm. by eexists.
  - intros pn Hpn. rewrite Epg in Hpn. apply PO; [set_solver|intros ->|set_solver].
    apply Hpn. right. by apply (kid_pages t i c).
  - intros x m Hx. apply PQ; set_solver.
  - intros x Hx. apply PW. set_solver.
Qed.

Lemma flatten_kid_items t i c : shape t -> t_kids t !! i = Some c -> flatten c ⊆ flatten t.
Proof.
  destruct t as [pg its kids]. intros [[-> |Hl] _] Hc; [done|]. simpl in Hc.
  destruct (flatten_child pg its kids i c Hl Hc) as [-> _]. set_solver.
Qed.

Lemma node_items_flatten t : shape t -> t_items t ⊆ flatten t.
Proof.
  destruct t as [pg its kids]. intros [Hl _]. simpl. apply interleave_items.
  destruct Hl as [-> |Hl]; [by left|right; by rewrite length_map].
Qed.

(** The loop: every overpopulated node of the path is split, the contents stay. *)
Lemma put_levels_ok : forall idxs t ps w fr j,
  world_ok w -> repr w t -> chain w t idxs ps -> shape t -> pages_live fr t -> tx_ready w fr (length idxs) ->
  Forall item_ok (flatten t) -> splittable (ddal (wdb w)) ->
  exists p n fr' t' w', head ps = Some p /\ put_levels (levels ps (j :: idxs)) w = (Ok tt, w') /\
    (n <= length idxs)%nat /\ rebalanced n fr t ps w fr' t' w' /\ handle w' p t' /\
    (n = 0%nat -> w' = w /\ t' = t /\ fr' = fr).
Proof.
  induction idxs as [|i idxs IH]; intros t ps w fr j Hok Hr Hch Hsh Hlive Hrdy Hit Hspl; inversion Hch as
    [t' p Hh|t' i' c idxs' p ps' Hh Hc Hch']; subst.
  { exists p, 0%nat, fr, t, w. split; [done|]. split; [done|]. split; [done|].
    split; [by apply rebalanced_refl|done]. }
  pose proof Hlive as [Hnd Hlv]. pose proof Hrdy as [Hd Hfr Hwf Hroom]. cbn [length] in Hroom.
  destruct (with_kid_pages i c c t Hc) as (rest & E1 & _).
  assert (pages_live fr c) as Hlc.
  { rewrite E1 in Hnd, Hlv. apply NoDup_app in Hnd as (? & _). by apply Forall_app in Hlv as [? _]. }
  destruct (IH c ps' w fr i Hok (repr_kid _ _ _ _ Hc Hr) Hch' (shape_kids _ _ _ Hsh Hc) Hlc)
    as (q & n & fr1 & c1 & w1 & Hq & El & Hn & Hrb & Hhq & H0); [split; [done..|lia]| |done|].
  { rewrite Forall_forall in Hit |- *. intros x Hx. apply Hit. by apply (flatten_kid_items t i c). }
  destruct ps' as [|q' ps']; [done|]. simplify_eq/=.
  destruct (rebalanced_kid n fr t _ w fr1 i c c1 w1 p idxs Hrb Hr Hsh Hlive Hc Hh Hch') as [Hrb1 Hhp].
  pose proof (rb_ok _ _ _ _ _ _ _ _ Hrb1) as Hok1. pose proof (rb_grown _ _ _ _ _ _ _ _ Hrb1) as G1.
  pose proof (put_levels_snoc _ p q i w w1 _ El (node_isOverPopulated_points w1 q _ (proj1 Hhq))) as Estep.
  rewrite (levels_cons p q ps' i idxs j). destruct (isOverPopulated (ddal (wdb w1)) (t_node c1)) eqn:Hover.
  2:{ exists p, n, fr1, (with_kid i c1 t), w1. split; [done|]. split; [done|]. split; [lia|]. split; [done|].
      split; [done|]. intros Hn0. destruct (H0 Hn0) as (-> & -> & ->).
      by rewrite (with_kid_id i c t Hc). }
  assert (Forall item_ok (t_items c1)) as Hit1.
  { rewrite Forall_forall in Hit |- *. intros x Hx. apply Hit. apply (flatten_kid_items t i c Hsh Hc).
    pose proof (rb_grown _ _ _ _ _ _ _ _ Hrb) as G. rewrite <- (gr_flatten _ _ _ _ _ G).
    by apply (node_items_flatten c1 (gr_shape _ _ _ _ _ G)). }
  assert (t_kids (with_kid i c1 t) !! i = Some c1) as Hc1
    by (simpl; apply list_lookup_insert_eq; by eapply lookup_lt_Some).
  destruct (rebalanced_split fr1 (with_kid i c1 t) w1 i c1 p q) as (fr2 & t2 & w2 & Es & Hrb2 & Hh2); try done.
  - apply Hrb1.
  - apply G1.
  - apply G1.
  - apply (tx_ready_after _ _ _ _ _ _ _ _ 1 Hrb1). lia.
  - apply Hhq.
  - by rewrite (rb_db _ _ _ _ _ _ _ _ Hrb1).
  - exists p, (n + 1)%nat, fr2, t2, w2. split; [done|]. split; [by rewrite Estep|]. split; [lia|].
    split; [|split; [done|lia]]. apply (rebalanced_trans n 1 fr t fr1 (with_kid i c1 t) fr2 t2 _ [p; q] w w1 w2 Hrb1 Hrb2).
    set_solver.
Qed.

(** ** Storing the item *)

Lemma findKeyInNode_at n k b i :
  findKeyInNode n k = (b, i) -> (b = true <-> key <$> (items n !! i) = Some k).
Proof.
  unfold findKeyInNode. set (j := sort_Search _ _). destruct (items n !! j) as [it|] eqn:E.
  - case_decide as Hk; intros [= <- <-]; rewrite E; simpl; split; congruence.
  - intros [= <- <-]. rewrite E. by split.
Qed.

(** The transaction after [dirtyNodes] has changed only. *)
Definition tx_dirtied (w w' : world) : Prop :=
  exists m, wtx w' = with_dirty (Some m) (wtx w).

Lemma put_here_node k v st b i :
  findKeyInNode (t_node st) k = (b, i) ->
  t_node (put_here k v st) = Node (t_page st)
    (if b then <[i := newItem k v]> (t_items st) else insert_at i (newItem k v) (t_items st)) (t_page <$> t_kids st).
Proof. destruct st as [pg its kids]. unfold put_here. by intros ->. Qed.

Lemma put_here_kids k v st : t_kids (put_here k v st) = t_kids st /\ t_page (put_here k v st) = t_page st.
Proof. destruct st as [pg its kids]. unfold put_here. by destruct (findKeyInNode _ k). Qed.

Lemma store_slot_ok w q r st k v b i :
  world_ok w -> nodesH w !! q = Some r -> node_of w r = t_node st -> findKeyInNode (t_node st) k = (b, i) ->
  exists w', (if decide (key <$> (items (t_node st) !! i) = Some k) then items_store (r_items r) i (newItem k v)
      else addItem q (newItem k v) i;; mret tt) w = (Ok tt, w') /\
    mutates q w w' /\ points w' q (t_node (put_here k v st)).
Proof.
  intros Hok Hr Hrn Hf. pose proof (findKeyInNode_at _ _ _ _ Hf) as Hat.
  rewrite (put_here_node k v st b i Hf). destruct b.
  - pose proof (proj1 Hat eq_refl) as Hi. rewrite decide_True by done.
    apply (items_store_ok w q r _ i (newItem k v) Hok Hr Hrn).
    destruct (items (t_node st) !! i) as [x|] eqn:Ei; [exact (lookup_lt_Some _ _ _ Ei)|done].
  - rewrite decide_False by (intros ?%Hat; done).
    destruct (addItem_ok w q (t_node st) (newItem k v) i Hok) as (w1 & E & HM & Hp); [by exists r| |].
    + exact (findKeyInNode_le _ _ _ _ Hf).
    + exists w1. by mstep E.
Qed.

Lemma store_item_ok w q st k v b i :
  world_ok w -> points w q (t_node st) -> owned w q -> is_Some (dirtyNodes (wtx w)) ->
  findKeyInNode (t_node st) k = (b, i) ->
  exists w', store_item q k (newItem k v) i w = (Ok tt, w') /\ world_ok w' /\
    page_node (t_page st) w' = Ok (t_node (put_here k v st)) /\
    (forall pn, pn <> t_page st -> page_node pn w' = page_node pn w) /\
    (forall x, owned w x -> owned w' x) /\
    (forall pn, dirty_at w' pn = if decide (pn = t_page st) then Some q else dirty_at w pn) /\
    tx_dirtied w w' /\ wdb w' = wdb w /\ collsH w' = collsH w.
Proof.
  intros Hok Hq Hown [m Hm] Hf. destruct (load_node_points w q _ Hq) as (r & Er & Hr & Hrn).
  destruct (store_slot_ok w q r st k v b i Hok Hr Hrn Hf) as (w1 & E1 & M & Hq1).
  pose proof (mutates_ok q w w1 Hok M) as Hok1.
  assert (dirtyNodes (wtx w1) = Some m) as Hm1 by (by rewrite (mut_tx _ _ _ M)).
  pose proof Hq1 as (r1 & Hr1 & Hn1). assert (r_pageNum r1 = t_page st) as Hpg.
  { pose proof (f_equal pageNum Hn1) as Hpn. simpl in Hpn. rewrite Hpn. apply put_here_kids. }
  destruct (tx_writeNode_ok w1 q r1 m Hok1 Hr1 Hm1) as (E2 & Hok2 & G2 & F2). rewrite Hpg in *.
  set (w2 := with_wtx _ w1) in *. exists w2. split; [|split; [exact Hok2|split; [by rewrite G2, Hn1|]]].
  - unfold store_item. mstep (node_view_points w q _ Hq). mstep Er. mstep E1. mstep E2. done.
  - split; [|split; [|split; [|split; [|split]]]].
    + intros pn Hpn. rewrite F2 by done. by apply (mutates_other_page q w w1 Hok Hown M (t_node st)).
    + intros x Hx. apply (mutates_owned q w w1 Hok M x Hx).
    + intros pn. unfold dirty_at, w2. simpl. rewrite <- (mut_tx _ _ _ M), Hm1.
      destruct (decide (pn = t_page st)) as [-> |Hpn]; simpl; by simplify_map_eq.
    + eexists. unfold w2. simpl. by rewrite (mut_tx _ _ _ M).
    + exact (mut_db _ _ _ M).
    + exact (mut_colls _ _ _ M).
Qed.

(** ** [setRoot] *)

(** The collection is the same but for its root, its counter and its flag. *)
Definition same_coll (c c' : collection) : Prop :=
  c_name c' = c_name c /\ c_hasTx c' = c_hasTx c /\ c_rootCollection c' = c_rootCollection c.

(** The collection's root is set; of the transaction only what [setRoot] keeps
    track of changes. *)
Record root_set (p : coll_ptr) (pn : Z) (w w' : world) : Prop := {
  rs_coll : exists c c', collsH w !! p = Some c /\ collsH w' !! p = Some c' /\ same_coll c c' /\ c_root c' = pn;
  rs_nodes : nodesH w' = nodesH w;
  rs_items : itemsH w' = itemsH w;
  rs_kids : kidsH w' = kidsH w;
  rs_dirty : dirtyNodes (wtx w') = dirtyNodes (wtx w);
  rs_free : tx_freelist (wtx w') = tx_freelist (wtx w);
  rs_released : pagesToDelete (wtx w') = pagesToDelete (wtx w);
  rs_write : write (wtx w') = write (wtx w);
  rs_collections : is_Some (collections (wtx w)) -> is_Some (collections (wtx w'));
  rs_db : wdb w' = wdb w
}.

Lemma setRoot_ok w p c pn :
  collsH w !! p = Some c -> (c_rootCollection c = true \/ is_Some (collections (wtx w))) ->
  exists w', setRoot p pn w = (Ok tt, w') /\ root_set p pn w w'.
Proof.
  intros Hp Hcol. pose proof (lookup_lt_Some _ _ _ Hp) as Hlt.
  unfold setRoot. erewrite bind_Ok by (unfold load_coll; by rewrite Hp).
  case_decide as Hd; [exists w; split; [done|split; try done; by exists c, c]|].
  unfold upd_coll. rewrite bind_modS. rewrite (alter_insert _ _ _ _ Hp).
  set (c1 := coll_set_root pn c). set (w1 := with_collsH (<[p:=c1]> (collsH w)) w).
  assert (collsH w1 !! p = Some c1) as Hp1 by (apply list_lookup_insert_eq; done).
  destruct (c_rootCollection c) eqn:Er.
  { eexists. split; [done|]. split; try done. by exists c, c1. }
  unfold markMetadataDirty. erewrite bind_Ok by (unfold load_coll; by rewrite Hp1). rewrite bind_get_tx.
  destruct (c_rootCollection c1 || negb (c_hasTx c1) || negb (write (wtx w1))) eqn:Ef.
  { eexists. split; [done|]. split; try done. by exists c, c1. }
  unfold upd_coll. rewrite bind_modS, (alter_insert _ _ _ _ Hp1).
  set (c2 := coll_set_dirty true c1). set (w2 := with_collsH _ w1).
  assert (collsH w2 !! p = Some c2) as Hp2 by (apply list_lookup_insert_eq; by apply lookup_lt_Some in Hp1).
  unfold trackCollection. erewrite bind_Ok by (unfold load_coll; by rewrite Hp2). rewrite bind_get_tx.
  destruct (negb (write (wtx w2)) || c_rootCollection c2).
  { eexists. split; [done|]. split; try done. by exists c, c2. }
  destruct Hcol as [?|[cm Hcm]]; [done|]. change (collections (wtx w2)) with (collections (wtx w)). rewrite Hcm.
  eexists. split; [done|]. split; try done. by exists c, c2.
Qed.

Lemma root_set_page p pn w w' x : root_set p pn w w' -> page_node x w' = page_node x w.
Proof.
  intros [_ N I K D _ _ _ _ B]. unfold page_node, dirty_at, node_of. by rewrite N, I, K, D, B.
Qed.

Lemma root_set_ok p pn w w' : root_set p pn w w' -> world_ok w -> world_ok w'.
Proof.
  intros [_ N I K D _ _ _ _ B] [S F]. split; [by rewrite N, I, K|]. unfold dirty_at in *. by rewrite N, D.
Qed.

(** ** A new root *)

(** What [Put] leaves: the collection [p] has a tree [t'] with the contents
    [l], the pages of other trees show what they did. *)
Record put_tree (p : coll_ptr) (fr : freelist) (t : tree) (l : list Item) (w : world) (fr' : freelist) (t' : tree) (w' : world)
    : Prop := {
  pt_ok : world_ok w';
  pt_coll : exists c c', collsH w !! p = Some c /\ collsH w' !! p = Some c' /\ same_coll c c' /\ c_root c' = t_page t';
  pt_repr : repr w' t';
  pt_flatten : flatten t' = l;
  pt_shape : shape t';
  pt_live : pages_live fr' t';
  pt_wf : freelist_wf fr';
  pt_free : tx_freelist (wtx w') = Some fr';
  pt_dirty : is_Some (dirtyNodes (wtx w'));
  pt_write : write (wtx w') = write (wtx w);
  pt_height : (height t' <= S (height t))%nat;
  pt_keep : forall pn, live fr pn -> live fr' pn;
  pt_pages : forall pn, live fr pn -> pn ∉ pages t -> page_node pn w' = page_node pn w;
  pt_db : wdb w' = wdb w;
  pt_colls : is_Some (collections (wtx w)) -> is_Some (collections (wtx w'));
  pt_grow : (length (pages t) <= length (pages t'))%nat;
  pt_nosplit : length (pages t') = length (pages t) -> fr' = fr /\ height t' = height t /\ (tree_owned w t -> tree_owned w' t') /\ same_form t t'
}.

Lemma literals_ok w pg :
  world_ok w ->
  exists si sk w', (forall A (f : slice -> slice -> M world A),
      (its ← items_literal []; kids ← kids_literal [pg]; f its kids) w = f si sk w') /\
    extends w w' /\ world_ok w' /\ collsH w' = collsH w /\ slice_ok (itemsH w') si /\ slice_ok (kidsH w') sk /\
    view (itemsH w') si = [] /\ view (kidsH w') sk = [pg] /\ nodesH w' = nodesH w /\
    (forall q rq, nodesH w !! q = Some rq ->
       region_apart (r_items rq) si /\ region_apart (r_childNodes rq) sk).
Proof.
  intros Hok. set (si := Slice (Some (length (itemsH w))) 0 0 0).
  set (w1 := with_itemsH (itemsH w ++ [[]]) w).
  assert (slice_ok (itemsH w1) si) as Hsi.
  { split; [done|]. simpl. exists []. by rewrite list_lookup_middle. }
  assert (world_ok w1) as Hok1.
  { split; [|exact (ok_dirty _ Hok)]. intros q r Hr. destruct (ok_slices _ Hok q r Hr). split; [|done].
    apply (slice_ok_prefix (itemsH w)); [done|by eexists]. }
  destruct (kids_literal_ok w1 [pg] Hok1) as (E & He & Hok2 & Hsk & Hv & Hap & _).
  set (sk := Slice (Some (length (kidsH w1))) 0 _ _) in *. set (w2 := with_kidsH _ w1) in *. exists si, sk, w2.
  split; [|split; [|split; [exact Hok2|split; [done|split; [exact Hsi|split; [exact Hsk|split; [|split; [exact Hv|split; [done|]]]]]]]]].
  - intros A f. by mstep (eq_refl : items_literal [] w = (Ok si, w1)).
  - destruct He as [? ? ? ? ? ?]. split; try done. by eexists.
  - unfold view, arr. simpl. by rewrite list_lookup_middle.
  - intros q rq Hq. split; [|by apply (Hap q)]. symmetry.
    apply (fresh_region_apart (itemsH w) (itemsH w1)); [by apply (ok_slices _ Hok q)| |done].
    unfold fresh_from. simpl. lia.
Qed.

(** The new root before the split: it owns its slices, which show no items and
    the old root as the one child. *)
Lemma new_root_ok w fr np fr1 t q :
  world_ok w -> tx_freelist (wtx w) = Some fr -> getNextPage fr = (np, fr1) -> handle w q t ->
  exists r w1, (forall A (f : node_ptr -> M world A),
      (its ← items_literal []; kids ← kids_literal [t_page t]; newRoot ← tx_newNode its kids; f newRoot) w = f r w1) /\
    world_ok w1 /\ points w1 r (Node np [] [t_page t]) /\ owned w1 r /\ r <> q /\ points w1 q (t_node t) /\
    wtx w1 = with_txfree (Some fr1) (wtx w) /\ wdb w1 = wdb w /\ collsH w1 = collsH w /\
    (forall pn, page_node pn w1 = page_node pn w).
Proof.
  intros Hok Hfr Hnp [Hq Ho].
  destruct (literals_ok w (t_page t) Hok) as (si & sk & w0 & E0 & He & Hok0 & Hc0 & Hsi & Hsk & Vi & Vk & N0 & Hap).
  assert (tx_freelist (wtx w0) = Some fr) as Hfr0 by (by rewrite (ext_tx _ _ He)).
  destruct (tx_newNode_ok w0 fr np fr1 si sk Hok0 Hfr0 Hnp Hsi Hsk) as (E1 & Hok1 & Hr & Hpts & _ & Hpg).
  set (w1 := with_nodesH _ _) in *. exists (length (nodesH w0)), w1.
  split; [|split; [exact Hok1|split; [|split; [|split; [|split; [|split; [|split; [|split]]]]]]]].
  - intros A f. rewrite E0. by mstep E1.
  - eexists. split; [exact Hr|]. unfold node_of. simpl. by rewrite Vi, Vk.
  - eexists. split; [exact Hr|]. intros x rx Hx Hrx. unfold w1 in Hrx. simpl in Hrx.
    apply lookup_app_Some in Hrx as [Hrx|[Hl Hrx]].
    + rewrite N0 in Hrx. destruct (Hap x rx Hrx). simpl. by split; symmetry.
    + destruct (x - length (nodesH w0))%nat eqn:Ex; [lia|by destruct n].
  - destruct Hq as (rq & Hrq & _). apply lookup_lt_Some in Hrq. rewrite N0. lia.
  - by apply Hpts, (extends_points w).
  - unfold w1. simpl. by rewrite (ext_tx _ _ He).
  - exact (ext_db _ _ He).
  - exact Hc0.
  - intros pn. etrans; [apply Hpg|]. by apply extends_page.
Qed.

(** Splitting the old root under the new one, in the world. *)
Lemma root_split_ok w p c q t fr :
  world_ok w -> handle w q t -> shape t -> pages_live fr t -> tx_ready w fr 2 ->
  collsH w !! p = Some c -> (c_rootCollection c = true \/ is_Some (collections (wtx w))) ->
  Forall item_ok (t_items t) -> splittable (ddal (wdb w)) ->
  isOverPopulated (ddal (wdb w)) (t_node t) = true ->
  exists np fr1 np2 fr2 s mid w2 w3, getNextPage fr = (np, fr1) /\ getNextPage fr1 = (np2, fr2) /\
    t_items t !! s = Some mid /\ grow_root p q w = (Ok tt, w3) /\ root_set p np w2 w3 /\ world_ok w2 /\
    page_node np w2 = Ok (Node np [mid] [t_page t; np2]) /\
    page_node (t_page t) w2 = Ok (left_node s (t_node t)) /\ page_node np2 w2 = Ok (right_node s np2 (t_node t)) /\
    (forall pn, pn <> np2 -> pn <> t_page t -> pn <> np -> page_node pn w2 = page_node pn w) /\
    (exists m, wtx w2 = with_dirty (Some m) (with_txfree (Some fr2) (wtx w))) /\ wdb w2 = wdb w /\
    collsH w2 = collsH w.
Proof.
  intros Hok Hh Hsh [Hnd Hlv] [Hd Hfr Hwf Hroom] Hp Hcol Hit Hspl Hover.
  destruct (getNextPage fr) as [np fr1] eqn:Hnp. destruct (getNextPage fr1) as [np2 fr2] eqn:Hnp2.
  destruct (getNextPage_spec fr np fr1 Hwf ltac:(lia) Hnp) as (Hn1 & Hwf1 & Hl1).
  pose proof (getNextPage_max _ _ _ Hwf Hnp) as Hm1.
  destruct (getNextPage_spec fr1 np2 fr2 Hwf1 ltac:(lia) Hnp2) as (Hn2 & _).
  destruct (new_root_ok w fr np fr1 t q Hok Hfr Hnp Hh) as (r & w1 & E1 & Ok1 & Hr1 & Ho1 & Hrq & Hq1 & T1 & B1 & C1 & P1).
  destruct (Hspl (t_node t) Hit Hover) as [s Hs].
  assert (live fr (t_page t)) as Hlt by (rewrite Forall_forall in Hlv; apply Hlv, page_in_pages).
  assert (t_page t <> np) as Hne1 by (intros E; rewrite E in Hlt; done).
  assert (np2 <> t_page t) as Hne2 by (intros ->; apply Hn2, Hl1; by right).
  assert (np2 <> np) as Hne3 by (intros ->; apply Hn2, Hl1; by left).
  assert (children_ok (t_node t)) as Hch.
  { destruct (shape_node t Hsh) as [E|E]; [left; simpl; by rewrite E|right; simpl; by rewrite length_fmap]. }
  destruct (split_ok w1 r q (Node np [] [t_page t]) (t_node t) 0 s fr1 np2 fr2) as (w2 & mid & Hmid & E2 & S);
    simpl; try done; try lia.
  { by rewrite T1. }
  { by rewrite T1. }
  { by rewrite B1. }
  destruct S as [O PP PG PL PR PO PQ PW PC PD PT]. cbn [pageNum items childNodes t_node] in *.
  pose proof PP as (r2 & Hr2 & Hr2n). pose proof (f_equal pageNum Hr2n) as Hpg2. simpl in Hpg2.
  assert (is_Some (dirtyNodes (wtx w2))) as Hd2 by (rewrite PT, T1; simpl; destruct Hd as [m ->]; by eexists).
  destruct (filed_ok w2 r r2 O Hr2 Hd2) as (E3 & O3 & G3 & F3). rewrite Hpg2 in *. set (w3 := filed r np w2) in *.
  destruct (setRoot_ok w3 p c np) as (w4 & E4 & Hrs).
  { change (collsH w3) with (collsH w2). by rewrite PC, C1. }
  { destruct Hcol as [?|Hcol]; [by left|right]. unfold w3, filed. simpl. by rewrite PT, T1. }
  exists np, fr1, np2, fr2, s, mid, w3, w4. do 3 (split; [done|]). split; [|split; [done|split; [done|]]].
  - unfold grow_root. mstep (node_isOverPopulated_points w q _ (proj1 Hh)). rewrite Hover.
    destruct Hh as [(rq & Hrq' & Hrqn) _]. erewrite bind_Ok by (unfold load_node; by rewrite Hrq').
    assert (r_pageNum rq = t_page t) as -> by (by pose proof (f_equal pageNum Hrqn)).
    rewrite E1. mstep E2. mstep E3. erewrite bind_Ok by (unfold load_node; change (nodesH w3) with (nodesH w2); by rewrite Hr2).
    rewrite Hpg2. exact E4.
  - split; [by rewrite G3, Hr2n|]. split; [by rewrite F3|].
    split; [by rewrite F3|].
    split; [intros pn ? ? ?; by rewrite F3, PO, P1|]. split.
    + destruct Hd2 as [m Hm]. unfold w3, filed. simpl. rewrite Hm, PT, T1. simpl. by eexists.
    + split; [etrans; [exact PD|exact B1]|]. etrans; [exact PC|exact C1].
Qed.

Lemma root_grown fr np fr1 np2 fr2 s mid t :
  shape t -> pages_live fr t -> freelist_wf fr -> maxPage fr + 2 < 2 ^ 64 ->
  getNextPage fr = (np, fr1) -> getNextPage fr1 = (np2, fr2) -> t_items t !! s = Some mid ->
  np ∉ pages t /\ grown 1 fr1 (Tree np [] [t]) fr2 (split_child 0 s mid np2 t (Tree np [] [t])) /\
  forall pn, live fr pn -> live fr2 pn /\ pn <> np /\ pn <> np2.
Proof.
  intros Hsh [Hnd Hlv] Hwf Hroom Hnp Hnp2 Hmid.
  destruct (getNextPage_spec fr np fr1 Hwf ltac:(lia) Hnp) as (Hn1 & Hwf1 & Hl1).
  pose proof (getNextPage_max _ _ _ Hwf Hnp) as Hm1.
  destruct (getNextPage_spec fr1 np2 fr2 Hwf1 ltac:(lia) Hnp2) as (Hn2 & _ & Hl2).
  assert (np ∉ pages t) as Hfresh by (intros Hin; apply Hn1; rewrite Forall_forall in Hlv; by apply Hlv).
  split; [done|]. split.
  - apply grown_split; try done; [|..|lia].
    + simpl. split; [by right|by split].
    + split; rewrite pages_kids; simpl; rewrite app_nil_r.
      * by constructor.
      * constructor; [apply Hl1; by left|]. eapply Forall_impl; [exact Hlv|]. intros x Hx. apply Hl1. by right.
  - intros pn Hpn. assert (live fr1 pn) as Hpn1 by (apply Hl1; by right).
    split; [apply Hl2; by right|split; congruence].
Qed.

Lemma grow_root_ok w p c q t fr :
  world_ok w -> repr w t -> handle w q t -> shape t -> pages_live fr t -> tx_ready w fr 2 ->
  collsH w !! p = Some c -> c_root c = t_page t ->
  (c_rootCollection c = true \/ is_Some (collections (wtx w))) ->
  Forall item_ok (flatten t) -> splittable (ddal (wdb w)) ->
  exists fr' t' w', grow_root p q w = (Ok tt, w') /\ put_tree p fr t (flatten t) w fr' t' w'.
Proof.
  intros Hok Hr Hh Hsh Hlive Hrdy Hp Hroot Hcol Hit Hspl. pose proof Hrdy as [Hd Hfr Hwf Hroom].
  destruct (isOverPopulated (ddal (wdb w)) (t_node t)) eqn:Hover.
  2:{ exists fr, t, w. split.
      - unfold grow_root. mstep (node_isOverPopulated_points w q _ (proj1 Hh)). by rewrite Hover.
      - split; try done; [by exists c, c|lia]. }
  assert (Forall item_ok (t_items t)) as Hit'.
  { rewrite Forall_forall in Hit |- *. intros x Hx. by apply Hit, node_items_flatten. }
  destruct (root_split_ok w p c q t fr Hok Hh Hsh Hlive Hrdy Hp Hcol Hit' Hspl Hover)
    as (np & fr1 & np2 & fr2 & s & mid & w2 & w3 & Hnp & Hnp2 & Hmid & E & Hrs & Hok2 & G1 & G2 & G3 & F & [m T] & B & C).
  destruct (root_grown fr np fr1 np2 fr2 s mid t Hsh Hlive Hwf ltac:(lia) Hnp Hnp2 Hmid) as (Hfresh & Hg & Hk).
  pose proof (split_child_pages 0 s mid np2 t (Tree np [] [t]) eq_refl) as Epg.
  exists fr2, (split_child 0 s mid np2 t (Tree np [] [t])), w3. split; [exact E|].
  assert (pages (Tree np [] [t]) = np :: pages t) as Ep0 by (rewrite pages_kids; simpl; by rewrite app_nil_r).
  pose proof (gr_live _ _ _ _ _ Hg) as [Hnd' _]. rewrite Epg in Hnd'. apply NoDup_cons in Hnd' as [Hnp2' Hnd'].
  assert (repr w2 (split_child 0 s mid np2 t (Tree np [] [t]))) as Hr2.
  { apply (repr_split w); try done. by constructor. }
  split.
  - by apply (root_set_ok p np w2).
  - destruct (rs_coll _ _ _ _ Hrs) as (c0 & c' & ? & ? & ? & ?). exists c0, c'. by rewrite <- C.
  - apply (repr_frame w2); [|done]. intros pn _. by apply (root_set_page p np).
  - rewrite (gr_flatten _ _ _ _ _ Hg). simpl. by rewrite !app_nil_r.
  - apply Hg.
  - apply Hg.
  - apply Hg.
  - by rewrite (rs_free _ _ _ _ Hrs), T.
  - by rewrite (rs_dirty _ _ _ _ Hrs), T.
  - by rewrite (rs_write _ _ _ _ Hrs), T.
  - etrans; [apply Hg|]. simpl. lia.
  - intros pn Hpn. by apply Hk.
  - intros pn Hl Hpn. rewrite (root_set_page p np w2 w3 pn Hrs). apply F.
    + by apply Hk.
    + intros ->. apply Hpn, page_in_pages.
    + by apply Hk.
  - by rewrite (rs_db _ _ _ _ Hrs).
  - intros Hcm. apply (rs_collections _ _ _ _ Hrs). by rewrite T.
  - rewrite Epg, Ep0. simpl. lia.
  - intros Hl. rewrite Epg, Ep0 in Hl. simpl in Hl. lia.
Qed.

(** ** [Put] *)

Lemma upsert_Forall_item k v l : item_ok (newItem k v) -> Forall item_ok l -> Forall item_ok (upsert k v l).
Proof.
  intros Hk Hl. induction Hl as [|it l Hit Hl IH]; simpl; [by constructor|].
  destruct (bytes_compare (key it) k); by repeat (constructor; try done).
Qed.

(** The collection [p] of a write transaction shows the search tree [t]. *)
Record collection_ok (w : world) (p : coll_ptr) (t : tree) (fr : freelist) : Prop := {
  co_ok : world_ok w;
  co_write : write (wtx w) = true;
  co_coll : exists c, collsH w !! p = Some c /\ c_hasTx c = true /\ c_root c = t_page t /\
    (c_rootCollection c = true \/ is_Some (collections (wtx w)));
  co_repr : repr w t;
  co_shape : shape t;
  co_sorted : sorted (flatten t);
  co_items : Forall item_ok (flatten t);
  co_live : pages_live fr t;
  co_owned : tree_owned w t;
  co_ready : tx_ready w fr (S (height t));
  co_split : splittable (ddal (wdb w))
}.

Lemma route_length k t idxs st : route k t idxs st -> (length idxs < height t)%nat.
Proof.
  induction 1 as [t _|t i c idxs st _ Hc _ IH]; [apply height_pos|]. simpl.
  assert (height t <= S (Nat.pred (height t)))%nat as Hh by (pose proof (height_pos t); lia).
  apply height_le in Hh. rewrite Forall_lookup in Hh. specialize (Hh i c Hc). lia.
Qed.

Lemma subtree_set idxs st st' t : subtree idxs t = Some st -> subtree idxs (set_subtree idxs st' t) = Some st'.
Proof.
  revert t. induction idxs as [|i idxs IH]; intros [pg its kids] H; [done|]. simpl in H |- *.
  destruct (kids !! i) as [c|] eqn:Hc; [|done]. simpl in H.
  rewrite (alter_insert _ kids i c Hc), list_lookup_insert_eq by (by eapply lookup_lt_Some). simpl. by apply IH.
Qed.

Lemma coll_after w w' p c : extends w w' -> collsH w !! p = Some c -> collsH w' !! p = Some c.
Proof. intros He Hp. eapply prefix_lookup_Some; [exact Hp|apply He]. Qed.

(** Up to the stored item: search, then store, in any continuation. *)
Lemma put_search_ok w p t fr k v fuel :
  collection_ok w p t fr -> (height t <= fuel)%nat ->
  exists w' idxs st, let t' := set_subtree idxs (put_here k v st) t in
    (forall A (f : list nat -> M world A),
      (root ← tx_getNode (t_page t); '(found, anc) ← findKey fuel root k false;
       match found with
       | None => panic
       | Some (i, n) => store_item n k (newItem k v) i;; f anc
       end) w = f (0%nat :: idxs) w') /\
    route k t idxs st /\ same_frame t t' /\ world_ok w' /\ repr w' t' /\ tree_owned w' t' /\
    (forall pn, pn ∉ pages t -> page_node pn w' = page_node pn w) /\
    (forall c, collsH w !! p = Some c -> collsH w' !! p = Some c) /\ tx_dirtied w w' /\ wdb w' = wdb w /\
    (forall pn, pn <> t_page st -> dirty_at w' pn = dirty_at w pn).
Proof.
  intros [Hok _ _ Hr Hsh _ _ [Hnd _] Hto [Hd _ _ _] _] Hf.
  destruct (open_tree w t Hok Hr) as (q0 & w1 & E0 & R1 & Hq0 & Ho0). pose proof (reads_ok _ _ R1) as Ok1.
  destruct (findKeyHelper_ok k false fuel t w1 q0 [0%nat] Ok1 (reads_repr _ _ _ Hok R1 Hr) Hq0 Hsh Hf)
    as (w2 & idxs & st & q & H).
  destruct (findKeyInNode (t_node st) k) as [b i] eqn:Ef. destruct H as (E1 & R2 & Hrt & Hq & Ho).
  assert (reads w w2) as R by (by etrans). pose proof (reads_ok _ _ R2) as Ok2.
  specialize (Ho (reads_tree_owned _ _ _ R1 Hto) (Ho0 Hto)).
  pose proof (put_here_frame k v st (route_end _ _ _ _ Hrt)) as Hfr.
  pose proof (route_subtree _ _ _ _ Hrt) as Hsub. pose proof (set_subtree_frame _ _ _ _ Hsub Hfr) as Hfr'.
  assert (is_Some (dirtyNodes (wtx w2))) as Hd2 by (by rewrite (ext_tx _ _ (reads_extends _ _ R))).
  destruct (store_item_ok w2 q st k v b i Ok2 Hq Ho Hd2 Ef) as (w3 & E3 & Ok3 & G & F & W & D & [m T] & B & C).
  exists w3, idxs, st. split; [|split; [done|split; [done|split; [done|split; [|split; [|split; [|split; [|split; [|split]]]]]]]]].
  - intros A f. mstep E0. unfold findKey. mstep E1. rewrite orb_true_r. by mstep E3.
  - apply (repr_set_subtree idxs w2 w3 t st); try done; [by apply (reads_repr w)|apply put_here_kids].
  - intros pn x Hpn Hx. rewrite D in Hx. destruct (decide (pn = t_page st)) as [-> |Hne].
    + simplify_eq. by apply W.
    + apply W. rewrite (same_pages _ _ Hfr') in Hpn. by apply (reads_tree_owned w w2 t R Hto pn).
  - intros pn Hpn. rewrite F, (reads_page w w2 pn Hok R); [done|]. intros ->. apply Hpn.
    clear -Hsub. revert t Hsub. induction idxs as [|j idxs IH]; intros t Hsub; simpl in Hsub.
    + simplify_eq. apply page_in_pages.
    + destruct (t_kids t !! j) as [x|] eqn:Hx; [|done]. apply (kid_pages t j x); [done|]. by apply IH.
  - intros c Hp. rewrite C. by apply (coll_after w w2 p c (reads_extends _ _ R)).
  - exists m. by rewrite T, (ext_tx _ _ (reads_extends _ _ R)).
  - by rewrite B, (ext_db _ _ (reads_extends _ _ R)).
  - intros pn Hpn. rewrite D, decide_False by done. by apply extends_dirty, R.
Qed.

Lemma item_validate_ok it ps : item_validate it ps = Ok tt -> item_ok it.
Proof.
  unfold item_validate, validate. simpl. cases; try done. intros _. split; lia.
Qed.

Lemma put_levels_root_ok w p c t fr ps idxs :
  world_ok w -> repr w t -> chain w t idxs ps -> shape t -> pages_live fr t -> tx_ready w fr (length idxs + 2) ->
  collsH w !! p = Some c -> c_root c = t_page t ->
  (c_rootCollection c = true \/ is_Some (collections (wtx w))) ->
  Forall item_ok (flatten t) -> splittable (ddal (wdb w)) ->
  exists fr' t' w', (put_levels (levels ps (0%nat :: idxs));;
      match ps with [] => panic | q :: _ => grow_root p q end) w = (Ok tt, w') /\
    put_tree p fr t (flatten t) w fr' t' w'.
Proof.
  intros Hok Hr Hch Hsh Hlive [Hd Hfr Hwf Hroom] Hp Hroot Hcol Hit Hspl.
  destruct (put_levels_ok idxs t ps w fr 0%nat Hok Hr Hch Hsh Hlive) as (q & n & fr1 & t1 & w1 & Hq & E & Hn & Hrb & Hh & H0);
    [split; [done..|lia]|done|done|].
  destruct ps as [|q' ps]; [done|]. simplify_eq/=. pose proof (rb_grown _ _ _ _ _ _ _ _ Hrb) as G.
  pose proof (rb_tx _ _ _ _ _ _ _ _ Hrb) as [m T].
  destruct (grow_root_ok w1 p c q t1 fr1) as (fr2 & t2 & w2 & E2 & P).
  - apply Hrb.
  - apply Hrb.
  - done.
  - apply G.
  - apply G.
  - apply (tx_ready_after _ _ _ _ _ _ _ _ 2 Hrb). lia.
  - by rewrite (rb_colls _ _ _ _ _ _ _ _ Hrb).
  - by rewrite (gr_page _ _ _ _ _ G).
  - destruct Hcol as [?|Hcol]; [by left|right]. by rewrite T.
  - by rewrite (gr_flatten _ _ _ _ _ G).
  - by rewrite (rb_db _ _ _ _ _ _ _ _ Hrb).
  - exists fr2, t2, w2. split; [by mstep E|]. destruct P as [P1 P2 P3 P4 P5 P6 P7 P8 P9 P10 P11 P12 P13 P14 P15 P15' P16].
    split; try done.
    + by rewrite <- (rb_colls _ _ _ _ _ _ _ _ Hrb).
    + by rewrite P4, (gr_flatten _ _ _ _ _ G).
    + by rewrite P10, T.
    + pose proof (gr_height _ _ _ _ _ G). lia.
    + intros pn Hpn. by apply P12, G.
    + intros pn Hl Hpn. assert (pn ∉ pages t1) as Hpn1.
      { destruct (gr_pages _ _ _ _ _ G) as (new & En & Hnew & _). rewrite En. rewrite Forall_forall in Hnew.
        intros [Hin|Hin]%elem_of_app; [by apply (Hnew pn)|done]. }
      rewrite P13, (rb_pages _ _ _ _ _ _ _ _ Hrb); [done|done|by apply G|done].
    + by rewrite P14, (rb_db _ _ _ _ _ _ _ _ Hrb).
    + intros Hcm. apply P15. by rewrite T.
    + destruct (gr_pages _ _ _ _ _ G) as (new & En & _). rewrite En, length_app in P15'. lia.
    + intros Hl. destruct (gr_pages _ _ _ _ _ G) as (new & En & _ & Hnew).
      pose proof (Permutation_length En) as Hl1. rewrite length_app in Hl1.       assert (n = 0%nat) as Hn0 by lia. destruct (H0 Hn0) as (-> & -> & ->). by apply P16.
Qed.

(** What [Put] does with the path it has found. *)
Definition put_path (p : coll_ptr) (anc : list nat) : M world unit :=
  ancestors ← getNodes p anc;
  put_levels (levels ancestors anc);;
  match ancestors with [] => panic | q :: _ => grow_root p q end.

(** The guards of [Put] let a legal item pass, and the collection has a root. *)
Lemma Put_begins w p t fr k v fuel x :
  collection_ok w p t fr -> item_validate (newItem k v) (pageSize (ddal (wdb w))) = Ok tt ->
  (root ← tx_getNode (t_page t); '(found, anc) ← findKey fuel root k false;
   match found with
   | None => panic
   | Some (i, n) => store_item n k (newItem k v) i;; put_path p anc
   end) w = x ->
  Put fuel p k v w = x.
Proof.
  intros [_ Hw (c & Hp & Htx & Hroot & _) _ _ _ _ [_ Hl] _ _ _] Hv <-.
  unfold Put, coll_write. rewrite bind_assoc. erewrite bind_Ok by (unfold load_coll; by rewrite Hp).
  rewrite !bind_assoc, bind_get_tx, Htx, Hw, bind_ret. cbn [negb]. rewrite bind_get_dal, Hv, bind_lift.
  erewrite bind_Ok by (unfold load_coll; by rewrite Hp). rewrite Hroot.
  assert (live fr (t_page t)) as [[H0 _] _] by (rewrite Forall_forall in Hl; apply Hl, page_in_pages).
  rewrite decide_False by (unfold metaPage in H0; lia). done.
Qed.

Lemma Put_gen w p t fr k v fuel :
  collection_ok w p t fr -> item_validate (newItem k v) (pageSize (ddal (wdb w))) = Ok tt ->
  (height t <= fuel)%nat ->
  exists fr' t' w', Put fuel p k v w = (Ok tt, w') /\ put_tree p fr t (upsert k v (flatten t)) w fr' t' w'.
Proof.
  intros Hco Hv Hf. pose proof Hco as [Hok Hw (c & Hp & Htx & Hroot & Hcol) Hr Hsh Hs Hit Hlive Hto Hrdy Hspl].
  destruct (put_search_ok w p t fr k v fuel Hco Hf) as (w1 & idxs & st & E1 & Hrt & Hfr & Ok1 & R1 & To1 & F1 & C1 & [m T1] & B1 & _).
  set (t1 := set_subtree idxs (put_here k v st) t) in *. pose proof (route_length _ _ _ _ Hrt) as Hlen.
  destruct (getNodes_ok idxs t1 w1 p c (put_here k v st) Ok1 R1 To1) as (w2 & ps & E2 & R2 & Hch).
  { apply (subtree_set idxs st). by eapply route_subtree. }
  { by apply C1. }
  { by rewrite (same_page _ _ Hfr). }
  pose proof (route_put k v t idxs st Hrt Hsh Hs) as Hflat. fold t1 in Hflat.
  pose proof (reads_extends _ _ R2) as X2. assert (wdb w2 = wdb w) as B2 by (by rewrite (ext_db _ _ X2)).
  assert (wtx w2 = with_dirty (Some m) (wtx w)) as T2 by (by rewrite (ext_tx _ _ X2)).
  assert (pages_live fr t1) as Hl1 by (unfold pages_live; by rewrite (same_pages _ _ Hfr)).
  destruct Hrdy as [Hd Hfree Hwf Hroom].
  destruct (put_levels_root_ok w2 p c t1 fr ps idxs) as (fr' & t' & w' & E3 & P); try done.
  - apply R2.
  - by apply (reads_repr w1).
  - by apply Hfr.
  - split; [by rewrite T2|by rewrite T2|done|lia].
  - apply (coll_after w1 w2 p c X2). by apply C1.
  - by rewrite (same_page _ _ Hfr).
  - destruct Hcol as [?|Hcol]; [by left|right]. by rewrite T2.
  - rewrite Hflat. apply (upsert_Forall_item k v); [by eapply item_validate_ok|done].
  - by rewrite B2.
  - exists fr', t', w'. split.
    + apply (Put_begins w p t fr k v fuel _ Hco Hv). rewrite (E1 unit (put_path p)). unfold put_path. by mstep E2.
    + pose proof (same_pages _ _ Hfr) as Epg. destruct P as [P1 P2 P3 P4 P5 P6 P7 P8 P9 P10 P11 P12 P13 P14 P15 P15' P16].
      split; try done.
      * destruct P2 as (c1 & c' & H1 & H'). exists c1, c'. split; [|done].
        rewrite (coll_after w1 w2 p c X2 (C1 c Hp)) in H1. congruence.
      * by rewrite P4.
      * by rewrite P10, T2.
      * by rewrite <- (same_height _ _ Hfr).
      * intros pn Hl Hpn. rewrite P13, (reads_page w1 w2 pn Ok1 R2), F1; [done|done|done|by rewrite Epg].
      * by rewrite P14.
      * intros Hcm. apply P15. by rewrite T2.
      * by rewrite <- Epg.
      * rewrite Epg in P16. intros Hl. destruct (P16 Hl) as (-> & Hh & Hto' & Hform). split; [done|].
        split; [by rewrite <- (same_height _ _ Hfr)|]. split; [|etrans; [|exact Hform]].
        { intros _. apply Hto'. by apply (reads_tree_owned w1). }
        by apply (put_form k v t idxs st), (route_subtree k).
Qed.

End insert.

(** ** Overpopulated nodes can be split *)

Lemma item_size_le it : item_ok it -> 8 <= item_size it <= 518.
Proof. intros [Hk Hv]. unfold item_size, pageNumSize. lia. Qed.

(** Sizes grow by at most 518 bytes an item, so the running size of the loop
    passes through the 518 values above the threshold. *)
Lemma split_loop_some d m its total i size :
  (forall z, m < z <= m + 518 -> f32_lt (minThreshold d) (f32_of_Z z) = true) ->
  Forall item_ok its -> (i + length its = total)%nat -> size <= m ->
  (forall l x, its = l ++ [x] -> m < size + sum_sizes l) -> its <> [] ->
  is_Some (split_loop d its total i size).
Proof.
  intros Hm. revert i size. induction its as [|it its IH]; intros i size Hit Hl Hsz Hsum Hne; [done|].
  apply Forall_cons in Hit as [Hi Hit]. pose proof (item_size_le it Hi). cbn [split_loop]. cbn [length] in Hl.
  destruct (decide (its = [])) as [-> |Hne'].
  { specialize (Hsum [] it eq_refl). simpl in Hsum. lia. }
  assert (0 < length its)%nat by (destruct its; simpl; [done|lia]).
  destruct (f32_lt (minThreshold d) (f32_of_Z (size + item_size it))) eqn:Ef.
  - rewrite bool_decide_true by lia. by eexists.
  - simpl. apply IH; [done|lia| | |done].
    + destruct (decide (m < size + item_size it)) as [Hgt|]; [|lia]. rewrite Hm in Ef by lia. done.
    + intros l x El. specialize (Hsum (it :: l) x ltac:(by rewrite El)). simpl in Hsum. lia.
Qed.

Lemma sum_sizes_app a b : sum_sizes (a ++ b) = sum_sizes a + sum_sizes b.
Proof. induction a as [|x a IH]; simpl; [done|]. rewrite IH. lia. Qed.

(** At the last item the loop does not stop any more. *)
Lemma split_loop_past d its total i size : Z.of_nat total - 1 <= Z.of_nat i -> split_loop d its total i size = None.
Proof.
  revert i size. induction its as [|it its IH]; intros i size Hi; [done|]. cbn [split_loop].
  rewrite (bool_decide_false (Z.of_nat i < _)), andb_false_r by lia. apply IH. lia.
Qed.

(** What is left of the index is at most an item above the threshold. *)
Lemma split_loop_prefix d m total its : forall i size s,
  (forall z, m < z <= m + 518 -> f32_lt (minThreshold d) (f32_of_Z z) = true) ->
  Forall item_ok its -> size <= m -> split_loop d its total i size = Some s ->
  (i < s)%nat /\ size + sum_sizes (take (s - i) its) <= m + 518.
Proof.
  induction its as [|it its IH]; intros i size s Hm Hit Hsz E; [done|]. apply Forall_cons in Hit as [Hi Hit].
  pose proof (item_size_le it Hi). cbn [split_loop] in E. destruct (_ && _) eqn:Ef.
  - injection E as <-. replace (i + 1 - i)%nat with 1%nat by lia. simpl. lia.
  - destruct (decide (m < size + item_size it)) as [Hgt|Hle].
    + rewrite Hm in Ef by lia. cbn [andb] in Ef. apply bool_decide_eq_false in Ef.
      by rewrite split_loop_past in E by lia.
    + destruct (IH (i + 1)%nat (size + item_size it) s Hm Hit ltac:(lia) E) as [Hs Hsum]. split; [lia|].
      replace (s - i)%nat with (S (s - (i + 1)))%nat by lia. simpl. lia.
Qed.

(** The thresholds leave room for an item on each side of the middle one. *)
Definition splits_apart (d : dal) : Prop :=
  forall n, Forall item_ok (items n) -> isOverPopulated d n = true ->
    exists s, getSplitIndex d n = Some s /\ (1 <= s /\ S s < length (items n))%nat.

Lemma splits_apart_splittable d : splits_apart d -> splittable d.
Proof. intros H n Hit Hov. destruct (H n Hit Hov) as (s & E & _). by eexists. Qed.

Lemma splits_apart_if d m mx :
  (forall z, 0 <= z <= mx -> f32_lt (maxThreshold d) (f32_of_Z z) = false) ->
  (forall z, m < z <= m + 518 -> f32_lt (minThreshold d) (f32_of_Z z) = true) ->
  3 <= m -> m + 1047 <= mx -> splits_apart d.
Proof.
  intros Hmax Hmin H3 Hgap n Hit Hover. unfold isOverPopulated in Hover.
  assert (mx < nodeSize n) as Hsz.
  { destruct (decide (mx < nodeSize n)); [done|]. rewrite Hmax in Hover; [done|]. split; [|lia].
    unfold nodeSize. pose proof (sum_sizes_bound (items n)). unfold nodeHeaderSize, pageNumSize. lia. }
  unfold nodeSize, nodeHeaderSize, pageNumSize in Hsz. unfold getSplitIndex.
  assert (is_Some (split_loop d (items n) (length (items n)) 0 (Z.of_nat nodeHeaderSize))) as [s E].
  2:{ exists s. split; [done|]. destruct (split_loop_prefix d m _ _ 0 3 s Hmin Hit H3 E) as [H0 Hpre].
      split; [lia|]. destruct (decide (S s < length (items n))%nat) as [|Hle]; [done|exfalso].
      rewrite Nat.sub_0_r in Hpre.
      assert (sum_sizes (items n) <= sum_sizes (take s (items n)) + 518).
      { rewrite <- (take_drop s (items n)) at 1. rewrite sum_sizes_app.
        assert (length (drop s (items n)) <= 1)%nat as Hl by (rewrite length_drop; lia).
        assert (Forall item_ok (drop s (items n))) as Hd by (by apply Forall_drop).
        destruct (drop s (items n)) as [|x [|? ?]]; simpl in *; [lia| |lia].
        apply Forall_cons in Hd as [Hx _]. pose proof (item_size_le x Hx). lia. }
      lia. }
  apply (split_loop_some d m); try done; unfold nodeHeaderSize.
  - intros l x El. rewrite El in Hit, Hsz. apply Forall_app in Hit as [_ [Hx _]%Forall_cons].
    pose proof (item_size_le x Hx). rewrite sum_sizes_app in Hsz. simpl in Hsz. lia.
  - intros E. rewrite E in Hsz. simpl in Hsz. lia.
Qed.

(** A condition on a range of integers, checked by computation. *)
Fixpoint range_all (f : Z -> bool) (lo : Z) (n : nat) : bool :=
  match n with O => true | S n => f lo && range_all f (lo + 1) n end.

Lemma range_all_ok f n : forall lo z, range_all f lo n = true -> lo <= z < lo + Z.of_nat n -> f z = true.
Proof.
  induction n as [|n IH]; intros lo z H Hz; [lia|]. cbn [range_all] in H. apply andb_true_iff in H as [H0 H].
  destruct (decide (z = lo)) as [-> |]; [done|]. apply (IH (lo + 1)); [done|lia].
Qed.

Definition default_dal (ps : Z) (d : dal) : Prop :=
  pageSize d = ps /\ minFillPercent d = MinFillPercent DefaultOptions /\
  maxFillPercent d = MaxFillPercent DefaultOptions.

Lemma splits_apart_default d ps hi lo m mx :
  default_dal ps d ->
  f32_mul (MaxFillPercent DefaultOptions) (f32_of_Z ps) = hi ->
  f32_mul (MinFillPercent DefaultOptions) (f32_of_Z ps) = lo ->
  range_all (fun z => negb (f32_lt hi (f32_of_Z z))) 0 (Z.to_nat (mx + 1)) = true ->
  range_all (fun z => f32_lt lo (f32_of_Z z)) (m + 1) 518 = true ->
  3 <= m -> m + 1047 <= mx -> splits_apart d.
Proof.
  intros (Hp & Hmin & Hmax) <- <- R1 R2 H3 Hgap. apply (splits_apart_if d m mx); [| |lia|lia].
  - intros z Hz. unfold maxThreshold. rewrite Hmax, Hp. apply negb_true_iff.
    by apply (range_all_ok _ _ _ z R1); lia.
  - intros z Hz. unfold minThreshold. rewrite Hmin, Hp. apply (range_all_ok _ _ _ z R2). lia.
Qed.

(** The thresholds are 15938355 / 2^12 and 2^11, and four times as much. *)
Lemma apart_4096 d : default_dal 4096 d -> splits_apart d.
Proof.
  intros H. apply (splits_apart_default d 4096 (SpecFloat.S754_finite false 15938355 (-12))
    (SpecFloat.S754_finite false 8388608 (-12)) 2048 3891 H); [vm_compute; done..|lia|lia].
Qed.

Lemma apart_16384 d : default_dal 16384 d -> splits_apart d.
Proof.
  intros H. apply (splits_apart_default d 16384 (SpecFloat.S754_finite false 15938355 (-10))
    (SpecFloat.S754_finite false 8388608 (-10)) 8192 15564 H); [vm_compute; done..|lia|lia].
Qed.

Lemma default_4096 d : default_dal 4096 d -> splittable d.
Proof. intros H. by apply splits_apart_splittable, apart_4096. Qed.
Lemma default_16384 d : default_dal 16384 d -> splittable d.
Proof. intros H. by apply splits_apart_splittable, apart_16384. Qed.

(** ** Properties *)

(** C1: [Put] of a valid pair on a collection of a write transaction succeeds,
    whatever splits it takes, up to a new root.  The collection shows a search
    tree of legal items on distinct live pages; its dirty nodes own their slices,
    so no node of it comes from a split of the same transaction; there are page
    numbers left; and the options let every overpopulated node of legal items be
    split ([collection_ok]).  Afterwards the collection shows a search tree whose
    contents are the old ones with the key set to the value, on distinct live
    pages, and every other live page shows what it did. *)
Theorem Put_correct {RT : GoRuntime} w p t fr k v fuel :
  collection_ok w p t fr -> item_validate (newItem k v) (pageSize (ddal (wdb w))) = Ok tt ->
  (height t <= fuel)%nat ->
  exists fr' t' w', Put fuel p k v w = (Ok tt, w') /\ put_tree p fr t (upsert k v (flatten t)) w fr' t' w'.
Proof. apply Put_gen. Qed.

(** C7: on a collection as in [Put_correct], what one [Put] of a valid pair
    stored, with any splits it took, [Find] finds in the same transaction; every
    other key has the item it had. *)
Theorem Put_then_Find {RT : GoRuntime} w p t fr k v fuel :
  collection_ok w p t fr -> item_validate (newItem k v) (pageSize (ddal (wdb w))) = Ok tt ->
  (height t <= fuel)%nat ->
  exists w', Put fuel p k v w = (Ok tt, w') /\ forall k', exists w'',
    Find (S fuel) p k' w' = (Ok (if decide (k' = k) then Some (newItem k v) else find_item k' (flatten t)), w'').
Proof.
  intros Hco Hv Hf. destruct (Put_gen w p t fr k v fuel Hco Hv Hf) as (fr' & t' & w' & E & P).
  exists w'. split; [done|]. intros k'. destruct P as [P1 (c & c' & Hp & Hp' & (_ & Htx & _) & Hr) P3 P4 P5 _ _ _ _ _ P11 _ _ _ _ _ _].
  destruct (Find_gen w' p c' t' k' (S fuel)) as (w'' & E2 & _); try done.
  - destruct (co_coll _ _ _ _ Hco) as (c0 & H0 & H1 & _). congruence.
  - rewrite P4. by apply upsert_sorted, (co_sorted _ _ _ _ Hco).
  - lia.
  - exists w''. rewrite E2, P4. case_decide as Hk; [subst; by rewrite find_upsert_eq|by rewrite find_upsert_ne].
Qed.

(** A [Put] that splits no node keeps the invariant its correctness rests
    on, so any number of such calls can follow each other in a transaction. *)
Theorem Put_keeps_invariant {RT : GoRuntime} w p t fr k v fuel :
  collection_ok w p t fr -> item_validate (newItem k v) (pageSize (ddal (wdb w))) = Ok tt ->
  (height t <= fuel)%nat ->
  exists fr' t' w', Put fuel p k v w = (Ok tt, w') /\ flatten t' = upsert k v (flatten t) /\
    (length (pages t') = length (pages t) -> collection_ok w' p t' fr' /\ same_form t t').
Proof.
  intros Hco Hv Hf. destruct (Put_gen w p t fr k v fuel Hco Hv Hf) as (fr' & t' & w' & E & P).
  exists fr', t', w'. split; [done|]. split; [apply P|]. intros Hl.
  destruct P as [P1 (c & c' & Hp & Hp' & (_ & Htx & Hrc) & Hr) P3 P4 P5 P6 P7 P8 P9 P10 P11 P12 P13 P14 P15 _ P16].
  destruct Hco as [_ Hw (c0 & H0 & H1 & H2 & H3) _ _ Hs Hit _ Hto [_ _ _ Hroom] Hspl].
  destruct (P16 Hl) as (-> & Hh & Ho & Hform). assert (c0 = c) as -> by congruence. split; [|done]. split; try done.
  - by rewrite P10.
  - exists c'. split; [done|]. split; [congruence|]. split; [done|].
    destruct H3 as [?|?]; [left; congruence|right; auto].
  - rewrite P4. by apply upsert_sorted.
  - rewrite P4. apply upsert_Forall_item; [by eapply item_validate_ok|done].
  - by apply Ho.
  - split; try done. by rewrite Hh.
  - by rewrite P14.
Qed.

(** C26: with the default fill percents and pages of 4096 or 16384 bytes
    (the page sizes of the usual machines), every overpopulated node of legal
    items can be split: [getSplitIndex] finds an index [s] with items on both
    sides, [s] of them before the middle item and at least one after it. *)
Theorem default_options_always_split d n :
  default_dal 4096 d \/ default_dal 16384 d -> Forall item_ok (items n) -> isOverPopulated d n = true ->
  exists s, getSplitIndex d n = Some s /\ (1 <= s /\ S s < length (items n))%nat.
Proof. intros [Hd|Hd] Hit Hover; [by apply apart_4096|by apply apart_16384]. Qed.

Definition demo_full : node := Node 1 ((fun i => newItem [Z.of_nat i] (replicate 200 0)) <$> seq 0 20) [].

Lemma default_options_always_split_witness :
  exists s, getSplitIndex (Dal 4096 (f32_const 1 2) (f32_const 95 100) None false None (Meta 0 0) (Freelist 0 [])) demo_full =
    Some s /\ (1 <= s /\ S s < length (items demo_full))%nat.
Proof.
  apply default_options_always_split.
  - left. vm_compute. by repeat split.
  - repeat constructor; simpl; lia.
  - vm_compute. reflexivity.
Defined.

Lemma demo_collection_ok : collection_ok demo_world 0 demo_tree (Freelist 4 []).
Proof.
  split.
  - exact demo_world_ok.
  - done.
  - exists (Collection [99] 2 0 true false false). repeat (split; [done|]). right. by eexists.
  - exact demo_repr.
  - exact demo_shape.
  - exact demo_sorted.
  - simpl. repeat constructor; simpl; lia.
  - split; [by apply (bool_decide_unpack _)|].
    repeat constructor; simpl; unfold metaPage; try lia; apply not_elem_of_nil.
  - exact demo_owned.
  - split; [by eexists|done| |simpl; lia]. split; simpl; [lia|constructor|constructor].
  - by apply default_4096.
Qed.

Lemma Put_correct_witness :
  exists fr' t' w', Put 2 0 [6] [60] demo_world = (Ok tt, w') /\
    put_tree 0 (Freelist 4 []) demo_tree
      [demo_item 1 10; demo_item 3 30; demo_item 5 50; demo_item 6 60; demo_item 7 70] demo_world fr' t' w'.
Proof.
  apply (Put_correct demo_world 0 demo_tree (Freelist 4 []) [6] [60] 2 demo_collection_ok).
  - vm_compute. reflexivity.
  - simpl. lia.
Defined.

Lemma Put_then_Find_witness :
  exists w', Put 2 0 [5] [51] demo_world = (Ok tt, w') /\ forall k', exists w'',
    Find 3 0 k' w' =
      (Ok (if decide (k' = [5]) then Some (newItem [5] [51]) else find_item k' (flatten demo_tree)), w'').
Proof.
  apply (Put_then_Find demo_world 0 demo_tree (Freelist 4 []) [5] [51] 2 demo_collection_ok).
  - vm_compute. reflexivity.
  - simpl. lia.
Defined.

Lemma Put_keeps_invariant_witness :
  exists fr' t' w', Put 2 0 [6] [60] demo_world = (Ok tt, w') /\
    flatten t' = [demo_item 1 10; demo_item 3 30; demo_item 5 50; demo_item 6 60; demo_item 7 70] /\
    (length (pages t') = 3%nat -> collection_ok w' 0 t' fr' /\ same_form demo_tree t').
Proof.
  apply (Put_keeps_invariant demo_world 0 demo_tree (Freelist 4 []) [6] [60] 2 demo_collection_ok).
  - vm_compute. reflexivity.
  - simpl. lia.
Defined.
