(* ===== verification/Rebalance.v ===== *)
(** * Rebalancing after a removal, in the world

    [rebalanceRemove] (node.go) on a tree one of whose children is
    underpopulated: whichever of the two rotations and the two merges it takes,
    the tree keeps its contents, its leaves stay on one level, and exactly the
    pages that left the tree are scheduled for release. *)

From S2P Require Import Prelude Freelist Meta Node Float32 Dal GoSlice World Tree Heap Contents Split Search Shrink Rotate Insert.

Open Scope Z_scope.

(** ** Worlds that differ on some pages *)

(** Only the pages [P] show something else, and the pages [del] have been
    scheduled for release. *)
Record patched (P del : list Z) (w w' : world) : Prop := {
  pa_ok : world_ok w';
  pa_pages : forall pn, pn ∉ P -> page_node pn w' = page_node pn w;
  pa_dirty : forall pn, pn ∉ P -> dirty_at w' pn = dirty_at w pn;
  pa_points : forall q m, pageNum m ∉ P -> points w q m -> points w' q m;
  pa_owned : forall q, owned w q -> owned w' q;
  pa_colls : forall p c, collsH w !! p = Some c -> collsH w' !! p = Some c;
  pa_tx : exists o, wtx w' = with_dirty o (with_toDelete (pagesToDelete (wtx w) ++ del) (wtx w));
  pa_some : is_Some (dirtyNodes (wtx w)) -> is_Some (dirtyNodes (wtx w'));
  pa_db : wdb w' = wdb w;
  pa_nums : same_numbers w w'
}.

Lemma with_dirty_id t : with_dirty (dirtyNodes t) t = t.
Proof. by destruct t. Qed.
Lemma with_toDelete_id t : with_toDelete (pagesToDelete t ++ []) t = t.
Proof. destruct t. unfold with_toDelete. simpl. by rewrite app_nil_r. Qed.

Lemma same_tx_patched (w w' : world) :
  wtx w' = wtx w -> exists o, wtx w' = with_dirty o (with_toDelete (pagesToDelete (wtx w) ++ []) (wtx w)).
Proof. intros ->. exists (dirtyNodes (wtx w)). by rewrite with_toDelete_id, with_dirty_id. Qed.

Lemma patched_trans P d1 d2 w1 w2 w3 :
  patched P d1 w1 w2 -> patched P d2 w2 w3 -> patched P (d1 ++ d2) w1 w3.
Proof.
  intros [O1 G1 D1 Q1 W1 C1 [o1 T1] S1 B1 N1] [O2 G2 D2 Q2 W2 C2 [o2 T2] S2 B2 N2]. split; try done; try congruence; auto.
  - intros pn Hpn. by rewrite G2, G1.
  - intros pn Hpn. by rewrite D2, D1.
  - exists o2. rewrite T2, T1. unfold with_toDelete, with_dirty. cbn. by rewrite app_assoc.
  - by etrans.
Qed.

Lemma patched_mono P Q d w w' : P ⊆ Q -> patched P d w w' -> patched Q d w w'.
Proof. intros H [O G D Q1 W C T S B N]. split; try done; intros; [apply G|apply D|apply Q1]; set_solver. Qed.

Section patch.
Context {RT : GoRuntime}.

Lemma reads_patched P w w' : world_ok w -> reads w w' -> patched P [] w w'.
Proof.
  intros Hok R. pose proof (reads_extends _ _ R) as X. split; [exact (reads_ok _ _ R)|..|exact (ext_db _ _ X)|].
  - intros. by apply reads_page.
  - intros. by apply extends_dirty.
  - intros q m _. by apply reads_points.
  - exact (reads_owned _ _ R).
  - intros p c Hp. by apply (coll_after w).
  - apply same_tx_patched, (ext_tx _ _ X).
  - by rewrite (ext_tx _ _ X).
  - intros q r Hr. exists r. split; [by apply (extends_lookup w)|done].
Qed.

Lemma mutated_patched P ps w w' :
  world_ok w -> (forall q, q ∈ ps -> exists n, points w q n /\ pageNum n ∈ P) -> mutated ps w w' -> patched P [] w w'.
Proof.
  intros Hok Hps M. split; [exact (md_ok _ _ _ M)|..|exact (md_db _ _ _ M)|exact (md_nums _ _ _ M)].
  - intros pn Hpn. apply (md_page _ _ _ M). intros p Hd Hp. destruct (Hps p Hp) as (n & (r & Hr & <-) & Hn).
    destruct (ok_dirty _ Hok pn p Hd) as (r' & Hr' & <-). rewrite Hr in Hr'. simplify_eq. done.
  - intros pn _. unfold dirty_at. by rewrite (md_tx _ _ _ M).
  - intros q m Hm Hq. apply (md_points _ _ _ M); [|done]. intros Hin. destruct (Hps q Hin) as (n & Hn & Hp).
    by rewrite (points_inj _ _ _ _ Hq Hn) in Hm.
  - exact (md_owned _ _ _ M).
  - intros p c. by rewrite (md_colls _ _ _ M).
  - apply same_tx_patched, (md_tx _ _ _ M).
  - by rewrite (md_tx _ _ _ M).
Qed.

(** [writeNode] files a node under its page. *)
Lemma tx_writeNode_patched w p n :
  world_ok w -> points w p n -> is_Some (dirtyNodes (wtx w)) ->
  exists w', tx_writeNode p w = (Ok p, w') /\ patched [pageNum n] [] w w' /\ nodesH w' = nodesH w /\
    (forall q m, points w' q m <-> points w q m) /\ page_node (pageNum n) w' = Ok n /\
    (forall pn, dirty_at w' pn = if decide (pn = pageNum n) then Some p else dirty_at w pn).
Proof.
  intros Hok (r & Hr & Hn) [m Hm]. destruct (tx_writeNode_ok w p r m Hok Hr Hm) as (E & Ok1 & G1 & F1).
  set (w1 := with_wtx _ w) in *. assert (r_pageNum r = pageNum n) as Hpg by (by rewrite <- Hn). rewrite Hpg in *.
  assert (forall pn, dirty_at w1 pn = if decide (pn = pageNum n) then Some p else dirty_at w pn) as Hd1.
  { intros pn. unfold dirty_at, w1. simpl. rewrite Hm. simpl. case_decide; subst; by simplify_map_eq. }
  exists w1. split; [done|]. split; [|split; [done|split; [done|split; [by rewrite G1, Hn|done]]]]. split; try done.
  - intros pn Hpn. apply F1. intros ->. apply Hpn. left.
  - intros pn Hpn. rewrite Hd1, decide_False; [done|]. intros ->. apply Hpn. left.
  - eexists. unfold w1. cbn [wtx with_wtx]. by rewrite with_toDelete_id.
  - intros q x Hx. by exists x.
Qed.

(** [writeNodes] files each node under its page. *)
Lemma writeNodes_ok ps : forall w P,
  world_ok w -> is_Some (dirtyNodes (wtx w)) -> (forall q, q ∈ ps -> exists n, points w q n /\ pageNum n ∈ P) ->
  (forall q q' n n', q ∈ ps -> q' ∈ ps -> points w q n -> points w q' n' -> pageNum n = pageNum n' -> q = q') ->
  exists w', writeNodes ps w = (Ok tt, w') /\ patched P [] w w' /\ nodesH w' = nodesH w /\
    (forall q n, points w q n -> points w' q n) /\
    (forall q n, q ∈ ps -> points w q n -> dirty_at w' (pageNum n) = Some q /\ page_node (pageNum n) w' = Ok n) /\
    (forall pn, (forall q n, q ∈ ps -> points w q n -> pageNum n <> pn) -> dirty_at w' pn = dirty_at w pn).
Proof.
  induction ps as [|p ps IH]; intros w P Hok Hd Hps Hinj.
  { exists w. split; [done|]. split; [by apply (reads_patched P w w Hok), reads_refl|]. split; [done|]. split; [done|].
    split; [set_solver|done]. }
  destruct (Hps p ltac:(left)) as (n & Hp & HnP).
  destruct (tx_writeNode_patched w p n Hok Hp Hd) as (w1 & E & P1 & N1 & Hpts & G1 & Hd1).
  destruct (IH w1 P (pa_ok _ _ _ _ P1) (pa_some _ _ _ _ P1 Hd)) as (w' & E' & Hpa & N' & Hq' & Hfil & Hoth).
  { intros q Hq. setoid_rewrite Hpts. apply Hps. by right. }
  { intros q q' x x' H1 H2. rewrite !Hpts. apply Hinj; by right. }
  exists w'. split; [unfold writeNodes in *; cbn [mapM_]; rewrite bind_assoc; mstep E; by rewrite bind_ret|].
  split; [apply (patched_trans P [] [] w w1 w'); [|done]; eapply patched_mono; [|exact P1]; set_solver|].
  split; [by rewrite N'|]. split; [intros q x Hq; by apply Hq', Hpts|].
  assert (forall q x, q ∈ p :: ps -> points w q x -> q ∉ ps -> q = p) as Hhd by set_solver. split.
  - intros q x Hq Hx. destruct (decide (q ∈ ps)) as [Hin|Hnin]; [by apply (Hfil q x Hin), Hpts|].
    pose proof (Hhd q x Hq Hx Hnin) as ->. pose proof (points_inj _ _ _ _ Hp Hx) as <-.
    assert (dirty_at w' (pageNum n) = Some p) as Hdp.
    { rewrite Hoth; [by rewrite Hd1, decide_True|]. intros y x Hy Hx'%Hpts Hpn. apply Hnin.
      by rewrite <- (Hinj y p x n ltac:(by right) ltac:(by left) Hx' Hp Hpn). }
    split; [done|]. unfold page_node. rewrite Hdp. destruct (Hq' p n (proj2 (Hpts _ _) Hp)) as (r' & -> & <-). done.
  - intros pn Hpn. rewrite Hoth; [|intros q x Hq Hx%Hpts; apply (Hpn q); [by right|done]].
    rewrite Hd1, decide_False; [done|]. intros ->. by apply (Hpn p n ltac:(by left) Hp).
Qed.

(** The case of two nodes. *)
Lemma writePair_ok w q1 q2 n1 n2 P :
  world_ok w -> is_Some (dirtyNodes (wtx w)) -> points w q1 n1 -> points w q2 n2 -> pageNum n1 <> pageNum n2 ->
  pageNum n1 ∈ P -> pageNum n2 ∈ P ->
  exists w', writeNodes [q1; q2] w = (Ok tt, w') /\ patched P [] w w' /\
    (forall q n, points w q n -> points w' q n) /\
    (dirty_at w' (pageNum n1) = Some q1 /\ page_node (pageNum n1) w' = Ok n1) /\
    (dirty_at w' (pageNum n2) = Some q2 /\ page_node (pageNum n2) w' = Ok n2).
Proof.
  intros Hok Hd H1 H2 Hne P1 P2.
  destruct (writeNodes_ok [q1; q2] w P Hok Hd) as (w' & E & Hpa & _ & Hpts & Hfil & _).
  - intros y [-> | ->%list_elem_of_singleton]%elem_of_cons; eauto.
  - intros y y' n n' [-> | ->%list_elem_of_singleton]%elem_of_cons [-> | ->%list_elem_of_singleton]%elem_of_cons Hy Hy' Epn;
      try done; destruct Hne.
    + by rewrite (points_inj _ _ _ _ H1 Hy), (points_inj _ _ _ _ H2 Hy').
    + by rewrite (points_inj _ _ _ _ H1 Hy'), (points_inj _ _ _ _ H2 Hy).
  - exists w'. do 3 (split; [done|]). split; apply Hfil; done || set_solver.
Qed.

(** [deleteNode] schedules the page of a node for release. *)
Lemma tx_deleteNode_ok w p n P :
  world_ok w -> points w p n ->
  exists w', tx_deleteNode p w = (Ok tt, w') /\ patched P [pageNum n] w w' /\
    (forall pn, page_node pn w' = page_node pn w) /\ (forall pn, dirty_at w' pn = dirty_at w pn) /\
    (forall q m, points w q m -> points w' q m).
Proof.
  intros Hok (r & Hr & <-). eexists. split; [unfold tx_deleteNode; by erewrite bind_Ok by (unfold load_node; by rewrite Hr)|].
  split; [|done]. split; try done; [by destruct Hok|..].
  - exists (dirtyNodes (wtx w)). by destruct (wtx w).
  - intros q x Hx. by exists x.
Qed.

(** ** What rebalancing leaves *)

(** [t] has become [t']: the same contents, and the pages that left it are
    scheduled for release. *)
Record reshaped (n : nat) (t : tree) (w : world) (t' : tree) (w' : world) : Prop := {
  rp_shrunk : shrunk n t t';
  rp_patched : exists gone, pages t ≡ₚ gone ++ pages t' /\ patched (pages t) gone w w';
  rp_repr : repr w' t';
  rp_tree : tree_owned w' t'
}.

Lemma reshaped_refl n t w :
  world_ok w -> repr w t -> shape t -> level n t -> tree_owned w t -> reshaped n t w t w.
Proof.
  intros. split; [by apply shrunk_refl| |done|done]. exists []. split; [done|]. by apply reads_patched, reads_refl.
Qed.

Lemma reshaped_trans n t1 t2 t3 w1 w2 w3 :
  reshaped n t1 w1 t2 w2 -> reshaped n t2 w2 t3 w3 -> reshaped n t1 w1 t3 w3.
Proof.
  intros [S1 (g1 & E1 & P1) R1 O1] [S2 (g2 & E2 & P2) R2 O2].
  split; [by eapply shrunk_trans| |done|done]. exists (g1 ++ g2). split; [by rewrite E1, E2, app_assoc|].
  eapply patched_trans; [exact P1|]. eapply patched_mono; [|exact P2].
  intros x Hx. rewrite E1. apply elem_of_app. by right.
Qed.

(** ** Two neighbours have changed *)

Lemma neighbours_pages t i K1 a c K2 I1 m I2 :
  neighbours t i K1 a c K2 I1 m I2 ->
  pages t ≡ₚ [t_page t; t_page a; t_page c] ++ concat (pages <$> (K1 ++ (t_kids a ++ t_kids c) ++ K2)).
Proof.
  intros [Hk _ _ _]. rewrite (pages_kids t), Hk, !fmap_app, !fmap_cons, !concat_app. cbn [concat].
  rewrite ?concat_app, (pages_kids a), (pages_kids c). cbn [app]. solve_Permutation.
Qed.

(** The other subtrees show what they did. *)
Lemma neighbours_rest w w' del t i K1 a c K2 I1 m I2 :
  repr w t -> NoDup (pages t) -> neighbours t i K1 a c K2 I1 m I2 ->
  patched [t_page t; t_page a; t_page c] del w w' ->
  Forall (repr w') (K1 ++ (t_kids a ++ t_kids c) ++ K2).
Proof.
  intros Hr Hnd Hnb Hpa. rewrite (neighbours_pages _ _ _ _ _ _ _ _ _ Hnb) in Hnd.
  apply NoDup_app in Hnd as (_ & Hdis & _). apply repr_unfold in Hr as [_ Hk].
  destruct (Forall_neighbours _ _ _ _ _ _ _ _ _ _ Hnb Hk) as (H1 & [_ Ha]%repr_unfold & [_ Hc]%repr_unfold & H2).
  assert (Forall (repr w) (K1 ++ (t_kids a ++ t_kids c) ++ K2)) as HF by (rewrite !Forall_app; auto).
  rewrite Forall_forall in HF |- *. intros x Hx. apply (repr_frame w); [|by apply HF].
  intros pn Hpn. apply (pa_pages _ _ _ _ Hpa). intros Hin. apply (Hdis pn Hin).
  apply list_elem_of_In, in_concat. exists (pages x). split; apply list_elem_of_In; [|done].
  apply list_elem_of_fmap. by exists x.
Qed.

(** The dirty nodes of the rest of the tree own their slices still. *)
Lemma tree_owned_patched w w' P del t t' :
  patched P del w w' -> tree_owned w t -> pages t' ⊆ pages t ->
  (forall pn p, pn ∈ P -> pn ∈ pages t' -> dirty_at w' pn = Some p -> owned w' p) -> tree_owned w' t'.
Proof.
  intros Hpa Hto Hsub HP pn p Hpn Hd. destruct (decide (pn ∈ P)) as [Hin|Hnin]; [by apply (HP pn)|].
  rewrite (pa_dirty _ _ _ _ Hpa pn Hnin) in Hd. apply (pa_owned _ _ _ _ Hpa). apply (Hto pn); [by apply Hsub|done].
Qed.

(** A rotation in the world. *)
Lemma exchanged_world n t w i K1 a c K2 I1 m I2 a' x c' w' :
  repr w t -> shape t -> level (S n) t -> NoDup (pages t) -> tree_owned w t ->
  neighbours t i K1 a c K2 I1 m I2 -> exchanged n a m c a' x c' ->
  let t' := Tree (t_page t) (I1 ++ x :: I2) (K1 ++ a' :: c' :: K2) in
  patched [t_page t; t_page a; t_page c] [] w w' ->
  page_node (t_page t) w' = Ok (t_node t') -> page_node (t_page a) w' = Ok (t_node a') ->
  page_node (t_page c) w' = Ok (t_node c') ->
  (forall pn p, pn ∈ [t_page t; t_page a; t_page c] -> dirty_at w' pn = Some p -> owned w' p) ->
  reshaped (S n) t w t' w'.
Proof.
  intros Hr Hsh Hl Hnd Hto Hnb Hex t' Hpa Gt Ga Gc Hown.
  pose proof (exchanged_shrunk n t i K1 a c K2 I1 m I2 a' x c' Hsh Hl Hnb Hex) as HS. fold t' in HS.
  pose proof (neighbours_rest w w' [] t i K1 a c K2 I1 m I2 Hr Hnd Hnb Hpa) as HF.
  pose proof (neighbours_pages _ _ _ _ _ _ _ _ _ Hnb) as Ep. destruct Hex as [Ea Ec _ _ _ Ek].
  rewrite <- Ek in HF. apply Forall_app in HF as [HF1 HF]. apply Forall_app in HF as [HFm HF2].
  apply Forall_app in HFm as [HFa HFc].
  assert (pages t ≡ₚ pages t') as Epp.
  { rewrite Ep. unfold t'. rewrite pages_unfold. change (map pages) with (fmap (M := list) pages).
    rewrite <- Ek, !fmap_app, !fmap_cons, !concat_app. cbn [concat]. rewrite (pages_kids a'), (pages_kids c'), Ea, Ec.
    rewrite ?concat_app. cbn [app]. solve_Permutation. }
  split; [done| | |].
  - exists []. split; [done|]. eapply patched_mono; [|exact Hpa]. intros pn Hpn. rewrite Ep. set_solver.
  - apply repr_unfold. split; [done|]. unfold t'. cbn [t_kids]. apply Forall_app. split; [done|].
    constructor; [|constructor; [|done]]; apply repr_unfold; rewrite ?Ea, ?Ec; done.
  - eapply tree_owned_patched; [exact Hpa|done| |].
    + intros pn Hpn. by rewrite Epp.
    + intros pn p Hin _. by apply Hown.
Qed.

(** A merge in the world. *)
Lemma merged_world n t w i K1 a c K2 I1 m I2 w' :
  repr w t -> shape t -> level (S n) t -> NoDup (pages t) -> tree_owned w t ->
  neighbours t i K1 a c K2 I1 m I2 ->
  let t' := Tree (t_page t) (I1 ++ I2) (K1 ++ merged a m c :: K2) in
  patched [t_page t; t_page a; t_page c] [t_page c] w w' ->
  page_node (t_page t) w' = Ok (t_node t') -> page_node (t_page a) w' = Ok (t_node (merged a m c)) ->
  (forall pn p, pn ∈ [t_page t; t_page a] -> dirty_at w' pn = Some p -> owned w' p) ->
  reshaped (S n) t w t' w'.
Proof.
  intros Hr Hsh Hl Hnd Hto Hnb t' Hpa Gt Ga Hown.
  pose proof (merged_shrunk n t i K1 a c K2 I1 m I2 Hsh Hl Hnb) as HS. fold t' in HS.
  pose proof (neighbours_rest w w' _ t i K1 a c K2 I1 m I2 Hr Hnd Hnb Hpa) as HF.
  pose proof (neighbours_pages _ _ _ _ _ _ _ _ _ Hnb) as Ep.
  apply Forall_app in HF as [HF1 HF]. apply Forall_app in HF as [HFm HF2].
  assert (pages t ≡ₚ [t_page c] ++ pages t') as Epp.
  { rewrite Ep. unfold t'. rewrite pages_unfold. change (map pages) with (fmap (M := list) pages).
    rewrite !fmap_app, !fmap_cons, !concat_app. cbn [concat]. rewrite (pages_kids (merged a m c)).
    unfold merged. cbn [t_page t_kids]. rewrite fmap_app, !concat_app. cbn [app]. solve_Permutation. }
  split; [done| | |].
  - exists [t_page c]. split; [done|]. eapply patched_mono; [|exact Hpa]. intros pn Hpn. rewrite Ep. set_solver.
  - apply repr_unfold. split; [done|]. unfold t'. cbn [t_kids]. apply Forall_app. split; [done|].
    constructor; [|done]. by apply repr_unfold.
  - eapply tree_owned_patched; [exact Hpa|done| |].
    + intros pn Hpn. rewrite Epp. apply elem_of_app. by right.
    + rewrite Epp in Hnd. apply NoDup_app in Hnd as (_ & Hdis & _).
      intros pn p [->|[->|[->|[]%not_elem_of_nil]%elem_of_cons]%elem_of_cons]%elem_of_cons Hpn Hd.
      * eapply Hown; [|exact Hd]. left.
      * eapply Hown; [|exact Hd]. right. left.
      * exfalso. by apply (Hdis (t_page c)); [left|].
Qed.

(** ** From nodes to trees *)

Lemma moves_last_kids (kids : list tree) ka k :
  moves_last (t_page <$> kids) ka k ->
  exists ka' k', ka = t_page <$> ka' /\ k = t_page <$> k' /\
    (kids = [] /\ ka' = [] /\ k' = [] \/ exists y, k' = [y] /\ kids = ka' ++ [y]).
Proof.
  intros [(E & -> & ->)|(y & -> & E)].
  - exists [], []. split; [done|]. split; [done|]. left. by apply fmap_nil_inv in E.
  - apply fmap_app_inv in E as (ka' & [|z [|? ?]] & E1 & E2 & ->); simplify_eq/=.
    exists ka', [z]. split; [done|]. split; [done|]. right. by exists z.
Qed.

Lemma moves_first_kids (kids : list tree) kc k :
  moves_first (t_page <$> kids) kc k ->
  exists kc' k', kc = t_page <$> kc' /\ k = t_page <$> k' /\
    (kids = [] /\ kc' = [] /\ k' = [] \/ exists y, k' = [y] /\ kids = y :: kc').
Proof.
  intros [(E & -> & ->)|(y & -> & E)].
  - exists [], []. split; [done|]. split; [done|]. left. by apply fmap_nil_inv in E.
  - destruct kids as [|z kids]; [done|]. rewrite fmap_cons in E. simplify_eq.
    exists kids, [z]. split; [done|]. split; [done|]. right. by exists z.
Qed.

(** The three nodes of a rebalancing step, as a [trio]. *)
Lemma neighbours_trio w t i K1 a c K2 I1 m I2 pa pp pc :
  NoDup (pages t) -> neighbours t i K1 a c K2 I1 m I2 ->
  handle w pa a -> handle w pp t -> handle w pc c -> trio w pa pp pc (t_node a) (t_node t) (t_node c).
Proof.
  intros Hnd Hnb [Ha Oa] [Ht Ot] [Hc Oc]. rewrite (neighbours_pages _ _ _ _ _ _ _ _ _ Hnb) in Hnd.
  apply NoDup_app in Hnd as (Hnd & _ & _). repeat setoid_rewrite NoDup_cons in Hnd. destruct Hnd as (H1 & H2 & _).
  assert (forall q n q' n', points w q n -> points w q' n' -> pageNum n <> pageNum n' -> q <> q') as Hne.
  { intros q n q' n' H H' Hn ->. by rewrite (points_inj _ _ _ _ H H') in Hn. }
  split; try done.
  - apply (Hne _ _ _ _ Ha Ht). simpl. intros E. apply H1. rewrite E. left.
  - apply (Hne _ _ _ _ Ha Hc). simpl. intros E. apply H2. rewrite E. left.
  - apply (Hne _ _ _ _ Ht Hc). simpl. intros E. apply H1. rewrite E. right. left.
Qed.

(** The three are filed: what is dirty under their pages. *)
Lemma trio_filed w pa pp pc na np nc ps P :
  world_ok w -> is_Some (dirtyNodes (wtx w)) -> trio w pa pp pc na np nc -> ps ≡ₚ [pa; pp; pc] ->
  NoDup [pageNum np; pageNum na; pageNum nc] -> P = [pageNum np; pageNum na; pageNum nc] ->
  exists w', writeNodes ps w = (Ok tt, w') /\ patched P [] w w' /\
    page_node (pageNum np) w' = Ok np /\ page_node (pageNum na) w' = Ok na /\ page_node (pageNum nc) w' = Ok nc /\
    (forall pn p, pn ∈ P -> dirty_at w' pn = Some p -> owned w' p) /\ points w' pp np.
Proof.
  intros Hok Hd [Nap Nac Npc Ha Hp Hc Oa Op Oc] Eps Hnd ->.
  repeat setoid_rewrite NoDup_cons in Hnd. destruct Hnd as (H1 & H2 & _).
  assert (forall q, q ∈ ps <-> q = pa \/ q = pp \/ q = pc) as Hin.
  { intros q. rewrite Eps, !elem_of_cons, elem_of_nil. tauto. }
  assert (forall q n, q ∈ ps -> points w q n -> q = pa /\ n = na \/ q = pp /\ n = np \/ q = pc /\ n = nc) as Hq.
  { intros q n [->|[-> | ->]]%Hin H; [left|right; left|right; right]; (split; [done|by eapply points_inj]). }
  destruct (writeNodes_ok ps w [pageNum np; pageNum na; pageNum nc] Hok Hd) as (w' & E & Hpa & _ & Hpts & Hfil & Hoth).
  - intros q [->|[-> | ->]]%Hin; eexists; (split; [eassumption|]); rewrite !elem_of_cons; auto.
  - intros q q' n n' Hi Hi' Hn Hn' Epn.
    apply not_elem_of_cons in H1 as [? [? _]%not_elem_of_cons]. apply not_elem_of_cons in H2 as [? _].
    destruct (Hq q n Hi Hn) as [[-> ->]|[[-> ->]|[-> ->]]], (Hq q' n' Hi' Hn') as [[-> ->]|[[-> ->]|[-> ->]]];
      congruence.
  - destruct (Hfil pa na) as [Da Ga]; [by apply Hin; auto|done|].
    destruct (Hfil pp np) as [Dp Gp]; [by apply Hin; auto|done|].
    destruct (Hfil pc nc) as [Dc Gc]; [by apply Hin; auto|done|].
    exists w'. do 5 (split; [done|]). split; [|by apply Hpts].
    intros pn p [->|[->|[->|[]%not_elem_of_nil]%elem_of_cons]%elem_of_cons]%elem_of_cons Hd';
      simplify_eq; by apply (pa_owned _ _ _ _ Hpa).
Qed.

(** ** The three kinds of step *)

(** What a step on the children of [t] leaves at the node [p] of [t]: filled
    children, at most one item less, and the first child where it was. *)
Record adjusted (n : nat) (t : tree) (w : world) (t' : tree) (w' : world) (p : node_ptr) : Prop := {
  ad_reshaped : reshaped (S n) t w t' w';
  ad_handle : handle w' p t';
  ad_filled : Forall filled (t_kids t');
  ad_items : (length (t_items t) <= S (length (t_items t')))%nat;
  ad_first : t_page <$> (t_kids t' !! 0%nat) = t_page <$> (t_kids t !! 0%nat)
}.

(** All children but number [i] are filled, and that one's children are. *)
Definition filled_around (i : nat) (t : tree) : Prop :=
  forall j c, t_kids t !! j = Some c -> if decide (j = i) then Forall filled (t_kids c) else filled c.

Lemma filled_sides t i j K1 a c K2 I1 m I2 :
  neighbours t i K1 a c K2 I1 m I2 -> filled_around j t -> (j = i \/ j = S i) ->
  Forall filled K1 /\ Forall filled (t_kids a ++ t_kids c) /\ Forall filled K2 /\
  (if decide (j = i) then filled c else filled a).
Proof.
  intros [Hk _ Lk _] Hf Hj.
  assert (forall x y, t_kids t !! x = Some y -> x <> i -> x <> S i -> filled y) as Hside.
  { intros x y Hx H1 H2. specialize (Hf x y Hx). rewrite decide_False in Hf by (destruct Hj; lia). done. }
  assert (t_kids t !! i = Some a) as Ha by (rewrite Hk, <- Lk; by apply list_lookup_middle).
  assert (t_kids t !! S i = Some c) as Hc.
  { rewrite Hk, lookup_app_r by lia. by replace (S i - length K1)%nat with 1%nat by lia. }
  split; [|split; [|split]].
  - apply Forall_lookup. intros x y Hx. pose proof (lookup_lt_Some _ _ _ Hx). apply (Hside x); [|lia..].
    rewrite Hk. by apply lookup_app_l_Some.
  - assert (forall y, filled y -> Forall filled (t_kids y)) as Hk' by (by intros y [_ ?]%filled_unfold).
    pose proof (Hf i a Ha) as HA. pose proof (Hf (S i) c Hc) as HC. apply Forall_app.
    split; [destruct (decide _) in HA|destruct (decide _) in HC]; auto.
  - apply Forall_lookup. intros x y Hx. apply (Hside (S (S i) + x)%nat); [|lia..].
    rewrite Hk, lookup_app_r by lia. by replace (S (S i) + x - length K1)%nat with (S (S x)) by lia.
  - pose proof (Hf i a Ha) as HA. pose proof (Hf (S i) c Hc) as HC. repeat case_decide; try done; lia.
Qed.

(** The new kids are filled when the two exchanged nodes hold items. *)
Lemma exchanged_filled n a m c a' x c' K1 K2 :
  exchanged n a m c a' x c' -> Forall filled K1 -> Forall filled (t_kids a ++ t_kids c) -> Forall filled K2 ->
  t_items a' <> [] -> t_items c' <> [] -> Forall filled (K1 ++ a' :: c' :: K2).
Proof.
  intros Hex F1 F F2 Ia Ic. rewrite <- (ex_kids _ _ _ _ _ _ _ Hex) in F. apply Forall_app in F as [Fa Fc].
  apply Forall_app. split; [done|]. by repeat (constructor; [by apply filled_unfold|]).
Qed.

Lemma first_page (t : tree) i K1 a c K2 I1 m I2 a' L :
  neighbours t i K1 a c K2 I1 m I2 -> t_page a' = t_page a ->
  t_page <$> ((K1 ++ a' :: L) !! 0%nat) = t_page <$> (t_kids t !! 0%nat).
Proof. intros [-> _ _ _] E. destruct K1; simpl; [by rewrite E|done]. Qed.

Section step.
Context (w : world) (t : tree) (n i : nat) (K1 : list tree) (a c : tree) (K2 : list tree)
  (I1 : list Item) (m : Item) (I2 : list Item) (pa pp pc : node_ptr)
  (Hok : world_ok w) (Hr : repr w t) (Hsh : shape t) (Hl : level (S n) t) (Hnd : NoDup (pages t))
  (Hto : tree_owned w t) (Hd : is_Some (dirtyNodes (wtx w)))
  (Hnb : neighbours t i K1 a c K2 I1 m I2)
  (Ha : handle w pa a) (Hp : handle w pp t) (Hc : handle w pc c).

Lemma three_nodup : NoDup [t_page t; t_page a; t_page c].
Proof. pose proof Hnd as H. rewrite (neighbours_pages _ _ _ _ _ _ _ _ _ Hnb) in H. by apply NoDup_app in H as (? & _). Qed.

Lemma trio_patched w' : mutated [pa; pp; pc] w w' -> patched [t_page t; t_page a; t_page c] [] w w'.
Proof.
  intros M. apply (mutated_patched _ [pa; pp; pc] w w' Hok); [|exact M].
  intros q [->|[->|[->|[]%not_elem_of_nil]%elem_of_cons]%elem_of_cons]%elem_of_cons.
  - exists (t_node a). split; [apply Ha|]. right. left.
  - exists (t_node t). split; [apply Hp|]. left.
  - exists (t_node c). split; [apply Hc|]. right. right. left.
Qed.

Lemma pair_shape : shape a /\ shape c /\ level n a /\ level n c.
Proof.
  pose proof Hsh as Hs. apply shape_unfold in Hs as [_ Hs]. destruct Hl as [_ Hl'].
  destruct (Forall_neighbours _ _ _ _ _ _ _ _ _ _ Hnb Hs) as (_ & ? & ? & _).
  by destruct (Forall_neighbours _ _ _ _ _ _ _ _ _ _ Hnb Hl') as (_ & ? & ? & _).
Qed.

Lemma parent_node x a' c' :
  t_page a' = t_page a -> t_page c' = t_page c ->
  Node (t_page t) (<[i := x]> (t_items t)) (t_page <$> t_kids t) =
  t_node (Tree (t_page t) (I1 ++ x :: I2) (K1 ++ a' :: c' :: K2)).
Proof.
  intros Ea Ec. destruct Hnb as [Hk Hi Lk Li]. unfold t_node. cbn [t_page t_items t_kids]. rewrite Hk, Hi. f_equal.
  - rewrite <- Li. by rewrite insert_app_r_alt, Nat.sub_diag.
  - by rewrite !fmap_app, !fmap_cons, Ea, Ec.
Qed.

(** After the nodes have been changed, they are filed. *)
Lemma exchange_filed w1 a' x c' j :
  mutated [pa; pp; pc] w w1 -> exchanged n a m c a' x c' -> filled_around j t -> (j = i \/ j = S i) ->
  trio w1 pa pp pc (t_node a') (t_node (Tree (t_page t) (I1 ++ x :: I2) (K1 ++ a' :: c' :: K2))) (t_node c') ->
  t_items a' <> [] -> t_items c' <> [] ->
  exists t' w', writeNodes [pa; pp; pc] w1 = (Ok tt, w') /\ adjusted n t w t' w' pp.
Proof.
  intros M Hex Hf Hj T Ia Ic. pose proof (trio_patched w1 M) as P1. pose proof (pa_ok _ _ _ _ P1) as Ok1.
  destruct (trio_filed w1 pa pp pc _ _ _ [pa; pp; pc] [t_page t; t_page a; t_page c] Ok1 (pa_some _ _ _ _ P1 Hd) T)
    as (w2 & E2 & P2 & Gp & Ga & Gc & Ho & Hpp).
  { done. }
  { cbn. rewrite (ex_a _ _ _ _ _ _ _ Hex), (ex_c _ _ _ _ _ _ _ Hex). apply three_nodup. }
  { cbn. by rewrite (ex_a _ _ _ _ _ _ _ Hex), (ex_c _ _ _ _ _ _ _ Hex). }
  set (t' := Tree _ _ _) in *. exists t', w2. split; [done|]. cbn [pageNum t_node] in Ga, Gc, Gp.
  rewrite (ex_a _ _ _ _ _ _ _ Hex) in Ga. rewrite (ex_c _ _ _ _ _ _ _ Hex) in Gc.
  destruct (filled_sides t i j _ _ _ _ _ _ _ Hnb Hf Hj) as (F1 & F & F2 & _). split.
  - apply (exchanged_world n t w i K1 a c K2 I1 m I2 a' x c' w2); try done. by apply (patched_trans _ [] [] w w1 w2).
  - split; [done|]. apply (pa_owned _ _ _ _ P2), T.
  - by eapply exchanged_filled.
  - destruct Hnb as [_ Hi _ _]. unfold t'. cbn [t_items]. rewrite Hi, !length_app. simpl. lia.
  - apply (first_page t i K1 a c K2 I1 m I2); [done|apply Hex].
Qed.

Lemma rotateRight_step ia x :
  t_items a = ia ++ [x] -> ia <> [] -> filled_around (S i) t ->
  exists t' w', (rotateRight pa pp pc (S i);; writeNodes [pa; pp; pc]) w = (Ok tt, w') /\ adjusted n t w t' w' pp.
Proof.
  intros Ei Hia Hf. destruct pair_shape as (Sa & Sc & La & Lc).
  pose proof (neighbours_trio w t i K1 a c K2 I1 m I2 pa pp pc Hnd Hnb Ha Hp Hc) as T.
  destruct (rotateRight_ok w pa pp pc _ _ _ (S i) ia x m Hok T) as (w1 & ka & k & E1 & M & Hmv & T1).
  { done. }
  { cbn. rewrite Nat.sub_0_r. destruct Hnb as [_ -> _ Li]. rewrite <- Li. by apply list_lookup_middle. }
  apply moves_last_kids in Hmv as (ka' & k' & -> & -> & Hk).
  pose proof (exchange_right n a m c ia x ka' k' Sa Sc La Lc Ei Hk) as Hex.
  cbn [t_node pageNum items childNodes] in T1. rewrite Nat.sub_succ, Nat.sub_0_r in T1.
  rewrite (parent_node x _ _ (ex_a _ _ _ _ _ _ _ Hex) (ex_c _ _ _ _ _ _ _ Hex)), <- fmap_app in T1.
  destruct (exchange_filed w1 _ x _ (S i) M Hex Hf ltac:(by right) T1) as (t' & w' & E' & A); [done..|].
  exists t', w'. split; [by mstep E1|done].
Qed.

Lemma rotateLeft_step ic x :
  t_items c = x :: ic -> ic <> [] -> filled_around i t ->
  exists t' w', (rotateLeft pa pp pc i;; writeNodes [pa; pp; pc]) w = (Ok tt, w') /\ adjusted n t w t' w' pp.
Proof.
  intros Ei Hic Hf. destruct pair_shape as (Sa & Sc & La & Lc).
  pose proof (neighbours_trio w t i K1 a c K2 I1 m I2 pa pp pc Hnd Hnb Ha Hp Hc) as T.
  destruct (rotateLeft_ok w pa pp pc _ _ _ i ic x m Hok T) as (w1 & kc & k & E1 & M & Hmv & T1).
  { done. }
  { cbn. destruct Hnb as [_ -> _ Li]. rewrite <- Li. by apply list_lookup_middle. }
  apply moves_first_kids in Hmv as (kc' & k' & -> & -> & Hk).
  pose proof (exchange_left n a m c x ic k' kc' Sa Sc La Lc Ei Hk) as Hex.
  cbn [t_node pageNum items childNodes] in T1.
  rewrite (parent_node x _ _ (ex_a _ _ _ _ _ _ _ Hex) (ex_c _ _ _ _ _ _ _ Hex)), <- fmap_app in T1.
  destruct (exchange_filed w1 _ x _ i M Hex Hf ltac:(by left) T1) as (t' & w' & E' & A); [by destruct (t_items a)|done|].
  exists t', w'. split; [by mstep E1|done].
Qed.

(** The parent of a merge has one item and one child less. *)
Lemma merged_parent :
  Node (t_page t) (take i (t_items t) ++ drop (S i) (t_items t))
    (take (S i) (t_page <$> t_kids t) ++ drop (S i + 1) (t_page <$> t_kids t)) =
  t_node (Tree (t_page t) (I1 ++ I2) (K1 ++ merged a m c :: K2)).
Proof.
  destruct Hnb as [Hk Hi Lk Li]. unfold t_node. cbn [t_page t_items t_kids]. f_equal.
  - rewrite Hi, <- Li, take_app_length. f_equal. rewrite <- (Nat.add_1_r (length I1)), <- drop_drop, drop_app_length. done.
  - rewrite Hk, <- fmap_take, <- fmap_drop, <- fmap_app, <- Lk.
    replace (K1 ++ a :: c :: K2) with ((K1 ++ [a; c]) ++ K2) by (by rewrite <- app_assoc).
    rewrite drop_app_ge by (rewrite length_app; simpl; lia). rewrite take_app_le by (rewrite length_app; simpl; lia).
    replace (take (S (length K1)) (K1 ++ [a; c])) with (K1 ++ [a]).
    2:{ rewrite take_app_ge by lia. f_equal. by replace (S (length K1) - length K1)%nat with 1%nat by lia. }
    rewrite length_app. simpl. replace (S (length K1 + 1) - (length K1 + 2))%nat with 0%nat by lia.
    by rewrite drop_0, !fmap_app, fmap_cons, <- app_assoc.
Qed.

Lemma merge_step j :
  filled_around j t -> (j = i \/ j = S i) ->
  exists t' w', (merge_into pp pa pc (S i);; writeNodes [pa; pp];; tx_deleteNode pc) w = (Ok tt, w') /\
    adjusted n t w t' w' pp.
Proof.
  intros Hf Hj. destruct pair_shape as (Sa & Sc & La & Lc). pose proof three_nodup as Hnd3.
  pose proof (neighbours_trio w t i K1 a c K2 I1 m I2 pa pp pc Hnd Hnb Ha Hp Hc) as T.
  destruct (merge_into_ok w pa pp pc _ _ _ (S i) m Hok T) as (w1 & E1 & M & T1); [lia|..].
  { cbn. rewrite Nat.sub_0_r. destruct Hnb as [_ -> _ Li]. rewrite <- Li. by apply list_lookup_middle. }
  { cbn. rewrite length_fmap. destruct Hnb as [-> _ Lk _]. rewrite length_app. simpl. lia. }
  { intros El%isLeaf_true. cbn in El |- *. apply fmap_nil_inv in El.
    destruct n as [|n']; [by rewrite Lc|]. by destruct La. }
  cbn [t_node pageNum items childNodes] in T1. rewrite Nat.sub_succ, Nat.sub_0_r, merged_parent in T1.
  set (t' := Tree (t_page t) (I1 ++ I2) _) in *.
  assert (Node (t_page a) (t_items a ++ m :: t_items c) ((t_page <$> t_kids a) ++ (t_page <$> t_kids c)) = t_node (merged a m c))
    as Em by (unfold t_node, merged; cbn [t_page t_items t_kids]; by rewrite fmap_app).
  rewrite Em in T1. pose proof (trio_patched w1 M) as P1. pose proof (pa_ok _ _ _ _ P1) as Ok1.
  pose proof T1 as [Nap Nac Npc Ta Tp Tc Oa Op Oc].
  destruct (writePair_ok w1 pa pp _ _ [t_page t; t_page a; t_page c] Ok1 (pa_some _ _ _ _ P1 Hd) Ta Tp)
    as (w2 & E2 & P2 & Hpts & [Da Ga] & [Dp Gp]).
  { cbn. repeat setoid_rewrite NoDup_cons in Hnd3. destruct Hnd3 as ([Hta _]%not_elem_of_cons & _). congruence. }
  { right. left. }
  { left. }
  destruct (tx_deleteNode_ok w2 pc (t_node c) [t_page t; t_page a; t_page c] (pa_ok _ _ _ _ P2) (Hpts _ _ Tc))
    as (w3 & E3 & P3 & G3 & D3 & Q3).
  exists t', w3. split; [mstep E1; by mstep E2|].
  assert (patched [t_page t; t_page a; t_page c] [t_page c] w w3) as P.
  { pose proof (patched_trans _ _ _ _ _ _ P1 P2) as P12. by pose proof (patched_trans _ _ _ _ _ _ P12 P3). }
  assert (forall q, owned w1 q -> owned w3 q) as HO.
  { intros q Hq. by apply (pa_owned _ _ _ _ P3), (pa_owned _ _ _ _ P2). }
  destruct (filled_sides t i j _ _ _ _ _ _ _ Hnb Hf Hj) as (F1 & F & F2 & _). split.
  - apply (merged_world n t w i K1 a c K2 I1 m I2 w3); try done.
    + rewrite G3. exact Gp.
    + rewrite G3. exact Ga.
    + intros pn p [->|[->|[]%not_elem_of_nil]%elem_of_cons]%elem_of_cons; rewrite D3; cbn in Da, Dp.
      * rewrite Dp. intros [= <-]. by apply HO.
      * rewrite Da. intros [= <-]. by apply HO.
  - split; [by apply Q3, Hpts|by apply HO].
  - unfold t'. cbn [t_kids]. apply Forall_app. split; [done|]. constructor; [|done]. apply filled_unfold.
    split; [unfold merged; cbn [t_items]; by destruct (t_items a)|done].
  - destruct Hnb as [_ Hi _ _]. unfold t'. cbn [t_items]. rewrite Hi, !length_app. simpl. lia.
  - by apply (first_page t i K1 a c K2 I1 m I2).
Qed.

End step.

(** ** [rebalanceRemove] *)

(** [p] shows the root of [t] and [q] its child number [i], the only one that
    need not hold items. *)
Record at_child (w : world) (t : tree) (n i : nat) (c : tree) (p q : node_ptr) : Prop := {
  ac_ok : world_ok w;
  ac_repr : repr w t;
  ac_shape : shape t;
  ac_level : level (S n) t;
  ac_nodup : NoDup (pages t);
  ac_owned : tree_owned w t;
  ac_dirty : is_Some (dirtyNodes (wtx w));
  ac_kid : t_kids t !! i = Some c;
  ac_p : handle w p t;
  ac_q : handle w q c;
  ac_filled : filled_around i t
}.

Lemma at_child_reads w w' t n i c p q : at_child w t n i c p q -> reads w w' -> at_child w' t n i c p q.
Proof.
  intros [] R. split; try done.
  - apply R.
  - by apply (reads_repr w).
  - by apply (reads_tree_owned w).
  - by rewrite (ext_tx _ _ (reads_extends _ _ R)).
  - by apply (reads_handle w).
  - by apply (reads_handle w).
Qed.

(** Nothing but reading happened before the step. *)
Lemma adjusted_after w w1 w' t n i c p q t' :
  at_child w t n i c p q -> reads w w1 -> adjusted n t w1 t' w' p -> adjusted n t w t' w' p.
Proof.
  intros C R [Hre Hh Fk It Fi]. split; try done. apply (reshaped_trans _ t t t' w w1 w'); [|done].
  pose proof (at_child_reads _ _ _ _ _ _ _ _ C R) as C1. destruct C, C1.
  split; [by apply shrunk_refl| |done|done]. exists []. split; [done|]. by apply reads_patched.
Qed.

(** Looking at the child number [j]. *)
Lemma sibling_opened w t n i c p q j a :
  at_child w t n i c p q -> t_kids t !! j = Some a ->
  exists s w', child_at p j w = (Ok (t_page a), w) /\ tx_getNode (t_page a) w = (Ok s, w') /\ reads w w' /\ handle w' s a /\
    canSpareAnElement s w' = (Ok (bool_decide (is_Some (getSplitIndex (ddal (wdb w)) (t_node a)))), w').
Proof.
  intros C Ha. pose proof C as [Hok Hr _ _ _ Hto _ _ Hp _ _].
  destruct (open_tree w a Hok (repr_kid _ _ _ _ Ha Hr)) as (s & w' & E & R & Hs & Ho).
  exists s, w'. split; [|split; [done|split; [done|split]]].
  - apply (child_at_points w p (t_node t)); [apply Hp|]. cbn. by rewrite list_lookup_fmap, Ha.
  - split; [done|]. apply Ho. by apply (tree_owned_kid w t j).
  - unfold canSpareAnElement. mstep (node_view_points w' s _ Hs). rewrite bind_get_dal.
    by rewrite (ext_db _ _ (reads_extends _ _ R)).
Qed.

Lemma spare_two d a : is_Some (getSplitIndex d (t_node a)) -> (2 <= length (t_items a))%nat.
Proof. intros [s E]. apply getSplitIndex_range in E. cbn in E. lia. Qed.

(** The attempt on the left. *)
Lemma rebalance_left w t n i c p q :
  at_child w t n (S i) c p q ->
  exists r w1, (pn ← child_at p (S i - 1); leftNode ← tx_getNode pn; spare ← canSpareAnElement leftNode;
      if spare : bool then rotateRight leftNode p q (S i);; writeNodes [leftNode; p; q];; mret true else mret false) w =
    (Ok r, w1) /\ if r : bool then exists t', adjusted n t w t' w1 p else reads w w1.
Proof.
  intros C. pose proof (ac_kid _ _ _ _ _ _ _ C) as Hc. rewrite Nat.sub_succ, Nat.sub_0_r.
  destruct (lookup_lt_is_Some_2 (t_kids t) i) as [a Ha]; [apply lookup_lt_Some in Hc; lia|].
  destruct (sibling_opened _ _ _ _ _ _ _ i a C Ha) as (s & w1 & E0 & E1 & R & Hs & E2).
  mstep E0. mstep E1. mstep E2. case_bool_decide as Hsp; [|by exists false, w1].
  pose proof (at_child_reads _ _ _ _ _ _ _ _ C R) as C1.
  destruct (neighbours_at t i a c (ac_shape _ _ _ _ _ _ _ C) Ha Hc) as (K1 & K2 & I1 & m & I2 & Hnb).
  pose proof (spare_two _ _ Hsp) as H2.
  destruct (exists_last (l := t_items a)) as (ia & x & Ei); [destruct (t_items a); [simpl in H2; lia|done]|].
  destruct C1 as [Hok1 Hr1 Hsh Hl Hnd Hto1 Hd1 _ Hp1 Hq1 Hf].
  destruct (rotateRight_step w1 t n i K1 a c K2 I1 m I2 s p q Hok1 Hr1 Hsh Hl Hnd Hto1 Hd1 Hnb Hs Hp1 Hq1 ia x Ei)
    as (t' & w' & E & A); [|done|].
  { intros ->. rewrite Ei in H2. simpl in H2. lia. }
  exists true, w'. split; [rewrite <- bind_assoc; by mstep E|]. exists t'. by apply (adjusted_after w w1 w' t n (S i) c p q).
Qed.

(** The attempt on the right. *)
Lemma rebalance_right w t n i c a p q :
  at_child w t n i c p q -> t_kids t !! (i + 1)%nat = Some a ->
  exists r w1, (pn ← child_at p (i + 1); rightNode ← tx_getNode pn; spare ← canSpareAnElement rightNode;
      if spare : bool then rotateLeft q p rightNode i;; writeNodes [q; p; rightNode];; mret true else mret false) w =
    (Ok r, w1) /\ if r : bool then exists t', adjusted n t w t' w1 p else reads w w1.
Proof.
  intros C Ha. pose proof (ac_kid _ _ _ _ _ _ _ C) as Hc.
  destruct (sibling_opened _ _ _ _ _ _ _ (i + 1)%nat a C Ha) as (s & w1 & E0 & E1 & R & Hs & E2).
  mstep E0. mstep E1. mstep E2. case_bool_decide as Hsp; [|by exists false, w1].
  pose proof (at_child_reads _ _ _ _ _ _ _ _ C R) as C1. rewrite Nat.add_1_r in Ha.
  destruct (neighbours_at t i c a (ac_shape _ _ _ _ _ _ _ C) Hc Ha) as (K1 & K2 & I1 & m & I2 & Hnb).
  pose proof (spare_two _ _ Hsp) as H2. destruct (t_items a) as [|x ic] eqn:Ei; [simpl in H2; lia|].
  destruct C1 as [Hok1 Hr1 Hsh Hl Hnd Hto1 Hd1 _ Hp1 Hq1 Hf].
  destruct (rotateLeft_step w1 t n i K1 c a K2 I1 m I2 q p s Hok1 Hr1 Hsh Hl Hnd Hto1 Hd1 Hnb Hq1 Hp1 Hs ic x Ei)
    as (t' & w' & E & A); [|done|].
  { intros ->. simpl in H2. lia. }
  exists true, w'. split; [rewrite <- bind_assoc; by mstep E|]. exists t'. by apply (adjusted_after w w1 w' t n i c p q).
Qed.

(** The merges: of the child and the left one, or of child 0 and the next. *)
Lemma merge_left w t n i c p q :
  at_child w t n (S i) c p q -> exists t' w', merge p q (S i) w = (Ok tt, w') /\ adjusted n t w t' w' p.
Proof.
  intros C. pose proof (ac_kid _ _ _ _ _ _ _ C) as Hc.
  destruct (lookup_lt_is_Some_2 (t_kids t) i) as [a Ha]; [apply lookup_lt_Some in Hc; lia|].
  destruct (sibling_opened _ _ _ _ _ _ _ i a C Ha) as (s & w1 & E0 & E1 & R & Hs & _).
  pose proof (at_child_reads _ _ _ _ _ _ _ _ C R) as C1.
  destruct (neighbours_at t i a c (ac_shape _ _ _ _ _ _ _ C) Ha Hc) as (K1 & K2 & I1 & m & I2 & Hnb).
  destruct C1 as [Hok1 Hr1 Hsh Hl Hnd Hto1 Hd1 _ Hp1 Hq1 Hf].
  destruct (merge_step w1 t n i K1 a c K2 I1 m I2 s p q Hok1 Hr1 Hsh Hl Hnd Hto1 Hd1 Hnb Hs Hp1 Hq1 (S i) Hf)
    as (t' & w' & E & A); [by right|].
  exists t', w'. split; [|by apply (adjusted_after w w1 w' t n (S i) c p q)].
  unfold merge. rewrite decide_False by done. rewrite Nat.sub_succ, Nat.sub_0_r. mstep E0. mstep E1. exact E.
Qed.

Lemma merge_first w t n c a p q :
  at_child w t n 0 c p q -> t_kids t !! 1%nat = Some a ->
  exists t' w', (pn ← child_at p 1; rightNode ← tx_getNode pn; merge p rightNode 1) w = (Ok tt, w') /\
    adjusted n t w t' w' p.
Proof.
  intros C Ha. pose proof (ac_kid _ _ _ _ _ _ _ C) as Hc.
  destruct (sibling_opened _ _ _ _ _ _ _ 1%nat a C Ha) as (s & w1 & E0 & E1 & R & Hs & _).
  pose proof (at_child_reads _ _ _ _ _ _ _ _ C R) as C1.
  destruct (sibling_opened _ _ _ _ _ _ _ 0%nat c C1 Hc) as (s0 & w2 & E0' & E1' & R2 & Hs0 & _).
  pose proof (at_child_reads _ _ _ _ _ _ _ _ C1 R2) as C2.
  destruct (neighbours_at t 0 c a (ac_shape _ _ _ _ _ _ _ C) Hc Ha) as (K1 & K2 & I1 & m & I2 & Hnb).
  pose proof (reads_handle w1 w2 s a (ac_ok _ _ _ _ _ _ _ C1) R2 Hs) as Hs2.
  destruct C2 as [Hok2 Hr2 Hsh Hl Hnd Hto2 Hd2 _ Hp2 _ Hf].
  destruct (merge_step w2 t n 0 K1 c a K2 I1 m I2 s0 p s Hok2 Hr2 Hsh Hl Hnd Hto2 Hd2 Hnb Hs0 Hp2 Hs2 0 Hf)
    as (t' & w' & E & A); [by left|].
  exists t', w'. split; [|apply (adjusted_after w w2 w' t n 0 c p q); [done|by etrans|done]].
  mstep E0. mstep E1. unfold merge. rewrite decide_False by done. cbn [Nat.sub]. mstep E0'. mstep E1'. exact E.
Qed.

(** [rebalanceRemove] takes one of the steps, in this order. *)
Lemma rebalanceRemove_ok w t n i c p q :
  at_child w t n i c p q -> t_items t <> [] ->
  exists t' w', rebalanceRemove p q i w = (Ok tt, w') /\ adjusted n t w t' w' p.
Proof.
  intros C Hne. pose proof (ac_kid _ _ _ _ _ _ _ C) as Hc.
  assert (length (t_kids t) = S (length (t_items t))) as Hlen.
  { destruct (shape_node t (ac_shape _ _ _ _ _ _ _ C)) as [E|E]; [by rewrite E in Hc|done]. }
  unfold rebalanceRemove.
  assert (exists r w1, (if decide (i <> 0%nat) then (pn ← child_at p (i - 1); leftNode ← tx_getNode pn;
      spare ← canSpareAnElement leftNode;
      if spare : bool then rotateRight leftNode p q i;; writeNodes [leftNode; p; q];; mret true else mret false)
      else mret false) w = (Ok r, w1) /\ if r : bool then exists t', adjusted n t w t' w1 p else reads w w1)
    as (r & w1 & E1 & H1).
  { case_decide as Hi; [destruct i as [|i]; [done|by apply (rebalance_left w t n i c)]|].
    exists false, w. split; [done|]. apply reads_refl, C. }
  mstep E1. clear E1. destruct r; [destruct H1 as [t' A]; by exists t', w1|].
  pose proof (at_child_reads _ _ _ _ _ _ _ _ C H1) as C1. pose proof C1 as [Hok1 _ _ _ _ _ _ _ [(rp & Hrp & Hnp) _] _ _].
  mstep (load_ok p w1 rp Hrp).
  assert (s_len (r_childNodes rp) = length (t_kids t)) as Elen.
  { rewrite (s_len_kids w1 p rp Hok1 Hrp), Hnp. cbn. by rewrite length_fmap. }
  assert (exists r w2, (if decide (s_len (r_childNodes rp) <> (i + 1)%nat) then (pn ← child_at p (i + 1);
      rightNode ← tx_getNode pn; spare ← canSpareAnElement rightNode;
      if spare : bool then rotateLeft q p rightNode i;; writeNodes [q; p; rightNode];; mret true else mret false)
      else mret false) w1 = (Ok r, w2) /\ if r : bool then exists t', adjusted n t w1 t' w2 p else reads w1 w2)
    as (r & w2 & E2 & H2).
  { destruct (decide _) as [Hi|Hi]; [|exists false, w1; split; [reflexivity|by apply reads_refl]].
    destruct (lookup_lt_is_Some_2 (t_kids t) (i + 1)%nat) as [a Ha]; [apply lookup_lt_Some in Hc; lia|].
    by apply (rebalance_right w1 t n i c a). }
  mstep E2. clear E2. destruct r.
  { destruct H2 as [t' A]. exists t', w2. split; [done|]. by apply (adjusted_after w w1 w2 t n i c p q). }
  pose proof (at_child_reads _ _ _ _ _ _ _ _ C1 H2) as C2.
  destruct i as [|i]; [rewrite decide_True by done|rewrite decide_False by done].
  - destruct (lookup_lt_is_Some_2 (t_kids t) 1%nat) as [a Ha]; [destruct (t_items t); simpl in *; [done|lia]|].
    destruct (merge_first w2 t n c a p q C2 Ha) as (t' & w' & E & A). exists t', w'. split; [exact E|].
    apply (adjusted_after w w2 w' t n 0 c p q); [done|by etrans|done].
  - destruct (merge_left w2 t n i c p q C2) as (t' & w' & E & A). exists t', w'. split; [exact E|].
    apply (adjusted_after w w2 w' t n (S i) c p q); [done|by etrans|done].
Qed.

End patch.
