(* ===== verification/Delete.v ===== *)
(** * [Remove]: deletion with any number of rotations and merges keeps the tree

    On a collection whose pages show a search tree with all leaves on one
    level, [Remove] of a key that is in a leaf, or in the lowest inner level,
    succeeds and the pages show a search tree whose contents are [remove_item]
    of the old ones.  The two behaviours of the code the hypotheses exclude are
    stated in [Findings]: the descent to the predecessor of a key higher up,
    and the new root that [Remove] takes when the root runs empty. *)

From S2P Require Import Prelude Freelist Meta Node Float32 Dal GoSlice World Tree Heap Contents Split Collection Search Shrink Rotate Insert Rebalance.

Open Scope Z_scope.

(** A node without items is underpopulated. *)
Definition thin (d : dal) : Prop := forall n, items n = [] -> isUnderPopulated d n = true.

(** Only the node at the end of the path may be empty. *)
Fixpoint filled_but (idxs : list nat) (t : tree) : Prop :=
  match idxs with
  | [] => Forall filled (t_kids t)
  | i :: idxs => t_items t <> [] /\
      forall j c, t_kids t !! j = Some c -> if decide (j = i) then filled_but idxs c else filled c
  end.

(** ** Trees whose subtree at a path is replaced *)

Lemma filled_but_set idxs idxs2 st st' t :
  tidy t -> subtree idxs t = Some st -> filled_but idxs2 st' -> filled_but (idxs ++ idxs2) (set_subtree idxs st' t).
Proof.
  revert t. induction idxs as [|i idxs IH]; intros t [Hf Hne] Hsub Hst; simpl in Hsub; [done|].
  destruct (t_kids t !! i) as [c|] eqn:Hc; [|done]. rewrite (set_subtree_cons i idxs st' t c Hc).
  rewrite Forall_lookup in Hf. split.
  - unfold with_kid. cbn [t_items]. apply Hne. intros E. by rewrite E in Hc.
  - intros j x Hx. unfold with_kid in Hx. cbn [t_kids] in Hx. destruct (decide (j = i)) as [-> |Hj].
    + rewrite list_lookup_insert_eq in Hx by (by eapply lookup_lt_Some). simplify_eq. apply IH; [|done|done].
      by apply filled_tidy, (Hf i).
    + rewrite list_lookup_insert_ne in Hx by done. by apply (Hf j).
Qed.

Lemma subtree_app idxs1 idxs2 t st : subtree idxs1 t = Some st -> subtree (idxs1 ++ idxs2) t = subtree idxs2 st.
Proof.
  revert t. induction idxs1 as [|i idxs IH]; intros t Hsub; simpl in Hsub |- *; [by simplify_eq|].
  destruct (t_kids t !! i) as [c|]; [|done]. by apply IH.
Qed.

Lemma repr_subtree w idxs : forall t st, repr w t -> subtree idxs t = Some st -> repr w st.
Proof.
  induction idxs as [|i idxs IH]; intros t st Hr Hs; simpl in Hs; [by simplify_eq|].
  destruct (t_kids t !! i) as [c|] eqn:Hc; [|done]. apply (IH c); [|done].
  apply repr_unfold in Hr as [_ Hr]. rewrite Forall_lookup in Hr. by apply (Hr i).
Qed.

Lemma nodup_subtree idxs : forall t st, NoDup (pages t) -> subtree idxs t = Some st -> NoDup (pages st).
Proof.
  induction idxs as [|i idxs IH]; intros t st Hnd Hs; simpl in Hs; [by simplify_eq|].
  destruct (t_kids t !! i) as [c|] eqn:Hc; [|done]. apply (IH c); [|done].
  destruct (with_kid_pages i c c t Hc) as (rest & E & _). rewrite E in Hnd. by apply NoDup_app in Hnd as (? & _).
Qed.

(** Removing an item leaves legal items. *)
Lemma remove_Forall (P : Item -> Prop) k l : Forall P l -> Forall P (remove_item k l).
Proof. intros H. rewrite Forall_forall in *. intros x [_ Hx]%list_elem_of_filter. by apply H. Qed.

(** Taking out item [i] of a node above the leaves: the last item of the child
    on its left takes its place. *)
Definition with_predecessor (i : nat) (st : tree) : option tree :=
  c ← t_kids st !! i;
  pred ← last (t_items c);
  Some (Tree (t_page st) (<[i := pred]> (t_items st))
    (<[i := Tree (t_page c) (take (length (t_items c) - 1) (t_items c)) []]> (t_kids st))).

Lemma with_predecessor_at i st K1 a c K2 I1 m I2 ia x :
  neighbours st i K1 a c K2 I1 m I2 -> t_items a = ia ++ [x] ->
  with_predecessor i st = Some (Tree (t_page st) (I1 ++ x :: I2) (K1 ++ Tree (t_page a) ia [] :: c :: K2)).
Proof.
  intros [Hk Hi <- Li] Ea. unfold with_predecessor. rewrite Hk, Hi, list_lookup_middle by done.
  cbn [mbind option_bind]. rewrite Ea, last_snoc. cbn [mbind option_bind]. do 2 f_equal.
  - rewrite <- Li. by rewrite insert_app_r_alt, Nat.sub_diag.
  - rewrite insert_app_r_alt, Nat.sub_diag by done. cbn. by rewrite length_app, Nat.add_sub, take_app_length.
Qed.

(** The predecessor moves up: the pages, the shape and the levels stay. *)
Section predecessor.
Context (st : tree) (i : nat) (a c : tree) (K1 K2 : list tree) (I1 : list Item) (m : Item) (I2 ia : list Item) (x : Item)
  (Hnb : neighbours st i K1 a c K2 I1 m I2) (Hka : t_kids a = []) (Eia : t_items a = ia ++ [x]).
Let a' := Tree (t_page a) ia [].
Let st' := Tree (t_page st) (I1 ++ x :: I2) (K1 ++ a' :: c :: K2).

Lemma predecessor_level n : level n st -> level n st'.
Proof.
  destruct n as [|n]; simpl; [by rewrite (nb_kids _ _ _ _ _ _ _ _ _ Hnb); destruct K1|].
  intros [_ Hl]. split; [by destruct K1|].
  destruct (Forall_neighbours _ _ _ _ _ _ _ _ _ _ Hnb Hl) as (? & La & ? & ?).
  apply Forall_app. split; [done|]. constructor; [|by constructor]. destruct n; [done|]. by destruct La.
Qed.

Lemma predecessor_frame n : level n st -> same_frame st st'.
Proof.
  intros Hl. split.
  - done.
  - rewrite (pages_kids st), (nb_kids _ _ _ _ _ _ _ _ _ Hnb). unfold st'. rewrite pages_kids. cbn [t_page t_kids].
    rewrite !fmap_app, !fmap_cons. unfold a'. rewrite pages_kids, (pages_kids a), Hka. done.
  - by rewrite (level_height n st Hl), (level_height n st' (predecessor_level n Hl)).
  - intros [Hlen Hs]%shape_unfold. apply shape_unfold. destruct Hnb as [Hk Hi _ _]. unfold st'. cbn [t_kids t_items].
    rewrite Hk, Hi in *. split.
    + right. destruct Hlen as [E|E]; [by destruct K1|]. revert E. rewrite !length_app. simpl. lia.
    + apply Forall_app in Hs as [? [Sa ?]%Forall_cons]. apply Forall_app. split; [done|].
      constructor; [|done]. apply shape_unfold. unfold a'. cbn. split; [by left|done].
Qed.

Lemma predecessor_filled : Forall filled (t_kids st) -> filled_but [i] st'.
Proof.
  intros Hf. destruct (Forall_neighbours _ _ _ _ _ _ _ _ _ _ Hnb Hf) as (F1 & _ & Fc & F2).
  split; [by unfold st'; cbn; destruct I1|]. unfold st'. cbn [t_kids]. destruct Hnb as [_ _ <- _].
  intros j y Hy. case_decide as Hj.
  - subst j. rewrite list_lookup_middle in Hy by done. simplify_eq. by apply Forall_nil.
  - apply lookup_app_Some in Hy as [Hy|[Hle Hy]]; [rewrite Forall_lookup in F1; by eapply F1|].
    destruct (j - length K1)%nat as [|[|d]] eqn:Ed; [lia|by simplify_eq/=|]. rewrite Forall_lookup in F2. by eapply F2.
Qed.
End predecessor.

Lemma remove_internal k st i it a c K1 K2 I1 m I2 ia x :
  shape st -> neighbours st i K1 a c K2 I1 m I2 -> t_kids a = [] -> t_items a = ia ++ [x] ->
  t_items st !! i = Some it -> key it = k ->
  forall l r, sorted (l ++ flatten st ++ r) ->
  l ++ flatten (Tree (t_page st) (I1 ++ x :: I2) (K1 ++ Tree (t_page a) ia [] :: c :: K2)) ++ r =
    remove_item k (l ++ flatten st ++ r).
Proof.
  intros Hs Hnb Hka Ea Hit Hk l r Hso.
  destruct (flatten_neighbours st i K1 a c K2 I1 m I2 Hs Hnb) as (fl & fr & E & Eset & _).
  rewrite Eset. rewrite E in Hso |- *. assert (it = m) as ->.
  { destruct Hnb as [_ Hi _ Li]. rewrite Hi, <- Li, list_lookup_middle in Hit by done. by simplify_eq. }
  rewrite (flatten_leaf a Hka), Ea in Hso |- *. cbn [flatten map interleave].
  assert (l ++ (fl ++ ((ia ++ [x]) ++ m :: flatten c) ++ fr) ++ r = (l ++ fl ++ ia ++ [x]) ++ m :: flatten c ++ fr ++ r)
    as El by (by rewrite <- !app_assoc).
  rewrite El in Hso |- *. rewrite (remove_around k _ m _ Hso Hk). by rewrite <- !app_assoc.
Qed.

Section delete.
Context {RT : GoRuntime}.

(** ** Lifting to the parent *)

Lemma shrunk_kid m t i c c' :
  shape t -> level (S m) t -> t_kids t !! i = Some c -> shrunk m c c' -> shrunk (S m) t (with_kid i c' t).
Proof.
  intros Hsh [Hne Hl] Hc [Hpg Hfl Hs Hlv (g & Eg)]. destruct (with_kid_pages i c c' t Hc) as (rest & E1 & E2). split.
  - done.
  - by apply (with_kid_flatten i c).
  - by apply (with_kid_shape i c).
  - unfold with_kid. split; cbn [t_kids]; [|by apply Forall_insert].
    intros E. apply (f_equal length) in E. rewrite length_insert in E. by destruct (t_kids t).
  - exists g. rewrite E1, E2, Eg. by rewrite app_assoc.
Qed.

Lemma reshaped_kid m t i c c' w w' p :
  repr w t -> shape t -> level (S m) t -> NoDup (pages t) -> tree_owned w t -> t_kids t !! i = Some c ->
  handle w p t -> reshaped m c w c' w' ->
  reshaped (S m) t w (with_kid i c' t) w' /\ handle w' p (with_kid i c' t).
Proof.
  intros Hr Hsh Hl Hnd Hto Hc [Hp Ho] [S (g & Eg & P) R T]. pose proof (sh_page _ _ _ S) as Epg.
  destruct (with_kid_pages i c c' t Hc) as (rest & E1 & E2).
  assert (pages c ⊆ pages t) as Hsub by (intros x Hx; by apply (kid_pages t i c)).
  pose proof (node_fresh_page t c i Hc Hnd) as Hroot. split; [split|split].
  - by apply (shrunk_kid m t i c c').
  - exists g. split; [rewrite E1, E2, Eg; by rewrite app_assoc|]. by apply (patched_mono (pages c)).
  - apply (repr_with_kid w w' t i c c'); try done. intros pn _. apply (pa_pages _ _ _ _ P).
  - intros pn q Hpn Hd. destruct (decide (pn ∈ pages c')) as [Hin|Hnin]; [by apply (T pn)|].
    rewrite E2 in Hpn. apply elem_of_app in Hpn as [?|Hpn]; [done|].
    assert (pn ∉ pages c) as Hnc.
    { rewrite E1 in Hnd. apply NoDup_app in Hnd as (_ & Hdis & _). intros Hin. by apply (Hdis pn). }
    rewrite (pa_dirty _ _ _ _ P pn Hnc) in Hd. apply (pa_owned _ _ _ _ P), (Hto pn); [|done].
    rewrite E1. apply elem_of_app. by right.
  - assert (t_node (with_kid i c' t) = t_node t) as ->; [|by apply (pa_points _ _ _ _ P)].
    unfold t_node, with_kid. cbn [t_page t_items t_kids]. f_equal. rewrite list_fmap_insert, Epg.
    apply list_insert_id. by rewrite list_lookup_fmap, Hc.
  - by apply (pa_owned _ _ _ _ P).
Qed.

(** ** The rebalancing loop *)

Lemma node_isUnderPopulated_points w p n :
  points w p n -> node_isUnderPopulated p w = (Ok (isUnderPopulated (ddal (wdb w)) n), w).
Proof. intros Hp. unfold node_isUnderPopulated. by mstep (node_view_points w p n Hp). Qed.

(** What the loop leaves: filled children, at most one item less at the root,
    and the first child where it was. *)
Record shrunken (n : nat) (t : tree) (w : world) (t' : tree) (w' : world) : Prop := {
  sk_reshaped : reshaped n t w t' w';
  sk_filled : Forall filled (t_kids t');
  sk_items : (length (t_items t) <= S (length (t_items t')))%nat;
  sk_first : t_page <$> (t_kids t' !! 0%nat) = t_page <$> (t_kids t !! 0%nat)
}.

(** One level: the child of [t] has been dealt with, now the child itself. *)
Lemma remove_level_ok m t i c w p q :
  at_child w t m i c p q -> t_items t <> [] -> thin (ddal (wdb w)) ->
  exists t' w', (under ← node_isUnderPopulated q; if under : bool then rebalanceRemove p q i else mret tt) w = (Ok tt, w') /\
    shrunken (S m) t w t' w' /\ handle w' p t'.
Proof.
  intros C Hne Hth. mstep (node_isUnderPopulated_points w q _ (proj1 (ac_q _ _ _ _ _ _ _ C))).
  destruct (isUnderPopulated (ddal (wdb w)) (t_node c)) eqn:Hu.
  - destruct (rebalanceRemove_ok w t m i c p q C Hne) as (t' & w' & E & [A1 A2 A3 A4 A5]).
    exists t', w'. split; [exact E|]. by split.
  - destruct C as [Hok Hr Hsh Hl Hnd Hto Hd Hc Hp Hq Hf]. exists t, w. split; [done|]. split; [split|done].
    + by apply reshaped_refl.
    + apply Forall_lookup. intros j x Hx. specialize (Hf j x Hx). destruct (decide (j = i)) as [-> |]; [|done].
      assert (x = c) as -> by congruence. apply filled_unfold. split; [|done]. intros E.
      by rewrite (Hth (t_node c) E) in Hu.
    + lia.
    + done.
Qed.

Lemma shrunken_trans n t1 t2 t3 w1 w2 w3 :
  reshaped n t1 w1 t2 w2 -> length (t_items t2) = length (t_items t1) ->
  t_page <$> (t_kids t2 !! 0%nat) = t_page <$> (t_kids t1 !! 0%nat) ->
  shrunken n t2 w2 t3 w3 -> shrunken n t1 w1 t3 w3.
Proof.
  intros R Hl Hf [S F L Fi]. split; [by eapply reshaped_trans|done|lia|congruence].
Qed.

Lemma with_kid_first i c c' t :
  t_kids t !! i = Some c -> t_page c' = t_page c ->
  t_page <$> (t_kids (with_kid i c' t) !! 0%nat) = t_page <$> (t_kids t !! 0%nat).
Proof.
  intros Hc E. unfold with_kid. cbn [t_kids]. destruct (t_kids t) as [|x kids]; [done|].
  destruct i as [|i]; simplify_eq/=; by rewrite ?E.
Qed.

(** The loop: every node of the path that runs short is refilled or merged. *)
Lemma remove_levels_ok : forall idxs t ps w n j,
  world_ok w -> repr w t -> chain w t idxs ps -> shape t -> level n t -> NoDup (pages t) -> tree_owned w t ->
  is_Some (dirtyNodes (wtx w)) -> thin (ddal (wdb w)) -> filled_but idxs t ->
  exists p t' w', head ps = Some p /\ remove_levels (levels ps (j :: idxs)) w = (Ok tt, w') /\
    shrunken n t w t' w' /\ handle w' p t'.
Proof.
  induction idxs as [|i idxs IH]; intros t ps w n j Hok Hr Hch Hsh Hl Hnd Hto Hd Hth Hf; inversion Hch as
    [t' p Hh|t' i' c idxs' p ps' Hh Hc Hch']; subst.
  { exists p, t, w. split; [done|]. split; [done|]. split; [|done]. split; [by apply reshaped_refl|done|lia|done]. }
  destruct (level_kid n t i c Hl Hc) as (m & -> & Hlc). destruct Hf as [Hne Hf].
  destruct (with_kid_pages i c c t Hc) as (rest & E1 & _).
  assert (NoDup (pages c)) as Hndc by (rewrite E1 in Hnd; by apply NoDup_app in Hnd as (? & _)).
  destruct (IH c ps' w m i Hok (repr_kid _ _ _ _ Hc Hr) Hch' (shape_kids _ _ _ Hsh Hc) Hlc Hndc
    (tree_owned_kid _ _ _ _ Hc Hto) Hd Hth) as (q & c1 & w1 & Hq & El & [R1 F1 L1 Fi1] & Hhq).
  { specialize (Hf i c Hc). by rewrite decide_True in Hf. }
  destruct ps' as [|q' ps']; [done|]. simplify_eq/=.
  destruct (reshaped_kid m t i c c1 w w1 p Hr Hsh Hl Hnd Hto Hc Hh R1) as [Rt Hhp].
  pose proof Rt as [St (g & Eg & Pt) Rpt Ot]. set (t1 := with_kid i c1 t) in *.
  assert (t_kids t1 !! i = Some c1) as Hc1 by (simpl; apply list_lookup_insert_eq; by eapply lookup_lt_Some).
  assert (at_child w1 t1 m i c1 p q) as C.
  { split; try done.
    - apply Pt.
    - apply St.
    - apply St.
    - by apply (shrunk_nodup _ _ _ St).
    - by apply (pa_some _ _ _ _ Pt).
    - intros k x Hx. destruct (decide (k = i)) as [-> |Hki]; [by simplify_eq|].
      unfold t1, with_kid in Hx. cbn [t_kids] in Hx. rewrite list_lookup_insert_ne in Hx by done.
      specialize (Hf k x Hx). by rewrite decide_False in Hf. }
  destruct (remove_level_ok m t1 i c1 w1 p q C Hne) as (t2 & w2 & E2 & Hs & Hh2).
  { by rewrite (pa_db _ _ _ _ Pt). }
  exists p, t2, w2. split; [done|]. split; [|split; [|done]].
  - rewrite (levels_cons p q ps' i idxs j). unfold remove_levels in *. rewrite (mapM_snoc _ _ _ _ _ El). exact E2.
  - apply (shrunken_trans _ t t1 t2 w w1 w2 Rt); [done| |done].
    apply (with_kid_first i c c1 t Hc). apply R1.
Qed.

(** ** Taking the item out *)

Lemma removeItemFromLeaf_ok w q n i :
  world_ok w -> points w q n -> owned w q -> is_Some (dirtyNodes (wtx w)) -> (i < length (items n))%nat ->
  exists w', removeItemFromLeaf q i w = (Ok tt, w') /\ patched [pageNum n] [] w w' /\
    page_node (pageNum n) w' = Ok (Node (pageNum n) (delete i (items n)) (childNodes n)) /\
    dirty_at w' (pageNum n) = Some q.
Proof.
  intros Hok Hq Ho Hd Hi. pose proof Hq as (r & Hr & Hn). unfold removeItemFromLeaf. mstep (load_ok q w r Hr).
  destruct (remove_items w q r Hok Hr i (i + 1)) as (sl & sh & s1 & w11 & w1 & E1 & E2 & E3 & F1 & S1); [rewrite Hn; lia..|].
  rewrite E1, bind_lift, E2, bind_lift.
  change (items_view sh) with (fun w0 : world => (Ok (view (itemsH w0) sh), w0)). unfold mbind at 1, M_bind at 1.
  mstep E3. mstep F1. rewrite Hn, Nat.add_1_r, <- delete_take_drop in S1.
  pose proof (set_to_mutated q w _ _ w1 [q] Hok Ho ltac:(left) S1) as M.
  assert (patched [pageNum n] [] w w1) as P1.
  { apply (mutated_patched _ [q]); [done| |done]. intros x ->%list_elem_of_singleton. exists n. split; [done|left]. }
  destruct (tx_writeNode_patched w1 q _ (pa_ok _ _ _ _ P1) (set_to_points _ _ _ _ _ S1) (pa_some _ _ _ _ P1 Hd))
    as (w2 & E4 & P2 & _ & _ & G & D). cbn [pageNum] in *.
  exists w2. split; [by mstep E4|]. split; [by apply (patched_trans _ [] [] w w1 w2)|]. split; [done|].
  by rewrite D, decide_True.
Qed.

(** The predecessor of item [i] when the children are leaves. *)
Lemma removeItemFromInternal_ok fuel w q st i a c K1 K2 I1 m I2 ia x :
  world_ok w -> repr w st -> handle w q st -> tree_owned w st -> NoDup (pages st) -> is_Some (dirtyNodes (wtx w)) ->
  neighbours st i K1 a c K2 I1 m I2 -> t_kids a = [] -> t_items a = ia ++ [x] -> (1 <= fuel)%nat ->
  exists w', removeItemFromInternal fuel q i w = (Ok [i], w') /\ patched [t_page st; t_page a] [] w w' /\
    page_node (t_page st) w' = Ok (Node (t_page st) (I1 ++ x :: I2) (t_page <$> t_kids st)) /\
    page_node (t_page a) w' = Ok (Node (t_page a) ia []) /\
    (forall pn p, pn ∈ [t_page st; t_page a] -> dirty_at w' pn = Some p -> owned w' p).
Proof.
  intros Hok Hr Hq Hto Hnd Hd Hnb Hka Eia Hfu. pose proof Hnb as [Hk Hi Lk Li].
  assert (t_kids st !! i = Some a) as Ha by (rewrite Hk, <- Lk; by apply list_lookup_middle).
  pose proof (node_fresh_page st a i Ha Hnd) as Hne. assert (t_page st <> t_page a) as Hpg.
  { intros E. apply Hne. rewrite E. apply page_in_pages. }
  destruct fuel as [|fuel]; [lia|]. unfold removeItemFromInternal.
  destruct (open_tree w a Hok (repr_kid _ _ _ _ Ha Hr)) as (s & w1 & E1 & R & Hs & Hos).
  mstep (child_at_points w q (t_node st) i (t_page a) (proj1 Hq) ltac:(cbn; by rewrite list_lookup_fmap, Ha)). mstep E1.
  pose proof (reads_patched [t_page st; t_page a] w w1 Hok R) as P1. pose proof (pa_ok _ _ _ _ P1) as Ok1.
  assert (descend (S fuel) q s [i] w1 = (Ok (s, [i]), w1)) as Ed.
  { cbn [descend]. mstep (node_isLeaf_points w1 s _ Ok1 Hs). unfold isLeaf, t_node. cbn [childNodes]. by rewrite Hka. }
  mstep Ed. pose proof (reads_handle w w1 q st Hok R Hq) as [(rq & Hrq & Hnq) Hoq].
  specialize (Hos (tree_owned_kid _ _ _ _ Ha Hto)). pose proof Hs as (rs & Hrs & Hns). mstep (load_ok s w1 rs Hrs).
  assert (s_len (r_items rs) = length (t_items a)) as El by (by rewrite (s_len_items w1 s rs Ok1 Hrs), Hns).
  assert (items (node_of w1 rs) = ia ++ [x]) as Eit by (rewrite Hns; exact Eia).
  rewrite decide_False by (rewrite El, Eia, length_app; simpl; lia).
  mstep (items_at_ok w1 s rs (s_len (r_items rs) - 1) x Hrs ltac:(rewrite Eit, El, Eia; apply lookup_last)).
  mstep (load_ok q w1 rq Hrq).
  destruct (store_item_to w1 q rq i x Ok1 Hrq) as (w2 & rq2 & E2 & S2).
  { rewrite Hnq. cbn. rewrite Hi, length_app. simpl. lia. }
  mstep E2. pose proof (set_to_mutated q w1 _ _ w2 [q] Ok1 Hoq ltac:(left) S2) as M2.
  assert (s <> q) as Hsq.
  { intros ->. apply Hpg. assert (t_node a = t_node st) as E; [congruence|]. by injection E. }
  pose proof S2 as (Mu2 & _). destruct (mutates_other q w1 w2 Ok1 Hoq Mu2 s rs Hsq Hrs) as [Hrs2 Hns2].
  rewrite Hns in Hns2. pose proof (md_ok _ _ _ M2) as Ok2.
  destruct (take_items w2 s rs Ok2 Hrs2 (s_len (r_items rs) - 1)) as (lo & w3 & E3 & F3 & S3).
  { rewrite Hns2, El. cbn. lia. }
  rewrite E3, bind_lift. mstep F3.
  pose proof (set_to_mutated s w2 _ _ w3 [s] Ok2 (md_owned _ _ _ M2 _ Hos) ltac:(left) S3) as M3.
  rewrite Hns2 in S3. cbn [t_node pageNum items childNodes] in S3. rewrite El, Eia, take_init, Hka in S3.
  assert (mutated [q; s] w1 w3) as M.
  { eapply mutated_trans; [eapply mutated_mono; [|exact M2]|eapply mutated_mono; [|exact M3]]; set_solver. }
  assert (patched [t_page st; t_page a] [] w1 w3) as P3.
  { apply (mutated_patched _ [q; s]); [done| |done]. intros y [-> | ->%list_elem_of_singleton]%elem_of_cons.
    - exists (t_node st). split; [by exists rq|left].
    - exists (t_node a). split; [by exists rs|right; left]. }
  pose proof (set_to_points _ _ _ _ _ S3) as Hs3.
  assert (points w3 q (Node (t_page st) (I1 ++ x :: I2) (t_page <$> t_kids st))) as Hq3.
  { apply (md_points _ _ _ M3); [set_solver|]. pose proof (set_to_points _ _ _ _ _ S2) as H2. rewrite Hnq in H2.
    assert (r_pageNum rq = t_page st) as Hpn by (by pose proof (f_equal pageNum Hnq)).
    cbn in H2. rewrite Hpn, Hi, <- Li in H2. by rewrite insert_app_r_alt, Nat.sub_diag in H2 by done. }
  assert (is_Some (dirtyNodes (wtx w3))) as Hd3 by (by apply (pa_some _ _ _ _ P3), (pa_some _ _ _ _ P1)).
  destruct (writePair_ok w3 q s _ _ [t_page st; t_page a] (md_ok _ _ _ M) Hd3 Hq3 Hs3 Hpg ltac:(left) ltac:(right; left))
    as (w4 & E4 & P4 & _ & [D1 G1] & [D2 G2]).
  exists w4. split; [by mstep E4|]. cbn in D1, D2, G1, G2. split; [|split; [exact G1|split; [exact G2|]]].
  - pose proof (patched_trans _ _ _ _ _ _ P1 P3) as P13. exact (patched_trans _ _ _ _ _ _ P13 P4).
  - intros pn p [-> | ->%list_elem_of_singleton]%elem_of_cons Hdp; simplify_eq; apply (pa_owned _ _ _ _ P4), (md_owned _ _ _ M); done.
Qed.

(** ** The tree after the item has been taken out *)

Lemma set_subtree_page idxs st st' t : subtree idxs t = Some st -> t_page st' = t_page st -> t_page (set_subtree idxs st' t) = t_page t.
Proof. destruct idxs as [|i idxs]; [by intros [= <-]|]. by destruct t. Qed.

(** Replacing the subtree at a path, when only its pages changed. *)
Lemma repr_set idxs w w' st st' : forall t,
  repr w t -> NoDup (pages t) -> subtree idxs t = Some st -> t_page st' = t_page st -> repr w' st' ->
  (forall pn, pn ∉ pages st -> page_node pn w' = page_node pn w) -> repr w' (set_subtree idxs st' t).
Proof.
  induction idxs as [|i idxs IH]; intros t Hr Hnd Hsub Hpg Hr' Hf; simpl in Hsub; [done|].
  destruct (t_kids t !! i) as [c|] eqn:Hc; [|done]. rewrite (set_subtree_cons i idxs st' t c Hc).
  destruct (with_kid_pages i c c t Hc) as (rest & Epg & _).
  assert (NoDup (pages c)) as Hndc by (rewrite Epg in Hnd; by apply NoDup_app in Hnd as (? & _)).
  apply (repr_with_kid w w' t i c); try done.
  - by apply (set_subtree_page idxs st).
  - apply IH; try done. by apply (repr_kid w t i).
  - intros pn _ Hpn. apply Hf. intros Hin. by apply Hpn, (subtree_pages idxs c st).
Qed.

(** The item of the key is out of the tree; the nodes on the path [idxs] may
    have to be rebalanced. *)
Record taken (k : bytes) (n : nat) (t : tree) (w : world) (idxs : list nat) (t' : tree) (w' : world) : Prop := {
  tk_patched : patched (pages t) [] w w';
  tk_repr : repr w' t';
  tk_owned : tree_owned w' t';
  tk_frame : same_frame t t';
  tk_level : level n t';
  tk_filled : filled_but idxs t';
  tk_path : is_Some (subtree idxs t');
  tk_flatten : flatten t' = remove_item k (flatten t);
  tk_items : length (t_items t') = length (t_items t)  \/ t_kids t = []
}.

(** Replacing a subtree by one with the item taken out. *)
Lemma taken_set k n t st st' idxs idxs2 P w w' :
  repr w t -> shape t -> level n t -> tidy t -> NoDup (pages t) -> tree_owned w t -> sorted (flatten t) ->
  subtree idxs t = Some st -> same_frame st st' -> (forall m, level m st -> level m st') -> filled_but idxs2 st' ->
  is_Some (subtree idxs2 st') -> repr w' st' -> P ⊆ pages st -> patched P [] w w' ->
  (forall pn p, pn ∈ P -> dirty_at w' pn = Some p -> owned w' p) ->
  (forall l r, sorted (l ++ flatten st ++ r) -> l ++ flatten st' ++ r = remove_item k (l ++ flatten st ++ r)) ->
  (length (t_items st') = length (t_items st) \/ t_kids st = []) ->
  taken k n t w (idxs ++ idxs2) (set_subtree idxs st' t) w'.
Proof.
  intros Hr Hsh Hl Htd Hnd Hto Hso Hsub Hfr Hlv Hfb Hp2 Hr' HP Hpa Ho Hrm Hit.
  pose proof (subtree_pages _ _ _ Hsub) as Hsp. pose proof (set_subtree_frame _ _ _ _ Hsub Hfr) as Hfr'.
  destruct (flatten_subtree idxs t st Hsub Hsh) as (_ & l & r & E & Eset). split.
  - apply (patched_mono P); [|done]. by etrans.
  - apply (repr_set idxs w w' st st' t); try done; [apply Hfr|]. intros pn Hpn. apply (pa_pages _ _ _ _ Hpa). set_solver.
  - apply (tree_owned_patched w w' P [] t); try done; [by rewrite (same_pages _ _ Hfr')|].
    intros pn p Hpn _. by apply (Ho pn).
  - done.
  - by apply (level_set idxs st).
  - by apply (filled_but_set idxs idxs2 st).
  - rewrite (subtree_app idxs idxs2 _ st'); [done|]. by apply (subtree_set idxs st).
  - rewrite Eset, E. apply Hrm. by rewrite <- E.
  - destruct idxs as [|i idxs]; simpl in Hsub; [by simplify_eq|]. left.
    destruct (t_kids t !! i) as [c|] eqn:Hc; [|done]. by rewrite (set_subtree_cons i idxs st' t c Hc).
Qed.

(** The path the rebalancing follows for a key found at number [i] of [st]. *)
Definition removal_path (idxs : list nat) (st : tree) (i : nat) : list nat :=
  idxs ++ (if decide (t_kids st = []) then [] else [i]).

Definition take_out (fuel : nat) (q : node_ptr) (i : nat) (anc : list nat) : M world (list nat) :=
  leaf ← node_isLeaf q;
  if leaf : bool then removeItemFromLeaf q i;; mret anc
  else affectedNodes ← removeItemFromInternal fuel q i; mret (anc ++ affectedNodes).

Lemma take_out_leaf k n t st idxs i it w q fuel anc :
  world_ok w -> repr w t -> shape t -> level n t -> tidy t -> NoDup (pages t) -> tree_owned w t ->
  is_Some (dirtyNodes (wtx w)) -> sorted (flatten t) -> subtree idxs t = Some st -> handle w q st -> t_kids st = [] ->
  t_items st !! i = Some it -> key it = k ->
  exists w', take_out fuel q i anc w = (Ok anc, w') /\ taken k n t w idxs (set_subtree idxs (leaf_without i st) t) w'.
Proof.
  intros Hok Hr Hsh Hl Htd Hnd Hto Hd Hso Hsub [Hq Ho] Hk Hi Hkey.
  destruct (removeItemFromLeaf_ok w q (t_node st) i Hok Hq Ho Hd (lookup_lt_Some _ _ _ Hi)) as (w' & E & P & G & D).
  exists w'. split.
  { unfold take_out. mstep (node_isLeaf_points w q _ Hok Hq).
    rewrite (proj2 (isLeaf_true (t_node st))) by (cbn; by rewrite Hk). by mstep E. }
  cbn [t_node pageNum items childNodes] in *. rewrite <- (app_nil_r idxs) at 1.
  apply (taken_set k n t st (leaf_without i st) idxs [] [t_page st] w w'); try done.
  - destruct st as [pg its kids]. cbn in Hk. subst. split; try done. intros _. simpl. split; [by left|done].
  - intros m Hm. destruct m; [done|]. by destruct Hm.
  - cbn. by apply Forall_nil.
  - apply repr_unfold. unfold leaf_without. cbn [t_page t_kids t_items]. split; [|done]. rewrite G. by rewrite Hk.
  - intros x ->%list_elem_of_singleton. apply page_in_pages.
  - intros pn p ->%list_elem_of_singleton. rewrite D. intros [= <-]. by apply (pa_owned _ _ _ _ P).
  - intros l r Hs. rewrite (flatten_leaf st Hk) in *. unfold leaf_without. cbn [flatten map interleave].
    rewrite delete_take_drop. pose proof (take_drop_middle _ _ _ Hi) as Ei.
    set (L := take i (t_items st)) in *. set (R := drop (S i) (t_items st)) in *. rewrite <- Ei in Hs |- *.
    assert (l ++ (L ++ it :: R) ++ r = (l ++ L) ++ it :: R ++ r) as El by (by rewrite <- !app_assoc).
    rewrite El in Hs |- *. rewrite (remove_around k _ it _ Hs Hkey). by rewrite <- !app_assoc.
  - by right.
Qed.

Lemma take_out_internal k n t st idxs i it w q fuel anc :
  world_ok w -> repr w t -> shape t -> level n t -> tidy t -> NoDup (pages t) -> tree_owned w t ->
  is_Some (dirtyNodes (wtx w)) -> sorted (flatten t) -> subtree idxs t = Some st -> handle w q st -> level 1 st ->
  t_items st !! i = Some it -> key it = k -> (1 <= fuel)%nat ->
  exists w' st', take_out fuel q i anc w = (Ok (anc ++ [i]), w') /\ taken k n t w (idxs ++ [i]) (set_subtree idxs st' t) w'.
Proof.
  intros Hok Hr Hsh Hl Htd Hnd Hto Hd Hso Hsub Hq HL Hi Hkey Hfu. pose proof HL as [Hne Hlf].
  destruct (flatten_subtree idxs t st Hsub Hsh) as (Hss & _). pose proof (subtree_tidy _ _ _ Htd Hsub) as [Hfl _].
  destruct (shape_node st Hss) as [?|Hlen]; [done|]. pose proof (lookup_lt_Some _ _ _ Hi) as Hlt.
  destruct (lookup_lt_is_Some_2 (t_kids st) i) as [a Ha]; [lia|].
  destruct (lookup_lt_is_Some_2 (t_kids st) (S i)) as [c Hc]; [lia|].
  destruct (neighbours_at st i a c Hss Ha Hc) as (K1 & K2 & I1 & m & I2 & Hnb).
  rewrite Forall_lookup in Hfl, Hlf. pose proof (Hlf i a Ha) as Hka. pose proof (Hfl i a Ha) as [Hia _]%filled_unfold.
  destruct (exists_last Hia) as (ia & x & Eia).
  pose proof (repr_subtree w idxs t st Hr Hsub) as Hrs. pose proof (nodup_subtree idxs t st Hnd Hsub) as Hnds.
  assert (tree_owned w st) as Hos by (intros pn p Hpn; apply Hto; by apply (subtree_pages idxs t st)).
  destruct (removeItemFromInternal_ok fuel w q st i a c K1 K2 I1 m I2 ia x Hok Hrs Hq Hos Hnds Hd Hnb Hka Eia Hfu)
    as (w' & E & P & G1 & G2 & Ho).
  set (a' := Tree (t_page a) ia []). set (st' := Tree (t_page st) (I1 ++ x :: I2) (K1 ++ a' :: c :: K2)).
  exists w', st'. split.
  { unfold take_out. mstep (node_isLeaf_points w q _ Hok (proj1 Hq)).
    rewrite (proj2 (isLeaf_false (t_node st))) by (cbn; by intros ?%fmap_nil_inv). by mstep E. }
  pose proof Hnb as [Hk Hits Lk Li].
  apply (taken_set k n t st st' idxs [i] [t_page st; t_page a] w w'); try done.
  - apply (predecessor_frame st i a c K1 K2 I1 m I2 ia x Hnb Hka 1 HL).
  - intros lv Hlv. by apply (predecessor_level st i a c K1 K2 I1 m I2 ia x Hnb Hka).
  - apply (predecessor_filled st i a c K1 K2 I1 m I2 ia x Hnb). by rewrite Forall_lookup.
  - exists a'. unfold st'. cbn. by rewrite <- Lk, list_lookup_middle.
  - apply repr_unfold. unfold st'. cbn [t_page t_kids]. split.
    + rewrite G1. unfold t_node. cbn [t_page t_items t_kids]. by rewrite Hk, !fmap_app.
    + assert (patched [t_page st; t_page a; t_page c] [] w w') as P' by (eapply patched_mono; [|exact P]; set_solver).
      pose proof (repr_kid w st (S i) c Hc Hrs) as Hrc. pose proof Hrs as [_ Hrk]%repr_unfold.
      destruct (Forall_neighbours _ _ _ _ _ _ _ _ _ _ Hnb Hrk) as (R1 & _ & _ & R2).
      pose proof (neighbours_rest w w' [] st i K1 a c K2 I1 m I2 Hrs Hnds Hnb P') as HF.
      apply Forall_app in HF as [HF1 [_ HF2]%Forall_app]. apply Forall_app. split; [done|].
      constructor; [by apply repr_unfold|]. constructor; [|done]. apply (repr_frame w); [|done].
      intros pn Hpn. apply (pa_pages _ _ _ _ P). intros [-> | ->%list_elem_of_singleton]%elem_of_cons.
      * by apply (node_fresh_page st c (S i) Hc Hnds).
      * apply (sibling_pages st i (S i) a c (t_page a) Hnds Ha Hc ltac:(lia)); [apply page_in_pages|done].
  - intros y [-> | ->%list_elem_of_singleton]%elem_of_cons; [apply page_in_pages|].
    apply (kid_pages st i a _ Ha), page_in_pages.
  - intros l r Hs. by apply (remove_internal k st i it a c K1 K2 I1 m I2 ia x Hss Hnb Hka Eia Hi Hkey).
  - left. unfold st'. cbn. rewrite Hits, !length_app. done.
Qed.

(** ** [Remove] *)

(** What [Remove] leaves: the collection [p] has a tree [t'] with the contents
    without the key.  Every page that left the tree is scheduled for release,
    but for the old root page when the collection gets another root: that page
    is not. *)
Record removed (p : coll_ptr) (k : bytes) (n : nat) (t : tree) (w : world) (t' : tree) (w' : world) : Prop := {
  rm_ok : world_ok w';
  rm_coll : exists c c', collsH w !! p = Some c /\ collsH w' !! p = Some c' /\ same_coll c c' /\ c_root c' = t_page t';
  rm_repr : repr w' t';
  rm_flatten : flatten t' = remove_item k (flatten t);
  rm_shape : shape t';
  rm_level : exists n', (n' <= n)%nat /\ level n' t';
  rm_tidy : tidy t';
  rm_owned : tree_owned w' t';
  rm_pages : forall pn, pn ∉ pages t -> page_node pn w' = page_node pn w;
  rm_released : exists gone, pagesToDelete (wtx w') = pagesToDelete (wtx w) ++ gone /\
    pages t ≡ₚ gone ++ (if decide (t_page t' = t_page t) then [] else [t_page t]) ++ pages t';
  rm_dirty : is_Some (dirtyNodes (wtx w'));
  rm_free : tx_freelist (wtx w') = tx_freelist (wtx w);
  rm_write : write (wtx w') = write (wtx w);
  rm_collections : is_Some (collections (wtx w)) -> is_Some (collections (wtx w'));
  rm_db : wdb w' = wdb w
}.

(** The last part of [Remove]: a root without items gives way to its child. *)
Definition shrink_root (p : coll_ptr) (ancestors : list node_ptr) : M world unit :=
  match ancestors with
  | [] => panic
  | rootNode :: rest =>
      r ← load_node rootNode;
      if decide (s_len (r_items r) = 0%nat /\ (0 < s_len (r_childNodes r))%nat) then
        match rest with
        | [] => panic
        | a1 :: _ => r1 ← load_node a1; setRoot p (r_pageNum r1)
        end
      else mret tt
  end.

Lemma shrink_root_stay w p q t rest :
  world_ok w -> points w q (t_node t) -> (t_kids t <> [] -> t_items t <> []) -> shrink_root p (q :: rest) w = (Ok tt, w).
Proof.
  intros Hok (r & Hr & Hn) Hne. unfold shrink_root. mstep (load_ok q w r Hr). rewrite decide_False; [done|].
  rewrite (s_len_items w q r Hok Hr), (s_len_kids w q r Hok Hr), Hn. cbn. rewrite length_fmap. intros [H1%nil_length_inv H2].
  apply Hne; [|done]. intros E. rewrite E in H2. simpl in H2. lia.
Qed.

Lemma shrink_root_down w p c q t k0 q1 r1 rest :
  world_ok w -> points w q (t_node t) -> t_items t = [] -> t_kids t = [k0] -> nodesH w !! q1 = Some r1 ->
  r_pageNum r1 = t_page k0 -> collsH w !! p = Some c -> (c_rootCollection c = true \/ is_Some (collections (wtx w))) ->
  exists w', shrink_root p (q :: q1 :: rest) w = (Ok tt, w') /\ root_set p (t_page k0) w w'.
Proof.
  intros Hok (r & Hr & Hn) Hi Hk Hr1 Hpg Hp Hcol. destruct (setRoot_ok w p c (t_page k0) Hp Hcol) as (w' & E & S).
  exists w'. split; [|done]. unfold shrink_root. mstep (load_ok q w r Hr). rewrite decide_True.
  - mstep (load_ok q1 w r1 Hr1). by rewrite Hpg.
  - rewrite (s_len_items w q r Hok Hr), (s_len_kids w q r Hok Hr), Hn. cbn. rewrite Hi, Hk. simpl. lia.
Qed.

Lemma root_set_owned p pn w w' t : root_set p pn w w' -> tree_owned w t -> tree_owned w' t.
Proof.
  intros [_ N I K D _ _ _ _ B] Hto x q Hx Hd. unfold dirty_at in Hd. rewrite D in Hd. unfold owned. rewrite N.
  by apply (Hto x).
Qed.

(** When the root runs empty, the second node of the path is its one child. *)
Lemma root_child n t t1 idxs w q rest t2 w' g :
  level n t -> level n t2 -> shape t2 -> patched (pages t) g w w' -> chain w t1 idxs (q :: rest) ->
  length (t_items t1) = length (t_items t) \/ t_kids t = [] ->
  t_kids t = [] \/ (2 <= length (t_items t))%nat \/ head idxs = Some 0%nat ->
  (length (t_items t1) <= S (length (t_items t2)))%nat ->
  t_page <$> (t_kids t2 !! 0%nat) = t_page <$> (t_kids t1 !! 0%nat) ->
  t_kids t2 <> [] -> t_items t2 = [] ->
  exists k0 q1 rest' r1, t_kids t2 = [k0] /\ rest = q1 :: rest' /\ nodesH w' !! q1 = Some r1 /\ r_pageNum r1 = t_page k0.
Proof.
  intros Hl Hl2 Hs2 P Hch Hits Hcond L Hf Hk Hi. rewrite Hi in L. cbn in L.
  assert (t_kids t <> []) as Hkt.
  { intros E. destruct n as [|m]; [by rewrite Hl2 in Hk|]. by destruct Hl. }
  destruct Hits as [Hits|?]; [|done]. destruct Hcond as [?|[?|Hh]]; [done|lia|].
  destruct (shape_node t2 Hs2) as [?|Hlen]; [done|]. rewrite Hi in Hlen. cbn in Hlen.
  destruct (t_kids t2) as [|k0 [|? ?]] eqn:Ek; [done| |done].
  inversion Hch as [|t' i c idxs' p ps' Hp Hc Hch']; subst; [done|]. simplify_eq/=. rewrite Hc in Hf. simplify_eq/=.
  assert (exists q1 rest', rest = q1 :: rest' /\ handle w q1 c) as (q1 & rest' & -> & [(r & Hr & Hn) _]).
  { inversion Hch' as [? q1 H1|? ? ? ? q1 ps2 H1 ? ?]; subst; [by exists q1, []|by exists q1, ps2]. }
  destruct (pa_nums _ _ _ _ P q1 r Hr) as (r' & Hr' & E). exists k0, q1, rest', r'.
  split; [done|]. split; [done|]. split; [done|]. rewrite E, Hf. by pose proof (f_equal pageNum Hn).
Qed.

(** The rebalanced tree [t2], with the pages [gone] out of it: what is left of
    [Remove] is the root. *)
Section root.
Context (p : coll_ptr) (k : bytes) (n : nat) (t t2 : tree) (w w2 : world) (gone : list Z) (c : collection)
  (P : patched (pages t) gone w w2) (Hr : repr w2 t2) (Hto : tree_owned w2 t2)
  (Hfl : flatten t2 = remove_item k (flatten t)) (Hsh : shape t2) (Hl : level n t2) (Epg : t_page t2 = t_page t)
  (Hf : Forall filled (t_kids t2)) (Hgone : pages t ≡ₚ gone ++ pages t2) (Hd : is_Some (dirtyNodes (wtx w)))
  (Hp : collsH w !! p = Some c) (Hroot : c_root c = t_page t).

(** The root keeps an item, or is a leaf. *)
Lemma removed_kept : (t_kids t2 <> [] -> t_items t2 <> []) -> removed p k n t w t2 w2.
Proof.
  intros Hne. pose proof (pa_tx _ _ _ _ P) as [o T]. split; try done.
  - apply P.
  - exists c, c. split; [done|]. split; [by apply (pa_colls _ _ _ _ P)|]. split; [done|congruence].
  - by exists n.
  - apply (pa_pages _ _ _ _ P).
  - exists gone. rewrite T, decide_True by done. by split.
  - by apply (pa_some _ _ _ _ P).
  - by rewrite T.
  - by rewrite T.
  - by rewrite T.
  - apply P.
Qed.

(** The root has run empty: its child [k0] takes its place, and the root's page
    is neither in the tree nor scheduled for release. *)
Lemma removed_down k0 w3 :
  NoDup (pages t2) -> t_items t2 = [] -> t_kids t2 = [k0] -> root_set p (t_page k0) w2 w3 -> removed p k n t w k0 w3.
Proof.
  intros Hnd Hi Hk RS. pose proof (pa_tx _ _ _ _ P) as [o T].
  assert (t_kids t2 !! 0%nat = Some k0) as Hk0 by (by rewrite Hk).
  assert (pages t2 = t_page t2 :: pages k0) as Ep by (rewrite pages_kids, Hk; cbn; by rewrite app_nil_r).
  assert (t_page k0 <> t_page t) as Hne.
  { rewrite Ep in Hnd. apply NoDup_cons in Hnd as [Hn _]. rewrite <- Epg. intros E. apply Hn. rewrite <- E.
    apply page_in_pages. }
  assert (forall pn, page_node pn w3 = page_node pn w2) as G by (intros pn; by apply (root_set_page p (t_page k0))).
  split.
  - apply (root_set_ok p (t_page k0) w2); [done|apply P].
  - destruct (rs_coll _ _ _ _ RS) as (c0 & c' & H1 & H2 & H3 & H4). rewrite (pa_colls _ _ _ _ P _ _ Hp) in H1.
    simplify_eq. by exists c0, c'.
  - apply (repr_frame w2); [done|]. by apply (repr_kid w2 t2 0).
  - rewrite <- Hfl. clear -Hi Hk. destruct t2 as [pg its kids]. cbn in Hi, Hk. subst. cbn. by rewrite app_nil_r.
  - by apply (shape_kids t2 0).
  - destruct (level_kid n t2 0 k0 Hl Hk0) as (m & -> & Hm). exists m. split; [lia|done].
  - apply filled_tidy. rewrite Hk in Hf. by apply Forall_cons in Hf as [? _].
  - apply (root_set_owned p (t_page k0) w2 w3 k0 RS). by apply (tree_owned_kid w2 t2 0).
  - intros pn Hpn. rewrite G. by apply (pa_pages _ _ _ _ P).
  - exists gone. split; [|rewrite decide_False by done; by rewrite Hgone, Ep, Epg].
    by rewrite (rs_released _ _ _ _ RS), T.
  - rewrite (rs_dirty _ _ _ _ RS). by apply (pa_some _ _ _ _ P).
  - by rewrite (rs_free _ _ _ _ RS), T.
  - by rewrite (rs_write _ _ _ _ RS), T.
  - intros Hc. apply (rs_collections _ _ _ _ RS). by rewrite T.
  - rewrite (rs_db _ _ _ _ RS). apply P.
Qed.
End root.

(** From the path on: rebalancing and the root. *)
Lemma remove_rest_ok k n t w0 idxs t1 w p c :
  taken k n t w0 idxs t1 w -> NoDup (pages t) -> shape t -> level n t -> is_Some (dirtyNodes (wtx w0)) ->
  collsH w0 !! p = Some c -> c_root c = t_page t -> (c_rootCollection c = true \/ is_Some (collections (wtx w0))) ->
  thin (ddal (wdb w0)) -> (t_kids t = [] \/ (2 <= length (t_items t))%nat \/ head idxs = Some 0%nat) ->
  exists t' w', (ancestors ← getNodes p (0%nat :: idxs); remove_levels (levels ancestors (0%nat :: idxs));;
      shrink_root p ancestors) w = (Ok tt, w') /\ removed p k n t w0 t' w'.
Proof.
  intros [P Hr Hto Hfr Hl Hfb [st Hsub] Hfl Hits] Hnd Hsh Hlt Hd Hp Hroot Hcol Hth Hcond.
  pose proof (pa_ok _ _ _ _ P) as Hok.
  destruct (getNodes_ok idxs t1 w p c st Hok Hr Hto Hsub) as (w2 & ps & E2 & R2 & Hch).
  { by apply (pa_colls _ _ _ _ P). }
  { by rewrite (same_page _ _ Hfr). }
  pose proof (reads_patched (pages t1) w w2 Hok R2) as P2. rewrite (same_pages _ _ Hfr) in P2.
  pose proof (patched_trans _ _ _ _ _ _ P P2) as P02. cbn [app] in P02.
  destruct (remove_levels_ok idxs t1 ps w2 n 0 (reads_ok _ _ R2) (reads_repr _ _ _ Hok R2 Hr) Hch)
    as (q & t2 & w3 & Hq & E3 & [[S (g & Eg & P3) R3 O3] F3 L3 Fi3] & [Hh3 _]); try done.
  { by apply Hfr. }
  { by rewrite (same_pages _ _ Hfr). }
  { by apply (reads_tree_owned w). }
  { by apply (pa_some _ _ _ _ P02). }
  { by rewrite (pa_db _ _ _ _ P02). }
  pose proof (shrunk_nodup _ _ _ S ltac:(by rewrite (same_pages _ _ Hfr))) as Hnd2.
  rewrite (same_pages _ _ Hfr) in P3, Eg.
  pose proof (patched_trans _ _ _ _ _ _ P02 P3) as P03. cbn [app] in P03.
  destruct ps as [|q' rest]; [done|]. injection Hq as ->.
  assert (t_page t2 = t_page t) as Epg by (by rewrite (sh_page _ _ _ S), (same_page _ _ Hfr)).
  assert (flatten t2 = remove_item k (flatten t)) as Hfl2 by (by rewrite (sh_flatten _ _ _ S)).
  destruct (decide (t_kids t2 <> [] /\ t_items t2 = [])) as [[Hk2 Hi2]|Hkeep].
  - destruct (root_child n t t1 idxs w2 q rest t2 w3 g) as (k0 & q1 & rest' & r1 & Hk0 & -> & Hr1 & Hpg); try done;
      [apply S..|]. pose proof (pa_tx _ _ _ _ P03) as [o T3].
    destruct (shrink_root_down w3 p c q t2 k0 q1 r1 rest' (pa_ok _ _ _ _ P03) Hh3 Hi2 Hk0 Hr1 Hpg (pa_colls _ _ _ _ P03 _ _ Hp))
      as (w4 & E4 & RS).
    { rewrite T3. exact Hcol. }
    exists k0, w4. split; [mstep E2; mstep E3; exact E4|].
    by apply (removed_down p k n t t2 w0 w3 g c P03 R3 O3 Hfl2 (sh_shape _ _ _ S) (sh_level _ _ _ S) Epg).
  - exists t2, w3. split.
    { mstep E2. mstep E3. apply (shrink_root_stay w3 p q t2 rest (pa_ok _ _ _ _ P03) Hh3). tauto. }
    apply (removed_kept p k n t t2 w0 w3 g c P03); try done; [apply S..|tauto].
Qed.

(** Reading first changes nothing of this. *)
Lemma removed_after w w1 p c k n t t' w' :
  world_ok w -> reads w w1 -> collsH w !! p = Some c -> removed p k n t w1 t' w' -> removed p k n t w t' w'.
Proof.
  intros Hok R Hp [? (c1 & c' & H1 & ?)]. pose proof (reads_extends _ _ R) as X.
  rewrite (coll_after w w1 p c X Hp) in H1. simplify_eq. split; try done; try (by rewrite <- (ext_tx _ _ X)).
  - by exists c1, c'.
  - intros pn Hpn. rewrite <- (reads_page w w1 pn Hok R). auto.
  - by rewrite <- (ext_db _ _ X).
Qed.

(** The keys [Remove] removes correctly: those of a leaf or of the lowest inner
    level, unless the root could run empty while the path is not its first. *)
Definition removable (k : bytes) (t : tree) : Prop :=
  forall idxs st i, route k t idxs st -> findKeyInNode (t_node st) k = (true, i) ->
    (t_kids st = [] \/ level 1 st) /\
    (t_kids t = [] \/ (2 <= length (t_items t))%nat \/ head (removal_path idxs st i) = Some 0%nat).

Lemma take_out_ok k n t st idxs i it w q fuel :
  world_ok w -> repr w t -> shape t -> level n t -> tidy t -> NoDup (pages t) -> tree_owned w t ->
  is_Some (dirtyNodes (wtx w)) -> sorted (flatten t) -> subtree idxs t = Some st -> handle w q st ->
  t_kids st = [] \/ level 1 st -> t_items st !! i = Some it -> key it = k -> (1 <= fuel)%nat ->
  exists w' t1, take_out fuel q i (0%nat :: idxs) w = (Ok (0%nat :: removal_path idxs st i), w') /\
    taken k n t w (removal_path idxs st i) t1 w'.
Proof.
  intros Hok Hr Hsh Hl Htd Hnd Hto Hd Hso Hsub Hq Hlv Hi Hkey Hfu. unfold removal_path. case_decide as Hk.
  - rewrite app_nil_r. destruct (take_out_leaf k n t st idxs i it w q fuel (0%nat :: idxs)) as (w' & E & T); try done.
    by exists w', (set_subtree idxs (leaf_without i st) t).
  - destruct Hlv as [?|H1]; [done|].
    destruct (take_out_internal k n t st idxs i it w q fuel (0%nat :: idxs)) as (w' & st' & E & T); try done.
    by exists w', (set_subtree idxs st' t).
Qed.

Lemma Remove_gen w p t fr n k fuel :
  collection_ok w p t fr -> level n t -> tidy t -> thin (ddal (wdb w)) -> removable k t -> (height t <= fuel)%nat ->
  exists t' w', Remove fuel p k w = (Ok tt, w') /\ removed p k n t w t' w'.
Proof.
  intros [Hok Hw (c & Hp & Htx & Hroot & Hcol) Hr Hsh Hso Hit [Hnd Hlv] Hto [Hd _ _ _] _] Hl Htd Hth Hrem Hf.
  assert (forall A (f : bool -> M world A), (coll_write p ≫= f) w = f true w) as Ew.
  { intros A f. unfold coll_write. rewrite !bind_assoc. erewrite bind_Ok by (unfold load_coll; by rewrite Hp).
    by rewrite !bind_assoc, bind_get_tx, Htx, Hw, bind_ret. }
  unfold Remove. rewrite Ew. cbn [negb]. erewrite bind_Ok by (unfold load_coll; by rewrite Hp). rewrite Hroot.
  destruct (open_tree w t Hok Hr) as (q0 & w1 & E0 & R1 & Hq0 & Ho0). pose proof (reads_ok _ _ R1) as Ok1.
  destruct (findKeyHelper_ok k true fuel t w1 q0 [0%nat] Ok1 (reads_repr _ _ _ Hok R1 Hr) Hq0 Hsh Hf)
    as (w2 & idxs & st & q & H).
  destruct (findKeyInNode (t_node st) k) as [b i] eqn:Ef. destruct H as (E1 & R2 & Hrt & Hq & Ho).
  assert (reads w w2) as R by (by etrans). pose proof (reads_ok _ _ R2) as Ok2.
  specialize (Ho (reads_tree_owned _ _ _ R1 Hto) (Ho0 Hto)). mstep E0. unfold findKey. mstep E1. clear E0 E1.
  rewrite orb_false_r. pose proof (reads_patched (pages t) w w2 Hok R) as P2. destruct b.
  - destruct (Hrem idxs st i Hrt Ef) as [Hst Hcond]. pose proof (route_subtree _ _ _ _ Hrt) as Hsub.
    pose proof (findKeyInNode_at _ _ _ _ Ef) as [Hat _]. specialize (Hat eq_refl).
    destruct (items (t_node st) !! i) as [it|] eqn:Ei; [|done]. injection Hat as Hkey.
    destruct (take_out_ok k n t st idxs i it w2 q fuel Ok2 (reads_repr _ _ _ Hok R Hr) Hsh Hl Htd Hnd
      (reads_tree_owned _ _ _ R Hto) (pa_some _ _ _ _ P2 Hd) Hso Hsub (conj Hq Ho) Hst Ei Hkey) as (w3 & t1 & E3 & T).
    { pose proof (height_pos t). lia. }
    pose proof (pa_tx _ _ _ _ P2) as [o T2].
    destruct (remove_rest_ok k n t w2 _ t1 w3 p c T Hnd Hsh Hl (pa_some _ _ _ _ P2 Hd) (pa_colls _ _ _ _ P2 _ _ Hp) Hroot)
      as (t' & w' & E & RM).
    { by rewrite T2. }
    { by rewrite (pa_db _ _ _ _ P2). }
    { done. }
    exists t', w'. split.
    + unfold take_out in E3. rewrite <- bind_assoc. mstep E3. exact E.
    + by apply (removed_after w w2 p c).
  - exists t, w2. split; [done|]. destruct Htd as [Hfk Hne].
    apply (removed_kept p k n t t w w2 [] c P2); try done.
    + by apply (reads_repr w).
    + by apply (reads_tree_owned w).
    + symmetry. apply remove_absent, find_item_None. pose proof (route_find _ _ _ _ Hrt Hsh Hso) as Hfi. by rewrite Ef in Hfi.
Qed.

Lemma removed_live p k n t w t' w' fr : removed p k n t w t' w' -> pages_live fr t -> pages_live fr t'.
Proof.
  intros R [Hnd Hl]. destruct (rm_released _ _ _ _ _ _ _ R) as (g & _ & E). rewrite app_assoc in E.
  rewrite E in Hnd, Hl. apply NoDup_app in Hnd as (_ & _ & ?). by apply Forall_app in Hl as [_ ?].
Qed.

Lemma removed_collection_ok p k n t w t' w' fr :
  collection_ok w p t fr -> level n t -> removed p k n t w t' w' -> collection_ok w' p t' fr.
Proof.
  intros [_ Hw (c0 & H0 & H1 & H2 & H3) _ _ Hs Hit Hlv _ [_ Hfr Hwf Hroom] Hspl] Hl R.
  pose proof (removed_live _ _ _ _ _ _ _ fr R Hlv) as Hlv'.
  destruct R as [R1 (c & c' & Hp & Hp' & (_ & Htx & Hrc) & Hr) R3 R4 R5 (m & Hm & Hlm) R7 R8 R9 R10 R11 R12 R13 R14 R15].
  assert (c0 = c) as -> by congruence. split; try done.
  - by rewrite R13.
  - exists c'. split; [done|]. split; [congruence|]. split; [done|]. destruct H3 as [?|?]; [left; congruence|right; auto].
  - rewrite R4. by apply remove_sorted.
  - rewrite R4. by apply remove_Forall.
  - split; try done; [by rewrite R12|]. rewrite (level_height m t' Hlm). rewrite (level_height n t Hl) in Hroom. lia.
  - by rewrite R15.
Qed.

End delete.

(** ** Properties *)

(** C2: [Remove] succeeds, whatever rotations and merges it takes, on a collection
    of a write transaction ([collection_ok], as for [Put]) whose tree has its
    leaves on one level and no empty node but possibly a root that is a leaf
    ([tidy]), when a node without items counts as underpopulated ([thin]) and the
    key is absent or [removable]: in a leaf or the lowest inner level, the root
    being a leaf, or having two items, or being left through its first child.
    Afterwards the collection meets the same conditions, with the old contents
    without the key; every other page shows what it did; and the pages that left
    the tree are exactly those scheduled for release, but for the old root page
    when the root changes. *)
Theorem Remove_correct {RT : GoRuntime} w p t fr n k fuel :
  collection_ok w p t fr -> level n t -> tidy t -> thin (ddal (wdb w)) -> removable k t -> (height t <= fuel)%nat ->
  exists t' w', Remove fuel p k w = (Ok tt, w') /\ removed p k n t w t' w' /\ collection_ok w' p t' fr.
Proof.
  intros Hco Hl Ht Hth Hrm Hf. destruct (Remove_gen w p t fr n k fuel Hco Hl Ht Hth Hrm Hf) as (t' & w' & E & R).
  exists t', w'. split; [done|]. split; [done|]. by apply (removed_collection_ok p k n t w).
Qed.

(** With the default fill percents an empty node is underpopulated. *)
Lemma default_thin ps d :
  default_dal ps d ->
  f32_lt (f32_of_Z (nodeSize (Node 0 [] []))) (f32_mul (MinFillPercent DefaultOptions) (f32_of_Z ps)) = true -> thin d.
Proof.
  intros (Hp & Hmin & _) H n Hn. unfold isUnderPopulated, minThreshold. rewrite Hp, Hmin.
  assert (nodeSize n = nodeSize (Node 0 [] [])) as ->; [|done]. unfold nodeSize. by rewrite Hn.
Qed.

Lemma demo_thin : thin (ddal (wdb demo_world)).
Proof. apply (default_thin 4096); [by vm_compute|]. vm_compute. reflexivity. Qed.

Lemma demo_removable : removable [1] demo_tree.
Proof.
  intros idxs st i Hrt. inversion Hrt as [? H|? j c idxs' ? H Hc Hr]; subst; vm_compute in H.
  - destruct H as [?|?]; done.
  - injection H as <-. injection Hc as <-. inversion Hr as [? H'|? ? ? ? ? H' Hc' Hr']; subst; [|done].
    intros _. split; [by left|]. by right; right.
Qed.

Lemma Remove_correct_witness :
  exists t' w', Remove 2 0 [1] demo_world = (Ok tt, w') /\ removed 0 [1] 1 demo_tree demo_world t' w' /\
    collection_ok w' 0 t' (Freelist 4 []).
Proof.
  apply (Remove_correct demo_world 0 demo_tree (Freelist 4 []) 1 [1] 2 demo_collection_ok).
  - split; [done|]. repeat constructor.
  - split; [repeat constructor; done|done].
  - exact demo_thin.
  - exact demo_removable.
  - simpl. lia.
Defined.
