(* ===== verification/Store.v ===== *)
(** * Key-value stores: the abstract specification and its clients

    What a store promises, as a typeclass: its calls act on the abstract map
    as [spec_next] and answer as [spec_out].  [kv_calls_refine] is proved of
    every store against this interface; [Session] is the instance for the
    collections of a write transaction. *)

From S2P Require Import Prelude Freelist Node Contents Shrink.

(** ** The abstract map *)

Inductive call := CPut (k v : bytes) | CFind (k : bytes) | CRemove (k : bytes).

Definition spec_next (c : call) (m : gmap bytes bytes) : gmap bytes bytes :=
  match c with CPut k v => <[k := v]> m | CFind _ => m | CRemove k => delete k m end.

Definition spec_out (c : call) (m : gmap bytes bytes) : option bytes :=
  match c with CFind k => m !! k | _ => None end.

Fixpoint spec_outs (cs : list call) (m : gmap bytes bytes) : list (option bytes) :=
  match cs with [] => [] | c :: cs => spec_out c m :: spec_outs cs (spec_next c m) end.

Definition spec_final (cs : list call) (m : gmap bytes bytes) : gmap bytes bytes :=
  foldl (fun m c => spec_next c m) m cs.

(** ** Stores *)

Class KVStore (St : Type) := {
  kv_step : call -> M St (option bytes);
  kv_models : St -> gmap bytes bytes -> Prop;
  kv_allows : St -> call -> Prop;
  kv_refines : forall s m c, kv_models s m -> kv_allows s c ->
    exists s', kv_step c s = (Ok (spec_out c m), s') /\ kv_models s' (spec_next c m)
}.

Section client.
Context {St : Type} {store : KVStore St}.

Fixpoint kv_calls (cs : list call) : M St (list (option bytes)) :=
  match cs with
  | [] => mret []
  | c :: cs => r ← kv_step c; rs ← kv_calls cs; mret (r :: rs)
  end.

(** Each call is one the store allows, in the state it is made in. *)
Fixpoint kv_safe (cs : list call) (s : St) : Prop :=
  match cs with
  | [] => True
  | c :: cs => kv_allows s c /\ forall r s', kv_step c s = (Ok r, s') -> kv_safe cs s'
  end.

(** Any sequence of allowed calls answers as the map does. *)
Lemma kv_calls_refine cs : forall s m,
  kv_models s m -> kv_safe cs s ->
  exists s', kv_calls cs s = (Ok (spec_outs cs m), s') /\ kv_models s' (spec_final cs m).
Proof.
  induction cs as [|c cs IH]; intros s m Hm Hs; [by exists s|]. destruct Hs as [Ha Hs].
  destruct (kv_refines s m c Hm Ha) as (s1 & E1 & H1). destruct (IH s1 _ H1 (Hs _ _ E1)) as (s' & E & H').
  exists s'. split; [|done]. cbn [kv_calls spec_outs]. mstep E1. by mstep E.
Qed.
End client.

(** ** The contents of a tree as a map *)

Definition contents (l : list Item) : gmap bytes bytes := list_to_map ((fun it => (key it, value it)) <$> l).

Lemma contents_lookup l k : contents l !! k = value <$> find_item k l.
Proof.
  unfold contents. induction l as [|it l IH]; [done|]. cbn [fmap list_fmap list_to_map foldr find_item fst snd].
  case_decide as Hk; [subst; by rewrite lookup_insert_eq|by rewrite lookup_insert_ne].
Qed.

Lemma contents_upsert k v l : contents (upsert k v l) = <[k := v]> (contents l).
Proof.
  apply map_eq. intros k'. rewrite contents_lookup. destruct (decide (k' = k)) as [-> |Hne].
  - by rewrite find_upsert_eq, lookup_insert_eq.
  - by rewrite find_upsert_ne, lookup_insert_ne, contents_lookup.
Qed.

Lemma contents_remove k l : contents (remove_item k l) = delete k (contents l).
Proof.
  apply map_eq. intros k'. rewrite contents_lookup. destruct (decide (k' = k)) as [-> |Hne].
  - by rewrite find_remove_eq, lookup_delete_eq.
  - by rewrite find_remove_ne, lookup_delete_ne, contents_lookup.
Qed.
