(* ===== verification/Session.v ===== *)
(** * A collection in a write transaction implements the abstract map

    The instance of [KVStore] for the collections of collection.go: as long as
    the calls stay within what is correct in one transaction (a [Put] that
    splits no node, a [Remove] of a [removable] key), [Put], [Find] and
    [Remove] answer as a map from keys to values does. *)

From S2P Require Import Prelude Freelist Meta Node Float32 Dal GoSlice World Tree Heap Contents Split Collection Search Shrink Insert Delete Store.

Open Scope Z_scope.

(** ** A [Put] that splits nothing *)

(** A node on the path is overpopulated. *)
Fixpoint crowded (d : dal) (idxs : list nat) (t : tree) : bool :=
  isOverPopulated d (t_node t) ||
  match idxs with
  | [] => false
  | i :: idxs => match t_kids t !! i with Some c => crowded d idxs c | None => false end
  end.

(** Storing the key makes no node overpopulated. *)
Definition roomy (d : dal) (k v : bytes) (t : tree) : Prop :=
  forall idxs st, route k t idxs st -> crowded d idxs (set_subtree idxs (put_here k v st) t) = false.

Section session.
Context {RT : GoRuntime}.

Lemma put_levels_calm idxs : forall t ps w j,
  chain w t idxs ps -> crowded (ddal (wdb w)) idxs t = false -> put_levels (levels ps (j :: idxs)) w = (Ok tt, w).
Proof.
  induction idxs as [|i idxs IH]; intros t ps w j Hch Hc; inversion Hch as
    [t' p Hh|t' i' c idxs' p ps' Hh Hk Hch']; subst; [done|].
  cbn [crowded] in Hc. rewrite Hk in Hc. apply orb_false_iff in Hc as [_ Hc].
  pose proof (IH c ps' w i Hch' Hc) as El. destruct ps' as [|q ps']; [inversion Hch'|].
  assert (handle w q c) as [Hq _] by (inversion Hch'; by subst).
  rewrite (levels_cons p q ps' i idxs j). erewrite put_levels_snoc; [|exact El|by apply node_isOverPopulated_points].
  assert (isOverPopulated (ddal (wdb w)) (t_node c) = false) as ->; [|done].
  destruct idxs; cbn [crowded] in Hc; by apply orb_false_iff in Hc as [? _].
Qed.

Lemma grow_root_calm w p q t : points w q (t_node t) -> isOverPopulated (ddal (wdb w)) (t_node t) = false ->
  grow_root p q w = (Ok tt, w).
Proof. intros Hq Ho. unfold grow_root. mstep (node_isOverPopulated_points w q _ Hq). by rewrite Ho. Qed.

Lemma collection_ok_reads w w' p t fr : collection_ok w p t fr -> reads w w' -> collection_ok w' p t fr.
Proof.
  intros [Hok Hw (c & Hp & Hc) Hr Hsh Hs Hit Hl Hto [Hd Hf Hwf Hrm] Hspl] R. pose proof (reads_extends _ _ R) as X.
  pose proof (ext_tx _ _ X) as T. split; try done.
  - apply R.
  - by rewrite T.
  - exists c. split; [by apply (coll_after w)|]. by rewrite T.
  - by apply (reads_repr w).
  - by apply (reads_tree_owned w).
  - by split; rewrite ?T.
  - by rewrite (ext_db _ _ X).
Qed.

(** What such a [Put] leaves: the same tree on the same pages with the item in
    it; one node has become dirty. *)
Record calm_put (p : coll_ptr) (k v : bytes) (t : tree) (w : world) (t' : tree) (w' : world) : Prop := {
  cl_flatten : flatten t' = upsert k v (flatten t);
  cl_form : same_form t t';
  cl_height : height t' = height t;
  cl_pages : pages t' = pages t;
  cl_db : wdb w' = wdb w;
  cl_tx : tx_dirtied w w';
  cl_coll : forall c, collsH w !! p = Some c -> collsH w' !! p = Some c;
  cl_other : forall pn, pn ∉ pages t -> page_node pn w' = page_node pn w;
  cl_dirty : exists idxs st, route k t idxs st /\ page_node (t_page st) w' = Ok (t_node (put_here k v st)) /\
    forall pn, pn <> t_page st -> dirty_at w' pn = dirty_at w pn
}.

Lemma Put_calm w p t fr k v fuel :
  collection_ok w p t fr -> item_validate (newItem k v) (pageSize (ddal (wdb w))) = Ok tt -> (height t <= fuel)%nat ->
  roomy (ddal (wdb w)) k v t ->
  exists t' w', Put fuel p k v w = (Ok tt, w') /\ collection_ok w' p t' fr /\ calm_put p k v t w t' w'.
Proof.
  intros Hco Hv Hf Hroom. pose proof Hco as [Hok Hw (c & Hp & Htx & Hroot & Hcol) Hr Hsh Hs Hit Hlive Hto Hrdy Hspl].
  destruct (put_search_ok w p t fr k v fuel Hco Hf) as (w1 & idxs & st & E1 & Hrt & Hfr & Ok1 & R1 & To1 & F1 & C1 & [m T1] & B1 & D1).
  set (t1 := set_subtree idxs (put_here k v st) t) in *. pose proof (route_subtree _ _ _ _ Hrt) as Hsub.
  destruct (getNodes_ok idxs t1 w1 p c (put_here k v st) Ok1 R1 To1) as (w2 & ps & E2 & R2 & Hch).
  { by apply (subtree_set idxs st). }
  { by apply C1. }
  { by rewrite (same_page _ _ Hfr). }
  pose proof (reads_extends _ _ R2) as X2. assert (wdb w2 = wdb w) as B2 by (by rewrite (ext_db _ _ X2)).
  specialize (Hroom idxs st Hrt). fold t1 in Hroom. rewrite <- B2 in Hroom.
  pose proof (put_levels_calm idxs t1 ps w2 0 Hch Hroom) as E3.
  destruct ps as [|q ps]; [inversion Hch|]. assert (handle w2 q t1) as [Hq _] by (inversion Hch; by subst).
  assert (isOverPopulated (ddal (wdb w2)) (t_node t1) = false) as Ho
    by (destruct idxs; cbn [crowded] in Hroom; by apply orb_false_iff in Hroom as [? _]).
  pose proof (route_put k v t idxs st Hrt Hsh Hs) as Hflat. fold t1 in Hflat.
  pose proof (put_form k v t idxs st Hsub) as Hform. fold t1 in Hform.
  exists t1, w2. split; [|split].
  - apply (Put_begins w p t fr k v fuel _ Hco Hv). rewrite (E1 unit (put_path p)). unfold put_path.
    mstep E2. mstep E3. by apply (grow_root_calm w2 p q t1).
  - apply (collection_ok_reads w1); [|done]. destruct Hrdy as [Hd Hfree Hwf Hrm]. split; try done.
    + by rewrite T1.
    + exists c. split; [by apply C1|]. split; [done|]. split; [by rewrite (same_page _ _ Hfr)|]. by rewrite T1.
    + by apply Hfr.
    + rewrite Hflat. by apply upsert_sorted.
    + rewrite Hflat. apply upsert_Forall_item; [by eapply item_validate_ok|done].
    + unfold pages_live. by rewrite (same_pages _ _ Hfr).
    + split; try done; [by rewrite T1|by rewrite T1|by rewrite (same_height _ _ Hfr)].
    + by rewrite B1.
  - split; try done; try apply Hfr.
    + exists m. by rewrite (ext_tx _ _ X2).
    + intros c' Hc'. by apply (coll_after w1), C1.
    + intros pn Hpn. rewrite (reads_page w1 w2 pn Ok1 R2). by apply F1.
    + exists idxs, st. split; [done|]. split.
      * pose proof (repr_subtree w1 idxs t1 _ R1 (subtree_set _ _ _ _ Hsub)) as [Hpg _]%repr_unfold.
        rewrite (proj2 (put_here_kids k v st)) in Hpg. by rewrite (reads_page w1 w2 _ Ok1 R2).
      * intros pn Hpn. rewrite (extends_dirty _ _ _ X2). by apply D1.
Qed.

(** ** The instance *)

Definition run_call (fuel : nat) (p : coll_ptr) (c : call) : M world (option bytes) :=
  match c with
  | CPut k v => Put fuel p k v;; mret None
  | CFind k => it ← Find fuel p k; mret (value <$> it)
  | CRemove k => Remove fuel p k;; mret None
  end.

(** The calls that are correct in one transaction. *)
Definition admissible (d : dal) (c : call) (t : tree) : Prop :=
  match c with
  | CPut k v => item_validate (newItem k v) (pageSize d) = Ok tt /\ roomy d k v t
  | CFind _ => True
  | CRemove k => removable k t
  end.

Record coll_models (fuel : nat) (p : coll_ptr) (w : world) (m : gmap bytes bytes) : Prop := {
  cm_tree : exists t fr n, collection_ok w p t fr /\ level n t /\ tidy t /\ (height t <= fuel)%nat /\ contents (flatten t) = m;
  cm_thin : thin (ddal (wdb w))
}.

Definition coll_allows (p : coll_ptr) (w : world) (c : call) : Prop :=
  forall t fr, collection_ok w p t fr -> admissible (ddal (wdb w)) c t.

Lemma coll_refines fuel p w m c :
  coll_models fuel p w m -> coll_allows p w c ->
  exists w', run_call fuel p c w = (Ok (spec_out c m), w') /\ coll_models fuel p w' (spec_next c m).
Proof.
  intros [(t & fr & n & Hco & Hl & Ht & Hf & <-) Hth] Ha. specialize (Ha t fr Hco). destruct c as [k v|k|k].
  - destruct Ha as [Hv Hroom]. destruct (Put_calm w p t fr k v fuel Hco Hv Hf Hroom) as (t' & w' & E & Hco' & [Efl [Fl Ft] Hh _ B _ _ _ _]).
    exists w'. split; [cbn [run_call]; by mstep E|]. split; [|by rewrite B]. exists t', fr, n.
    split; [done|]. split; [by apply Fl|]. split; [by apply Ft|]. split; [lia|]. by rewrite Efl, contents_upsert.
  - pose proof Hco as [Hok _ (c & Hp & Htx & Hroot & _) Hr Hsh Hs _ _ _ _ _].
    destruct (Find_gen w p c t k fuel Hok Hp Htx Hroot Hr Hsh Hs Hf) as (w' & E & R).
    exists w'. split; [cbn [run_call spec_out]; mstep E; by rewrite contents_lookup|].
    split; [|by rewrite (ext_db _ _ (reads_extends _ _ R))]. exists t, fr, n.
    split; [by apply (collection_ok_reads w)|done].
  - destruct (Remove_gen w p t fr n k fuel Hco Hl Ht Hth Ha Hf) as (t' & w' & E & R).
    exists w'. split; [cbn [run_call]; by mstep E|]. split; [|by rewrite (rm_db _ _ _ _ _ _ _ R)].
    destruct (rm_level _ _ _ _ _ _ _ R) as (n' & Hn & Hl'). exists t', fr, n'.
    split; [by apply (removed_collection_ok p k n t w)|]. split; [done|]. split; [apply R|].
    rewrite (level_height _ _ Hl') . rewrite (level_height _ _ Hl) in Hf.
    split; [lia|]. by rewrite (rm_flatten _ _ _ _ _ _ _ R), contents_remove.
Qed.

#[export] Instance collection_store (fuel : nat) (p : coll_ptr) : KVStore world := {
  kv_step := run_call fuel p;
  kv_models := coll_models fuel p;
  kv_allows := coll_allows p;
  kv_refines := coll_refines fuel p
}.

(** ** The tree a collection shows is determined *)

Lemma repr_det w t : forall t', repr w t -> repr w t' -> t_page t = t_page t' -> t = t'.
Proof.
  induction t as [pg its kids IH] using tree_ind'. intros [pg' its' kids'] [H1 Hk]%repr_unfold [H2 Hk']%repr_unfold E.
  cbn in E. subst pg'. cbn [t_page] in *. rewrite H1 in H2. unfold t_node in H2. cbn in H2. injection H2 as -> Ek.
  f_equal. cbn in Hk, Hk'. clear H1. revert kids' Hk' Ek. induction IH as [|t kids Ht _ IHk]; intros [|t' kids'] Hk' Ek; try done.
  apply Forall_cons in Hk as [Hr Hk], Hk' as [Hr' Hk']. injection Ek as Et Ek. f_equal; [by apply Ht|by apply IHk].
Qed.

Lemma collection_ok_det w p t t' fr fr' : collection_ok w p t fr -> collection_ok w p t' fr' -> t' = t.
Proof.
  intros [_ _ (c & Hp & _ & Hroot & _) Hr _ _ _ _ _ _ _] [_ _ (c' & Hp' & _ & Hroot' & _) Hr' _ _ _ _ _ _ _].
  symmetry. apply (repr_det w); [done|done|]. congruence.
Qed.

End session.

(** ** Properties *)


Definition demo_calls : list call := [CFind [7]; CPut [6] [60]; CFind [6]; CRemove [1]; CFind [1]; CFind [3]].

Lemma demo_models : coll_models 2 0 demo_world (contents (flatten demo_tree)).
Proof.
  split; [|exact demo_thin]. exists demo_tree, (Freelist 4 []), 1%nat. split; [exact demo_collection_ok|].
  split; [split; [done|]; repeat constructor|]. split; [split; [repeat constructor; done|done]|]. by split; [simpl; lia|].
Qed.

(** The tree after the put. *)
Definition demo_tree_6 : tree := Tree 2 [demo_item 5 50]
  [Tree 3 [demo_item 1 10; demo_item 3 30] []; Tree 4 [demo_item 6 60; demo_item 7 70] []].
Definition demo_world_6 : world := Eval vm_compute in snd (run_call 2 0 (CPut [6] [60]) demo_world).

Lemma demo_put_allowed : admissible (ddal (wdb demo_world)) (CPut [6] [60]) demo_tree.
Proof.
  split; [by vm_compute|]. intros idxs st Hrt. inversion Hrt as [? H|? j c idxs' ? H Hc Hr]; subst; vm_compute in H.
  - destruct H as [?|?]; done.
  - injection H as <-. injection Hc as <-. inversion Hr as [? H'|? ? ? ? ? H' Hc' Hr']; subst; [|done]. by vm_compute.
Qed.

Lemma demo_collection_6 : exists fr, collection_ok demo_world_6 0 demo_tree_6 fr.
Proof.
  destruct demo_put_allowed as [Hv Hroom].
  destruct (Put_calm demo_world 0 demo_tree (Freelist 4 []) [6] [60] 2 demo_collection_ok Hv ltac:(simpl; lia) Hroom)
    as (t & w & E & Hco & C).
  assert (Put 2 0 [6] [60] demo_world = (Ok tt, demo_world_6)) as E' by (by vm_compute). rewrite E in E'.
  injection E' as ->. exists (Freelist 4 []). assert (t = demo_tree_6) as <-; [|done].
  apply (repr_det demo_world_6); [exact (co_repr _ _ _ _ Hco)|repeat split|].
  pose proof (cl_pages _ _ _ _ _ _ _ C) as Ep. destruct t. simpl in Ep. by injection Ep as ->.
Qed.

Lemma demo_removable_6 : removable [1] demo_tree_6.
Proof.
  intros idxs st i Hrt. inversion Hrt as [? H|? j c idxs' ? H Hc Hr]; subst; vm_compute in H.
  - destruct H as [?|?]; done.
  - injection H as <-. injection Hc as <-. inversion Hr as [? H'|? ? ? ? ? H' Hc' Hr']; subst; [|done].
    intros _. split; [by left|]. by right; right.
Qed.

Lemma demo_safe : kv_safe (store := collection_store 2 0) demo_calls demo_world.
Proof.
  assert (run_call 2 0 (CFind [7]) demo_world = (Ok (Some [70]), demo_world)) as E1 by (by vm_compute).
  assert (run_call 2 0 (CPut [6] [60]) demo_world = (Ok None, demo_world_6)) as E2 by (by vm_compute).
  assert (run_call 2 0 (CFind [6]) demo_world_6 = (Ok (Some [60]), demo_world_6)) as E3 by (by vm_compute).
  split; [by intros t fr _|]. intros r w1 E. cbn [kv_step collection_store] in E. rewrite E1 in E. injection E as _ <-.
  split.
  { intros t fr Hco. rewrite (collection_ok_det _ _ _ _ _ _ demo_collection_ok Hco). exact demo_put_allowed. }
  intros r2 w2 E. cbn [kv_step collection_store] in E. rewrite E2 in E. injection E as _ <-.
  split; [by intros t fr _|]. intros r3 w3 E. cbn [kv_step collection_store] in E. rewrite E3 in E. injection E as _ <-.
  split; [|intros r4 w4 _; split; [by intros t fr _|]; intros r5 w5 _; by split; [intros t fr _|]].
  destruct demo_collection_6 as [fr6 H6]. intros t fr Hco. rewrite (collection_ok_det _ _ _ _ _ _ H6 Hco).
  exact demo_removable_6.
Qed.

