(* ===== verification/Tx.v ===== *)
(** * tx.go: transactions

    Beginning a transaction ([ReadTx], [WriteTx] of db.go and [newTx]) takes a
    lock of the [DB] and builds the world of the transaction; the collection
    operations and [Commit] and [Rollback] run in that world, whose [wdb] is
    the database they leave. *)

From S2P Require Import Prelude Freelist Meta Node Float32 Dal Wal GoSlice World Tree Collection.

Open Scope Z_scope.

(** ** Locks: [sync.Mutex] and [sync.RWMutex]

    A lock that is held elsewhere makes the caller wait ([Blocked]); unlocking
    a lock that is not held is a fatal error of the runtime. *)

Definition writeLock_Lock : M DB unit := fun b =>
  if writeLock b then (Blocked, b) else (Ok tt, mkDB (ddal b) true (commitWriter b) (commitReaders b)).
Definition writeLock_Unlock : M DB unit := fun b =>
  if writeLock b then (Ok tt, mkDB (ddal b) false (commitWriter b) (commitReaders b)) else (Panic, b).
(** [Lock] announces the writer, from when on no reader gets the lock any more,
    then waits until the readers that have it are gone. *)
Definition commitLock_Lock : M DB unit := fun b =>
  if commitWriter b then (Blocked, b)
  else
    let b := mkDB (ddal b) (writeLock b) true (commitReaders b) in
    if decide (commitReaders b = 0%nat) then (Ok tt, b) else (Blocked, b).
Definition commitLock_Unlock : M DB unit := fun b =>
  if commitWriter b then (Ok tt, mkDB (ddal b) (writeLock b) false (commitReaders b)) else (Panic, b).
Definition commitLock_RLock : M DB unit := fun b =>
  if commitWriter b then (Blocked, b) else (Ok tt, mkDB (ddal b) (writeLock b) false (S (commitReaders b))).
Definition commitLock_RUnlock : M DB unit := fun b =>
  match commitReaders b with
  | O => (Panic, b)
  | S n => (Ok tt, mkDB (ddal b) (writeLock b) (commitWriter b) n)
  end.

Definition lift_db {A} (m : M DB A) : M world A := zoom wdb with_wdb m.

(** ** Begin *)

Definition newTx (b : DB) (wr : bool) : Tx :=
  mkTx (Some ∅) [] wr (root (dmeta (ddal b)))
    (if wr then Some (clone (dfreelist (ddal b))) else None) (Some ∅) (Some ∅).

(** A new transaction, with an empty heap. *)
Definition begin (b : DB) (wr : bool) : world := World [] [] [] [] (newTx b wr) b.

Definition ReadTx : M DB world := commitLock_RLock;; b ← getS; mret (begin b false).
Definition WriteTx : M DB world := writeLock_Lock;; b ← getS; mret (begin b true).

Section tx.
Context {RT : GoRuntime}.

(** ** Rollback *)

Definition Rollback : M world unit :=
  tx ← get_tx;
  if negb (write tx) then lift_db commitLock_RUnlock
  else
    mod_tx (fun tx => mkTx None [] (write tx) (tx_root tx) None None None);;
    lift_db writeLock_Unlock.

(** ** Collections *)

Definition getRootCollection : M world coll_ptr :=
  tx ← get_tx;
  new_coll (Collection [] (tx_root tx) 0 true true false).

Definition GetCollection (fuel : nat) (name : bytes) : M world (option coll_ptr) :=
  tx ← get_tx;
  if write tx && bool_decide (name ∈ default ∅ (deletedCollections tx)) then mret None
  else
    match (if write tx then collections tx ≫= (.!! name) else None) with
    | Some p => mret (Some p)
    | None =>
        rootCollection ← getRootCollection;
        item ← Find fuel rootCollection name;
        match item with
        | None => mret None
        | Some item =>
            c ← liftO (Collection.deserialize newEmptyCollection item);
            p ← new_coll (coll_set_tx true c);
            trackCollection p;;
            mret (Some p)
        end
    end.

Definition createCollection (fuel : nat) (p : coll_ptr) : M world coll_ptr :=
  upd_coll p (coll_set_tx true);;
  c ← load_coll p;
  collectionBytes ← liftO (Collection.serialize c);
  rootCollection ← getRootCollection;
  Put fuel rootCollection (c_name c) (value collectionBytes);;
  mod_tx (fun tx => with_deleted (option_map (fun s => s ∖ {[c_name c]}) (deletedCollections tx)) tx);;
  trackCollection p;;
  mret p.

Definition CreateCollection (fuel : nat) (name : bytes) : M world coll_ptr :=
  tx ← get_tx;
  if negb (write tx) then throw ErrWriteInsideReadTx
  else
    newCollectionPage ← tx_newNode nil_slice nil_slice;
    tx_writeNode newCollectionPage;;
    r ← load_node newCollectionPage;
    p ← new_coll (Collection name (r_pageNum r) 0 false false false);
    createCollection fuel p.

Definition GetOrCreateCollection (fuel : nat) (name : bytes) : M world coll_ptr :=
  c ← GetCollection fuel name;
  match c with
  | Some p => mret p
  | None => CreateCollection fuel name
  end.

Definition DeleteCollection (fuel : nat) (name : bytes) : M world unit :=
  tx ← get_tx;
  if negb (write tx) then throw ErrWriteInsideReadTx
  else
    rootCollection ← getRootCollection;
    Remove fuel rootCollection name;;
    mod_tx (fun tx => with_colls (delete name <$> collections tx) tx);;
    tx ← get_tx;
    match deletedCollections tx with
    | None => panic
    | Some s => mod_tx (with_deleted (Some ({[name]} ∪ s)))
    end.

(** ** Commit

    Go visits the entries of a map in an order of its own choosing: the orders
    in which the two loops visit [tx.collections] and [tx.dirtyNodes] are
    arguments.  A loop visits the entries that are in the map; a name or a page
    that is not is skipped. *)

Definition flush_one (fuel : nat) (name : bytes) : M world unit :=
  tx ← get_tx;
  match collections tx ≫= (.!! name) with
  | None => mret tt
  | Some p =>
      c ← load_coll p;
      if bool_decide (name ∈ default ∅ (deletedCollections tx)) || negb (c_dirtyMeta c) then mret tt
      else
        rootCollection ← getRootCollection;
        item ← liftO (Collection.serialize c);
        Put fuel rootCollection (c_name c) (value item);;
        upd_coll p (coll_set_dirty false)
  end.
Definition flushCollectionMetadata (fuel : nat) (order : list bytes) : M world unit :=
  mapM_ (flush_one fuel) order.

(** The pages of the dirty nodes, in the given order. *)
Fixpoint dirty_pages (order : list Z) : M world (list page) :=
  match order with
  | [] => mret []
  | pn :: order =>
      tx ← get_tx;
      match dirtyNodes tx ≫= (.!! pn) with
      | None => dirty_pages order
      | Some p =>
          n ← node_view p;
          d ← get_dal;
          pg ← liftO (nodePage d n);
          rest ← dirty_pages order;
          mret (pg :: rest)
      end
  end.

Definition commitPages (order : list Z) : M world (list page * freelist * meta) :=
  tx ← get_tx;
  match tx_freelist tx with
  | None => panic
  | Some fr =>
      let nextFreelist := fold_left (fun fr pn => releasePage pn fr) (pagesToDelete tx) (clone fr) in
      pages ← dirty_pages order;
      d ← get_dal;
      fbuf ← liftO (Freelist.serialize nextFreelist (data (allocateEmptyPage d)));
      let nextMeta := Meta (tx_root tx) (freelistPage (dmeta d)) in
      mbuf ← liftO (Meta.serialize nextMeta (data (allocateEmptyPage d)));
      mret (pages ++ [Page (freelistPage (dmeta d)) fbuf; Page metaPageNum mbuf], nextFreelist, nextMeta)
  end.

(** The part of [Commit] that runs under the commit lock. *)
Definition commit_apply (order : list Z) : M world unit :=
  '(pages, nextFreelist, nextMeta) ← commitPages order;
  lift_dal (applyPagesWithWAL pages);;
  lift_dal (modS (with_freelist nextFreelist));;
  lift_dal (modS (with_meta nextMeta));;
  mod_tx (fun tx => mkTx None [] (write tx) (tx_root tx) None None None).

(** What runs once the commit lock is held. *)
Definition commit_locked (dirty : list Z) : M world unit :=
  defer (lift_db commitLock_Unlock) (commit_apply dirty).

Definition Commit (fuel : nat) (colls : list bytes) (dirty : list Z) : M world unit :=
  tx ← get_tx;
  if negb (write tx) then lift_db commitLock_RUnlock
  else
    defer (lift_db writeLock_Unlock)
      (flushCollectionMetadata fuel colls;;
       lift_db commitLock_Lock;;
       commit_locked dirty).

(** A [Commit] that had to wait in [commitLock.Lock], from when it gets the
    lock. *)
Definition commit_woken (dirty : list Z) : M world unit :=
  defer (lift_db writeLock_Unlock) (commit_locked dirty).

End tx.
