(* ===== verification/Total.v ===== *)
(** * Termination

    [findKeyHelper] and [descend] follow page numbers and take fuel.  A run
    that does not run out of fuel is the run of the code: more fuel does not
    change it ([approx]).  On a search tree the height is enough; on pages that
    lead back to themselves no fuel is, and the code recurses for ever. *)

From S2P Require Import Prelude Freelist Meta Node Float32 Dal GoSlice World Tree Heap Contents Split Collection Search Shrink Insert Delete Tx.

Open Scope Z_scope.

(** ** Programs with fuel *)

Section approx.
Context {S : Type}.

(** [m'] does what [m] does, unless [m] runs out of fuel. *)
Definition approx {A} (m m' : M S A) : Prop :=
  forall s r s', m s = (r, s') -> r <> OutOfFuel -> m' s = (r, s').

#[export] Instance approx_preorder {A} : PreOrder (@approx A).
Proof. split; [by intros m s r s'|]. intros m1 m2 m3 H1 H2 s r s' E Hr. auto. Qed.

Lemma approx_out_of_fuel {A} (m : M S A) : approx (fun s => (OutOfFuel, s)) m.
Proof. intros s r s' [= <- <-] Hr. done. Qed.

Lemma approx_bind {A B} (m m' : M S A) (f f' : A -> M S B) :
  approx m m' -> (forall a, approx (f a) (f' a)) -> approx (m ≫= f) (m' ≫= f').
Proof.
  intros Hm Hf s r s' E Hr. unfold mbind, M_bind in *. destruct (m s) as [o s1] eqn:E1.
  assert (o <> OutOfFuel) as Ho by (intros ->; by injection E as <- <-).
  rewrite (Hm s o s1 E1 Ho). destruct o as [a| | | |]; try done. by apply Hf.
Qed.

Lemma approx_mapM {A} (f f' : A -> M S unit) l : (forall a, approx (f a) (f' a)) -> approx (mapM_ f l) (mapM_ f' l).
Proof. intros Hf. induction l as [|a l IH]; [done|]. cbn [mapM_]. by apply approx_bind. Qed.
End approx.

Create HintDb approx.
#[export] Hint Resolve approx_out_of_fuel : approx.

(** Step through two programs that differ in their fuel. *)
Ltac approx :=
  repeat first
    [ reflexivity
    | solve [eauto with approx]
    | match goal with |- forall _, _ => intros ? end
    | apply approx_bind
    | match goal with |- approx (match ?x with _ => _ end) _ => destruct x end ].

Section total.
Context {RT : GoRuntime}.

Lemma findKeyHelper_approx n : forall n' p k exact anc, (n <= n')%nat ->
  approx (findKeyHelper n p k exact anc) (findKeyHelper n' p k exact anc).
Proof.
  induction n as [|n IH]; intros [|n'] p k exact anc Hn; [approx|approx|lia|]. cbn [findKeyHelper].
  assert (n <= n')%nat by lia. approx.
Qed.
#[local] Hint Resolve findKeyHelper_approx : approx.

Lemma descend_approx n : forall n' p q aff, (n <= n')%nat -> approx (descend n p q aff) (descend n' p q aff).
Proof.
  induction n as [|n IH]; intros [|n'] p q aff Hn; [approx|approx|lia|]. cbn [descend].
  assert (n <= n')%nat by lia. approx.
Qed.
#[local] Hint Resolve descend_approx : approx.

Lemma Find_approx n n' p k : (n <= n')%nat -> approx (Find n p k) (Find n' p k).
Proof. intros Hn. unfold Find, findKey. approx. Qed.

Lemma Put_approx n n' p k v : (n <= n')%nat -> approx (Put n p k v) (Put n' p k v).
Proof. intros Hn. unfold Put, findKey. approx. Qed.

Lemma Remove_approx n n' p k : (n <= n')%nat -> approx (Remove n p k) (Remove n' p k).
Proof. intros Hn. unfold Remove, findKey, removeItemFromInternal. approx. Qed.
#[local] Hint Resolve Find_approx Put_approx Remove_approx : approx.

Lemma GetCollection_approx n n' name : (n <= n')%nat -> approx (GetCollection n name) (GetCollection n' name).
Proof. intros Hn. unfold GetCollection. approx. Qed.
#[local] Hint Resolve GetCollection_approx : approx.

Lemma GetOrCreateCollection_approx n n' name :
  (n <= n')%nat -> approx (GetOrCreateCollection n name) (GetOrCreateCollection n' name).
Proof. intros Hn. unfold GetOrCreateCollection, CreateCollection, createCollection. approx. Qed.

Lemma DeleteCollection_approx n n' name : (n <= n')%nat -> approx (DeleteCollection n name) (DeleteCollection n' name).
Proof. intros Hn. unfold DeleteCollection. approx. Qed.

(** ** Pages that lead back to themselves *)

(** The search for the key in the node goes to the node's own page. *)
Definition loops (n : node) (k : bytes) : Prop :=
  exists i, findKeyInNode n k = (false, i) /\ childNodes n !! i = Some (pageNum n).

Lemma findKeyHelper_loops n k exact fuel : loops n k -> forall w p anc,
  world_ok w -> points w p n -> page_node (pageNum n) w = Ok n ->
  exists w', findKeyHelper fuel p k exact anc w = (OutOfFuel, w').
Proof.
  intros (i & Hf & Hk). induction fuel as [|fuel IH]; intros w p anc Hok Hp Hn; [by exists w|].
  cbn [findKeyHelper]. mstep (node_view_points w p _ Hp). rewrite Hf. mstep (node_isLeaf_points w p _ Hok Hp).
  assert (isLeaf n = false) as -> by (apply isLeaf_false; intros E; by rewrite E in Hk).
  mstep (child_at_points w p _ i _ Hp Hk).
  destruct (tx_getNode_ok w (pageNum n) n Hok Hn) as (q & w1 & E & He & Hok1 & Hq & _). mstep E.
  apply (IH w1 q _ Hok1 Hq). by rewrite (extends_page w w1 _ Hok He).
Qed.
End total.

(** ** Properties *)

(** C11: termination of the calls on a collection.  On a collection as in
    [Put_correct] and [Remove_correct] - [collection_ok], leaves on one level, no
    empty nodes -, for a valid pair and a key that is absent or [removable], each
    of [Find], [Put] and [Remove] has one outcome, the same with any fuel from the
    height of the tree on: the code's recursions end. *)
Theorem calls_terminate {RT : GoRuntime} w p t fr n k v :
  collection_ok w p t fr -> item_validate (newItem k v) (pageSize (ddal (wdb w))) = Ok tt ->
  level n t -> tidy t -> thin (ddal (wdb w)) -> removable k t ->
  exists w1 w2 w3, forall fuel, (height t <= fuel)%nat ->
    Find fuel p k w = (Ok (find_item k (flatten t)), w1) /\ Put fuel p k v w = (Ok tt, w2) /\
    Remove fuel p k w = (Ok tt, w3).
Proof.
  intros Hco Hv Hl Ht Hth Hrm. pose proof Hco as [Hok _ (c & Hp & Htx & Hroot & _) Hr Hsh Hs _ _ _ _ _].
  destruct (Find_gen w p c t k (height t) Hok Hp Htx Hroot Hr Hsh Hs (le_n _)) as (w1 & E1 & _).
  destruct (Put_gen w p t fr k v (height t) Hco Hv (le_n _)) as (fr' & t' & w2 & E2 & _).
  destruct (Remove_gen w p t fr n k (height t) Hco Hl Ht Hth Hrm (le_n _)) as (t'' & w3 & E3 & _).
  exists w1, w2, w3. intros fuel Hf. split; [|split].
  - by apply (Find_approx (height t) fuel p k Hf).
  - by apply (Put_approx (height t) fuel p k v Hf).
  - by apply (Remove_approx (height t) fuel p k Hf).
Qed.

Lemma calls_terminate_witness :
  exists w1 w2 w3, forall fuel, (height demo_tree <= fuel)%nat ->
    Find fuel 0 [1] demo_world = (Ok (Some (newItem [1] [10])), w1) /\ Put fuel 0 [1] [11] demo_world = (Ok tt, w2) /\
    Remove fuel 0 [1] demo_world = (Ok tt, w3).
Proof.
  apply (calls_terminate demo_world 0 demo_tree (Freelist 4 []) 1 [1] [11] demo_collection_ok).
  - vm_compute. reflexivity.
  - split; [done|]. repeat constructor.
  - split; [repeat constructor; done|done].
  - exact demo_thin.
  - exact demo_removable.
Defined.

(** On a file whose pages lead back to themselves the search never ends: pages
    are checked one by one, not for the tree they form. *)
Theorem cyclic_page_never_returns {RT : GoRuntime} w p c n k fuel :
  world_ok w -> collsH w !! p = Some c -> c_hasTx c = true -> page_node (c_root c) w = Ok n -> loops n k ->
  exists w', Find fuel p k w = (OutOfFuel, w').
Proof.
  intros Hok Hp Htx Hn Hl. unfold Find. erewrite bind_Ok by (unfold load_coll; by rewrite Hp). rewrite Htx, bind_ret.
  destruct (tx_getNode_ok w (c_root c) n Hok Hn) as (q & w1 & E & He & Hok1 & Hq & _). mstep E. unfold findKey.
  destruct (findKeyHelper_loops n k true fuel Hl w1 q [0%nat] Hok1 Hq) as (w' & E').
  - rewrite (page_node_pageNum w (c_root c) n Hok Hn). by rewrite (extends_page w w1 _ Hok He).
  - exists w'. unfold mbind, M_bind. by rewrite E'.
Qed.
