(* ===== verification/Db.v ===== *)
(** * db.go and [newDal] of dal.go: options, opening and closing *)

From S2P Require Import Prelude Freelist Meta Node Float32 Dal Wal GoSlice World Tree Collection Tx.

Open Scope Z_scope.

(** [os.Getpagesize()] is a constant of the machine. *)
Definition withDefaults (getpagesize : Z) (o : Options) : Options :=
  mkOptions
    (if decide (o_pageSize o = 0) then getpagesize else o_pageSize o)
    (if f32_eq (MinFillPercent o) (f32_of_Z 0) then MinFillPercent DefaultOptions else MinFillPercent o)
    (if f32_eq (MaxFillPercent o) (f32_of_Z 0) then MaxFillPercent DefaultOptions else MaxFillPercent o).

Definition validate (o : Options) : out unit :=
  if decide (o_pageSize o <= 0) then Err (ErrInvalidOptions PageSizeNotPositive)
  else if f32_le (MinFillPercent o) (f32_of_Z 0) || f32_le (f32_of_Z 1) (MinFillPercent o) then
    Err (ErrInvalidOptions MinFillRange)
  else if f32_le (MaxFillPercent o) (f32_of_Z 0) || f32_lt (f32_of_Z 1) (MaxFillPercent o) then
    Err (ErrInvalidOptions MaxFillRange)
  else if f32_le (MaxFillPercent o) (MinFillPercent o) then Err (ErrInvalidOptions MinNotBelowMax)
  else if decide (o_pageSize o < Z.of_nat metaHeaderSize) then Err (ErrInvalidOptions PageSizeTooSmall)
  else Ok tt.

(** The database directory before an open: the file at [path] and the log next
    to it. *)
Record disk := Disk { dk_file : option bytes; dk_wal : option bytes }.

Definition empty_dal (o : Options) (k : disk) : dal :=
  Dal (o_pageSize o) (MinFillPercent o) (MaxFillPercent o) (dk_file k) false (dk_wal k) newEmptyMeta newFreelist.

(** [os.OpenFile(path, O_RDWR|O_CREATE)] creates an empty file when there is
    none. *)
Definition open_file : M dal unit :=
  modS (fun d => with_open true (with_file (Some (default [] (file d))) d)).

Definition open_existing : M dal unit :=
  open_file;;
  recoverWAL;;
  m ← readMeta;
  modS (with_meta m);;
  fr ← readFreelist;
  modS (with_freelist fr).

Definition open_new : M dal unit :=
  open_file;;
  modS (with_freelist newFreelist);;
  pn ← getNextPageM;
  modS (fun d => with_meta (Meta (root (dmeta d)) pn) d);;
  writeFreelist;;
  collectionsNode ← writeNode (NewNodeForSerialization [] []);
  modS (fun d => with_meta (Meta (pageNum collectionsNode) (freelistPage (dmeta d))) d);;
  d ← getS;
  writeMeta (dmeta d);;
  Sync.

Definition newDal (o : Options) (k : disk) : out unit * dal :=
  match dk_file k with
  | Some _ => open_existing (empty_dal o k)
  | None => open_new (empty_dal o k)
  end.

(** [Open]: the outcome, with the disk the attempt leaves. *)
Definition Open (getpagesize : Z) (options : option Options) (k : disk) : out DB * disk :=
  let o := withDefaults getpagesize (default DefaultOptions options) in
  match validate o with
  | Ok _ =>
      let '(r, d) := newDal o k in
      (match r with
       | Ok _ => Ok (mkDB d false false 0)
       | Err e => Err e
       | Panic => Panic
       | Blocked => Blocked
       | OutOfFuel => OutOfFuel
       end, Disk (file d) (wal d))
  | Err e => (Err e, k)
  | Panic => (Panic, k)
  | Blocked => (Blocked, k)
  | OutOfFuel => (OutOfFuel, k)
  end.

(** [Close] closes the file; what is stored stays on the disk. *)
Definition Close (b : DB) : disk := Disk (file (ddal b)) (wal (ddal b)).
