(* ===== verification/Isolation.v ===== *)
(** * What a transaction does to the database before it commits: nothing

    Every operation of a transaction but [Commit] and [Rollback] leaves the
    [DB] record alone - the file, the log, the stored meta and freelist and the
    locks - on every outcome, errors and panics included. *)

From S2P Require Import Prelude Freelist Meta Node Float32 Dal Wal GoSlice World Tree Heap Collection Tx Db.

Open Scope Z_scope.

(** The program leaves the database and the mode of the transaction. *)
Definition keeps_db {A} (m : M world A) : Prop :=
  forall w, wdb (snd (m w)) = wdb w /\ write (wtx (snd (m w))) = write (wtx w).

Create HintDb keep.

Section combinators.
Context {A B : Type}.

Lemma keep_bind (m : M world A) (f : A -> M world B) :
  keeps_db m -> (forall a, keeps_db (f a)) -> keeps_db (m ≫= f).
Proof.
  intros Hm Hf w. specialize (Hm w). unfold mbind, M_bind. destruct (m w) as [[a| | | |] w']; try done.
  simpl in Hm. destruct Hm as [<- <-]. apply Hf.
Qed.
Lemma keep_ret (a : A) : keeps_db (mret a).
Proof. done. Qed.
Lemma keep_lift (o : out A) : keeps_db (liftO o).
Proof. done. Qed.
Lemma keep_throw e : keeps_db (throw (A := A) e).
Proof. done. Qed.
Lemma keep_panic : keeps_db (panic (A := A)).
Proof. done. Qed.
Lemma keep_fuel : keeps_db (fun w => (OutOfFuel (A := A), w)).
Proof. done. Qed.
End combinators.

Lemma keep_mapM {A} (f : A -> M world unit) l : (forall a, keeps_db (f a)) -> keeps_db (mapM_ f l).
Proof.
  intros Hf. induction l as [|a l IH]; [done|]. cbn [mapM_]. apply keep_bind; [apply Hf|done].
Qed.

#[export] Hint Resolve keep_ret keep_lift keep_throw keep_panic keep_fuel : keep.

(** Split a program into its steps, and these by the hints. *)
Ltac keep := repeat first
  [ progress intros
  | solve [auto with keep]
  | apply keep_bind
  | apply keep_mapM
  | match goal with |- keeps_db (match ?x with _ => _ end) => destruct x end
  | match goal with |- keeps_db (let '_ := ?x in _) => destruct x end ].

Section primitives.
Context {RT : GoRuntime}.

Lemma keep_getS : keeps_db getS. Proof. done. Qed.
Lemma keep_load_node p : keeps_db (load_node p). Proof. done. Qed.
Lemma keep_upd_node p f : keeps_db (upd_node p f). Proof. done. Qed.
Lemma keep_new_node r : keeps_db (new_node r). Proof. done. Qed.
Lemma keep_load_coll p : keeps_db (load_coll p). Proof. done. Qed.
Lemma keep_upd_coll p f : keeps_db (upd_coll p f). Proof. done. Qed.
Lemma keep_new_coll c : keeps_db (new_coll c). Proof. done. Qed.
Lemma keep_get_tx : keeps_db get_tx. Proof. done. Qed.
Lemma keep_mod_tx f : (forall t, write (f t) = write t) -> keeps_db (mod_tx f).
Proof. intros Hf w. split; [done|apply Hf]. Qed.
Lemma keep_get_dal : keeps_db get_dal. Proof. done. Qed.
Lemma keep_on_items {A} (f : list (list Item) -> A * list (list Item)) : keeps_db (on_items f).
Proof. intros w. unfold on_items. by destruct (f (itemsH w)). Qed.
Lemma keep_on_kids {A} (f : list (list Z) -> A * list (list Z)) : keeps_db (on_kids f).
Proof. intros w. unfold on_kids. by destruct (f (kidsH w)). Qed.
Lemma keep_items_view s : keeps_db (items_view s). Proof. done. Qed.
Lemma keep_kids_view s : keeps_db (kids_view s). Proof. done. Qed.
Lemma keep_items_at s i : keeps_db (items_at s i). Proof. done. Qed.
Lemma keep_kids_at s i : keeps_db (kids_at s i). Proof. done. Qed.
Lemma keep_items_store s i x : keeps_db (items_store s i x).
Proof. intros w. unfold items_store. by destruct (store_at s i x (itemsH w)). Qed.
Lemma keep_kids_store s i x : keeps_db (kids_store s i x).
Proof. intros w. unfold kids_store. by destruct (store_at s i x (kidsH w)). Qed.
Lemma keep_dal_getNode pn : keeps_db (lift_dal (Dal.getNode pn)).
Proof.
  intros w. unfold lift_dal, zoom. pose proof (getNode_state pn (ddal (wdb w))) as H.
  destruct (Dal.getNode pn (ddal (wdb w))) as [o d]. simpl in *. subst. by destruct w as [? ? ? ? ? [[]]].
Qed.
End primitives.

#[export] Hint Resolve keep_getS keep_load_node keep_upd_node keep_new_node keep_load_coll keep_upd_coll
  keep_new_coll keep_get_tx keep_mod_tx keep_get_dal keep_on_items keep_on_kids keep_items_view keep_kids_view
  keep_items_at keep_kids_at keep_items_store keep_kids_store keep_dal_getNode : keep.

Section operations.
Context {RT : GoRuntime}.

Lemma keep_getNextPage : keeps_db tx_getNextPage.
Proof. unfold tx_getNextPage. keep. Qed.
Hint Resolve keep_getNextPage : keep.
Lemma keep_newNode s k : keeps_db (tx_newNode s k).
Proof. unfold tx_newNode. keep. Qed.
Lemma keep_load_page n : keeps_db (load_page_node n).
Proof. unfold load_page_node. keep. Qed.
Hint Resolve keep_newNode keep_load_page : keep.
Lemma keep_getNode pn : keeps_db (tx_getNode pn).
Proof. unfold tx_getNode. keep. Qed.
Lemma keep_writeNode p : keeps_db (tx_writeNode p).
Proof. unfold tx_writeNode. keep. Qed.
Lemma keep_deleteNode p : keeps_db (tx_deleteNode p).
Proof. unfold tx_deleteNode. keep. Qed.
Hint Resolve keep_getNode keep_writeNode keep_deleteNode : keep.
Lemma keep_writeNodes ps : keeps_db (writeNodes ps).
Proof. unfold writeNodes. keep. Qed.
Lemma keep_node_view p : keeps_db (node_view p).
Proof. unfold node_view. keep. Qed.
Hint Resolve keep_writeNodes keep_node_view : keep.
Lemma keep_isLeaf p : keeps_db (node_isLeaf p).
Proof. unfold node_isLeaf. keep. Qed.
Lemma keep_over p : keeps_db (node_isOverPopulated p).
Proof. unfold node_isOverPopulated. keep. Qed.
Lemma keep_under p : keeps_db (node_isUnderPopulated p).
Proof. unfold node_isUnderPopulated. keep. Qed.
Lemma keep_spare p : keeps_db (canSpareAnElement p).
Proof. unfold canSpareAnElement. keep. Qed.
Lemma keep_set_items p s : keeps_db (set_items p s).
Proof. unfold set_items. keep. Qed.
Lemma keep_set_kids p s : keeps_db (set_kids p s).
Proof. unfold set_kids. keep. Qed.
Lemma keep_item_at p i : keeps_db (item_at p i).
Proof. unfold item_at. keep. Qed.
Lemma keep_child_at p i : keeps_db (child_at p i).
Proof. unfold child_at. keep. Qed.
Lemma keep_items_append s xs : keeps_db (items_append s xs).
Proof. unfold items_append. keep. Qed.
Lemma keep_kids_append s xs : keeps_db (kids_append s xs).
Proof. unfold kids_append. keep. Qed.
Lemma keep_items_literal xs : keeps_db (items_literal xs).
Proof. unfold items_literal. keep. Qed.
Lemma keep_kids_literal xs : keeps_db (kids_literal xs).
Proof. unfold kids_literal. keep. Qed.
Hint Resolve keep_isLeaf keep_over keep_under keep_spare keep_set_items keep_set_kids keep_item_at
  keep_child_at keep_items_append keep_kids_append keep_items_literal keep_kids_literal : keep.

Lemma keep_findKey fuel p k exact : keeps_db (findKey fuel p k exact).
Proof.
  unfold findKey. generalize [0%nat]. revert p.
  induction fuel as [|fuel IH]; intros p anc; cbn [findKeyHelper]; keep.
Qed.
Lemma keep_addItem p it i : keeps_db (addItem p it i).
Proof. unfold addItem. keep. Qed.
Lemma keep_split_off p s : keeps_db (split_off p s).
Proof. unfold split_off. keep. Qed.
Lemma keep_insert_child n i pn : keeps_db (insert_child n i pn).
Proof. unfold insert_child. keep. Qed.
Hint Resolve keep_findKey keep_addItem keep_split_off keep_insert_child : keep.
Lemma keep_split n p i : keeps_db (split n p i).
Proof. unfold split. keep. Qed.
Lemma keep_rotateRight a p b i : keeps_db (rotateRight a p b i).
Proof. unfold rotateRight, shift_last. keep. Qed.
Lemma keep_rotateLeft a p b i : keeps_db (rotateLeft a p b i).
Proof. unfold rotateLeft, shift_first. keep. Qed.
Lemma keep_merge n b i : keeps_db (merge n b i).
Proof. unfold merge, merge_into, join_children. keep. Qed.
Hint Resolve keep_split keep_rotateRight keep_rotateLeft keep_merge : keep.
Lemma keep_rebalance n u i : keeps_db (rebalanceRemove n u i).
Proof. unfold rebalanceRemove. keep. Qed.
Lemma keep_removeLeaf p i : keeps_db (removeItemFromLeaf p i).
Proof. unfold removeItemFromLeaf. keep. Qed.
Lemma keep_descend fuel n a l : keeps_db (descend fuel n a l).
Proof. revert a l. induction fuel as [|fuel IH]; intros a l; cbn [descend]; keep. Qed.
Hint Resolve keep_rebalance keep_removeLeaf keep_descend : keep.
Lemma keep_removeInternal fuel n i : keeps_db (removeItemFromInternal fuel n i).
Proof. unfold removeItemFromInternal. keep. Qed.
Hint Resolve keep_removeInternal : keep.

Lemma keep_track p : keeps_db (trackCollection p).
Proof. unfold trackCollection. keep. Qed.
Lemma keep_coll_write p : keeps_db (coll_write p).
Proof. unfold coll_write. keep. Qed.
Hint Resolve keep_track keep_coll_write : keep.
Lemma keep_markDirty p : keeps_db (markMetadataDirty p).
Proof. unfold markMetadataDirty. keep. Qed.
Hint Resolve keep_markDirty : keep.
Lemma keep_setRoot p r : keeps_db (setRoot p r).
Proof. unfold setRoot. keep. Qed.
Lemma keep_ID p : keeps_db (ID p).
Proof. unfold ID. keep. Qed.
Lemma keep_getNodes p l : keeps_db (getNodes p l).
Proof.
  unfold getNodes. keep. revert a0. generalize (tail l) as idxs. induction idxs as [|i idxs IH]; intros; cbn [walk]; keep.
Qed.
Lemma keep_put_levels ls : keeps_db (put_levels ls).
Proof. unfold put_levels. keep. Qed.
Lemma keep_remove_levels ls : keeps_db (remove_levels ls).
Proof. unfold remove_levels. keep. Qed.
Lemma keep_store_item p k i n : keeps_db (store_item p k i n).
Proof. unfold store_item. keep. Qed.
Hint Resolve keep_setRoot keep_ID keep_getNodes keep_put_levels keep_remove_levels keep_store_item : keep.
Lemma keep_grow_root p q : keeps_db (grow_root p q).
Proof. unfold grow_root. keep. Qed.
Hint Resolve keep_grow_root : keep.
Lemma keep_Put fuel p k v : keeps_db (Put fuel p k v).
Proof. unfold Put. keep. Qed.
Lemma keep_Find fuel p k : keeps_db (Find fuel p k).
Proof. unfold Find. keep. Qed.
Lemma keep_Remove fuel p k : keeps_db (Remove fuel p k).
Proof. unfold Remove. keep. Qed.
Lemma keep_getRoot : keeps_db getRootCollection.
Proof. unfold getRootCollection. keep. Qed.
Hint Resolve keep_Put keep_Find keep_Remove keep_getRoot : keep.
Lemma keep_Get fuel name : keeps_db (GetCollection fuel name).
Proof. unfold GetCollection. keep. Qed.
Lemma keep_create fuel p : keeps_db (createCollection fuel p).
Proof. unfold createCollection. keep. Qed.
Hint Resolve keep_Get keep_create : keep.
Lemma keep_Create fuel name : keeps_db (CreateCollection fuel name).
Proof. unfold CreateCollection. keep. Qed.
Hint Resolve keep_Create : keep.
Lemma keep_GetOrCreate fuel name : keeps_db (GetOrCreateCollection fuel name).
Proof. unfold GetOrCreateCollection. keep. Qed.
Lemma keep_Delete fuel name : keeps_db (DeleteCollection fuel name).
Proof. unfold DeleteCollection. keep. Qed.
Lemma keep_flush fuel order : keeps_db (flushCollectionMetadata fuel order).
Proof. unfold flushCollectionMetadata, flush_one. keep. Qed.
Hint Resolve keep_GetOrCreate keep_Delete keep_flush : keep.
Lemma keep_dirty_pages order : keeps_db (dirty_pages order).
Proof. induction order as [|pn order IH]; cbn [dirty_pages]; keep. Qed.
Hint Resolve keep_dirty_pages : keep.
Lemma keep_commitPages order : keeps_db (commitPages order).
Proof. unfold commitPages. keep. Qed.
End operations.

#[export] Hint Resolve keep_Put keep_Find keep_Remove keep_ID keep_Get keep_Create keep_GetOrCreate keep_Delete
  keep_flush keep_commitPages : keep.

(** ** The calls of a transaction *)

(** What a client can call on a transaction and on the collections it got
    (collections by their pointers, which the calls return). *)
Inductive tx_call :=
| CallPut (p : coll_ptr) (k v : bytes)
| CallFind (p : coll_ptr) (k : bytes)
| CallRemove (p : coll_ptr) (k : bytes)
| CallID (p : coll_ptr)
| CallGet (name : bytes)
| CallCreate (name : bytes)
| CallGetOrCreate (name : bytes)
| CallDelete (name : bytes).

Section sessions.
Context {RT : GoRuntime}.

Definition ignore {A} (m : M world A) : M world unit := m;; mret tt.

Definition run_call (fuel : nat) (c : tx_call) : M world unit :=
  match c with
  | CallPut p k v => Put fuel p k v
  | CallFind p k => ignore (Find fuel p k)
  | CallRemove p k => Remove fuel p k
  | CallID p => ignore (ID p)
  | CallGet name => ignore (GetCollection fuel name)
  | CallCreate name => ignore (CreateCollection fuel name)
  | CallGetOrCreate name => ignore (GetOrCreateCollection fuel name)
  | CallDelete name => DeleteCollection fuel name
  end.

(** A client goes on after an error; it stops at a panic. *)
Inductive session : world -> list tx_call -> world -> Prop :=
| session_nil w : session w [] w
| session_ok fuel w c cs w' w'' :
    run_call fuel c w = (Ok tt, w') -> session w' cs w'' -> session w (c :: cs) w''
| session_err fuel w c cs e w' w'' :
    run_call fuel c w = (Err e, w') -> session w' cs w'' -> session w (c :: cs) w''
| session_panic fuel w c cs w' :
    run_call fuel c w = (Panic, w') -> session w (c :: cs) w'.

Lemma keep_run_call fuel c : keeps_db (run_call fuel c).
Proof. destruct c; unfold run_call, ignore; keep. Qed.

Lemma session_keeps_db w cs w' : session w cs w' -> wdb w' = wdb w /\ write (wtx w') = write (wtx w).
Proof.
  induction 1 as [|fuel w c cs w' w'' E _ IH|fuel w c cs e w' w'' E _ IH|fuel w c cs w' E]; [done|..];
    pose proof (keep_run_call fuel c w) as H; rewrite E in H; simpl in H; destruct H; naive_solver congruence.
Qed.
End sessions.

(** ** Locks at the end of a transaction *)

Section ends.
Context {RT : GoRuntime}.

Lemma WriteTx_ok b w b' : WriteTx b = (Ok w, b') ->
  writeLock b = false /\ b' = mkDB (ddal b) true (commitWriter b) (commitReaders b) /\ w = begin b' true.
Proof.
  unfold WriteTx, writeLock_Lock, mbind, M_bind. destruct (writeLock b); [done|]. intros H. by go_inv H.
Qed.

Lemma ReadTx_ok b w b' : ReadTx b = (Ok w, b') ->
  commitWriter b = false /\ b' = mkDB (ddal b) (writeLock b) false (S (commitReaders b)) /\ w = begin b' false.
Proof.
  unfold ReadTx, commitLock_RLock, mbind, M_bind. destruct (commitWriter b); [done|]. intros H. by go_inv H.
Qed.

Lemma Rollback_write_gen w :
  write (wtx w) = true -> writeLock (wdb w) = true ->
  exists w', Rollback w = (Ok tt, w') /\
    wdb w' = mkDB (ddal (wdb w)) false (commitWriter (wdb w)) (commitReaders (wdb w)) /\
    dirtyNodes (wtx w') = None.
Proof.
  intros Hw Hl. unfold Rollback. rewrite bind_get_tx, Hw. cbn [negb]. unfold mod_tx. rewrite bind_modS.
  unfold lift_db, zoom, writeLock_Unlock. cbn [wdb with_wtx]. rewrite Hl.
  eexists. split; [done|]. by split.
Qed.

(** The end of a reader: [Commit] and [Rollback] both give the read lock back. *)
Lemma reader_end_gen w n fuel colls dirty :
  write (wtx w) = false -> commitReaders (wdb w) = S n ->
  let w' := with_wdb (mkDB (ddal (wdb w)) (writeLock (wdb w)) (commitWriter (wdb w)) n) w in
  Rollback w = (Ok tt, w') /\ Commit fuel colls dirty w = (Ok tt, w').
Proof.
  intros Hw Hn w'. unfold Rollback, Commit. rewrite !bind_get_tx, Hw. cbn [negb].
  unfold lift_db, zoom, commitLock_RUnlock. by rewrite Hn.
Qed.

(** [commit_apply] does not touch the locks. *)
Definition same_locks (b b' : DB) : Prop :=
  writeLock b' = writeLock b /\ commitWriter b' = commitWriter b /\ commitReaders b' = commitReaders b.

Definition keeps_locks {A} (m : M world A) : Prop := forall w, same_locks (wdb w) (wdb (snd (m w))).

Lemma locks_bind {A B} (m : M world A) (f : A -> M world B) :
  keeps_locks m -> (forall a, keeps_locks (f a)) -> keeps_locks (m ≫= f).
Proof.
  intros Hm Hf w. specialize (Hm w). unfold mbind, M_bind. destruct (m w) as [[a| | | |] w']; try done.
  specialize (Hf a w'). unfold same_locks in *. simpl in *. naive_solver congruence.
Qed.

Lemma locks_keep {A} (m : M world A) : keeps_db m -> keeps_locks m.
Proof. intros H w. unfold same_locks. by destruct (H w) as [-> _]. Qed.

Lemma locks_dal {A} (m : M dal A) : keeps_locks (lift_dal m).
Proof. intros w. unfold lift_dal, zoom. by destruct (m (ddal (wdb w))). Qed.

Lemma commit_apply_locks order : keeps_locks (commit_apply order).
Proof.
  unfold commit_apply. apply locks_bind; [apply locks_keep, keep_commitPages|]. intros [[pages fr] m].
  repeat (apply locks_bind; [apply locks_dal|intros _]). apply locks_keep. apply keep_mod_tx. done.
Qed.

Lemma defer_unlock_commit w (m : M world unit) :
  keeps_locks m -> commitWriter (wdb w) = true ->
  let '(o, w') := defer (lift_db commitLock_Unlock) m w in
  o <> Blocked -> o <> OutOfFuel ->
  writeLock (wdb w') = writeLock (wdb w) /\ commitWriter (wdb w') = false /\
  commitReaders (wdb w') = commitReaders (wdb w).
Proof.
  intros Hm Hc. specialize (Hm w). unfold defer. destruct (m w) as [o w1]. destruct Hm as (H1 & H2 & H3).
  simpl in *. assert (commitWriter (wdb w1) = true) as Hc1 by congruence.
  unfold lift_db, zoom, commitLock_Unlock. destruct o; try done; rewrite Hc1; simpl; by rewrite ?H1, ?H3.
Qed.

Lemma Commit_locks_gen w fuel colls dirty :
  write (wtx w) = true -> writeLock (wdb w) = true -> commitWriter (wdb w) = false ->
  let '(o, w') := Commit fuel colls dirty w in
  o <> Blocked -> o <> OutOfFuel ->
  writeLock (wdb w') = false /\ commitWriter (wdb w') = false /\ commitReaders (wdb w') = commitReaders (wdb w).
Proof.
  intros Hw Hl Hc. unfold Commit. rewrite bind_get_tx, Hw. cbn [negb]. unfold defer at 1.
  pose proof (keep_flush fuel colls w) as [Hf _]. unfold mbind at 1, M_bind at 1.
  destruct (flushCollectionMetadata fuel colls w) as [o w1]. simpl in Hf.
  assert (forall (b : DB) x, writeLock b = true -> lift_db writeLock_Unlock (with_wdb b x) =
    (Ok tt, with_wdb (mkDB (ddal b) false (commitWriter b) (commitReaders b)) x)) as Hu
    by (intros b x Hb; unfold lift_db, zoom, writeLock_Unlock; simpl; by rewrite Hb).
  assert (with_wdb (wdb w1) w1 = w1) as E1 by (by destruct w1).
  rewrite <- Hf in Hl, Hc |- *. pose proof (Hu (wdb w1) w1 Hl) as Hu1. rewrite E1 in Hu1.
  destruct o as [[]|e| | |]; [|by rewrite Hu1|by rewrite Hu1|done|done].
  unfold lift_db at 1, zoom, commitLock_Lock, mbind, M_bind. rewrite Hc.
  cbn [commitReaders]. destruct (decide (commitReaders (wdb w1) = 0%nat)) as [H0|H0]; [|done].
  set (w2 := with_wdb _ w1). unfold commit_locked.
  pose proof (defer_unlock_commit w2 (commit_apply dirty) (commit_apply_locks dirty) eq_refl) as Hd.
  destruct (defer (lift_db commitLock_Unlock) (commit_apply dirty) w2) as [o w3].
  assert (with_wdb (wdb w3) w3 = w3) as E3 by (by destruct w3).
  destruct o as [[]|e| | |]; try done;
    (destruct Hd as (D1 & D2 & D3); [done|done|]; pose proof (Hu (wdb w3) w3) as Hu3; rewrite E3 in Hu3;
     rewrite Hu3 by (rewrite D1; exact Hl); simpl; rewrite D2, D3; done).
Qed.

(** A program that can fail, but not with [ErrItemTooLarge]. *)
Definition fits {A} (m : M dal A) : Prop := forall d why, fst (m d) <> Err (ErrItemTooLarge why).

Lemma fits_bind {A B} (m : M dal A) (f : A -> M dal B) : fits m -> (forall a, fits (f a)) -> fits (m ≫= f).
Proof.
  intros Hm Hf d why. unfold mbind, M_bind. specialize (Hm d why).
  destruct (m d) as [[a|e| | |] d']; simpl in *; [apply Hf|congruence|done..].
Qed.

Lemma fits_writePages pages : fits (writePages pages).
Proof.
  unfold writePages. induction pages as [|pg pages IH]; [done|]. cbn [mapM_]. apply fits_bind; [|done].
  intros d why. cbn [do_op dal_device run_op]. unfold writePage. rewrite bind_getS. unfold WriteAt. destruct (negb (isOpen d)); [done|].
  destruct (file d); [|done]. by case_decide.
Qed.

Lemma wal_records_fits ps pages why : wal_records ps pages <> Err (ErrItemTooLarge why).
Proof.
  induction pages as [|pg pages IH]; [done|]. cbn [wal_records]. case_decide; [done|].
  destruct (wal_records ps pages); try done.
Qed.

Lemma fits_apply pages : fits (applyPagesWithWAL pages).
Proof.
  unfold applyPagesWithWAL. apply fits_bind; [|intros _; apply fits_bind; [apply fits_writePages|intros _]].
  - intros d why. unfold writeWAL. rewrite bind_getS. cbn [device_dal dal_device]. pose proof (wal_records_fits (pageSize d) pages why).
    destruct (wal_records (pageSize d) pages); try done. unfold liftO, mbind, M_bind. simpl. congruence.
  - apply fits_bind; [|done]. intros d why. cbn [do_op dal_device run_op]. unfold Sync. by destruct (isOpen d).
Qed.

(** Programs that leave the data access layer, always or when they fail with
    [ErrItemTooLarge]. *)
Definition keeps_ddal {A} (m : M world A) : Prop := forall w, ddal (wdb (snd (m w))) = ddal (wdb w).
Definition too_large_keeps {A} (m : M world A) : Prop :=
  forall w why w', m w = (Err (ErrItemTooLarge why), w') -> ddal (wdb w') = ddal (wdb w).

Lemma too_large_bind {A B} (m : M world A) (f : A -> M world B) :
  keeps_ddal m -> (forall a, too_large_keeps (f a)) -> too_large_keeps (m ≫= f).
Proof.
  intros Hm Hf w why w' H. specialize (Hm w). unfold mbind, M_bind in H.
  destruct (m w) as [[a|e| | |] w1]; simpl in *; [|by go_inv H|done..]. rewrite <- Hm. by apply (Hf a w1 why).
Qed.

Lemma too_large_defer c (m : M world unit) :
  keeps_ddal c -> too_large_keeps m -> too_large_keeps (defer c m).
Proof.
  intros Hc Hm w why w' H. unfold defer in H. specialize (Hm w why).
  destruct (m w) as [o w1]. specialize (Hc w1). destruct (c w1) as [[[]|e| | |] w2]; simpl in Hc;
    destruct o; go_inv H; rewrite Hc; by apply Hm.
Qed.

Lemma ddal_keep {A} (m : M world A) : keeps_db m -> keeps_ddal m.
Proof. intros H w. by destruct (H w) as [-> _]. Qed.

Lemma commit_apply_too_large order : too_large_keeps (commit_apply order).
Proof.
  unfold commit_apply. apply too_large_bind; [apply ddal_keep, keep_commitPages|]. intros [[pages fr] m].
  intros w why w' H. exfalso. revert H. unfold lift_dal, zoom, mod_tx, modS, mbind, M_bind.
  pose proof (fits_apply pages (ddal (wdb w)) why) as Hf.
  destruct (applyPagesWithWAL pages (ddal (wdb w))) as [[[]|e| | |] d]; simpl in *; congruence.
Qed.

Lemma Commit_too_large_gen fuel colls dirty : too_large_keeps (Commit fuel colls dirty).
Proof.
  unfold Commit. apply too_large_bind; [done|]. intros tx. destruct (negb (write tx)).
  { intros w why w'. unfold lift_db, zoom, commitLock_RUnlock. by destruct (commitReaders (wdb w)). }
  apply too_large_defer.
  { intros w. unfold lift_db, zoom, writeLock_Unlock. by destruct (writeLock (wdb w)). }
  apply too_large_bind; [apply ddal_keep, keep_flush|intros _].
  apply too_large_bind; [intros w; unfold lift_db, zoom, commitLock_Lock; cbn [commitReaders]; destruct (commitWriter _); [done|]; by case_decide|intros _].
  apply too_large_defer; [|apply commit_apply_too_large].
  intros w. unfold lift_db, zoom, commitLock_Unlock. by destruct (commitWriter (wdb w)).
Qed.
End ends.

(** ** Properties *)

(** C14: whatever a client does in a write transaction - puts, removals,
    collections created and deleted, calls that fail or panic - [Rollback]
    then leaves the database, its file, log, meta, freelist and locks, as it
    was before the transaction began. *)
Theorem rollback_restores_database {RT : GoRuntime} b w0 b1 calls w1 :
  WriteTx b = (Ok w0, b1) -> session w0 calls w1 ->
  exists w2, Rollback w1 = (Ok tt, w2) /\ wdb w2 = b.
Proof.
  intros (Hl & -> & ->)%WriteTx_ok [Hdb Hw]%session_keeps_db.
  destruct (Rollback_write_gen w1) as (w2 & E & Eb & _); [by rewrite Hw|by rewrite Hdb|].
  exists w2. split; [done|]. rewrite Eb, Hdb. simpl. destruct b; simpl in *; congruence.
Qed.

(** C27: a read transaction, whatever is called on it, ends with [Commit] or
    [Rollback] alike and leaves the database as it was, its read lock returned. *)
Theorem reader_leaves_database {RT : GoRuntime} b w0 b1 calls w1 fuel colls dirty :
  ReadTx b = (Ok w0, b1) -> session w0 calls w1 ->
  exists w2, Rollback w1 = (Ok tt, w2) /\ Commit fuel colls dirty w1 = (Ok tt, w2) /\ wdb w2 = b.
Proof.
  intros (Hl & -> & ->)%ReadTx_ok [Hdb Hw]%session_keeps_db.
  destruct (reader_end_gen w1 (commitReaders b) fuel colls dirty) as [E1 E2]; [by rewrite Hw|by rewrite Hdb|].
  eexists. split; [exact E1|]. split; [exact E2|]. simpl. rewrite Hdb. destruct b; simpl in *; congruence.
Qed.

(** C28: in a read transaction every mutating call fails with
    [errWriteInsideReadTx] and [ID] gives 0, and none of them changes anything. *)
Theorem read_tx_rejects_writes {RT : GoRuntime} w p c fuel k v name :
  write (wtx w) = false -> collsH w !! p = Some c -> c_hasTx c = true ->
  Put fuel p k v w = (Err ErrWriteInsideReadTx, w) /\ Remove fuel p k w = (Err ErrWriteInsideReadTx, w) /\
  CreateCollection fuel name w = (Err ErrWriteInsideReadTx, w) /\
  DeleteCollection fuel name w = (Err ErrWriteInsideReadTx, w) /\ ID p w = (Ok 0, w).
Proof.
  intros Hw Hp Htx.
  assert (coll_write p w = (Ok false, w)) as E.
  { unfold coll_write. erewrite bind_Ok by (unfold load_coll; by rewrite Hp). by rewrite bind_get_tx, Htx, Hw. }
  unfold Put, Remove, ID. repeat (split; [by mstep E|]). split; [|split; [|by mstep E]].
  - unfold CreateCollection. by rewrite bind_get_tx, Hw.
  - unfold DeleteCollection. by rewrite bind_get_tx, Hw.
Qed.

(** C17: when [Commit] of a write transaction returns, with or without an
    error, or panics, it has given back the write lock and the commit lock;
    the readers' count is as before. *)
Theorem commit_releases_locks {RT : GoRuntime} w fuel colls dirty :
  write (wtx w) = true -> writeLock (wdb w) = true -> commitWriter (wdb w) = false ->
  let '(o, w') := Commit fuel colls dirty w in
  o <> Blocked -> o <> OutOfFuel ->
  writeLock (wdb w') = false /\ commitWriter (wdb w') = false /\ commitReaders (wdb w') = commitReaders (wdb w).
Proof. apply Commit_locks_gen. Qed.

(** A [Commit] that fails because a node does not fit its page has written
    nothing: file, log, meta and freelist are as before. *)
Theorem oversized_commit_writes_nothing {RT : GoRuntime} w fuel colls dirty why w' :
  Commit fuel colls dirty w = (Err (ErrItemTooLarge why), w') -> ddal (wdb w') = ddal (wdb w).
Proof. apply Commit_too_large_gen. Qed.

(** A database with pages of 128 bytes, just created, with one call after the
    other on it. *)
Definition demo_options : Options := mkOptions 128 (f32_const 1 2) (f32_const 95 100).
Definition demo_db : DB :=
  match fst (Open 4096 (Some demo_options) (Disk None None)) with
  | Ok b => b
  | _ => mkDB (empty_dal demo_options (Disk None None)) false false 0
  end.
Definition after (c : tx_call) (w : world) : world := snd (run_call 5 c w).

Lemma rollback_restores_database_witness :
  let w0 := begin (mkDB (ddal demo_db) true false 0) true in
  let w1 := after (CallRemove 0 [1]) (after (CallPut 0 [2] (replicate 256 0)) (after (CallPut 0 [1] [10])
    (after (CallCreate [97]) w0))) in
  exists w2, Rollback w1 = (Ok tt, w2) /\ wdb w2 = demo_db.
Proof.
  intros w0 w1.
  apply (rollback_restores_database demo_db w0 (mkDB (ddal demo_db) true false 0)
    [CallCreate [97]; CallPut 0 [1] [10]; CallPut 0 [2] (replicate 256 0); CallRemove 0 [1]] w1).
  - vm_compute. reflexivity.
  - eapply (session_ok 5); [vm_compute; reflexivity|]. eapply (session_ok 5); [vm_compute; reflexivity|].
    eapply (session_err 5); [vm_compute; reflexivity|]. eapply (session_ok 5); [vm_compute; reflexivity|].
    apply session_nil.
Defined.

Lemma reader_leaves_database_witness :
  let w0 := begin (mkDB (ddal demo_db) false false 1) false in
  let w1 := after (CallPut 0 [1] [10]) (after (CallFind 0 [97]) (after (CallGet [97]) w0)) in
  exists w2, Rollback w1 = (Ok tt, w2) /\ Commit 5 [[97]] [3; 4] w1 = (Ok tt, w2) /\ wdb w2 = demo_db.
Proof.
  intros w0 w1.
  apply (reader_leaves_database demo_db w0 (mkDB (ddal demo_db) false false 1)
    [CallGet [97]; CallFind 0 [97]; CallPut 0 [1] [10]] w1 5 [[97]] [3; 4]).
  - vm_compute. reflexivity.
  - eapply (session_ok 5); [vm_compute; reflexivity|]. eapply (session_ok 5); [vm_compute; reflexivity|].
    eapply (session_err 5); [vm_compute; reflexivity|]. apply session_nil.
Defined.

Lemma read_tx_rejects_writes_witness :
  let w := after (CallGet [97]) (begin (mkDB (ddal demo_db) false false 1) false) in
  Put 5 0 [1] [10] w = (Err ErrWriteInsideReadTx, w) /\ Remove 5 0 [1] w = (Err ErrWriteInsideReadTx, w) /\
  CreateCollection 5 [98] w = (Err ErrWriteInsideReadTx, w) /\
  DeleteCollection 5 [98] w = (Err ErrWriteInsideReadTx, w) /\ ID 0 w = (Ok 0, w).
Proof.
  intros w. refine (read_tx_rejects_writes w 0%nat (Collection [] 2 0 true true false) 5 [1] [10] [98] _ _ _).
  - vm_compute. reflexivity.
  - vm_compute. reflexivity.
  - reflexivity.
Defined.

Lemma commit_releases_locks_witness :
  let w := after (CallCreate [97]) (begin (mkDB (ddal demo_db) true false 0) true) in
  fst (Commit 5 [[97]] [1; 2; 3; 4] w) = Ok tt /\
  let '(o, w') := Commit 5 [[97]] [1; 2; 3; 4] w in
  o <> Blocked -> o <> OutOfFuel ->
  writeLock (wdb w') = false /\ commitWriter (wdb w') = false /\ commitReaders (wdb w') = commitReaders (wdb w).
Proof.
  split; [vm_compute; reflexivity|]. apply commit_releases_locks; vm_compute; reflexivity.
Defined.
