(* ===== verification/Durable.v ===== *)
(** * What a commit stores, and what is read back

    [Commit] turns the dirty nodes, the freelist and the meta into pages and
    hands them to the log.  Here: every dirty node is read back from its page
    by a later transaction, other pages are as before, and closing and opening
    the database gives the state the commit left in memory - after a crash,
    that state or the one before the commit, unless a torn log keeps the
    database from opening. *)

From S2P Require Import Prelude Freelist Meta Node Float32 Dal Wal Crash GoSlice World Tree Heap Collection Tx Db Isolation.

Open Scope Z_scope.

(** ** One page of the file *)

Definition page_at (ps pn : Z) (f : bytes) : bytes := sub_list (Z.to_nat (pn * ps)) (Z.to_nat ps) f.

(** The page lies in the file, at an offset an [int64] can hold. *)
Definition inside (ps pn : Z) (f : bytes) : Prop :=
  0 <= pn /\ pn * ps < 2 ^ 63 /\ (pn + 1) * ps <= Z.of_nat (length f).

#[export] Instance inside_dec ps pn f : Decision (inside ps pn f).
Proof. unfold inside. apply _. Defined.

Lemma page_at_ext ps pn f g :
  0 < ps -> inside ps pn f -> inside ps pn g ->
  (forall i, pn * ps <= Z.of_nat i < (pn + 1) * ps -> rd f i = rd g i) ->
  page_at ps pn f = page_at ps pn g.
Proof.
  intros Hps (H0 & _ & Hf) (_ & _ & Hg) H. unfold page_at.
  apply rd_ext; [by rewrite !length_sub_list by lia|].
  intros i. unfold rd. destruct (decide (i < Z.to_nat ps)%nat) as [Hi|Hi].
  - rewrite !sub_list_lookup by done. apply (H (Z.to_nat (pn * ps) + i)%nat). lia.
  - by rewrite !lookup_ge_None_2 by (rewrite length_sub_list; lia).
Qed.

Lemma readPage_ok d f pn :
  open_with d f -> 0 < pageSize d < 2 ^ 31 -> inside (pageSize d) pn f ->
  readPage pn d = (Ok (Page 0 (page_at (pageSize d) pn f)), d).
Proof.
  intros [Ho Hf] Hps (H0 & H63 & Hl). unfold readPage. mrun. unfold mbind, M_bind, ReadAt.
  rewrite Ho, Hf. cbn [negb]. rewrite (i64_small pn), (i64_small (pn * _)), i64_small by nia.
  unfold allocateEmptyPage. cbn [data]. rewrite length_replicate.
  rewrite decide_False by nia. by rewrite decide_True by nia.
Qed.

(** A successful read of a page with a legal offset read it from the file. *)
Lemma readPage_inv d f pn pg d' :
  open_with d f -> 0 < pageSize d < 2 ^ 31 -> 0 <= pn -> pn * pageSize d < 2 ^ 63 ->
  readPage pn d = (Ok pg, d') -> inside (pageSize d) pn f.
Proof.
  intros [Ho Hf] Hps H0 H63. unfold readPage. mrun. unfold mbind, M_bind, ReadAt.
  rewrite Ho, Hf. cbn [negb]. rewrite (i64_small pn), (i64_small (pn * _)), i64_small by nia.
  unfold allocateEmptyPage. cbn [data]. rewrite length_replicate.
  rewrite decide_False by nia. case_decide; [|done]. intros _. split; [done|]. split; [done|nia].
Qed.

(** ** A page after the page writes of a commit *)

Section writes.
Context (ps : Z) (Hps : 0 < ps).

Lemma covers_page p i :
  Z.of_nat (length (data p)) = ps -> 0 <= num p -> covers ps i p <-> num p * ps <= Z.of_nat i < (num p + 1) * ps.
Proof. intros Hl H0. unfold covers. nia. Qed.

Lemma pages_apart pn qn i : pn <> qn -> pn * ps <= i < (pn + 1) * ps -> qn * ps <= i < (qn + 1) * ps -> False.
Proof. intros Hne H1 H2. assert (pn < qn \/ qn < pn) as [?|?] by lia; nia. Qed.

Lemma inside_apply pages f pn :
  Forall (fun p => data p <> []) pages -> inside ps pn f -> inside ps pn (apply_pages ps pages f).
Proof. intros Hne (H0 & H63 & Hl). pose proof (length_apply_pages_ge ps pages f Hne). split; [done|]. split; [done|lia]. Qed.

Lemma not_covered pages pn i :
  Forall (fun p => Z.of_nat (length (data p)) = ps) pages -> Forall (fun p => 0 <= num p) pages ->
  pn ∉ num <$> pages -> pn * ps <= Z.of_nat i < (pn + 1) * ps ->
  Forall (fun p => ~ covers ps i p) pages.
Proof.
  intros Hl H0 Hn Hi. apply Forall_forall. intros p Hp Hc.
  rewrite Forall_forall in Hl, H0. apply covers_page in Hc; [|by apply Hl|by apply H0].
  apply (pages_apart pn (num p) (Z.of_nat i)); [|done|done]. intros ->. apply Hn. by apply list_elem_of_fmap_2.
Qed.

Lemma apply_page_inside p f :
  Z.of_nat (length (data p)) = ps -> 0 <= num p -> num p * ps < 2 ^ 63 -> inside ps (num p) (apply_page ps f p).
Proof.
  intros Hl H0 H63. split; [done|]. split; [done|]. unfold apply_page. rewrite length_write_file; [nia|].
  intros E. rewrite E in Hl. simpl in Hl. lia.
Qed.

Lemma page_at_written p f :
  Z.of_nat (length (data p)) = ps -> 0 <= num p -> num p * ps < 2 ^ 63 ->
  page_at ps (num p) (apply_page ps f p) = data p.
Proof.
  intros Hl H0 H63. pose proof (apply_page_inside p f Hl H0 H63) as (_ & _ & Hin).
  unfold page_at. apply rd_ext; [rewrite length_sub_list; lia|]. intros i.
  destruct (decide (i < Z.to_nat ps)%nat) as [Hi|Hi].
  - transitivity (rd (apply_page ps f p) (Z.to_nat (num p * ps) + i)).
    { unfold rd. by rewrite sub_list_lookup. }
    unfold apply_page. rewrite rd_write_file, decide_True by lia. f_equal. lia.
  - unfold rd. by rewrite !lookup_ge_None_2 by (rewrite ?length_sub_list; lia).
Qed.

Lemma page_at_other pages f pn :
  pages_ok ps pages -> inside ps pn f -> pn ∉ num <$> pages ->
  page_at ps pn (apply_pages ps pages f) = page_at ps pn f.
Proof.
  intros Hok Hin Hn. pose proof (pages_ok_nonempty _ _ Hok) as Hne. destruct Hok as [_ Hl Hnum _].
  apply page_at_ext; [done|by apply inside_apply|done|].
  intros i Hi. apply rd_apply_pages_out. apply not_covered with pn; try done.
  eapply Forall_impl; [exact Hnum|]. simpl. lia.
Qed.

Lemma pages_ok_tail p pages : pages_ok ps (p :: pages) -> pages_ok ps pages.
Proof.
  intros [H1 H2 H3 H4]. apply Forall_cons in H2 as [_ H2]. apply Forall_cons in H3 as [_ H3].
  cbn [length] in H4. split; try done. lia.
Qed.

Lemma page_at_in pages f p :
  pages_ok ps pages -> NoDup (num <$> pages) -> p ∈ pages ->
  inside ps (num p) (apply_pages ps pages f) /\ page_at ps (num p) (apply_pages ps pages f) = data p.
Proof.
  intros Hok Hnd Hp. revert f. induction pages as [|q pages IH]; intros f; [by apply elem_of_nil in Hp|].
  pose proof (pages_ok_tail _ _ Hok) as Hok'. apply NoDup_cons in Hnd as [Hq Hnd].
  change (apply_pages ps (q :: pages) f) with (apply_pages ps pages (apply_page ps f q)).
  apply elem_of_cons in Hp as [-> |Hp]; [|by apply IH].
  destruct Hok as [_ Hl Hnum _]. apply Forall_cons in Hl as [Hl _]. apply Forall_cons in Hnum as [[H0 H63] _].
  pose proof (apply_page_inside q f Hl H0 H63) as Hin.
  split; [apply inside_apply; [by eapply pages_ok_nonempty|done]|].
  rewrite page_at_other by done. by apply page_at_written.
Qed.
End writes.

(** ** Nodes in pages *)

(** The node fits a page: in its layout, and by the code's own count. *)
Record fits_page (ps : Z) (n : node) : Prop := {
  fp_wf : node_wf n;
  fp_layout : Z.of_nat (layout_size n) <= ps;
  fp_size : nodeSize n <= ps
}.

Lemma validate_items_fits its : Forall item_ok its -> validate_items its = Ok tt.
Proof.
  induction 1 as [|it its [Hk Hv] _ IH]; [done|]. cbn [validate_items].
  by rewrite !decide_False by lia.
Qed.

Lemma fits_validate ps n : fits_page ps n -> Node.validate n ps = Ok tt.
Proof.
  intros [[Hc Hi _] _ Hs]. unfold Node.validate. rewrite decide_False.
  - rewrite decide_False by lia. by apply validate_items_fits.
  - unfold children_ok in Hc. destruct Hc as [E | E]; rewrite E; [simpl; lia|lia].
Qed.

(** [Node.validate] does not read the page number. *)
Lemma validate_pageNum pn n ps : Node.validate (Node pn (items n) (childNodes n)) ps = Node.validate n ps.
Proof. done. Qed.

Lemma nodePage_ok d n :
  0 < pageSize d <= 2 ^ 16 -> fits_page (pageSize d) n ->
  exists pg, nodePage d n = Ok pg /\ num pg = pageNum n /\ Z.of_nat (length (data pg)) = pageSize d /\
    Node.deserialize NewEmptyNode (data pg) = Ok (Node 0 (items n) (childNodes n)).
Proof.
  intros Hps Hfit. unfold nodePage. rewrite (fits_validate _ _ Hfit). go_bind.
  destruct Hfit as [Hwf Hlay _].
  destruct (node_roundtrip_gen n (replicate (Z.to_nat (pageSize d)) 0) Hwf) as (buf & E & Hl & Hd);
    [rewrite length_replicate; lia..|].
  unfold allocateEmptyPage. cbn [data]. rewrite E. go_bind. eexists. split; [done|].
  cbn [num data]. split; [done|]. split; [|done]. rewrite Hl, length_replicate. lia.
Qed.

(** The node a page of the file holds. *)
Lemma getNode_stored d f pn n :
  open_with d f -> 0 < pageSize d < 2 ^ 31 -> inside (pageSize d) pn f -> fits_page (pageSize d) n ->
  Node.deserialize NewEmptyNode (page_at (pageSize d) pn f) = Ok (Node 0 (items n) (childNodes n)) ->
  Dal.getNode pn d = (Ok (Node pn (items n) (childNodes n)), d).
Proof.
  intros Ho Hps Hin Hfit Hd. unfold Dal.getNode. mstep (readPage_ok d f pn Ho Hps Hin). mrun.
  cbn [data]. rewrite Hd. mrun. rewrite validate_pageNum, (fits_validate _ _ Hfit). by mrun.
Qed.

(** [getNode] depends on the page only. *)
Lemma getNode_same d d' f f' pn n :
  open_with d f -> open_with d' f' -> pageSize d' = pageSize d -> 0 < pageSize d < 2 ^ 31 ->
  0 <= pn -> pn * pageSize d < 2 ^ 63 ->
  (inside (pageSize d) pn f -> inside (pageSize d) pn f' /\ page_at (pageSize d) pn f' = page_at (pageSize d) pn f) ->
  fst (Dal.getNode pn d) = Ok n -> fst (Dal.getNode pn d') = Ok n.
Proof.
  intros Ho Ho' Hps' Hps H0 H63 Hsame. unfold Dal.getNode.
  assert (inside (pageSize d) pn f \/ ~ inside (pageSize d) pn f) as [Hin|Hout].
  { unfold inside. lia. }
  - destruct (Hsame Hin) as [Hin' E]. mstep (readPage_ok d f pn Ho Hps Hin).
    assert (readPage pn d' = (Ok (Page 0 (page_at (pageSize d) pn f')), d')) as Er.
    { rewrite <- Hps' in Hin' |- *. apply readPage_ok; [done| |done]. by rewrite Hps'. }
    mstep Er. mrun. cbn [data]. rewrite Hps', E. unfold mbind, M_bind, liftO.
    destruct (Node.deserialize _ _) as [n'| | | |]; try done. by destruct (Node.validate n' (pageSize d)).
  - unfold mbind at 1, M_bind at 1. destruct (readPage pn d) as [[pg| | | |] d1] eqn:E; try done.
    by apply (readPage_inv d f) in E.
Qed.

(** ** The pages of the dirty nodes *)

Section commit.
Context {RT : GoRuntime}.

(** Every dirty node is filed under its page number and fits a page. *)
Definition dirty_fit (w : world) : Prop :=
  forall pn p, dirty_at w pn = Some p ->
    exists n, points w p n /\ pageNum n = pn /\ fits_page (pageSize (ddal (wdb w))) n.

(** [pg] is the page of the dirty node of its number. *)
Definition page_of_dirty (w : world) (pg : page) : Prop :=
  exists p n, dirty_at w (num pg) = Some p /\ points w p n /\ pageNum n = num pg /\
    fits_page (pageSize (ddal (wdb w))) n /\ Z.of_nat (length (data pg)) = pageSize (ddal (wdb w)) /\
    Node.deserialize NewEmptyNode (data pg) = Ok (Node 0 (items n) (childNodes n)).

Lemma dirty_pages_ok w order :
  0 < pageSize (ddal (wdb w)) <= 2 ^ 16 -> dirty_fit w ->
  exists pages, dirty_pages order w = (Ok pages, w) /\
    num <$> pages = filter (fun pn => is_Some (dirty_at w pn)) order /\ Forall (page_of_dirty w) pages.
Proof.
  intros Hps Hfit. induction order as [|pn order IH]; [by exists []|].
  destruct IH as (pages & E & Hnums & Hall). cbn [dirty_pages]. rewrite bind_get_tx.
  unfold dirty_at at 1 in Hnums. destruct (dirtyNodes (wtx w) ≫= (.!! pn)) as [p|] eqn:Ep.
  - destruct (Hfit pn p Ep) as (n & Hp & Hn & Hf).
    destruct (nodePage_ok (ddal (wdb w)) n Hps Hf) as (pg & Epg & Hnum & Hlen & Hdes).
    mstep (node_view_points _ _ _ Hp). rewrite bind_get_dal, Epg. mrun. mstep E. mrun.
    exists (pg :: pages). split; [done|]. split.
    + rewrite filter_cons_True by (unfold dirty_at; by rewrite Ep). cbn [fmap list_fmap]. f_equal; [congruence|done].
    + constructor; [|done]. exists p, n. rewrite Hnum, Hn. done.
  - exists pages. split; [done|]. split; [|done].
    rewrite filter_cons_False by (unfold dirty_at; rewrite Ep; by intros [? ?]). done.
Qed.

(** ** The pages of a commit *)

Definition next_freelist (w : world) : freelist :=
  fold_left (fun fr pn => releasePage pn fr) (pagesToDelete (wtx w)) (clone (default newFreelist (tx_freelist (wtx w)))).
Definition next_meta (w : world) : meta := Meta (tx_root (wtx w)) (freelistPage (dmeta (ddal (wdb w)))).

(** What a commit needs: a database file, nodes that fit their pages, a loop
    over all of them, a freelist that fits its page, page numbers whose offsets
    fit an [int64]. *)
Record committable (w : world) (order : list Z) : Prop := {
  cm_open : exists f, open_with (ddal (wdb w)) f;
  cm_ps : Z.of_nat metaHeaderSize <= pageSize (ddal (wdb w)) <= 2 ^ 16;
  cm_fit : dirty_fit w;
  cm_order : NoDup order;
  cm_all : forall pn p, dirty_at w pn = Some p -> pn ∈ order;
  cm_nums : forall pn p, dirty_at w pn = Some p ->
    0 < pn /\ pn <> freelistPage (dmeta (ddal (wdb w))) /\ pn * pageSize (ddal (wdb w)) < 2 ^ 63;
  cm_live : is_Some (tx_freelist (wtx w));
  cm_free : freelist_wf (next_freelist w);
  cm_free_fits : Z.of_nat (freelist_size (next_freelist w)) <= pageSize (ddal (wdb w));
  cm_root : is_pgnum (tx_root (wtx w));
  cm_flp : 0 < freelistPage (dmeta (ddal (wdb w))) /\
    freelistPage (dmeta (ddal (wdb w))) * pageSize (ddal (wdb w)) < 2 ^ 63;
  cm_log : 28 + (Z.of_nat (length order) + 2) * (8 + pageSize (ddal (wdb w))) < 2 ^ 63
}.

(** The pages [commitPages] makes. *)
Record commit_pages (w : world) (pages : list page) : Prop := {
  cp_ok : pages_ok (pageSize (ddal (wdb w))) pages;
  cp_nodup : NoDup (num <$> pages);
  cp_nums : forall pn, pn ∈ num <$> pages ->
    pn = 0 \/ pn = freelistPage (dmeta (ddal (wdb w))) \/ is_Some (dirty_at w pn);
  cp_dirty : forall pn p, dirty_at w pn = Some p -> exists pg, pg ∈ pages /\ num pg = pn /\ page_of_dirty w pg;
  cp_free : exists buf, Page (freelistPage (dmeta (ddal (wdb w)))) buf ∈ pages /\
    Freelist.deserialize newFreelist buf = Ok (next_freelist w);
  cp_meta : exists buf, Page metaPageNum buf ∈ pages /\ Meta.deserialize buf = Ok (next_meta w)
}.

Lemma pgnum_of_offset pn ps : 0 <= pn -> 0 < ps -> pn * ps < 2 ^ 63 -> is_pgnum pn.
Proof. unfold is_pgnum. nia. Qed.

Lemma page_of_dirty_num w order pages :
  committable w order -> Forall (page_of_dirty w) pages ->
  Forall (fun pg => 0 < num pg /\ num pg <> freelistPage (dmeta (ddal (wdb w))) /\
    num pg * pageSize (ddal (wdb w)) < 2 ^ 63) pages.
Proof.
  intros Hc H. eapply Forall_impl; [exact H|]. intros pg (p & n & Hd & _). by apply (cm_nums _ _ Hc) with p.
Qed.

Lemma assemble_pages w order pages fbuf mbuf :
  committable w order ->
  num <$> pages = filter (fun pn => is_Some (dirty_at w pn)) order -> Forall (page_of_dirty w) pages ->
  Z.of_nat (length fbuf) = pageSize (ddal (wdb w)) -> Freelist.deserialize newFreelist fbuf = Ok (next_freelist w) ->
  Z.of_nat (length mbuf) = pageSize (ddal (wdb w)) -> Meta.deserialize mbuf = Ok (next_meta w) ->
  commit_pages w (pages ++ [Page (freelistPage (dmeta (ddal (wdb w)))) fbuf; Page metaPageNum mbuf]).
Proof.
  intros Hc Hnums Hall Hfl Hfd Hml Hmd. pose proof (page_of_dirty_num _ _ _ Hc Hall) as Hpn.
  assert (24 <= pageSize (ddal (wdb w)) <= 2 ^ 16) as Hps by apply (cm_ps _ _ Hc).
  destruct (cm_flp _ _ Hc) as [Hf0 Hf63].
  set (d := ddal (wdb w)) in *. set (flp := freelistPage (dmeta d)) in *.
  assert (length pages <= length order)%nat as Hlen.
  { rewrite <- (length_fmap num), Hnums. apply length_filter. }
  split; fold d flp.
  - split; [lia| | |].
    + apply Forall_app. split; [|by repeat constructor].
      eapply Forall_impl; [exact Hall|]. by intros pg (p & n & _ & _ & _ & _ & ? & _).
    + apply Forall_app. split; [|repeat constructor; cbn [num]; unfold metaPageNum; lia].
      eapply Forall_impl; [exact Hpn|]. simpl. lia.
    + rewrite length_app. pose proof (cm_log _ _ Hc) as Hlog. fold d in Hlog. cbn [length]. nia.
  - rewrite fmap_app. cbn [fmap list_fmap num]. apply NoDup_app. split; [|split].
    + rewrite Hnums. apply NoDup_filter, (cm_order _ _ Hc).
    + intros pn (pg & -> & Hpg)%list_elem_of_fmap. rewrite Forall_forall in Hpn. apply Hpn in Hpg.
      rewrite !elem_of_cons, elem_of_nil. unfold metaPageNum. lia.
    + apply NoDup_cons. split; [|apply NoDup_singleton]. rewrite list_elem_of_singleton. unfold metaPageNum. lia.
  - intros pn. rewrite fmap_app, elem_of_app, Hnums. cbn [fmap list_fmap num].
    rewrite list_elem_of_filter, !elem_of_cons, elem_of_nil. unfold metaPageNum. naive_solver.
  - intros pn p Hp. assert (pn ∈ num <$> pages) as (pg & -> & Hpg)%list_elem_of_fmap.
    { rewrite Hnums. apply list_elem_of_filter. split; [by rewrite Hp|]. by eapply cm_all. }
    exists pg. rewrite Forall_forall in Hall. split; [by apply elem_of_app; left|]. split; [done|]. by apply Hall.
  - exists fbuf. split; [|done]. apply elem_of_app. right. apply elem_of_cons. by left.
  - exists mbuf. split; [|done]. apply elem_of_app. right. rewrite !elem_of_cons. naive_solver.
Qed.

Lemma commitPages_ok w order :
  committable w order ->
  exists pages, commitPages order w = (Ok (pages, next_freelist w, next_meta w), w) /\ commit_pages w pages.
Proof.
  intros Hc. assert (24 <= pageSize (ddal (wdb w)) <= 2 ^ 16) as Hps by apply (cm_ps _ _ Hc).
  destruct (dirty_pages_ok w order) as (pages & E & Hnums & Hall); [lia|apply (cm_fit _ _ Hc)|].
  unfold commitPages. rewrite bind_get_tx. destruct (cm_live _ _ Hc) as [fr Hfr].
  assert (next_freelist w = fold_left (fun fr pn => releasePage pn fr) (pagesToDelete (wtx w)) (clone fr)) as Enext
    by (unfold next_freelist; by rewrite Hfr).
  rewrite Hfr. cbn zeta. rewrite <- Enext. mstep E. rewrite bind_get_dal.
  set (buf := data (allocateEmptyPage (ddal (wdb w)))).
  assert (Z.of_nat (length buf) = pageSize (ddal (wdb w))) as Hb.
  { unfold buf, allocateEmptyPage. cbn [data]. rewrite length_replicate. lia. }
  pose proof (cm_free_fits _ _ Hc) as Hff. unfold freelist_size, pageNumSize in Hff.
  destruct (freelist_roundtrip_gen (next_freelist w) buf (cm_free _ _ Hc)) as (fbuf & -> & Hfl & Hfd);
    [unfold freelist_size, pageNumSize; lia|lia|].
  mrun. fold (next_meta w).
  destruct (meta_roundtrip_gen (next_meta w) buf) as (mbuf & -> & Hml & _ & Hmd).
  { split; [apply (cm_root _ _ Hc)|]. destruct (cm_flp _ _ Hc). cbn [freelistPage next_meta].
    eapply pgnum_of_offset; [| |done]; lia. }
  { change metaHeaderSize with 24%nat. lia. }
  mrun. eexists. split; [done|]. apply (assemble_pages w order); try done; congruence.
Qed.

(** ** The database a commit leaves *)

(** The file holds the meta and the freelist. *)
Record stores (ps : Z) (f : bytes) (m : meta) (fr : freelist) : Prop := {
  st_meta_in : inside ps metaPageNum f;
  st_meta : Meta.deserialize (page_at ps metaPageNum f) = Ok m;
  st_free_in : inside ps (freelistPage m) f;
  st_free : Freelist.deserialize newFreelist (page_at ps (freelistPage m) f) = Ok fr
}.

(** Memory and disk agree: an open database at rest. *)
Definition synced (d : dal) : Prop :=
  exists f, open_with d f /\ wal d = None /\ stores (pageSize d) f (dmeta d) (dfreelist d).

Definition applied (w : world) (pages : list page) (f : bytes) : dal :=
  with_meta (next_meta w) (with_freelist (next_freelist w)
    (with_wal None (with_file (Some (apply_pages (pageSize (ddal (wdb w))) pages f)) (ddal (wdb w))))).

Lemma commit_stores w pages f :
  commit_pages w pages ->
  stores (pageSize (ddal (wdb w))) (apply_pages (pageSize (ddal (wdb w))) pages f) (next_meta w) (next_freelist w).
Proof.
  intros [Hok Hnd _ _ (fb & Hf & Hfd) (mb & Hm & Hmd)]. pose proof (ok_ps _ _ Hok) as Hps.
  destruct (page_at_in (pageSize (ddal (wdb w))) ltac:(lia) pages f _ Hok Hnd Hm) as [Hmi Hma].
  destruct (page_at_in (pageSize (ddal (wdb w))) ltac:(lia) pages f _ Hok Hnd Hf) as [Hfi Hfa].
  split; [done| |done|].
  - by etrans; [apply (f_equal Meta.deserialize Hma)|].
  - by etrans; [apply (f_equal (Freelist.deserialize newFreelist) Hfa)|].
Qed.

Lemma commit_apply_ok w order f :
  committable w order -> open_with (ddal (wdb w)) f ->
  exists pages, commitPages order w = (Ok (pages, next_freelist w, next_meta w), w) /\ commit_pages w pages /\
    exists w', commit_apply order w = (Ok tt, w') /\ wdb w' = with_ddal (applied w pages f) (wdb w).
Proof.
  intros Hc Ho. destruct (commitPages_ok w order Hc) as (pages & E & Hp).
  exists pages. split; [done|]. split; [done|]. unfold commit_apply. mstep E.
  pose proof (apply_ok pages (ddal (wdb w)) f Ho (cp_ok _ _ Hp)) as Ea.
  unfold lift_dal, zoom. unfold mbind at 1, M_bind at 1. rewrite Ea. eexists. by split.
Qed.

(** A node of the file the commit does not write, and a node it does. *)
Lemma applied_page w pages f pn n wr b :
  commit_pages w pages -> open_with (ddal (wdb w)) f -> ddal b = applied w pages f ->
  0 < pn -> pn <> freelistPage (dmeta (ddal (wdb w))) -> pn * pageSize (ddal (wdb w)) < 2 ^ 63 ->
  page_node pn w = Ok n -> page_node pn (begin b wr) = Ok n.
Proof.
  intros Hp Ho Hb H0 Hfl H63. pose proof (cp_ok _ _ Hp) as Hok. pose proof (ok_ps _ _ Hok) as Hps.
  unfold page_node at 2, dirty_at at 1. cbn [begin wtx newTx dirtyNodes mbind option_bind].
  rewrite lookup_empty. cbn [wdb begin]. rewrite Hb.
  set (d := ddal (wdb w)) in *. assert (open_with (applied w pages f) (apply_pages (pageSize d) pages f)) as Ho'
    by (destruct Ho; by split).
  unfold page_node. destruct (dirty_at w pn) as [p|] eqn:Ep.
  - destruct (cp_dirty _ _ Hp pn p Ep) as (pg & Hin & Hnum & p' & n' & Ep' & Hpt & Hn' & Hfit & _ & Hdes).
    rewrite Hnum in Ep'. rewrite Ep in Ep'. simplify_eq. destruct Hpt as (r & Hr & Er). rewrite Hr. go_bind.
    intros [= <-]. rewrite Er. destruct (page_at_in (pageSize d) ltac:(lia) pages f pg Hok (cp_nodup _ _ Hp) Hin) as [Hi Ha].
    rewrite (getNode_stored (applied w pages f) _ (num pg) n' Ho'); [..|exact Hfit|].
    + simpl. rewrite <- Hn'. by destruct n'.
    + exact Hps.
    + exact Hi.
    + by etrans; [apply (f_equal (Node.deserialize NewEmptyNode) Ha)|].
  - apply (getNode_same d (applied w pages f) f _ pn n Ho Ho'); [done|done|lia|done|].
    intros Hi. assert (pn ∉ num <$> pages) as Hni.
    { intros [? | [? | [? ?]]]%(cp_nums _ _ Hp); [lia|done|congruence]. }
    split; [by apply inside_apply; [eapply pages_ok_nonempty|]|]. apply page_at_other; [lia|done..].
Qed.

(** ** Opening a database *)

Lemma readMeta_ok d f m :
  open_with d f -> 0 < pageSize d < 2 ^ 31 -> inside (pageSize d) metaPageNum f ->
  Meta.deserialize (page_at (pageSize d) metaPageNum f) = Ok m -> readMeta d = (Ok m, d).
Proof.
  intros Ho Hps Hin E. unfold readMeta. mstep (readPage_ok d f metaPageNum Ho Hps Hin). cbn [data]. by rewrite E.
Qed.

Lemma readFreelist_ok d f fr :
  open_with d f -> 0 < pageSize d < 2 ^ 31 -> inside (pageSize d) (freelistPage (dmeta d)) f ->
  Freelist.deserialize newFreelist (page_at (pageSize d) (freelistPage (dmeta d)) f) = Ok fr ->
  readFreelist d = (Ok fr, d).
Proof.
  intros Ho Hps Hin E. unfold readFreelist. mrun. mstep (readPage_ok d f _ Ho Hps Hin). cbn [data]. by rewrite E.
Qed.

(** The data access layer of an open at rest. *)
Definition dal_of (o : Options) (f : bytes) (m : meta) (fr : freelist) : dal :=
  Dal (o_pageSize o) (MinFillPercent o) (MaxFillPercent o) (Some f) true None m fr.

(** Opening recovers the file, then finds what it stores. *)
Lemma open_recovered o f wl g m fr :
  0 < o_pageSize o < 2 ^ 31 ->
  recovered g (Dal (o_pageSize o) (MinFillPercent o) (MaxFillPercent o) (Some f) true wl newEmptyMeta newFreelist) ->
  stores (o_pageSize o) g m fr ->
  newDal o (Disk (Some f) wl) = (Ok tt, dal_of o g m fr).
Proof.
  intros Hps Hr [Hmi Hm Hfi Hf]. unfold newDal. cbn [dk_file]. unfold open_existing, open_file. mrun.
  unfold empty_dal, with_open, with_file. cbn. mstep Hr.
  set (d1 := with_wal None _). assert (open_with d1 g) as Ho1 by (by split).
  mstep (readMeta_ok d1 g m Ho1 Hps Hmi Hm). mrun. set (d2 := with_meta m d1).
  assert (open_with d2 g) as Ho2 by (by split). by mstep (readFreelist_ok d2 g fr Ho2 Hps Hfi Hf).
Qed.

Definition options_of (d : dal) : Options := mkOptions (pageSize d) (minFillPercent d) (maxFillPercent d).

Lemma dal_of_same d f :
  open_with d f -> wal d = None -> dal_of (options_of d) f (dmeta d) (dfreelist d) = d.
Proof. intros [Ho Hf] Hw. destruct d; simpl in *; by subst. Qed.

Lemma applied_eq w pages f :
  isOpen (ddal (wdb w)) = true ->
  applied w pages f = dal_of (options_of (ddal (wdb w))) (apply_pages (pageSize (ddal (wdb w))) pages f)
    (next_meta w) (next_freelist w).
Proof. intros Ho. unfold applied, with_meta, with_freelist, with_wal, with_file. cbn. by rewrite Ho. Qed.

Lemma synced_reopens d :
  0 < pageSize d < 2 ^ 31 -> synced d -> newDal (options_of d) (Disk (file d) (wal d)) = (Ok tt, d).
Proof.
  intros Hps (f & Ho & Hw & Hs). rewrite (proj2 Ho), Hw.
  rewrite (open_recovered (options_of d) f None f (dmeta d) (dfreelist d)); [|done| |done].
  - by rewrite dal_of_same.
  - unfold recovered. by rewrite recover_none.
Qed.

(** ** [Commit] as a whole *)

(** [committable] is about the transaction and the data access layer, not about
    the locks. *)
Lemma committable_locks w order wl cw cr :
  committable w order -> committable (with_wdb (mkDB (ddal (wdb w)) wl cw cr) w) order.
Proof. intros []. by split. Qed.

Lemma commit_pages_locks w pages wl cw cr :
  commit_pages (with_wdb (mkDB (ddal (wdb w)) wl cw cr) w) pages -> commit_pages w pages.
Proof. intros []. by split. Qed.

(** A write transaction that holds its lock, and nobody reading. *)
Record commit_turn (w : world) : Prop := {
  ct_write : write (wtx w) = true;
  ct_lock : writeLock (wdb w) = true;
  ct_writer : commitWriter (wdb w) = false;
  ct_readers : commitReaders (wdb w) = 0%nat
}.

Lemma Commit_ok fuel colls dirty w w1 f :
  commit_turn w -> flushCollectionMetadata fuel colls w = (Ok tt, w1) ->
  committable w1 dirty -> open_with (ddal (wdb w1)) f ->
  exists pages, commit_pages w1 pages /\
    exists w', Commit fuel colls dirty w = (Ok tt, w') /\ wdb w' = mkDB (applied w1 pages f) false false 0.
Proof.
  intros [Hw Hl Hc Hr] Ef Hcm Ho. unfold Commit. rewrite bind_get_tx, Hw. cbn [negb].
  pose proof (keep_flush fuel colls w) as [Hf _]. rewrite Ef in Hf. cbn [snd] in Hf.
  set (w2 := with_wdb (mkDB (ddal (wdb w1)) (writeLock (wdb w1)) true (commitReaders (wdb w1))) w1).
  destruct (commit_apply_ok w2 dirty f) as (pages & _ & Hp & w3 & E3 & Eb); [by apply committable_locks|done|].
  exists pages. split; [by eapply commit_pages_locks|].
  unfold defer at 1. mstep Ef.
  assert (lift_db commitLock_Lock w1 = (Ok tt, w2)) as El.
  { unfold lift_db, zoom, commitLock_Lock. cbn [commitReaders]. rewrite Hf, Hc. rewrite decide_True by done.
    unfold w2. by rewrite Hf. }
  mstep El. unfold commit_locked, defer at 1. rewrite E3.
  unfold lift_db, zoom, commitLock_Unlock, writeLock_Unlock. rewrite Eb. cbn. rewrite Hf, Hl, Hr.
  eexists. split; [done|]. done.
Qed.
End commit.

(** ** The conditions are decidable *)

#[export] Instance is_pgnum_dec p : Decision (is_pgnum p).
Proof. unfold is_pgnum. apply _. Defined.
#[export] Instance item_ok_dec it : Decision (item_ok it).
Proof. unfold item_ok. apply _. Defined.
#[export] Instance children_ok_dec n : Decision (children_ok n).
Proof. unfold children_ok. apply _. Defined.

Definition fits_pageb (ps : Z) (n : node) : bool :=
  bool_decide (children_ok n) && bool_decide (Forall item_ok (items n)) && bool_decide (Forall is_pgnum (childNodes n)) &&
  (Z.of_nat (layout_size n) <=? ps) && (nodeSize n <=? ps).

Lemma fits_pageb_spec ps n : fits_pageb ps n = true -> fits_page ps n.
Proof.
  unfold fits_pageb. rewrite !andb_true_iff, !bool_decide_eq_true, !Z.leb_le.
  intros [[[[]]]]. by repeat split.
Qed.

(** The dirty node of a page, checked against [committable]. *)
Definition dirty_okb (w : world) (order : list Z) (e : Z * node_ptr) : bool :=
  let '(pn, p) := e in
  match nodesH w !! p with
  | None => false
  | Some r =>
      bool_decide (r_pageNum r = pn) && fits_pageb (pageSize (ddal (wdb w))) (node_of w r) && bool_decide (pn ∈ order) &&
      (0 <? pn) && negb (pn =? freelistPage (dmeta (ddal (wdb w)))) && (pn * pageSize (ddal (wdb w)) <? 2 ^ 63)
  end.

Definition freelist_okb (ps : Z) (fr : freelist) : bool :=
  bool_decide (is_pgnum (maxPage fr)) && bool_decide (NoDup (releasedPages fr)) &&
  forallb (fun p => (metaPage <? p) && (p <=? maxPage fr)) (releasedPages fr) && (Z.of_nat (freelist_size fr) <=? ps).

Definition committableb (w : world) (order : list Z) : bool :=
  let d := ddal (wdb w) in
  isOpen d && bool_decide (is_Some (file d)) &&
  (Z.of_nat metaHeaderSize <=? pageSize d) && (pageSize d <=? 2 ^ 16) &&
  forallb (dirty_okb w order) (map_to_list (default ∅ (dirtyNodes (wtx w)))) && bool_decide (NoDup order) &&
  bool_decide (is_Some (tx_freelist (wtx w))) && freelist_okb (pageSize d) (next_freelist w) &&
  bool_decide (is_pgnum (tx_root (wtx w))) &&
  (0 <? freelistPage (dmeta d)) && (freelistPage (dmeta d) * pageSize d <? 2 ^ 63) &&
  (28 + (Z.of_nat (length order) + 2) * (8 + pageSize d) <? 2 ^ 63).

Lemma dirty_okb_at w order pn p :
  forallb (dirty_okb w order) (map_to_list (default ∅ (dirtyNodes (wtx w)))) = true -> dirty_at w pn = Some p ->
  dirty_okb w order (pn, p) = true.
Proof.
  intros H Hp. rewrite forallb_forall in H. apply H. apply list_elem_of_In, elem_of_map_to_list.
  unfold dirty_at in Hp. destruct (dirtyNodes (wtx w)); [done|discriminate].
Qed.

Lemma committableb_spec w order : committableb w order = true -> committable w order.
Proof.
  unfold committableb, freelist_okb. rewrite !andb_true_iff, !Z.leb_le, !Z.ltb_lt, !bool_decide_eq_true.
  intros H. decompose [and] H. clear H.
  match goal with H : forallb (dirty_okb _ _) _ = true |- _ => rename H into Hd end.
  assert (forall pn p, dirty_at w pn = Some p -> dirty_okb w order (pn, p) = true) as Hall
    by (intros; by apply dirty_okb_at).
  unfold dirty_okb in Hall.
  assert (forall pn p, dirty_at w pn = Some p -> exists r, nodesH w !! p = Some r /\ r_pageNum r = pn /\
    fits_page (pageSize (ddal (wdb w))) (node_of w r) /\ pn ∈ order /\ 0 < pn /\
    pn <> freelistPage (dmeta (ddal (wdb w))) /\ pn * pageSize (ddal (wdb w)) < 2 ^ 63) as Hfacts.
  { intros pn p Hp. specialize (Hall pn p Hp). destruct (nodesH w !! p) as [r|]; [|done].
    rewrite !andb_true_iff, !Z.ltb_lt, !bool_decide_eq_true, negb_true_iff, Z.eqb_neq in Hall.
    destruct Hall as [[[[[? ?%fits_pageb_spec] ?] ?] ?] ?]. by exists r. }
  split; try done.
  - destruct (file (ddal (wdb w))) as [f|] eqn:E; [|by destruct (is_Some_None (A := bytes))]. exists f. by split.
  - intros pn p Hp. destruct (Hfacts pn p Hp) as (r & Hr & Hn & Hf & _). exists (node_of w r). split; [by exists r|]. done.
  - intros pn p Hp. by destruct (Hfacts pn p Hp) as (r & _ & _ & _ & ? & _).
  - intros pn p Hp. by destruct (Hfacts pn p Hp) as (r & _ & _ & _ & _ & ? & ? & ?).
  - split; [done|done|]. apply Forall_forall. intros p Hp.
    match goal with H : forallb _ (releasedPages _) = true |- _ => rewrite forallb_forall in H;
      apply list_elem_of_In, H, andb_true_iff in Hp as [?%Z.ltb_lt ?%Z.leb_le] end. lia.
Qed.

(** ** Properties *)

(** C9: a commit publishes the transaction.  When the transaction holds its lock
    with no reader left, the flush of its collections succeeds and nodes and
    freelist fit their pages, [Commit] succeeds and returns its locks; the
    next transaction starts with the root and the freelist of the committed one
    and sees under every page number what the committed one saw, dirty node or
    page of the file. *)
Theorem commit_publishes {RT : GoRuntime} w fuel colls dirty w1 :
  commit_turn w -> flushCollectionMetadata fuel colls w = (Ok tt, w1) -> committable w1 dirty ->
  exists w', Commit fuel colls dirty w = (Ok tt, w') /\
    writeLock (wdb w') = false /\ commitWriter (wdb w') = false /\ commitReaders (wdb w') = 0%nat /\
    tx_root (wtx (begin (wdb w') true)) = tx_root (wtx w1) /\
    tx_freelist (wtx (begin (wdb w') true)) = Some (next_freelist w1) /\
    forall wr pn n, 0 < pn -> pn <> freelistPage (dmeta (ddal (wdb w))) -> pn * pageSize (ddal (wdb w)) < 2 ^ 63 ->
      page_node pn w1 = Ok n -> page_node pn (begin (wdb w') wr) = Ok n.
Proof.
  intros Ht Ef Hc. destruct (cm_open _ _ Hc) as [f Ho].
  destruct (Commit_ok fuel colls dirty w w1 f Ht Ef Hc Ho) as (pages & Hp & w' & E & Eb).
  pose proof (keep_flush fuel colls w) as [Hf _]. rewrite Ef in Hf. cbn [snd] in Hf.
  exists w'. split; [done|]. rewrite Eb. repeat (split; [done|]). split.
  { unfold begin, newTx. cbn. unfold clone. by destruct (next_freelist w1). }
  rewrite <- Hf. intros wr pn n H0 Hfl H63. by apply applied_page with pages f.
Qed.

(** C10: a commit survives a restart.  Closing the database after a commit and
    opening it again with the same options gives the data access layer, file,
    meta and freelist, that the commit left. *)
Theorem commit_survives_reopen {RT : GoRuntime} w fuel colls dirty w1 :
  commit_turn w -> flushCollectionMetadata fuel colls w = (Ok tt, w1) -> committable w1 dirty ->
  exists w', Commit fuel colls dirty w = (Ok tt, w') /\ synced (ddal (wdb w')) /\
    newDal (options_of (ddal (wdb w'))) (Close (wdb w')) = (Ok tt, ddal (wdb w')).
Proof.
  intros Ht Ef Hc. destruct (cm_open _ _ Hc) as [f Ho].
  destruct (Commit_ok fuel colls dirty w w1 f Ht Ef Hc Ho) as (pages & Hp & w' & E & Eb).
  exists w'. split; [done|]. rewrite Eb. cbn [ddal].
  assert (synced (applied w1 pages f)) as Hs.
  { eexists. split; [destruct Ho; by split|]. split; [done|]. by apply commit_stores. }
  split; [done|]. apply synced_reopens; [|done].
  pose proof (ok_ps _ _ (cp_ok _ _ Hp)). done.
Qed.

(** An open that the log stops: the files stay as they were. *)
Definition open_refused (o : Options) (k : disk) : Prop :=
  exists r d, newDal o k = (r, d) /\ r <> Ok tt /\ Disk (file d) (wal d) = k.

Lemma open_refused_log o f bs :
  (forall r, parse_wal (o_pageSize o) bs <> Ok r) -> open_refused o (Disk (Some f) (Some bs)).
Proof.
  intros Hp. unfold open_refused, newDal. cbn [dk_file]. unfold open_existing, open_file. mrun.
  set (d := with_open true _). destruct (recover_refused d bs eq_refl Hp) as (r & E & Hr).
  unfold mbind, M_bind. rewrite E. destruct r as [[]| | | |]; [done|by do 2 eexists..].
Qed.

(** C4: a crash during a commit leaves the database before the commit or after
    it.  From a database at rest, the machine crashes after any number [k] of
    the disk operations with which [applyPagesWithWAL] writes the pages of the
    commit, leaves of the unsynced writes what the crash model allows, and may
    crash again and again in the recovery of the opens that follow.  The open
    that is not cut short gives the state the commit leaves or the state before
    it, or refuses the log and leaves the files alone; it refuses only with the
    old database file in place and a log that is not a prefix of the one
    written, and once the log was synced it gives the state the commit leaves. *)
Theorem crash_keeps_database {RT : GoRuntime} w order s :
  let d := ddal (wdb w) in
  committable w order -> synced d -> disk_at_rest (pageSize d) (default [] (file d)) s ->
  exists pages w', commitPages order w = (Ok (pages, next_freelist w, next_meta w), w) /\
    commit_apply order w = (Ok tt, w') /\
    let ops := disk_ops (applyPagesWithWAL pages) d in
    forall k f1 wl1 f' wl, sliceable pages ->
      crash (pageSize d) (exec (pageSize d) s (take k ops)) f1 wl1 -> recovering (pageSize d) (f1, wl1) (f', wl) ->
      (newDal (options_of d) (Disk (Some f') wl) = (Ok tt, ddal (wdb w')) \/
       newDal (options_of d) (Disk (Some f') wl) = (Ok tt, d) \/
       (open_refused (options_of d) (Disk (Some f') wl) /\ Some f' = file d /\
        ~ exists pre, wl = Some pre /\ pre `prefix_of` log_of (pageSize d) pages)) /\
      (WalSync ∈ take k ops -> newDal (options_of d) (Disk (Some f') wl) = (Ok tt, ddal (wdb w'))).
Proof.
  intros d Hc (f & Ho & Hwl & Hst) Hs. destruct (commit_apply_ok w order f Hc Ho) as (pages & E & Hp & w' & Ew & Eb).
  exists pages, w'. split; [done|]. split; [done|]. intros ops k f1 wl1 f' wl Hal Hcr Hrec.
  pose proof (cp_ok _ _ Hp) as Hok. pose proof (ok_ps _ _ Hok) as Hps.
  unfold ops in *. rewrite (commit_disk_ops pages d f Ho Hok) in *. destruct Ho as [Hop Hf].
  subst d. set (d := ddal (wdb w)) in *. rewrite Hf in Hs |- *. cbn [default] in Hs.
  assert (forall g m fr, recoverable (pageSize d) g f1 wl1 -> stores (pageSize d) g m fr ->
    newDal (options_of d) (Disk (Some f') wl) = (Ok tt, dal_of (options_of d) g m fr)) as Hopen.
  { intros g m fr Hr Hg. apply open_recovered; [done| |done].
    apply (recoverable_recovered (pageSize d) g f' wl); [|done].
    exact (recovering_recoverable (pageSize d) g _ _ Hrec Hr). }
  assert (recoverable (pageSize d) (apply_pages (pageSize d) pages f) f1 wl1 ->
    newDal (options_of d) (Disk (Some f') wl) = (Ok tt, ddal (wdb w'))) as Hafter.
  { intros Hr. rewrite (Hopen _ _ _ Hr (commit_stores w pages f Hp)), Eb. cbn [ddal with_ddal]. by rewrite applied_eq. }
  destruct (commit_crash _ _ _ _ _ _ _ Hok Hal Hs Hcr) as [Hr|(Hk & -> & Hr)].
  - split; [left|intros _]; by apply Hafter.
  - split; [|intros ?%synced_log_ops; lia]. right. destruct Hr as [Hr|(bs & -> & Hpa & Hpre)].
    + left. rewrite (Hopen _ _ _ Hr Hst). by rewrite dal_of_same.
    + right. pose proof (recovering_refused _ _ _ Hrec ltac:(by exists bs)) as [= -> ->].
      split; [by apply open_refused_log|]. split; [done|]. by intros (pre & [= <-] & ?).
Qed.

(** A transaction on the demo database, and the database it commits. *)
Definition demo_tx (b : DB) (k : Z) : world :=
  after (CallPut 1 [k] [10]) (after (CallGetOrCreate [97]) (begin (mkDB (ddal b) true false 0) true)).
Definition demo_committed : DB := wdb (snd (Commit 5 [[97]] [1; 2; 3; 4] (demo_tx demo_db 1))).
Definition demo_flushed (b : DB) : world := snd (flushCollectionMetadata 5 [[97]] (demo_tx b 2)).

Lemma commit_publishes_witness :
  let w := demo_tx demo_committed 2 in
  exists w', Commit 5 [[97]] [1; 2; 3; 4] w = (Ok tt, w') /\
    writeLock (wdb w') = false /\ commitWriter (wdb w') = false /\ commitReaders (wdb w') = 0%nat /\
    tx_root (wtx (begin (wdb w') true)) = tx_root (wtx (demo_flushed demo_committed)) /\
    tx_freelist (wtx (begin (wdb w') true)) = Some (next_freelist (demo_flushed demo_committed)) /\
    forall wr pn n, 0 < pn -> pn <> freelistPage (dmeta (ddal (wdb w))) -> pn * pageSize (ddal (wdb w)) < 2 ^ 63 ->
      page_node pn (demo_flushed demo_committed) = Ok n -> page_node pn (begin (wdb w') wr) = Ok n.
Proof.
  apply (commit_publishes (demo_tx demo_committed 2) 5 [[97]] [1; 2; 3; 4] (demo_flushed demo_committed)).
  - split; vm_compute; reflexivity.
  - vm_compute. reflexivity.
  - apply committableb_spec. vm_compute. reflexivity.
Defined.

Lemma commit_survives_reopen_witness :
  let w := demo_tx demo_committed 2 in
  exists w', Commit 5 [[97]] [1; 2; 3; 4] w = (Ok tt, w') /\ synced (ddal (wdb w')) /\
    newDal (options_of (ddal (wdb w'))) (Close (wdb w')) = (Ok tt, ddal (wdb w')).
Proof.
  apply (commit_survives_reopen (demo_tx demo_committed 2) 5 [[97]] [1; 2; 3; 4] (demo_flushed demo_committed)).
  - split; vm_compute; reflexivity.
  - vm_compute. reflexivity.
  - apply committableb_spec. vm_compute. reflexivity.
Defined.

Lemma crash_keeps_database_witness :
  let w := demo_flushed demo_committed in
  let d := ddal (wdb w) in
  exists pages w', commitPages [1; 2; 3; 4] w = (Ok (pages, next_freelist w, next_meta w), w) /\
    commit_apply [1; 2; 3; 4] w = (Ok tt, w') /\
    let ops := disk_ops (applyPagesWithWAL pages) d in
    forall k f1 wl1 f' wl, sliceable pages ->
      crash (pageSize d) (exec (pageSize d) (restarted (default [] (file d)) None) (take k ops)) f1 wl1 ->
      recovering (pageSize d) (f1, wl1) (f', wl) ->
      (newDal (options_of d) (Disk (Some f') wl) = (Ok tt, ddal (wdb w')) \/
       newDal (options_of d) (Disk (Some f') wl) = (Ok tt, d) \/
       (open_refused (options_of d) (Disk (Some f') wl) /\ Some f' = file d /\
        ~ exists pre, wl = Some pre /\ pre `prefix_of` log_of (pageSize d) pages)) /\
      (WalSync ∈ take k ops -> newDal (options_of d) (Disk (Some f') wl) = (Ok tt, ddal (wdb w'))).
Proof.
  apply (crash_keeps_database (demo_flushed demo_committed) [1; 2; 3; 4]
    (restarted (default [] (file (ddal (wdb (demo_flushed demo_committed))))) None)).
  - apply committableb_spec. vm_compute. reflexivity.
  - exists (default [] (file (ddal (wdb (demo_flushed demo_committed))))).
    split; [split; vm_compute; reflexivity|]. split; [vm_compute; reflexivity|].
    split; [apply (bool_decide_unpack _); vm_compute; exact I|vm_compute; reflexivity
      |apply (bool_decide_unpack _); vm_compute; exact I|vm_compute; reflexivity].
  - by split.
Defined.
