(* ===== verification/Opening.v ===== *)
(** * Creating a database

    What [newDal] puts into a new file: the freelist in page 1, the empty root
    node of the collections in page 2, the meta in page 0.  The freelist is
    written before page 2 is taken from it, so what the file holds is the
    freelist of a database without a root page. *)

From S2P Require Import Prelude Freelist Meta Node Float32 Dal Wal Crash GoSlice World Tree Heap Collection Tx Db Isolation Durable.

Open Scope Z_scope.

Lemma empty_leaf_fits ps pn : 24 <= ps -> fits_page ps (Node pn [] []).
Proof.
  intros Hps. split; [split; [by left|constructor|constructor]|..].
  - change (layout_size (Node pn [] [])) with 4%nat. lia.
  - change (nodeSize (Node pn [] [])) with 11. lia.
Qed.

(** ** The writes of [newDal] *)

Section writes.
Context (d : dal) (f : bytes) (Ho : open_with d f) (Hps : 24 <= pageSize d <= 2 ^ 16).

Definition zero_page : bytes := replicate (Z.to_nat (pageSize d)) 0.

Lemma write_small pg : 0 <= num pg <= 2 -> writePage pg d = (Ok tt, with_file (Some (apply_page (pageSize d) f pg)) d).
Proof. intros Hn. apply writePage_ok; [done|done|lia|lia|nia]. Qed.

Lemma writeFreelist_ok bs :
  0 <= freelistPage (dmeta d) <= 2 -> Freelist.serialize (dfreelist d) zero_page = Ok bs ->
  let pg := Page (freelistPage (dmeta d)) bs in
  writeFreelist d = (Ok pg, with_file (Some (apply_page (pageSize d) f pg)) d).
Proof.
  intros Hn E pg. unfold writeFreelist. mrun. unfold allocateEmptyPage. cbn [data]. fold zero_page.
  rewrite E. mrun. fold pg. mstep (write_small pg Hn). mrun. by destruct d as [? ? ? ? ? ? []].
Qed.

Lemma writeMeta_ok m bs :
  Meta.serialize m zero_page = Ok bs ->
  writeMeta m d = (Ok (Page metaPageNum bs), with_file (Some (apply_page (pageSize d) f (Page metaPageNum bs))) d).
Proof.
  intros E. unfold writeMeta. mrun. unfold allocateEmptyPage. cbn [data]. fold zero_page. rewrite E. mrun.
  mstep (write_small (Page metaPageNum bs) ltac:(unfold metaPageNum; cbn; lia)). done.
Qed.

(** A node without a page gets the next one. *)
Lemma writeNode_new_ok its kids pg pn fr :
  nodePage d (Node 0 its kids) = Ok pg -> num pg = 0 -> getNextPage (dfreelist d) = (pn, fr) -> 0 <= pn <= 2 ->
  writeNode (Node 0 its kids) d =
    (Ok (Node pn its kids), with_file (Some (apply_page (pageSize d) f (Page pn (data pg)))) (with_freelist fr d)).
Proof.
  intros E Hpg En Hn. unfold writeNode. mrun. rewrite E. mrun. cbn [pageNum]. rewrite decide_True by done.
  rewrite bind_assoc. assert (getNextPageM d = (Ok pn, with_freelist fr d)) as Eg by (unfold getNextPageM; by rewrite En).
  mstep Eg. mrun. cbn [items childNodes].
  assert (writePage (Page pn (data pg)) (with_freelist fr d) =
    (Ok tt, with_file (Some (apply_page (pageSize d) f (Page pn (data pg)))) (with_freelist fr d))) as Ew.
  { apply writePage_ok; [done|done|lia|cbn; lia|cbn; nia]. }
  by mstep Ew.
Qed.
End writes.

(** The three pages of a new file. *)
Record new_file (ps : Z) (pages : list page) : Prop := {
  nf_ok : pages_ok ps pages;
  nf_nums : num <$> pages = [1; 2; 0];
  nf_free : exists buf, Page 1 buf ∈ pages /\ Freelist.deserialize newFreelist buf = Ok (Freelist 1 []);
  nf_root : exists buf, Page 2 buf ∈ pages /\ Node.deserialize NewEmptyNode buf = Ok (Node 0 [] []);
  nf_meta : exists buf, Page 0 buf ∈ pages /\ Meta.deserialize buf = Ok (Meta 2 1)
}.

Definition dal_with (o : Options) (f : bytes) (wl : option bytes) (m : meta) (fr : freelist) : dal :=
  Dal (o_pageSize o) (MinFillPercent o) (MaxFillPercent o) (Some f) true wl m fr.

Lemma open_new_ok o wl :
  24 <= o_pageSize o <= 2 ^ 16 ->
  exists pages, new_file (o_pageSize o) pages /\
    newDal o (Disk None wl) =
      (Ok tt, dal_with o (apply_pages (o_pageSize o) pages []) wl (Meta 2 1) (Freelist 2 [])).
Proof.
  intros Hps. set (ps := o_pageSize o) in *. set (zero := replicate (Z.to_nat ps) 0).
  assert (length zero = Z.to_nat ps) as Hz by apply length_replicate.
  destruct (freelist_roundtrip_gen (Freelist 1 []) zero) as (fb & Ef & Hfl & Hfd).
  { split; cbn; [lia|constructor|constructor]. }
  { unfold freelist_size, pageNumSize. cbn. lia. }
  { cbn. lia. }
  destruct (meta_roundtrip_gen (Meta 2 1) zero) as (mb & Em & Hml & _ & Hmd).
  { split; unfold is_pgnum; cbn; lia. }
  { change metaHeaderSize with 24%nat. lia. }
  set (d1 := dal_with o [] wl (Meta 0 1) (Freelist 1 [])).
  pose proof (writeFreelist_ok d1 [] (conj eq_refl eq_refl) Hps fb ltac:(cbn; lia) Ef) as W1. cbn zeta in W1.
  set (f1 := apply_page (pageSize d1) [] _) in W1. change (with_file (Some f1) d1) with (dal_with o f1 wl (Meta 0 1) (Freelist 1 [])) in W1.
  set (d2 := dal_with o f1 wl (Meta 0 1) (Freelist 1 [])) in *.
  destruct (nodePage_ok d2 (Node 0 [] [])) as (npg & En & Hnn & Hnl & Hnd); [cbn; fold ps; lia|apply empty_leaf_fits, Hps|].
  pose proof (writeNode_new_ok d2 f1 (conj eq_refl eq_refl) Hps [] [] npg 2 (Freelist 2 []) En Hnn eq_refl ltac:(lia)) as W2.
  set (f2 := apply_page (pageSize d2) f1 _) in W2.
  set (d3 := dal_with o f2 wl (Meta 2 1) (Freelist 2 [])).
  pose proof (writeMeta_ok d3 f2 (conj eq_refl eq_refl) Hps (Meta 2 1) mb Em) as W3.
  exists [Page 1 fb; Page 2 (data npg); Page 0 mb]. cbn [pageSize d2 dal_with] in Hnl. fold ps in Hnl. split.
  - split.
    + split; [lia| | |cbn [length]; lia]; repeat constructor; cbn [data num]; lia.
    + done.
    + exists fb. split; [left|done].
    + exists (data npg). split; [right; left|done].
    + exists mb. split; [do 2 right; left|done].
  - unfold newDal. cbn [dk_file]. unfold open_new, open_file. rewrite !bind_modS.
    assert (forall d0 d', getNextPageM d0 = (Ok 1, d') -> forall A (k : Z -> M dal A), (getNextPageM ≫= k) d0 = k 1 d')
      as Hget by (intros d0 d' E A k; by mstep E).
    erewrite Hget by reflexivity. rewrite bind_modS.
    match goal with |- (writeFreelist ≫= ?k) ?x = _ => change x with d1; rewrite (bind_Ok writeFreelist k d1 _ _ W1) end.
    unfold NewNodeForSerialization.
    match goal with |- (writeNode _ ≫= ?k) _ = _ => rewrite (bind_Ok _ k d2 _ _ W2) end.
    rewrite bind_modS, bind_getS.
    by erewrite bind_Ok by exact W3.
Qed.

(** ** Properties *)

(** C25: a new database.  On options with pages from 24 to 65536 bytes [newDal]
    creates the file: page 2 holds the empty root node of the collections and
    the meta page says so, the freelist in memory continues after page 2, and a
    log that lay next to the file is left there.  Once that log is out of the
    way, opening the file again gives the same file and meta but the freelist
    as it was before the root page was taken, so the next page handed out is
    the root page. *)
Theorem new_database o wl :
  24 <= o_pageSize o <= 2 ^ 16 ->
  exists d, newDal o (Disk None wl) = (Ok tt, d) /\
    root (dmeta d) = 2 /\ freelistPage (dmeta d) = 1 /\ dfreelist d = Freelist 2 [] /\ wal d = wl /\
    fst (Dal.getNode 2 d) = Ok (Node 2 [] []) /\
    exists d', newDal o (Disk (file d) None) = (Ok tt, d') /\ file d' = file d /\ dmeta d' = dmeta d /\
      dfreelist d' = Freelist 1 [] /\ fst (getNextPage (dfreelist d')) = root (dmeta d').
Proof.
  intros Hps. destruct (open_new_ok o wl Hps) as (pages & [Hok Hnum (fb & Hf & Hfd) (nb & Hn & Hnd) (mb & Hm & Hmd)] & E).
  set (ps := o_pageSize o) in *. set (f := apply_pages ps pages []) in *.
  assert (NoDup (num <$> pages)) as Hnodup by (rewrite Hnum; by apply (bool_decide_unpack _)).
  destruct (page_at_in ps ltac:(lia) pages [] _ Hok Hnodup Hf) as [If Af].
  destruct (page_at_in ps ltac:(lia) pages [] _ Hok Hnodup Hn) as [In An].
  destruct (page_at_in ps ltac:(lia) pages [] _ Hok Hnodup Hm) as [Im Am].
  cbn [num data] in *. fold f in If, Af, In, An, Im, Am.
  eexists. split; [exact E|]. repeat (split; [done|]). split.
  - rewrite (getNode_stored (dal_with o f wl (Meta 2 1) (Freelist 2 [])) f 2 (Node 2 [] [])); try done.
    + cbn. fold ps. lia.
    + apply empty_leaf_fits, Hps.
    + cbn [pageSize dal_with]. fold ps. by rewrite An.
  - exists (dal_of o f (Meta 2 1) (Freelist 1 [])). split; [|by repeat split]. cbn [file dal_with].
    apply (open_recovered o f None f (Meta 2 1) (Freelist 1 [])); [fold ps; lia|by unfold recovered; rewrite recover_none|].
    split; fold ps; cbn [freelistPage]; unfold metaPageNum; [done|by rewrite Am|done|by rewrite Af].
Qed.

Lemma new_database_witness :
  exists d, newDal demo_options (Disk None (Some [1])) = (Ok tt, d) /\
    root (dmeta d) = 2 /\ freelistPage (dmeta d) = 1 /\ dfreelist d = Freelist 2 [] /\ wal d = Some [1] /\
    fst (Dal.getNode 2 d) = Ok (Node 2 [] []) /\
    exists d', newDal demo_options (Disk (file d) None) = (Ok tt, d') /\ file d' = file d /\ dmeta d' = dmeta d /\
      dfreelist d' = Freelist 1 [] /\ fst (getNextPage (dfreelist d')) = root (dmeta d').
Proof. apply (new_database demo_options (Some [1])). simpl. lia. Defined.
