(* ===== verification/Restart.v ===== *)
(** * Collections across transactions and restarts

    A collection is stored as an item of the root collection: its name, the
    page of its root and its counter.  [shows_collection] says that a world
    shows a collection through that item; it carries over a commit, and a
    restart, to the transactions that begin afterwards. *)

From S2P Require Import Prelude Freelist Meta Node Float32 Dal Wal Crash GoSlice World Tree Heap Contents Collection Search Tx Db Isolation Durable.

Open Scope Z_scope.

(** ** The stored form *)

Lemma collection_bytes c :
  serialize c = Ok (newItem (c_name c) (le_bytes 8 (c_root c) ++ le_bytes 8 (c_counter c))).
Proof.
  unfold serialize. rewrite put_le_ok by (simpl; lia). go_bind.
  by rewrite put_le_ok by (rewrite length_splice_le; simpl; lia).
Qed.

Lemma collection_read c0 name root counter :
  is_pgnum root -> is_pgnum counter ->
  deserialize c0 (newItem name (le_bytes 8 root ++ le_bytes 8 counter)) =
    Ok (Collection name root counter (c_hasTx c0) (c_rootCollection c0) (c_dirtyMeta c0)).
Proof.
  intros Hr Hc. unfold deserialize. cbn [value key]. rewrite decide_True by (rewrite length_app, !length_le_bytes; lia).
  rewrite (get_le_at 8 0 _ root); [|rewrite length_app, !length_le_bytes; lia| |done].
  2:{ apply sub_list_app_take, length_le_bytes. }
  go_bind. unfold pageNumSize. rewrite (get_le_at 8 (0 + 8) _ counter); [done|rewrite length_app, !length_le_bytes; lia| |done].
  rewrite sub_list_app_skip by (rewrite length_le_bytes; lia). rewrite length_le_bytes.
  rewrite <- (app_nil_r (le_bytes 8 counter)) at 1. apply sub_list_app_take, length_le_bytes.
Qed.

(** ** Getting a collection at the start of a transaction *)

Section restart.
Context {RT : GoRuntime}.

(** The world shows the collection [name] with the tree [t], through the root
    collection, whose tree is [tr]. *)
Record shows_collection (w : world) (name : bytes) (tr t : tree) : Prop := {
  sc_root : t_page tr = tx_root (wtx w);
  sc_root_repr : repr w tr;
  sc_root_shape : shape tr;
  sc_root_sorted : sorted (flatten tr);
  sc_item : exists it c, find_item name (flatten tr) = Some it /\ deserialize newEmptyCollection it = Ok c /\
    c_root c = t_page t;
  sc_repr : repr w t;
  sc_shape : shape t;
  sc_sorted : sorted (flatten t)
}.

Lemma begin_ok b wr : world_ok (begin b wr).
Proof.
  split.
  - intros p r. cbn [begin nodesH]. by rewrite lookup_nil.
  - intros pn p. unfold dirty_at. cbn [begin wtx newTx dirtyNodes mbind option_bind]. by rewrite lookup_empty.
Qed.

Lemma new_coll_reads c w : world_ok w -> reads w (with_collsH (collsH w ++ [c]) w).
Proof.
  intros [Hs Hd]. split; [|by split|done]. split; try done. cbn. by eexists.
Qed.

Lemma deserialize_flags it c :
  deserialize newEmptyCollection it = Ok c -> c_rootCollection c = false /\ c_dirtyMeta c = false.
Proof.
  unfold deserialize. case_decide; [|by intros [= <-]].
  intros (r & _ & (k & _ & [= <-])%bind_out_inv)%bind_out_inv. done.
Qed.

(** The transaction [w], begun on [b], has got a collection and changed nothing. *)
Record gotten (b : DB) (wr : bool) (p : coll_ptr) (c : collection) (w : world) : Prop := {
  gt_ok : world_ok w;
  gt_page : forall pn, page_node pn w = page_node pn (begin b wr);
  gt_db : wdb w = b;
  gt_tx : wtx w = if wr then with_colls (Some {[c_name c := p]}) (newTx b wr) else newTx b wr;
  gt_coll : collsH w !! p = Some c;
  gt_hasTx : c_hasTx c = true;
  gt_dirty : c_dirtyMeta c = false;
  gt_plain : c_rootCollection c = false
}.

(** A new transaction gets the collection, and reads of it see its tree. *)
Lemma GetCollection_ok b wr name tr t fuel :
  shows_collection (begin b wr) name tr t -> (height tr <= fuel)%nat ->
  exists p c w, GetCollection fuel name (begin b wr) = (Ok (Some p), w) /\
    gotten b wr p c w /\ repr w t /\ c_root c = t_page t.
Proof.
  intros [Hrt Hrr Hrs Hro (it & c & Hit & Hde & Hc) Ht _ _] Hf. unfold GetCollection. rewrite bind_get_tx.
  set (w0 := begin b wr) in *. pose proof (begin_ok b wr) as Ok0. fold w0 in Ok0.
  rewrite (bool_decide_eq_false_2 (name ∈ _)) by (cbn; set_solver). rewrite andb_false_r.
  assert ((if write (wtx w0) then collections (wtx w0) ≫= (.!! name) else None) = None) as ->.
  { unfold w0. cbn. destruct wr; [apply lookup_empty|done]. }
  set (rc := Collection [] (tx_root (wtx w0)) 0 true true false).
  set (w1 := with_collsH (collsH w0 ++ [rc]) w0).
  assert (getRootCollection w0 = (Ok (length (collsH w0)), w1)) as Eroot by done. mstep Eroot.
  pose proof (new_coll_reads rc w0 Ok0) as R1. fold w1 in R1. pose proof (reads_ok _ _ R1) as Ok1.
  destruct (Find_gen w1 (length (collsH w0)) rc tr name fuel Ok1) as (w2 & Ef & R2); try done.
  { by apply (reads_repr w0). }
  mstep Ef. rewrite Hit, Hde. mrun. pose proof (reads_ok _ _ R2) as Ok2.
  set (w3 := with_collsH (collsH w2 ++ [coll_set_tx true c]) w2).
  assert (new_coll (coll_set_tx true c) w2 = (Ok (length (collsH w2)), w3)) as Enew by done. mstep Enew.
  pose proof (new_coll_reads (coll_set_tx true c) w2 Ok2) as R3. fold w3 in R3. pose proof (reads_ok _ _ R3) as Ok3.
  assert (reads w0 w3) as R by (etrans; [exact R1|]; etrans; [exact R2|exact R3]).
  assert (collsH w3 !! length (collsH w2) = Some (coll_set_tx true c)) as Hp by apply list_lookup_middle, eq_refl.
  assert (wtx w3 = wtx w0) as T by apply R.
  assert (repr w3 t) as H3 by (by apply (reads_repr w0)). destruct (deserialize_flags _ _ Hde) as [Hrc Hdm].
  assert (forall pn, page_node pn w3 = page_node pn w0) as P3 by (intros pn; by apply reads_page).
  assert (wdb w3 = wdb w0) as D3 by apply R.
  unfold trackCollection. rewrite !bind_assoc. erewrite bind_Ok by (unfold load_coll; by rewrite Hp).
  rewrite bind_assoc, bind_get_tx, T. cbn [c_rootCollection coll_set_tx]. rewrite Hrc, orb_false_r.
  unfold w0 at 1 2. cbn [wtx begin newTx write collections]. destruct wr; cbn [negb].
  - unfold mod_tx. rewrite bind_modS. do 3 eexists. split; [done|].
    split; [split; try done|split; [by apply (repr_frame w3)|done]].
    + destruct Ok3 as [O1 O2]. split; [done|]. intros pn q. unfold dirty_at. cbn. exact (O2 pn q).
    + cbn [wtx with_wtx]. by rewrite T.
  - rewrite bind_ret. do 3 eexists. split; [done|]. by split.
Qed.

(** A name that is not among the items of the root collection is not found. *)
Lemma GetCollection_none b wr name tr fuel :
  t_page tr = root (dmeta (ddal b)) -> repr (begin b wr) tr -> shape tr -> sorted (flatten tr) ->
  find_item name (flatten tr) = None -> (height tr <= fuel)%nat ->
  exists w, GetCollection fuel name (begin b wr) = (Ok None, w) /\ reads (begin b wr) w.
Proof.
  intros Hrt Hrr Hrs Hro Hit Hf. unfold GetCollection. rewrite bind_get_tx.
  set (w0 := begin b wr) in *. pose proof (begin_ok b wr) as Ok0. fold w0 in Ok0.
  rewrite (bool_decide_eq_false_2 (name ∈ _)) by (cbn; set_solver). rewrite andb_false_r.
  assert ((if write (wtx w0) then collections (wtx w0) ≫= (.!! name) else None) = None) as ->.
  { unfold w0. cbn. destruct wr; [apply lookup_empty|done]. }
  set (rc := Collection [] (tx_root (wtx w0)) 0 true true false).
  set (w1 := with_collsH (collsH w0 ++ [rc]) w0).
  assert (getRootCollection w0 = (Ok (length (collsH w0)), w1)) as Eroot by done. mstep Eroot.
  pose proof (new_coll_reads rc w0 Ok0) as R1. fold w1 in R1. pose proof (reads_ok _ _ R1) as Ok1.
  destruct (Find_gen w1 (length (collsH w0)) rc tr name fuel Ok1) as (w2 & Ef & R2); try done.
  { by apply (reads_repr w0). }
  mstep Ef. rewrite Hit. exists w2. split; [done|]. by etrans.
Qed.

(** ** Carrying a collection over a commit *)

(** A page number of tree nodes: not the meta page, not the freelist's, at an
    offset an [int64] can hold. *)
Definition tree_page (d : dal) (pn : Z) : Prop := 0 < pn /\ pn <> freelistPage (dmeta d) /\ pn * pageSize d < 2 ^ 63.

Lemma repr_carried w w' t d :
  (forall pn n, tree_page d pn -> page_node pn w = Ok n -> page_node pn w' = Ok n) ->
  Forall (tree_page d) (pages t) -> repr w t -> repr w' t.
Proof.
  intros Hp. induction t as [pg its kids IH] using tree_ind'. intros Hpg Hr.
  apply repr_unfold in Hr as [Hn Hk]. apply repr_unfold. rewrite Forall_forall in Hpg. split.
  - apply Hp; [apply Hpg, page_in_pages|done].
  - cbn [t_kids] in *. rewrite Forall_lookup in IH, Hk |- *. intros i c Hc. apply (IH i c Hc); [|by eapply Hk].
    apply Forall_forall. intros pn Hin. apply Hpg. exact (kid_pages (Tree pg its kids) i c pn Hc Hin).
Qed.

Lemma shows_carried w w' d name tr t :
  (forall pn n, tree_page d pn -> page_node pn w = Ok n -> page_node pn w' = Ok n) ->
  tx_root (wtx w') = tx_root (wtx w) ->
  Forall (tree_page d) (pages tr) -> Forall (tree_page d) (pages t) ->
  shows_collection w name tr t -> shows_collection w' name tr t.
Proof.
  intros Hp Hroot Htr Ht [H1 H2 H3 H4 H5 H6 H7 H8].
  split; try done; [by rewrite Hroot|by apply (repr_carried w w' _ d)|by apply (repr_carried w w' _ d)].
Qed.
End restart.

(** ** Properties *)

(** C35: a collection read back from its item is the collection that was
    stored: its name, root page and counter. *)
Theorem collection_roundtrip c :
  is_pgnum (c_root c) -> is_pgnum (c_counter c) ->
  exists it, serialize c = Ok it /\ key it = c_name c /\ length (value it) = collectionSize /\
    deserialize newEmptyCollection it = Ok (Collection (c_name c) (c_root c) (c_counter c) false false false).
Proof.
  intros Hr Hc. eexists. split; [apply collection_bytes|]. split; [done|]. split; [|by apply collection_read].
  cbn [value]. by rewrite length_app, !length_le_bytes.
Qed.

Lemma collection_roundtrip_witness :
  exists it, serialize (Collection [99] 7 (2 ^ 40) true false true) = Ok it /\ key it = [99] /\ length (value it) = 16%nat /\
    deserialize newEmptyCollection it = Ok (Collection [99] 7 (2 ^ 40) false false false).
Proof.
  apply (collection_roundtrip (Collection [99] 7 (2 ^ 40) true false true)); unfold is_pgnum; simpl; lia.
Defined.

(** C5: what a transaction leaves in a collection is what later transactions
    find, before and after a restart.  A write transaction that holds its locks
    with no reader left, whose collections are flushed without an error and whose
    nodes and freelist fit their pages ([committable]), commits.  If it shows the
    collection [name] with the tree [t], then a transaction that begins after
    the commit - on the same handle, or after closing and opening the database -
    gets the collection by its name, and [Find] on it is the search in the
    contents of [t]. *)
Theorem committed_collection_is_found {RT : GoRuntime} w fuel colls dirty w1 name tr t :
  commit_turn w -> flushCollectionMetadata fuel colls w = (Ok tt, w1) -> committable w1 dirty ->
  shows_collection w1 name tr t ->
  Forall (tree_page (ddal (wdb w))) (pages tr) -> Forall (tree_page (ddal (wdb w))) (pages t) ->
  exists w', Commit fuel colls dirty w = (Ok tt, w') /\
    forall b wr fuel', (ddal b = ddal (wdb w') \/ newDal (options_of (ddal (wdb w'))) (Close (wdb w')) = (Ok tt, ddal b)) ->
      (height tr <= fuel')%nat -> (height t <= fuel')%nat ->
      exists p w2, GetCollection fuel' name (begin b wr) = (Ok (Some p), w2) /\
        forall k, exists w3, Find fuel' p k w2 = (Ok (find_item k (flatten t)), w3).
Proof.
  intros Ht Ef Hc Hsc Htr Htt. destruct (cm_open _ _ Hc) as [f Ho].
  destruct (Commit_ok fuel colls dirty w w1 f Ht Ef Hc Ho) as (pgs & Hp & w' & E & Eb).
  pose proof (keep_flush fuel colls w) as [Hf _]. rewrite Ef in Hf. cbn [snd] in Hf.
  exists w'. split; [done|]. rewrite Eb. cbn [ddal]. intros b wr fuel' Hb Hh1 Hh2.
  assert (ddal b = applied w1 pgs f) as Hdb.
  { destruct Hb as [?|Hb]; [done|]. pose proof (ok_ps _ _ (cp_ok _ _ Hp)) as Hps.
    unfold Close in Hb. cbn [ddal] in Hb. rewrite synced_reopens in Hb; [congruence|done|].
    eexists. split; [destruct Ho; by split|]. split; [done|]. by apply commit_stores. }
  destruct (GetCollection_ok b wr name tr t fuel') as (p & c & w2 & Eg & [Hok _ _ _ Hpc Htx _ _] & Hr & Hrt); [|done|].
  - apply (shows_carried w1 _ (ddal (wdb w))); try done.
    + rewrite <- Hf. intros pn n (H0 & Hfl & H63). by apply (applied_page w1 pgs f).
    + unfold begin, newTx. cbn. by rewrite Hdb.
  - exists p, w2. split; [done|]. intros k.
    destruct (Find_gen w2 p c t k fuel' Hok Hpc Htx Hrt Hr) as (w3 & E3 & _); [apply Hsc|apply Hsc|done|]. by exists w3.
Qed.

(** The collection of the demo database, with the keys of two transactions. *)
Definition demo_root : tree := Tree 2 [newItem [97] (le_bytes 8 3 ++ le_bytes 8 0)] [].
Definition demo_leaf : tree := Tree 3 [newItem [1] [10]; newItem [2] [10]] [].

Lemma committed_collection_is_found_witness :
  let w := demo_tx demo_committed 2 in
  exists w', Commit 5 [[97]] [1; 2; 3; 4] w = (Ok tt, w') /\
    forall b wr fuel', (ddal b = ddal (wdb w') \/ newDal (options_of (ddal (wdb w'))) (Close (wdb w')) = (Ok tt, ddal b)) ->
      (height demo_root <= fuel')%nat -> (height demo_leaf <= fuel')%nat ->
      exists p w2, GetCollection fuel' [97] (begin b wr) = (Ok (Some p), w2) /\
        forall k, exists w3, Find fuel' p k w2 = (Ok (find_item k (flatten demo_leaf)), w3).
Proof.
  apply (committed_collection_is_found (demo_tx demo_committed 2) 5 [[97]] [1; 2; 3; 4] (demo_flushed demo_committed)
    [97] demo_root demo_leaf).
  - split; vm_compute; reflexivity.
  - vm_compute. reflexivity.
  - apply committableb_spec. vm_compute. reflexivity.
  - split; [vm_compute; reflexivity|split; [vm_compute; reflexivity|exact I]|split; [by left|exact I]|repeat constructor| |
      split; [vm_compute; reflexivity|exact I]|split; [by left|exact I]|repeat constructor].
    do 2 eexists. split; [vm_compute; reflexivity|]. split; vm_compute; reflexivity.
  - repeat constructor; vm_compute; congruence.
  - repeat constructor; vm_compute; congruence.
Defined.
