(* ===== verification/Concurrent.v ===== *)
(** * Transactions running side by side

    A system is a database and the transactions that are active on it.  Its
    steps are the calls of db.go and tx.go: beginning a transaction, a call on
    one, rolling it back, committing it.  A [ReadTx] or [WriteTx] that would
    wait for a lock is a step that is not taken yet; a commit that has to wait
    for readers is two steps, as what it does before - the announcement that
    keeps new readers out - is seen by the others.  The calls of a transaction
    only read the database ([keep_run_call]) and a commit writes it under both
    locks, so calls of different goroutines are interleaved as whole steps. *)

From S2P Require Import Prelude Freelist Meta Node Float32 Dal Wal GoSlice World Tree Collection Tx Db Isolation.

Open Scope Z_scope.

(** An active transaction, with the data access layer it began on.  A writer
    whose [Commit] waits in [commitLock.Lock] is waiting with the order in
    which it will visit its dirty nodes. *)
Record active := Active { a_world : world; a_begun : dal; a_waiting : option (list Z) }.

Record system := System { s_db : DB; s_txs : gmap nat active }.

Definition is_writer (a : active) : Prop := write (wtx (a_world a)) = true.
Definition is_reader (a : active) : Prop := write (wtx (a_world a)) = false.
#[export] Instance is_reader_dec a : Decision (is_reader a).
Proof. unfold is_reader. apply _. Defined.

Definition waits (a : active) : Prop := is_Some (a_waiting a).

Definition readers (s : system) : gmap nat active := filter (fun x => is_reader (x.2)) (s_txs s).

(** The transaction's world on the database as it is now. *)
Definition world_of (s : system) (a : active) : world := with_wdb (s_db s) (a_world a).

Section system.
Context {RT : GoRuntime}.

Inductive step : system -> system -> Prop :=
| step_read s t w b : s_txs s !! t = None -> ReadTx (s_db s) = (Ok w, b) ->
    step s (System b (<[t := Active w (ddal b) None]> (s_txs s)))
| step_write s t w b : s_txs s !! t = None -> WriteTx (s_db s) = (Ok w, b) ->
    step s (System b (<[t := Active w (ddal b) None]> (s_txs s)))
| step_call s t a fuel c o w : s_txs s !! t = Some a -> a_waiting a = None -> run_call fuel c (world_of s a) = (o, w) ->
    step s (System (wdb w) (<[t := Active w (a_begun a) None]> (s_txs s)))
| step_rollback s t a o w : s_txs s !! t = Some a -> a_waiting a = None -> Rollback (world_of s a) = (o, w) ->
    step s (System (wdb w) (delete t (s_txs s)))
| step_commit s t a fuel colls dirty o w : s_txs s !! t = Some a -> a_waiting a = None ->
    Commit fuel colls dirty (world_of s a) = (o, w) -> o <> Blocked -> o <> OutOfFuel ->
    step s (System (wdb w) (delete t (s_txs s)))
| step_wait s t a fuel colls dirty w1 w : s_txs s !! t = Some a -> a_waiting a = None -> is_writer a ->
    flushCollectionMetadata fuel colls (world_of s a) = (Ok tt, w1) -> lift_db commitLock_Lock w1 = (Blocked, w) ->
    step s (System (wdb w) (<[t := Active w (a_begun a) (Some dirty)]> (s_txs s)))
| step_woken s t a dirty o w : s_txs s !! t = Some a -> a_waiting a = Some dirty -> commitReaders (s_db s) = 0%nat ->
    commit_woken dirty (world_of s a) = (o, w) -> o <> Blocked -> o <> OutOfFuel ->
    step s (System (wdb w) (delete t (s_txs s))).

(** An opened database with no transaction, and what it can become. *)
Definition idle (b : DB) : Prop := writeLock b = false /\ commitWriter b = false /\ commitReaders b = 0%nat.

Inductive reachable : system -> Prop :=
| reach_start b : idle b -> reachable (System b ∅)
| reach_step s s' : reachable s -> step s s' -> reachable s'.

(** ** The invariant *)

Record locks_ok (s : system) : Prop := {
  lk_writer : writeLock (s_db s) = true <-> exists t a, s_txs s !! t = Some a /\ is_writer a;
  lk_unique : forall t a t' a', s_txs s !! t = Some a -> is_writer a -> s_txs s !! t' = Some a' -> is_writer a' -> t = t';
  lk_commit : commitWriter (s_db s) = true <-> exists t a, s_txs s !! t = Some a /\ waits a;
  lk_waits : forall t a, s_txs s !! t = Some a -> waits a -> is_writer a;
  lk_readers : commitReaders (s_db s) = size (readers s);
  lk_snapshot : forall t a, s_txs s !! t = Some a -> a_begun a = ddal (s_db s)
}.

Lemma writer_or_reader a : is_writer a \/ is_reader a.
Proof. unfold is_writer, is_reader. destruct (write _); auto. Qed.

Lemma not_both a : is_writer a -> is_reader a -> False.
Proof. unfold is_writer, is_reader. congruence. Qed.

(** Counting readers when a transaction comes, goes, or makes a call. *)
Lemma readers_add b t a txs :
  txs !! t = None -> is_reader a -> size (readers (System b (<[t := a]> txs))) = S (size (filter (fun x => is_reader (x.2)) txs)).
Proof.
  intros Ht Ha. unfold readers. cbn [s_txs]. rewrite map_filter_insert_True by done. apply map_size_insert_None.
  by apply map_lookup_filter_None; left.
Qed.

Lemma readers_skip b t a txs :
  txs !! t = None -> is_writer a -> size (readers (System b (<[t := a]> txs))) = size (filter (fun x => is_reader (x.2)) txs).
Proof.
  intros Ht Ha. unfold readers. cbn [s_txs].
  rewrite map_filter_insert_False by (intros Hr; by apply (not_both a)). by rewrite delete_id.
Qed.

Lemma readers_delete b t a txs :
  txs !! t = Some a ->
  size (filter (fun x => is_reader (x.2)) txs) =
    ((if decide (is_reader a) then 1 else 0) + size (readers (System b (delete t txs))))%nat.
Proof.
  intros Ht. rewrite <- (insert_delete_id txs t a Ht) at 1.
  case_decide as Hr.
  - exact (readers_add b t a (delete t txs) (lookup_delete_eq _ _) Hr).
  - apply (readers_skip b t a (delete t txs) (lookup_delete_eq _ _)). by destruct (writer_or_reader a).
Qed.

Lemma readers_update b t a a' txs :
  txs !! t = Some a -> write (wtx (a_world a')) = write (wtx (a_world a)) ->
  size (readers (System b (<[t := a']> txs))) = size (filter (fun x => is_reader (x.2)) txs).
Proof.
  intros Ht Hw. rewrite <- (insert_delete_eq txs t a').
  rewrite <- (insert_delete_id txs t a Ht) at 2. destruct (writer_or_reader a) as [Ha|Ha].
  - rewrite (readers_skip b) by (apply lookup_delete_eq || (unfold is_writer in *; congruence)).
    symmetry. apply (readers_skip b t a (delete t txs) (lookup_delete_eq _ _) Ha).
  - rewrite (readers_add b) by (apply lookup_delete_eq || (unfold is_reader in *; congruence)).
    symmetry. apply (readers_add b t a (delete t txs) (lookup_delete_eq _ _) Ha).
Qed.

(** ** Every step keeps it *)

Lemma locks_start b : idle b -> locks_ok (System b ∅).
Proof.
  intros (Hw & Hc & Hr). split; cbn.
  - rewrite Hw. split; [done|]. by intros (t & a & Ht & _).
  - by intros t a t' a' Ht.
  - rewrite Hc. split; [done|]. by intros (t & a & Ht & _).
  - by intros t a Ht.
  - by rewrite Hr.
  - by intros t a Ht.
Qed.

(** A property of some transaction, when one comes, changes or goes. *)
Lemma some_add (P : active -> Prop) t a (txs : gmap nat active) :
  txs !! t = None -> (exists u x, <[t := a]> txs !! u = Some x /\ P x) <-> P a \/ exists u x, txs !! u = Some x /\ P x.
Proof.
  intros Ht. split.
  - intros (u & x & [[<- <-]|[? Hu]]%lookup_insert_Some & Hx); [by left|right; by exists u, x].
  - intros [Ha|(u & x & Hu & Hx)]; [exists t, a; by rewrite lookup_insert_eq|].
    exists u, x. rewrite lookup_insert_ne; [done|]. congruence.
Qed.

Lemma some_update (P : active -> Prop) t a a' (txs : gmap nat active) :
  txs !! t = Some a -> (P a' <-> P a) ->
  (exists u x, <[t := a']> txs !! u = Some x /\ P x) <-> exists u x, txs !! u = Some x /\ P x.
Proof.
  intros Ht Ha. split.
  - intros (u & x & [[<- <-]|[? Hu]]%lookup_insert_Some & Hx); [exists t, a; by rewrite <- Ha|by exists u, x].
  - intros (u & x & Hu & Hx). destruct (decide (t = u)) as [<-|?].
    + simplify_eq. exists t, a'. rewrite lookup_insert_eq. by rewrite Ha.
    + exists u, x. by rewrite lookup_insert_ne.
Qed.

Lemma some_end (P : active -> Prop) t a (txs : gmap nat active) :
  txs !! t = Some a -> ~ P a ->
  (exists u x, delete t txs !! u = Some x /\ P x) <-> exists u x, txs !! u = Some x /\ P x.
Proof.
  intros Ht Ha. split.
  - intros (u & x & [_ Hu]%lookup_delete_Some & Hx). by exists u, x.
  - intros (u & x & Hu & Hx). exists u, x. rewrite lookup_delete_ne; [done|]. intros <-. by simplify_eq.
Qed.

Lemma locks_read s t w b :
  locks_ok s -> s_txs s !! t = None -> ReadTx (s_db s) = (Ok w, b) ->
  locks_ok (System b (<[t := Active w (ddal b) None]> (s_txs s))).
Proof.
  intros [L1 L2 L3 L4 L5 L6] Ht (Hc & -> & ->)%ReadTx_ok. split; cbn [s_db s_txs writeLock commitWriter commitReaders ddal].
  - rewrite L1, some_add by done. unfold is_writer at 2. cbn. naive_solver.
  - intros u a u' a' [[<- <-]|[? Hu]]%lookup_insert_Some Ha [[<- <-]|[? Hu']]%lookup_insert_Some Ha'; try done. by eapply L2.
  - rewrite some_add by done. rewrite <- L3, Hc. split; [done|]. by intros [[? ?]|?].
  - intros u a [[<- <-]|[? Hu]]%lookup_insert_Some; [by intros [? ?]|by eapply L4].
  - rewrite readers_add by done. by rewrite L5.
  - intros u a [[<- <-]|[? Hu]]%lookup_insert_Some; [done|]. by eapply L6.
Qed.

Lemma locks_write s t w b :
  locks_ok s -> s_txs s !! t = None -> WriteTx (s_db s) = (Ok w, b) ->
  locks_ok (System b (<[t := Active w (ddal b) None]> (s_txs s))).
Proof.
  intros [L1 L2 L3 L4 L5 L6] Ht (Hc & -> & ->)%WriteTx_ok.
  assert (forall u a, s_txs s !! u = Some a -> is_writer a -> False) as Hno.
  { intros u a Hu Ha. assert (writeLock (s_db s) = true) by (apply L1; by exists u, a). congruence. }
  split; cbn [s_db s_txs writeLock commitWriter commitReaders ddal].
  - rewrite some_add by done. split; [by left|done].
  - intros u a u' a' [[<- <-]|[? Hu]]%lookup_insert_Some Ha [[<- <-]|[? Hu']]%lookup_insert_Some Ha'; try done;
      exfalso; eauto.
  - rewrite some_add, <- L3 by done. split; [by right|]. by intros [[? ?]|?].
  - intros u a [[<- <-]|[? Hu]]%lookup_insert_Some; [by intros [? ?]|by eapply L4].
  - rewrite readers_skip by done. by rewrite L5.
  - intros u a [[<- <-]|[? Hu]]%lookup_insert_Some; [done|]. by eapply L6.
Qed.

(** A transaction goes on, in a new world with the same database. *)
Lemma locks_update s t a w wt cw :
  locks_ok s -> s_txs s !! t = Some a -> a_waiting a = None -> write (wtx w) = write (wtx (a_world a)) ->
  (is_Some wt -> is_writer a) -> (cw = true <-> commitWriter (s_db s) = true \/ is_Some wt) ->
  locks_ok (System (mkDB (ddal (s_db s)) (writeLock (s_db s)) cw (commitReaders (s_db s)))
    (<[t := Active w (a_begun a) wt]> (s_txs s))).
Proof.
  intros [L1 L2 L3 L4 L5 L6] Ht Hwt Hw Hwr Hcw. set (a' := Active w (a_begun a) wt).
  assert (is_writer a' <-> is_writer a) as Hwa by (unfold is_writer, a'; cbn; by rewrite Hw).
  assert (forall u x, <[t := a']> (s_txs s) !! u = Some x ->
    exists y, s_txs s !! u = Some y /\ (is_writer x <-> is_writer y) /\ a_begun x = a_begun y) as Hback.
  { intros u x [[<- <-]|[? Hu]]%lookup_insert_Some; [by exists a|by exists x]. }
  split; cbn [s_db s_txs ddal writeLock commitWriter commitReaders].
  - rewrite L1. symmetry. by apply some_update with a.
  - intros u x u' x' (y & Hy & Hxy & _)%Hback Hx (y' & Hy' & Hxy' & _)%Hback Hx'.
    apply (L2 u y u' y'); try done; [by apply Hxy|by apply Hxy'].
  - rewrite Hcw, L3. split.
    + intros [(u & x & Hu & Hx)|Hs]; [|exists t, a'; by rewrite lookup_insert_eq].
      exists u, x. rewrite lookup_insert_ne; [done|]. intros <-. simplify_eq. unfold waits in Hx. rewrite Hwt in Hx.
      by destruct Hx.
    + intros (u & x & [[<- <-]|[? Hu]]%lookup_insert_Some & Hx); [by right|left; by exists u, x].
  - intros u x [[<- <-]|[? Hu]]%lookup_insert_Some Hx; [by apply Hwa, Hwr|by eapply L4].
  - rewrite (readers_update _ t a) by done. apply L5.
  - intros u x (y & Hy & _ & ->)%Hback. by eapply L6.
Qed.

Lemma DB_eta b : b = mkDB (ddal b) (writeLock b) (commitWriter b) (commitReaders b).
Proof. by destruct b. Qed.

Lemma locks_call s t a fuel c o w :
  locks_ok s -> s_txs s !! t = Some a -> a_waiting a = None -> run_call fuel c (world_of s a) = (o, w) ->
  locks_ok (System (wdb w) (<[t := Active w (a_begun a) None]> (s_txs s))).
Proof.
  intros L Ht Hwt E. pose proof (keep_run_call fuel c (world_of s a)) as [Hdb Hw].
  rewrite E in Hdb, Hw. cbn [snd world_of wdb with_wdb wtx] in Hdb, Hw. rewrite Hdb, (DB_eta (s_db s)).
  apply locks_update; try done. split; [by left|]. by intros [?|[? ?]].
Qed.

(** A writer that does not wait: nobody does. *)
Lemma nobody_waits s t a : locks_ok s -> s_txs s !! t = Some a -> a_waiting a = None -> is_writer a -> commitWriter (s_db s) = false.
Proof.
  intros L Ht Hwt Ha. destruct (commitWriter (s_db s)) eqn:Hc; [|done]. apply (lk_commit _ L) in Hc as (u & x & Hu & Hx).
  pose proof (lk_unique _ L u x t a Hu (lk_waits _ L u x Hu Hx) Ht Ha) as ->. simplify_eq. destruct Hx. congruence.
Qed.

(** A commit announces itself and waits. *)
Lemma locks_wait s t a fuel colls dirty w1 w :
  locks_ok s -> s_txs s !! t = Some a -> a_waiting a = None -> is_writer a ->
  flushCollectionMetadata fuel colls (world_of s a) = (Ok tt, w1) -> lift_db commitLock_Lock w1 = (Blocked, w) ->
  locks_ok (System (wdb w) (<[t := Active w (a_begun a) (Some dirty)]> (s_txs s))).
Proof.
  intros L Ht Hwt Ha E1 E2. pose proof (keep_flush fuel colls (world_of s a)) as [Hdb Hw]. rewrite E1 in Hdb, Hw.
  cbn [snd world_of wdb with_wdb wtx] in Hdb, Hw.
  pose proof (nobody_waits s t a L Ht Hwt Ha) as Hc.
  unfold lift_db, zoom, commitLock_Lock in E2. rewrite Hdb, Hc in E2. case_decide; go_inv E2. cbn [wdb with_wdb].
  apply locks_update; try done. split; [by right|done].
Qed.

(** A transaction ends. *)
Lemma locks_end_reader s t a n :
  locks_ok s -> s_txs s !! t = Some a -> is_reader a -> commitReaders (s_db s) = S n ->
  locks_ok (System (mkDB (ddal (s_db s)) (writeLock (s_db s)) (commitWriter (s_db s)) n) (delete t (s_txs s))).
Proof.
  intros [L1 L2 L3 L4 L5 L6] Ht Ha Hn. assert (~ is_writer a) as Hnw by (intros Hw; by apply (not_both a)).
  split; cbn [s_db s_txs writeLock commitWriter commitReaders ddal].
  - rewrite L1. symmetry. by apply some_end with a.
  - intros u x u' x' [_ Hu]%lookup_delete_Some Hx [_ Hu']%lookup_delete_Some Hx'. by eapply L2.
  - rewrite L3. symmetry. apply some_end with a; [done|]. intros Hx. by apply Hnw, (L4 t).
  - intros u x [_ Hu]%lookup_delete_Some. by eapply L4.
  - rewrite L5 in Hn. unfold readers in Hn at 1.
    rewrite (readers_delete (mkDB (ddal (s_db s)) (writeLock (s_db s)) (commitWriter (s_db s)) n) t a) in Hn by done.
    rewrite decide_True in Hn by done. lia.
  - intros u x [_ Hu]%lookup_delete_Some. by eapply L6.
Qed.

Lemma locks_end_writer s t a d :
  locks_ok s -> s_txs s !! t = Some a -> is_writer a -> (d = ddal (s_db s) \/ commitReaders (s_db s) = 0%nat) ->
  locks_ok (System (mkDB d false false (commitReaders (s_db s))) (delete t (s_txs s))).
Proof.
  intros [L1 L2 L3 L4 L5 L6] Ht Ha Hd.
  assert (forall u x, delete t (s_txs s) !! u = Some x -> is_writer x -> False) as Hno.
  { intros u x [Hne Hu]%lookup_delete_Some Hx. apply Hne. by eapply L2. }
  split; cbn [s_db s_txs writeLock commitWriter commitReaders ddal].
  - split; [done|]. intros (u & x & Hu & Hx). exfalso. by eapply Hno.
  - intros u x u' x' Hu Hx. exfalso. by eapply Hno.
  - split; [done|]. intros (u & x & Hu & Hx). exfalso. eapply Hno; [done|].
    apply lookup_delete_Some in Hu as [_ Hu]. by eapply L4.
  - intros u x [_ Hu]%lookup_delete_Some. by eapply L4.
  - rewrite L5. unfold readers at 1. rewrite (readers_delete (mkDB d false false (commitReaders (s_db s))) t a) by done.
    rewrite decide_False; [done|]. intros Hr. by apply (not_both a).
  - intros u x Hux. destruct Hd as [-> |H0]; [apply lookup_delete_Some in Hux as [_ Hu]; by eapply L6|].
    exfalso. rewrite L5 in H0. apply map_size_empty_inv in H0. destruct (writer_or_reader x) as [Hx|Hx]; [by eapply Hno|].
    apply lookup_delete_Some in Hux as [_ Hu].
    assert (readers s !! u = Some x) as Hrd by (by apply map_lookup_filter_Some). by rewrite H0, lookup_empty in Hrd.
Qed.

(** A commit that does not wait while there are readers has failed before it
    wrote anything. *)
Lemma Commit_with_readers fuel colls dirty w n :
  write (wtx w) = true -> commitReaders (wdb w) = S n ->
  let '(o, w') := Commit fuel colls dirty w in o <> Blocked -> o <> OutOfFuel -> ddal (wdb w') = ddal (wdb w).
Proof.
  intros Hw Hn. unfold Commit. rewrite bind_get_tx, Hw. cbn [negb]. unfold defer at 1.
  pose proof (keep_flush fuel colls w) as [Hf _]. unfold mbind at 1, M_bind at 1.
  destruct (flushCollectionMetadata fuel colls w) as [o w1]. cbn [snd] in Hf.
  assert (forall b x, ddal (wdb (snd (lift_db writeLock_Unlock (with_wdb b x)))) = ddal b) as Hu.
  { intros b x. unfold lift_db, zoom, writeLock_Unlock. cbn. by destruct (writeLock b). }
  assert (with_wdb (wdb w1) w1 = w1) as E1 by (by destruct w1).
  specialize (Hu (wdb w1) w1). rewrite E1 in Hu. rewrite <- Hf in Hn |- *.
  destruct o as [[]|e| | |]; try done.
  - unfold lift_db at 1, zoom, commitLock_Lock, mbind, M_bind. destruct (commitWriter (wdb w1)); [done|].
    cbn [commitReaders]. by rewrite decide_False by lia.
  - destruct (lift_db writeLock_Unlock w1) as [[] ?]; done.
  - destruct (lift_db writeLock_Unlock w1) as [[] ?]; done.
Qed.

(** A commit that has got the lock gives both locks back. *)
Lemma commit_woken_locks dirty w :
  writeLock (wdb w) = true -> commitWriter (wdb w) = true ->
  let '(o, w') := commit_woken dirty w in
  o <> Blocked -> o <> OutOfFuel -> wdb w' = mkDB (ddal (wdb w')) false false (commitReaders (wdb w)).
Proof.
  intros Hl Hc. unfold commit_woken, defer at 1.
  pose proof (defer_unlock_commit w (commit_apply dirty) (commit_apply_locks dirty) Hc) as Hd. unfold commit_locked.
  destruct (defer (lift_db commitLock_Unlock) (commit_apply dirty) w) as [o w1].
  destruct o as [[]|e| | |]; try done; (destruct Hd as (D1 & D2 & D3); [done|done|]);
    unfold lift_db, zoom, writeLock_Unlock; rewrite D1, Hl; cbn; by rewrite D2, D3.
Qed.

Lemma reader_count s t a : locks_ok s -> s_txs s !! t = Some a -> is_reader a -> exists n, commitReaders (s_db s) = S n.
Proof.
  intros L Ht Ha. rewrite (lk_readers _ L). unfold readers. rewrite (readers_delete (s_db s) t a), decide_True by done. by eexists.
Qed.

Lemma locks_step s s' : locks_ok s -> step s s' -> locks_ok s'.
Proof.
  intros L St. destruct St as [s t w b Ht E|s t w b Ht E|s t a fuel c o w Ht Hwt E|s t a o w Ht Hwt E
    |s t a fuel colls dirty o w Ht Hwt E Hb Hf|s t a fuel colls dirty w1 w Ht Hwt Ha E1 E2|s t a dirty o w Ht Hwt Hr E Hb Hf].
  - by apply locks_read.
  - by apply locks_write.
  - by eapply locks_call.
  - destruct (writer_or_reader a) as [Ha|Ha].
    + destruct (Rollback_write_gen (world_of s a)) as (w' & E' & Eb & _); [done|apply L; by exists t, a|].
      rewrite E in E'. simplify_eq. rewrite Eb. cbn [world_of wdb with_wdb]. rewrite (nobody_waits s t a) by done.
      apply locks_end_writer with a; auto.
    + destruct (reader_count s t a L Ht Ha) as [n Hn].
      destruct (reader_end_gen (world_of s a) n 0 [] [] Ha Hn) as [E' _]. rewrite E in E'. simplify_eq.
      by apply locks_end_reader with a.
  - destruct (writer_or_reader a) as [Ha|Ha].
    + assert (writeLock (s_db s) = true) as Hl by (apply L; by exists t, a).
      pose proof (Commit_locks_gen (world_of s a) fuel colls dirty Ha Hl (nobody_waits s t a L Ht Hwt Ha)) as Hlk.
      rewrite E in Hlk. destruct (Hlk Hb Hf) as (K1 & K2 & K3). cbn [world_of wdb with_wdb] in K3.
      rewrite (DB_eta (wdb w)), K1, K2, K3. apply locks_end_writer with a; try done.
      destruct (commitReaders (s_db s)) as [|n] eqn:Hn; [by right|left].
      pose proof (Commit_with_readers fuel colls dirty (world_of s a) n Ha Hn) as Hc. rewrite E in Hc. by apply Hc.
    + destruct (reader_count s t a L Ht Ha) as [n Hn].
      destruct (reader_end_gen (world_of s a) n fuel colls dirty Ha Hn) as [_ E']. rewrite E in E'. simplify_eq.
      by apply locks_end_reader with a.
  - by eapply locks_wait.
  - assert (is_writer a) as Ha by (eapply (lk_waits _ L); [done|by eexists]).
    pose proof (commit_woken_locks dirty (world_of s a)) as Hlk. rewrite E in Hlk. rewrite Hlk; try done.
    + apply locks_end_writer with a; auto.
    + apply L. by exists t, a.
    + apply L. exists t, a. split; [done|]. by eexists.
Qed.

Lemma locks_reachable s : reachable s -> locks_ok s.
Proof. induction 1 as [b Hi|s s' _ IH St]; [by apply locks_start|by eapply locks_step]. Qed.
End system.

(** ** Properties *)

(** C15: however transactions are interleaved, at most one of them writes; the
    write lock is held exactly while there is one, the commit lock is announced
    exactly while a commit waits for it, only a writer does, and the lock's
    readers are the active read transactions. *)
Theorem one_writer_many_readers {RT : GoRuntime} s :
  reachable s ->
  (writeLock (s_db s) = true <-> exists t a, s_txs s !! t = Some a /\ is_writer a) /\
  (forall t a t' a', s_txs s !! t = Some a -> is_writer a -> s_txs s !! t' = Some a' -> is_writer a' -> t = t') /\
  (commitWriter (s_db s) = true <-> exists t a, s_txs s !! t = Some a /\ waits a) /\
  (forall t a, s_txs s !! t = Some a -> waits a -> is_writer a) /\
  commitReaders (s_db s) = size (readers s).
Proof. intros [L1 L2 L3 L4 L5 _]%locks_reachable. done. Qed.

(** C13: snapshot isolation.  As long as a transaction is active, reading or
    writing, the database file, meta and freelist are those it began on: no
    other transaction's commit comes in between. *)
Theorem snapshot_isolation {RT : GoRuntime} s t a :
  reachable s -> s_txs s !! t = Some a -> ddal (s_db s) = a_begun a.
Proof. intros L%locks_reachable Ht. symmetry. by apply (lk_snapshot _ L t). Qed.

(** C29: beginning a read transaction waits exactly while a commit waits for
    readers that are there already; beginning a write transaction waits exactly
    while another write transaction is active. *)
Theorem begin_waits_only_for_a_writer {RT : GoRuntime} s :
  reachable s ->
  ((exists w b, ReadTx (s_db s) = (Ok w, b)) <-> ~ exists t a, s_txs s !! t = Some a /\ waits a) /\
  ((exists w b, WriteTx (s_db s) = (Ok w, b)) <-> ~ exists t a, s_txs s !! t = Some a /\ is_writer a).
Proof.
  intros L%locks_reachable. unfold ReadTx, WriteTx, commitLock_RLock, writeLock_Lock, mbind, M_bind.
  rewrite <- (lk_commit _ L), <- (lk_writer _ L). split; [destruct (commitWriter (s_db s))|destruct (writeLock (s_db s))];
    (split; [by intros (w & b & E)|]); try done; intros _; by do 2 eexists.
Qed.

(** A writer that has created a collection, and a reader. *)
Definition demo_writing (b : DB) : world := begin (mkDB (ddal b) true false 0) true.
Definition demo_writer (b : DB) : active := Active (after (CallCreate [97]) (demo_writing b)) (ddal b) None.
Definition demo_reader (b : DB) : active := Active (begin (mkDB (ddal b) true false 1) false) (ddal b) None.
Definition demo_system (b : DB) : system :=
  System (mkDB (ddal b) true false 1)
    (<[2%nat := demo_reader b]> (<[1%nat := demo_writer b]> (<[1%nat := Active (demo_writing b) (ddal b) None]> ∅))).

Lemma demo_system_reachable b : idle b -> reachable (demo_system b).
Proof.
  intros Hi. pose proof Hi as (Hw & Hc & Hr). unfold demo_system. set (b1 := mkDB (ddal b) true false 0).
  set (first := Active (demo_writing b) (ddal b) None).
  assert (reachable (System b1 (<[1%nat := first]> ∅))) as R1.
  { apply reach_step with (System b ∅); [by apply reach_start|].
    apply (step_write (System b ∅) 1 (demo_writing b) b1); [done|].
    unfold WriteTx, writeLock_Lock, mbind, M_bind. cbn [s_db]. by rewrite Hw, Hc, Hr. }
  assert (reachable (System b1 (<[1%nat := demo_writer b]> (<[1%nat := first]> ∅)))) as R2.
  { apply (reach_step _ _ R1). destruct (keep_run_call 5 (CallCreate [97]) (demo_writing b)) as [E _].
    change b1 with (wdb (demo_writing b)) at 2. rewrite <- E.
    apply (step_call (System b1 _) 1 first 5 (CallCreate [97]) (fst (run_call 5 (CallCreate [97]) (demo_writing b)))).
    - apply lookup_insert_eq.
    - done.
    - apply surjective_pairing. }
  apply (reach_step _ _ R2). apply (step_read (System b1 _) 2 (begin (mkDB (ddal b) true false 1) false) (mkDB (ddal b) true false 1)).
  - cbn [s_txs]. by rewrite !lookup_insert_ne by done.
  - done.
Qed.

Lemma demo_writer_active b : s_txs (demo_system b) !! 1%nat = Some (demo_writer b).
Proof. unfold demo_system. cbn [s_txs]. rewrite lookup_insert_ne by done. apply lookup_insert_eq. Qed.

(** The writer commits, and waits for the reader. *)
Definition demo_committing (b : DB) : world := with_wdb (mkDB (ddal b) true true 1) (a_world (demo_writer b)).
Definition demo_waiting (b : DB) : system :=
  System (mkDB (ddal b) true true 1) (<[1%nat := Active (demo_committing b) (ddal b) (Some [])]> (s_txs (demo_system b))).

Lemma demo_waiting_reachable b : idle b -> reachable (demo_waiting b).
Proof.
  intros Hi. apply (reach_step (demo_system b)); [by apply demo_system_reachable|].
  apply (step_wait (demo_system b) 1 (demo_writer b) 5 [] [] (world_of (demo_system b) (demo_writer b)) (demo_committing b)).
  - apply demo_writer_active.
  - done.
  - destruct (keep_run_call 5 (CallCreate [97]) (demo_writing b)) as [_ E]. exact E.
  - done.
  - done.
Qed.

Lemma demo_idle : idle demo_db.
Proof. vm_compute. by split. Qed.

Lemma one_writer_many_readers_witness :
  let s := demo_waiting demo_db in
  (writeLock (s_db s) = true <-> exists t a, s_txs s !! t = Some a /\ is_writer a) /\
  (forall t a t' a', s_txs s !! t = Some a -> is_writer a -> s_txs s !! t' = Some a' -> is_writer a' -> t = t') /\
  (commitWriter (s_db s) = true <-> exists t a, s_txs s !! t = Some a /\ waits a) /\
  (forall t a, s_txs s !! t = Some a -> waits a -> is_writer a) /\
  commitReaders (s_db s) = size (readers s).
Proof. apply (one_writer_many_readers (demo_waiting demo_db)), demo_waiting_reachable, demo_idle. Defined.

Lemma snapshot_isolation_witness :
  ddal (s_db (demo_system demo_db)) = a_begun (demo_writer demo_db).
Proof.
  apply (snapshot_isolation (demo_system demo_db) 1 (demo_writer demo_db)).
  - apply demo_system_reachable, demo_idle.
  - apply demo_writer_active.
Defined.

Lemma begin_waits_only_for_a_writer_witness :
  let s := demo_waiting demo_db in
  ((exists w b, ReadTx (s_db s) = (Ok w, b)) <-> ~ exists t a, s_txs s !! t = Some a /\ waits a) /\
  ((exists w b, WriteTx (s_db s) = (Ok w, b)) <-> ~ exists t a, s_txs s !! t = Some a /\ is_writer a).
Proof. apply (begin_waits_only_for_a_writer (demo_waiting demo_db)), demo_waiting_reachable, demo_idle. Defined.
