(* ===== verification/Liveness.v ===== *)
(** * Every transaction can end

    A commit that has the commit lock runs to an outcome, so a system of
    transactions is never stuck: from every reachable state there are steps that
    end all transactions, whatever waits for whatever. *)

From S2P Require Import Prelude Freelist Meta Node Float32 Dal Wal GoSlice World Tree Collection Tx Db Isolation Concurrent.

Open Scope Z_scope.

(** ** Code without locks and without recursion over pages *)

(** The outcome is a value, an error or a panic. *)
Definition ends {A} (o : out A) : Prop := o <> Blocked /\ o <> OutOfFuel.
Definition settles {S A} (m : M S A) : Prop := forall s, ends (fst (m s)).

Create HintDb settle.

Lemma ends_ok {A} (a : A) : ends (Ok a).
Proof. done. Qed.
Lemma ends_ret {A} (a : A) : ends (mret a).
Proof. done. Qed.
Lemma ends_err {A} e : ends (Err (A := A) e).
Proof. done. Qed.
Lemma ends_panic {A} : ends (Panic (A := A)).
Proof. done. Qed.
Lemma ends_option {A} (o : option A) : ends (of_option o).
Proof. by destruct o. Qed.
Lemma ends_bind {A B} (o : out A) (f : A -> out B) : ends o -> (forall a, ends (f a)) -> ends (o ≫= f).
Proof. intros [? ?] Hf. destruct o; [apply Hf|done..]. Qed.

Lemma settles_bind {S A B} (m : M S A) (f : A -> M S B) : settles m -> (forall a, settles (f a)) -> settles (m ≫= f).
Proof.
  intros Hm Hf s. specialize (Hm s). unfold mbind, M_bind. destruct Hm as [Hm1 Hm2].
  by destruct (m s) as [[a| | | |] s']; [apply Hf|..].
Qed.
Lemma settles_lift {S A} (o : out A) : ends o -> settles (S := S) (liftO o).
Proof. by intros H s. Qed.
Lemma settles_zoom {S T A} (get : S -> T) (put : T -> S -> S) (m : M T A) : settles m -> settles (zoom get put m).
Proof. intros Hm s. unfold zoom. specialize (Hm (get s)). by destruct (m (get s)). Qed.
Lemma settles_mapM {S A} (f : A -> M S unit) l : (forall a, settles (f a)) -> settles (mapM_ f l).
Proof. intros Hf. induction l as [|a l IH]; [done|]. by apply settles_bind. Qed.

#[export] Hint Resolve ends_ok ends_ret ends_err ends_panic ends_option : settle.

(** Cases of a definition, down to its leaves. *)
Ltac ends_tac :=
  repeat first
    [ progress eauto with settle
    | apply ends_bind; [|intros ?]
    | case_decide
    | progress case_match ].

(** ** The codecs *)

Lemma ends_put_le n v pos buf : ends (put_le n v pos buf).
Proof. unfold put_le. ends_tac. Qed.
Lemma ends_set_at pos v buf : ends (set_at pos v buf).
Proof. unfold set_at. ends_tac. Qed.
Lemma ends_copy_at pos v buf : ends (copy_at pos v buf).
Proof. unfold copy_at. ends_tac. Qed.
#[export] Hint Resolve ends_put_le ends_set_at ends_copy_at : settle.

Lemma ends_put_cell it l r buf : ends (put_cell it l r buf).
Proof. unfold put_cell. ends_tac. Qed.
#[export] Hint Resolve ends_put_cell : settle.

Lemma ends_put_items leaf kids i its l r buf : ends (put_items leaf kids i its l r buf).
Proof. revert i l r buf. induction its as [|it its IH]; intros i l r buf; cbn [put_items]; ends_tac. Qed.
#[export] Hint Resolve ends_put_items : settle.

Lemma ends_node_serialize n buf : ends (Node.serialize n buf).
Proof. unfold Node.serialize. ends_tac. Qed.

Lemma ends_validate_items its : ends (validate_items its).
Proof. induction its as [|it its IH]; cbn [validate_items]; ends_tac. Qed.
#[export] Hint Resolve ends_validate_items : settle.

Lemma ends_validate n ps : ends (Node.validate n ps).
Proof. unfold Node.validate. ends_tac. Qed.
#[export] Hint Resolve ends_node_serialize ends_validate : settle.

Lemma ends_nodePage d n : ends (nodePage d n).
Proof. unfold nodePage. ends_tac. Qed.

Lemma ends_put_pages pages pos buf : ends (put_pages pages pos buf).
Proof. revert pos buf. induction pages as [|p pages IH]; intros pos buf; cbn [put_pages]; ends_tac. Qed.
#[export] Hint Resolve ends_put_pages : settle.

Lemma ends_freelist_serialize fr buf : ends (Freelist.serialize fr buf).
Proof. unfold Freelist.serialize. ends_tac. Qed.

Lemma ends_meta_serialize m buf : ends (Meta.serialize m buf).
Proof. unfold Meta.serialize. ends_tac. Qed.

Lemma ends_wal_records ps pages : ends (wal_records ps pages).
Proof. induction pages as [|p pages IH]; cbn [wal_records]; ends_tac. Qed.
#[export] Hint Resolve ends_nodePage ends_freelist_serialize ends_meta_serialize ends_wal_records : settle.

(** ** The log and the commit *)

Lemma settles_run_op op : settles (run_op op).
Proof.
  intros d. destruct op as [|bs| |p| |]; cbn [run_op]; try done.
  - unfold writePage. rewrite bind_getS. unfold WriteAt. repeat case_match; done.
  - unfold Sync. by destruct (isOpen d).
Qed.

Lemma settles_apply pages : settles (S := dal) (applyPagesWithWAL pages).
Proof.
  unfold applyPagesWithWAL, writeWAL, writePages, removeIfExists. cbn [do_op dal_device].
  repeat first [apply settles_run_op | apply settles_mapM; intros ? | apply settles_bind; [|intros ?]
    | apply settles_lift; eauto with settle | done].
Qed.

Section commit.
Context {RT : GoRuntime}.

Lemma settles_dirty_pages order : settles (dirty_pages order).
Proof.
  induction order as [|pn order IH]; [done|]. cbn [dirty_pages]. apply settles_bind; [done|]. intros tx.
  destruct (dirtyNodes tx ≫= _) as [p|]; [|done].
  repeat first [apply IH | apply settles_lift, ends_nodePage | apply settles_bind; [|intros ?] | done].
  intros w. apply ends_option.
Qed.

Lemma settles_commitPages order : settles (commitPages order).
Proof.
  unfold commitPages. apply settles_bind; [done|]. intros tx. destruct (tx_freelist tx); [|done].
  repeat first [apply settles_dirty_pages | apply settles_lift; eauto with settle | apply settles_bind; [|intros ?] | done].
Qed.

Lemma settles_commit_apply order : settles (commit_apply order).
Proof.
  unfold commit_apply. apply settles_bind; [apply settles_commitPages|]. intros [[pages fr] m].
  repeat first [apply settles_zoom, settles_apply | apply settles_bind; [|intros ?] | done].
Qed.

Lemma settles_defer (c : M world unit) {A} (m : M world A) : settles m -> settles (defer c m).
Proof.
  intros Hm w. unfold defer. destruct (Hm w) as [H1 H2]. destruct (m w) as [[a|e| | |] w']; try done;
    by destruct (c w') as [[] ?].
Qed.

Lemma settles_commit_woken dirty : settles (commit_woken dirty).
Proof. apply settles_defer, settles_defer, settles_commit_apply. Qed.
End commit.

(** ** Steps that end a transaction *)

Section system.
Context {RT : GoRuntime}.

Definition ends_tx (t : nat) (s s' : system) : Prop := step s s' /\ is_Some (s_txs s !! t) /\ s_txs s' = delete t (s_txs s).

Lemma rollback_ends s t a : locks_ok s -> s_txs s !! t = Some a -> a_waiting a = None -> exists s', ends_tx t s s'.
Proof.
  intros L Ht Hwt. destruct (writer_or_reader a) as [Ha|Ha].
  - destruct (Rollback_write_gen (world_of s a)) as (w & E & _); [done|apply L; by exists t, a|].
    eexists. split; [by eapply step_rollback|]. split; [by eexists|done].
  - destruct (reader_count s t a L Ht Ha) as [n Hn].
    destruct (reader_end_gen (world_of s a) n 0 [] [] Ha Hn) as [E _].
    eexists. split; [by eapply step_rollback|]. split; [by eexists|done].
Qed.

Lemma woken_ends s t a dirty :
  s_txs s !! t = Some a -> a_waiting a = Some dirty -> commitReaders (s_db s) = 0%nat -> exists s', ends_tx t s s'.
Proof.
  intros Ht Hwt Hr. destruct (commit_woken dirty (world_of s a)) as [o w] eqn:E.
  pose proof (settles_commit_woken dirty (world_of s a)) as [H1 H2]. rewrite E in H1, H2.
  eexists. split; [by eapply step_woken|]. split; [by eexists|done].
Qed.

Lemma readers_dom s t a : s_txs s !! t = Some a -> (t ∈ dom (readers s) <-> is_reader a).
Proof.
  intros Ht. unfold readers. rewrite elem_of_dom. split.
  - intros [x [Hx Hr]%map_lookup_filter_Some]. by simplify_eq.
  - intros Ha. exists a. by apply map_lookup_filter_Some.
Qed.

Lemma no_readers s : locks_ok s -> (forall t a, s_txs s !! t = Some a -> ~ is_reader a) -> commitReaders (s_db s) = 0%nat.
Proof.
  intros L H. rewrite (lk_readers _ L). apply map_size_empty_iff, map_empty. intros t. unfold readers.
  apply map_lookup_filter_None. right. intros a Ht Ha. by apply (H t a).
Qed.

Lemma some_tx_ends s : locks_ok s -> s_txs s <> ∅ -> exists t s', ends_tx t s s'.
Proof.
  intros L Hne. apply map_choose in Hne as (t & a & Ht). destruct (a_waiting a) as [dirty|] eqn:Hwt.
  2:{ exists t. by eapply rollback_ends. }
  destruct (decide (Forall (fun x => is_Some (a_waiting (x.2))) (map_to_list (s_txs s)))) as [Hall|Hsome].
  - exists t. eapply woken_ends; [done..|]. apply no_readers; [done|]. intros u x Hu Hx.
    rewrite Forall_forall in Hall. apply (not_both x); [|done]. apply (lk_waits _ L u); [done|].
    by apply (Hall (u, x)), elem_of_map_to_list.
  - apply not_Forall_Exists in Hsome; [|apply _]. apply Exists_exists in Hsome as ([u x] & Hu & Hx).
    apply elem_of_map_to_list in Hu. exists u. eapply rollback_ends; [done..|]. by apply eq_None_not_Some.
Qed.

(** Active transactions only read, but for the one that ends. *)
Lemma domain_update (txs : gmap nat active) b t a a' :
  txs !! t = Some a -> write (wtx (a_world a')) = write (wtx (a_world a)) ->
  dom (readers (System b (<[t := a']> txs))) ⊆ dom (readers (System b txs)).
Proof.
  intros Ht Hw u [x [Hx Hr]%map_lookup_filter_Some]%elem_of_dom. cbn [s_txs] in Hx.
  apply lookup_insert_Some in Hx as [[<- <-]|[? Hx]].
  - apply (readers_dom (System b txs) t a); [done|]. unfold is_reader in *. simpl in *. congruence.
  - by apply (readers_dom (System b txs) u x).
Qed.

Lemma domain_delete (txs : gmap nat active) b b' t : dom (readers (System b (delete t txs))) ⊆ dom (readers (System b' txs)).
Proof.
  intros u [x [Hx Hr]%map_lookup_filter_Some]%elem_of_dom. cbn [s_txs] in Hx. apply lookup_delete_Some in Hx as [_ Hx].
  by apply (readers_dom (System b' txs) u x).
Qed.
End system.

(** ** Properties *)

(** C39: a commit that waits for readers gets its turn.  While it waits no step of
    the system lets a reader in: after any step it has ended, or it waits still
    and the active readers are among those from before.  Every active reader can
    end, and when none is left the commit can run to its end. *)
Theorem waiting_commit_is_served {RT : GoRuntime} s t a :
  reachable s -> s_txs s !! t = Some a -> waits a ->
  (forall s', step s s' -> s_txs s' = delete t (s_txs s) \/ (s_txs s' !! t = Some a /\ dom (readers s') ⊆ dom (readers s))) /\
  (forall u, u ∈ dom (readers s) -> exists s', ends_tx u s s') /\
  (readers s = ∅ -> exists s', ends_tx t s s').
Proof.
  intros L%locks_reachable Ht Hwt. assert (is_writer a) as Ha by (by eapply (lk_waits _ L)).
  split; [|split].
  - assert (forall u x, s_txs s !! u = Some x -> a_waiting x = None -> u <> t) as Hne.
    { intros u x Hu Hx ->. simplify_eq. destruct Hwt. congruence. }
    intros s' St. destruct St as [s u w b Hu E|s u w b Hu E|s u x fuel c o w Hu Hx E|s u x o w Hu Hx E
      |s u x fuel colls dirty o w Hu Hx E _ _|s u x fuel colls dirty w1 w Hu Hx Hw _ _|s u x dirty o w Hu Hx _ E _ _].
    + apply ReadTx_ok in E as (Hc & _). assert (commitWriter (s_db s) = true) by (apply L; by exists t, a). congruence.
    + apply WriteTx_ok in E as (Hc & _). assert (writeLock (s_db s) = true) by (apply L; by exists t, a). congruence.
    + right. cbn [s_txs]. rewrite lookup_insert_ne by (by eapply Hne). split; [done|].
      pose proof (keep_run_call fuel c (world_of s x)) as [_ Hk]. rewrite E in Hk. cbn [snd world_of wtx with_wdb] in Hk.
      exact (domain_update (s_txs s) (wdb w) u x (Active w (a_begun x) None) Hu Hk).
    + right. cbn [s_txs]. rewrite lookup_delete_ne by (by eapply Hne). split; [done|]. apply (domain_delete (s_txs s) _ (s_db s)).
    + right. cbn [s_txs]. rewrite lookup_delete_ne by (by eapply Hne). split; [done|]. apply (domain_delete (s_txs s) _ (s_db s)).
    + destruct (Hne u x Hu Hx). by eapply (lk_unique _ L).
    + left. cbn [s_txs]. f_equal. eapply (lk_unique _ L); [done| |done|done]. eapply (lk_waits _ L); [done|by eexists].
  - intros u [x [Hx Hr]%map_lookup_filter_Some]%elem_of_dom. eapply rollback_ends; [done..|].
    destruct (a_waiting x) eqn:E; [|done]. exfalso. apply (not_both x); [|done]. eapply (lk_waits _ L); [done|by eexists].
  - intros H0. destruct Hwt as [dirty Hd]. eapply woken_ends; [done..|]. by rewrite (lk_readers _ L), H0.
Qed.

Lemma waiting_commit_is_served_witness :
  let s := demo_waiting demo_db in
  let a := Active (demo_committing demo_db) (ddal demo_db) (Some []) in
  (forall s', step s s' -> s_txs s' = delete 1%nat (s_txs s) \/ (s_txs s' !! 1%nat = Some a /\ dom (readers s') ⊆ dom (readers s))) /\
  (forall u, u ∈ dom (readers s) -> exists s', ends_tx u s s') /\
  (readers s = ∅ -> exists s', ends_tx 1 s s').
Proof.
  apply (waiting_commit_is_served (demo_waiting demo_db) 1 (Active (demo_committing demo_db) (ddal demo_db) (Some []))).
  - apply demo_waiting_reachable, demo_idle.
  - apply lookup_insert_eq.
  - by eexists.
Defined.

(** C40: no deadlock.  From every state the interleaved transactions can reach
    there are steps, each of them the end of a transaction, after which none is
    active and all locks are free. *)
Theorem transactions_can_end {RT : GoRuntime} s :
  reachable s ->
  exists s', rtc (fun s1 s2 => exists t, ends_tx t s1 s2) s s' /\ s_txs s' = ∅ /\ idle (s_db s').
Proof.
  intros Hs. remember (size (s_txs s)) as n eqn:En. revert s Hs En. induction n as [|n IH]; intros s Hs En.
  - pose proof (locks_reachable s Hs) as L. symmetry in En. apply map_size_empty_inv in En. exists s. split; [done|].
    split; [done|]. assert (forall P : active -> Prop, ~ exists t a, s_txs s !! t = Some a /\ P a) as Hno.
    { intros P (t & a & Ht & _). by rewrite En in Ht. }
    split; [|split].
    + apply not_true_iff_false. rewrite (lk_writer _ L). apply Hno.
    + apply not_true_iff_false. rewrite (lk_commit _ L). apply Hno.
    + apply no_readers; [done|]. intros t a Ht. by rewrite En in Ht.
  - destruct (some_tx_ends s (locks_reachable s Hs)) as (t & s1 & St); [intros E; by rewrite E in En|].
    destruct St as (St & [a Ht] & Es). destruct (IH s1) as (s' & Hr & H0).
    + by apply reach_step with s.
    + rewrite Es, (map_size_delete_Some t (s_txs s)) by (by eexists). lia.
    + exists s'. split; [|done]. apply rtc_l with s1; [|done]. exists t. split; [done|]. split; [by eexists|done].
Qed.

Lemma transactions_can_end_witness :
  exists s', rtc (fun s1 s2 => exists t, ends_tx t s1 s2) (demo_waiting demo_db) s' /\ s_txs s' = ∅ /\ idle (s_db s').
Proof. apply (transactions_can_end (demo_waiting demo_db)), demo_waiting_reachable, demo_idle. Defined.
