(* ===== verification/Findings.v ===== *)
(** * Executions in which the code does not do what it means to

    Each theorem evaluates the model on a concrete run: pages of 128 bytes (the
    sizes scale with the page), one-byte keys.  They mark the boundary of the
    positive theorems: [Put_correct] asks that dirty nodes own their slices,
    because of [split_then_put_loses_a_key]; node round trips are stated with
    [layout_size], because of [valid_inner_node_is_corrupted]. *)

From S2P Require Import Prelude Freelist Meta Node Float32 Dal Wal Crash GoSlice World Tree Heap Contents Collection Tx Db Isolation.

Open Scope Z_scope.

Definition value_of_size (n : nat) : bytes := replicate n 0.

(** The calls one after the other in a new write transaction of [b]. *)
Definition in_tx (b : DB) (calls : list tx_call) : world :=
  fold_left (fun w c => after c w) calls (begin (mkDB (ddal b) true false 0) true).

(** The same, committed. *)
Definition committed (b : DB) (calls : list tx_call) : out unit * DB :=
  let '(o, w) := Commit 9 [[97]] (Z.of_nat <$> seq 1 60) (in_tx b calls) in (o, wdb w).

Definition reopened_db (b : DB) : out DB := fst (Open 4096 (Some demo_options) (Close b)).

(** The database with the collection [a] (created in the first transaction,
    reached through pointer 1 later), and keys put one transaction each. *)
Definition with_collection : DB := snd (committed demo_db [CallCreate [97]]).
Definition put_each (b : DB) (ks : list Z) (n : nat) : DB :=
  fold_left (fun b k => snd (committed b [CallGet [97]; CallPut 1 [k] (value_of_size n)])) ks b.

(** What a new read transaction finds under a key of the collection. *)
Definition lookup_key (b : DB) (k : Z) : out (option Item) :=
  fst (Find 9 1 [k] (after (CallGet [97]) (begin b false))).

(** A split leaves the left half with capacity over the right half: two puts
    into the left half overwrite the right half's first item. *)
Theorem split_then_put_loses_a_key :
  let six := [CallCreate [97]; CallPut 0 [10] (value_of_size 10); CallPut 0 [20] (value_of_size 10);
    CallPut 0 [30] (value_of_size 10); CallPut 0 [40] (value_of_size 10); CallPut 0 [50] (value_of_size 10);
    CallPut 0 [60] (value_of_size 10)] in
  let two := [CallPut 0 [11] (value_of_size 10); CallPut 0 [12] (value_of_size 10)] in
  fst (Find 5 0 [60] (in_tx demo_db six)) = Ok (Some (newItem [60] (value_of_size 10))) /\
  fst (Find 5 0 [60] (in_tx demo_db (six ++ two))) = Ok None.
Proof. vm_compute. by split. Qed.

(** When a merge empties the root, the new root is the second node of the
    path; with the unbalanced node on the right that is the node the merge has
    emptied of its page, and the other keys are gone. *)
Theorem remove_with_merge_loses_keys :
  let b := put_each with_collection [10; 20; 30; 40; 50; 60] 10 in
  let r := committed b [CallGet [97]; CallRemove 1 [60]] in
  fst r = Ok tt /\ lookup_key b 10 = Ok (Some (newItem [10] (value_of_size 10))) /\ lookup_key (snd r) 10 = Ok None.
Proof. vm_compute. by repeat split. Qed.

(** Removing a key of the root of a tree of three levels: the descent uses the
    number of children of the root at every level, takes an item that is not
    the predecessor, and keys between the two are no longer found. *)
Theorem remove_internal_takes_wrong_predecessor :
  let b := put_each with_collection (Z.of_nat <$> seq 1 32) 10 in
  let r := committed b [CallGet [97]; CallRemove 1 [25]] in
  fst r = Ok tt /\ lookup_key b 20 = Ok (Some (newItem [20] (value_of_size 10))) /\ lookup_key (snd r) 20 = Ok None.
Proof. vm_compute. by repeat split. Qed.

(** A new database writes its freelist before it allocates the root page:
    reopened, the first page it hands out is the root page, and the first
    collection created shares it. *)
Theorem reopened_database_hands_out_its_root :
  exists b, reopened_db demo_db = Ok b /\ root (dmeta (ddal b)) = 2 /\
    fst (getNextPage (dfreelist (ddal b))) = 2 /\
    exists c, collsH (in_tx b [CallCreate [97]]) !! 0%nat = Some c /\ c_root c = tx_root (wtx (in_tx b [CallCreate [97]])).
Proof. eexists. split; [vm_compute; reflexivity|]. split; [done|]. split; [done|]. eexists. split; vm_compute; done. Qed.

(** The page of the node reads back as other items. *)
Definition reads_back_differently (n : node) (ps : nat) : bool :=
  match Node.serialize n (replicate ps 0) with
  | Ok buf =>
      match Node.deserialize NewEmptyNode buf with
      | Ok n' => negb (bool_decide (items n' = items n))
      | _ => false
      end
  | _ => false
  end.

Lemma reads_back_differently_spec n ps :
  reads_back_differently n ps = true ->
  exists buf n', Node.serialize n (replicate ps 0) = Ok buf /\ Node.deserialize NewEmptyNode buf = Ok n' /\
    items n' <> items n.
Proof.
  unfold reads_back_differently. destruct (Node.serialize n _) as [buf| | | |]; try done.
  destruct (Node.deserialize _ buf) as [n'| | | |] eqn:E; try done. intros H.
  exists buf, n'. split; [done|]. split; [done|]. by apply negb_true_iff, bool_decide_eq_false in H.
Qed.

Definition wide_node : node :=
  Node 1 ((fun i => newItem (value_of_size 7 ++ [Z.of_nat i]) (value_of_size 8)) <$> seq 0 161) (Z.of_nat <$> seq 1 162).

(** [nodeSize] counts 4 bytes an item less than an inner node's layout takes:
    an inner node that [validate] accepts and that is not overpopulated does
    not survive its page. *)
Theorem valid_inner_node_is_corrupted :
  Node.validate wide_node 4096 = Ok tt /\
  isOverPopulated (empty_dal (withDefaults 4096 DefaultOptions) (Disk None None)) wide_node = false /\
  exists buf n', Node.serialize wide_node (replicate 4096 0) = Ok buf /\
    Node.deserialize NewEmptyNode buf = Ok n' /\ items n' <> items wide_node.
Proof.
  split; [by vm_compute|]. split; [by vm_compute|]. apply (reads_back_differently_spec wide_node 4096). by vm_compute.
Qed.

(** A merge can make a node larger than a page; it is not split again, and the
    commit fails. *)
Theorem merge_can_exceed_the_page :
  let b := put_each (put_each with_collection [10; 20; 30; 40; 50; 60] 10) [70] 80 in
  fst (committed b [CallGet [97]; CallRemove 1 [40]]) = Ok tt /\
  fst (committed b [CallGet [97]; CallRemove 1 [40]; CallRemove 1 [30]]) = Err (ErrItemTooLarge (NodeTooLarge 176 128)).
Proof. vm_compute. by split. Qed.

(** Valid options under which an overpopulated node has no split index: [Put]
    panics. *)
Theorem close_thresholds_panic :
  let o := mkOptions 128 (f32_const 90 100) (f32_const 95 100) in
  Db.validate o = Ok tt /\
  exists b, fst (Open 4096 (Some o) (Disk None None)) = Ok b /\
    fst (run_call 5 (CallPut 0 [60] (value_of_size 10))
      (in_tx b (CallCreate [97] :: ((fun k => CallPut 0 [k] (value_of_size 10)) <$> [10; 20; 30; 40; 50])))) = Panic.
Proof. split; [by vm_compute|]. eexists. split; [vm_compute; reflexivity|]. by vm_compute. Qed.

Lemma oversized_commit_writes_nothing_witness :
  let b := put_each (put_each with_collection [10; 20; 30; 40; 50; 60] 10) [70] 80 in
  let w := in_tx b [CallGet [97]; CallRemove 1 [40]; CallRemove 1 [30]] in
  let '(o, w') := Commit 9 [[97]] (Z.of_nat <$> seq 1 60) w in
  o = Err (ErrItemTooLarge (NodeTooLarge 176 128)) /\ ddal (wdb w') = ddal (wdb w).
Proof.
  intros b w. destruct (Commit 9 [[97]] (Z.of_nat <$> seq 1 60) w) as [o w'] eqn:E.
  assert (o = Err (ErrItemTooLarge (NodeTooLarge 176 128))) as Ho.
  { change o with (fst (o, w')). rewrite <- E. subst w b. vm_compute. reflexivity. }
  split; [exact Ho|]. rewrite Ho in E. exact (oversized_commit_writes_nothing w 9 _ _ _ w' E).
Defined.
