(* ===== verification/GoText.v ===== *)
(** * Go's strings and numbers as text

    What tools/benchreport uses of the packages strings, strconv, unicode and
    of [range] over a string.  A string is its list of bytes; [runes] decodes
    it as UTF-8 the way [range] does (an invalid byte counts as U+FFFD of width
    one).  The properties of runes from 128 on are the class [Unicode]. *)

From Stdlib Require Import Ascii String.
From stdpp Require Import list.
From S2P Require Import Prelude.

Open Scope Z_scope.

(** A string literal of the source, as bytes: [\n] stands for a newline. *)
Fixpoint unescape (s : bytes) : bytes :=
  match s with
  | 92 :: 110 :: s => 10 :: unescape s
  | c :: s => c :: unescape s
  | [] => []
  end.
Definition lit (s : String.string) : bytes := unescape ((fun a => Z.of_N (N_of_ascii a)) <$> list_ascii_of_string s).

(** [fmt.Sprintf] with the verb [%s] only: the arguments in order. *)
Fixpoint sprintf (format : bytes) (args : list bytes) : bytes :=
  match format with
  | 37 :: 115 :: format =>
      match args with a :: args => a ++ sprintf format args | [] => lit "%!s(MISSING)" ++ sprintf format [] end
  | c :: format => c :: sprintf format args
  | [] => []
  end.
Definition Sprintf (format : String.string) (args : list bytes) : bytes := sprintf (lit format) args.

(** ** Runes *)

Definition RuneError : Z := 65533.

Definition between (lo hi c : Z) : bool := (lo <=? c) && (c <=? hi).
Definition cont : Z -> bool := between 128 191.

(** The bounds of the second byte of a sequence that starts with [c]. *)
Definition second (c : Z) : Z -> bool :=
  if c =? 224 then between 160 191 else if c =? 237 then between 128 159
  else if c =? 240 then between 144 191 else if c =? 244 then between 128 143 else cont.

(** The first rune of [c :: s] and how many bytes of [s] belong to it. *)
Definition decode (c : Z) (s : bytes) : Z * nat :=
  if between 194 223 c then
    match s with
    | c1 :: _ => if cont c1 then ((c - 192) * 64 + (c1 - 128), 1%nat) else (RuneError, 0%nat)
    | _ => (RuneError, 0%nat)
    end
  else if between 224 239 c then
    match s with
    | c1 :: c2 :: _ =>
        if second c c1 && cont c2 then ((c - 224) * 4096 + (c1 - 128) * 64 + (c2 - 128), 2%nat) else (RuneError, 0%nat)
    | _ => (RuneError, 0%nat)
    end
  else if between 240 244 c then
    match s with
    | c1 :: c2 :: c3 :: _ =>
        if second c c1 && cont c2 && cont c3 then
          ((c - 240) * 262144 + (c1 - 128) * 4096 + (c2 - 128) * 64 + (c3 - 128), 3%nat)
        else (RuneError, 0%nat)
    | _ => (RuneError, 0%nat)
    end
  else (if c <? 128 then c else RuneError, 0%nat).

(** The runes of a string, each with the bytes it was decoded from. *)
Fixpoint chunks_fuel (n : nat) (s : bytes) : list (Z * bytes) :=
  match n, s with
  | S n, c :: s => let '(r, w) := decode c s in (r, c :: take w s) :: chunks_fuel n (drop w s)
  | _, _ => []
  end.
Definition chunks (s : bytes) : list (Z * bytes) := chunks_fuel (length s) s.
Definition runes (s : bytes) : list Z := (chunks s).*1.

(** [utf8.EncodeRune]: surrogates and values out of range are written as U+FFFD. *)
Definition encode (r : Z) : bytes :=
  let r := if (r <? 0) || (1114111 <? r) || between 55296 57343 r then RuneError else r in
  if r <? 128 then [r]
  else if r <? 2048 then [192 + r / 64; 128 + r mod 64]
  else if r <? 65536 then [224 + r / 4096; 128 + r / 64 mod 64; 128 + r mod 64]
  else [240 + r / 262144; 128 + r / 4096 mod 64; 128 + r / 64 mod 64; 128 + r mod 64].

(** ** unicode *)

Definition is_digit : Z -> bool := between 48 57.

(** The tables of the package unicode for runes from 128 on. *)
Class Unicode := { letter_high : Z -> bool; digit_high : Z -> bool; lower_high : Z -> Z }.

Definition IsLetter {U : Unicode} (r : Z) : bool :=
  if r <? 128 then between 65 90 r || between 97 122 r else letter_high r.
Definition IsDigit {U : Unicode} (r : Z) : bool := if r <? 128 then is_digit r else digit_high r.
Definition unicode_ToLower {U : Unicode} (r : Z) : Z :=
  if r <? 128 then (if between 65 90 r then r + 32 else r) else lower_high r.
Definition IsSpace (r : Z) : bool :=
  between 9 13 r || bool_decide (r ∈ [32; 133; 160; 5760; 8232; 8233; 8239; 8287; 12288]) || between 8192 8202 r.

(** ** strings *)

Definition ToLower {U : Unicode} (s : bytes) : bytes := r ← runes s; encode (unicode_ToLower r).

(** [strings.Split] and [strings.Cut] for a separator of one byte. *)
Fixpoint Split (s : bytes) (sep : Z) : list bytes :=
  match s with
  | [] => [[]]
  | c :: s =>
      if c =? sep then [] :: Split s sep
      else match Split s sep with l :: ls => (c :: l) :: ls | [] => [[c]] end
  end.

Fixpoint Cut (s : bytes) (sep : Z) : option (bytes * bytes) :=
  match s with
  | [] => None
  | c :: s => if c =? sep then Some ([], s) else '(a, b) ← Cut s sep; Some (c :: a, b)
  end.

(** [strings.LastIndex] for a separator of one byte: None for -1. *)
Fixpoint LastIndex (s : bytes) (sep : Z) : option nat :=
  match s with
  | [] => None
  | c :: s => match LastIndex s sep with
              | Some i => Some (S i)
              | None => if c =? sep then Some 0%nat else None
              end
  end.

Definition HasPrefix (s p : bytes) : bool := bool_decide (take (length p) s = p).

(** [strings.Join]. *)
Fixpoint Join (l : list bytes) (sep : bytes) : bytes :=
  match l with
  | [] => []
  | [s] => s
  | s :: l => s ++ sep ++ Join l sep
  end.

Fixpoint fields (cs : list (Z * bytes)) (field : bytes) : list bytes :=
  let close rest := match field with [] => rest | _ => field :: rest end in
  match cs with
  | [] => close []
  | (r, b) :: cs => if IsSpace r then close (fields cs []) else fields cs (field ++ b)
  end.
Definition Fields (s : bytes) : list bytes := fields (chunks s) [].

Fixpoint drop_while {A} (f : A -> bool) (l : list A) : list A :=
  match l with x :: l' => if f x then drop_while f l' else l | [] => [] end.
Definition drop_last_while {A} (f : A -> bool) (l : list A) : list A := reverse (drop_while f (reverse l)).

Definition TrimSpace (s : bytes) : bytes :=
  let space (x : Z * bytes) := IsSpace x.1 in
  concat (drop_last_while space (drop_while space (chunks s))).*2.

(** [strings.TrimRight] and [strings.Trim] for a cutset of one byte. *)
Definition TrimRight (s : bytes) (c : Z) : bytes := drop_last_while (Z.eqb c) s.
Definition Trim (s : bytes) (c : Z) : bytes := TrimRight (drop_while (Z.eqb c) s) c.

(** ** strconv, integers *)

(** The number a string of decimal digits denotes. *)
Definition digits_value (s : bytes) : Z := foldl (fun v c => 10 * v + (c - 48)) 0 s.

(** The sign of a number and what follows it. *)
Definition sign (s : bytes) : bool * bytes :=
  match s with 43 :: s' => (false, s') | 45 :: s' => (true, s') | _ => (false, s) end.

Definition signed (neg : bool) (v : Z) : Z := if neg then - v else v.

(** [strconv.Atoi] on a 64-bit machine: None for an error. *)
Definition Atoi (s : bytes) : option Z :=
  let '(neg, ds) := sign s in
  if negb (bool_decide (ds = [])) && forallb is_digit ds then
    let v := signed neg (digits_value ds) in
    if between (- 2 ^ 63) (2 ^ 63 - 1) v then Some v else None
  else None.

(** [strconv.Itoa], with one division for each digit. *)
Fixpoint utoa_fuel (n : nat) (v : Z) : bytes :=
  match n with
  | O => []
  | S n => if v <? 10 then [48 + v] else utoa_fuel n (v / 10) ++ [48 + v mod 10]
  end.
Definition utoa (v : Z) : bytes := utoa_fuel (S (Z.to_nat (Z.log2 v))) v.
Definition Itoa (v : Z) : bytes := if v <? 0 then 45 :: utoa (- v) else utoa v.

(** Two decimal digits. *)
Definition pad2 (v : Z) : bytes := [48 + v / 10; 48 + v mod 10].

(** ** Lemmas *)

(** Bytes of ASCII. *)
Definition ascii (c : Z) : Prop := 0 <= c < 128.
#[export] Instance ascii_dec c : Decision (ascii c).
Proof. unfold ascii. apply _. Defined.

Lemma between_spec lo hi c : between lo hi c = true <-> lo <= c <= hi.
Proof. unfold between. lia. Qed.

Lemma between_false lo hi c : c < lo \/ hi < c -> between lo hi c = false.
Proof. unfold between. lia. Qed.

Lemma decode_ascii c s : ascii c -> decode c s = (c, 0%nat).
Proof.
  intros H. unfold ascii in H. unfold decode. rewrite !between_false by lia. by destruct (Z.ltb_spec c 128); [|lia].
Qed.

Lemma chunks_fuel_indep n : forall m s, (length s <= n)%nat -> (length s <= m)%nat -> chunks_fuel n s = chunks_fuel m s.
Proof.
  induction n as [|n IH]; intros [|m] [|c s] ? ?; try done; simpl in *; try lia.
  destruct (decode c s) as [r w]. f_equal. apply IH; rewrite length_drop; lia.
Qed.

Lemma chunks_fuel_enough n s : (length s <= n)%nat -> chunks_fuel n s = chunks s.
Proof. intros H. by apply chunks_fuel_indep. Qed.

Lemma chunks_ascii c s : ascii c -> chunks (c :: s) = (c, [c]) :: chunks s.
Proof. intros H. unfold chunks at 1. simpl. by rewrite decode_ascii. Qed.

Lemma chunks_concat s : concat (chunks s).*2 = s.
Proof.
  unfold chunks. assert (forall n s, (length s <= n)%nat -> concat (chunks_fuel n s).*2 = s) as H; [|by apply H].
  clear s. induction n as [|n IH]; intros [|c s] H; try done; simpl in *; [lia|].
  destruct (decode c s) as [r w]. csimpl. rewrite IH by (rewrite length_drop; lia). by rewrite take_drop.
Qed.

Lemma runes_ascii s : Forall ascii s -> runes s = s.
Proof.
  unfold runes. induction 1 as [|c s Hc _ IH]; [done|]. rewrite chunks_ascii by done. csimpl. by rewrite IH.
Qed.

Lemma encode_ascii c : ascii c -> encode c = [c].
Proof.
  intros H. unfold ascii in H. unfold encode. rewrite (between_false 55296) by lia.
  assert ((c <? 0) || (1114111 <? c) || false = false) as -> by lia. by destruct (Z.ltb_spec c 128); [|lia].
Qed.

Lemma drop_while_none {A} (f : A -> bool) l : Forall (fun x => f x = false) l -> drop_while f l = l.
Proof. destruct 1 as [|x l Hx _]; [done|]. simpl. by rewrite Hx. Qed.
