(* ===== verification/GoSort.v ===== *)
(** * Go's package sort

    [sort.Slice] with the function [less] gives a permutation of the list in
    which no element is less than one before it, and promises nothing about
    elements of which neither is less.  The model sorts by merging;
    [sorted_unique] says when the choice of the algorithm does not matter. *)

From stdpp Require Export sorting.
From S2P Require Import Prelude.

(** [a] may stay before [b]. *)
Definition not_after {A} (less : A -> A -> bool) (a b : A) : Prop := less b a = false.
#[export] Instance not_after_dec {A} (less : A -> A -> bool) a b : Decision (not_after less a b).
Proof. unfold not_after. apply _. Defined.

Definition sort_by {A} (less : A -> A -> bool) (l : list A) : list A := merge_sort (not_after less) l.

(** What [sort.Slice] asks of [less]: a strict weak order. *)
Class WeakOrder {A} (less : A -> A -> bool) := {
  less_asym a b : less a b = true -> less b a = false;
  not_after_trans a b c : not_after less a b -> not_after less b c -> not_after less a c
}.

Section sort.
Context {A} (less : A -> A -> bool).

Lemma sort_by_perm l : sort_by less l ≡ₚ l.
Proof. apply merge_sort_Permutation. Qed.

Lemma sort_by_elem x l : x ∈ sort_by less l <-> x ∈ l.
Proof. by rewrite sort_by_perm. Qed.

Context `{!WeakOrder less}.

#[local] Instance not_after_total : Total (not_after less).
Proof. intros a b. unfold not_after. destruct (less b a) eqn:E; [right; by apply less_asym|by left]. Qed.
#[local] Instance not_after_transitive : Transitive (not_after less).
Proof. intros a b c. apply not_after_trans. Qed.

Lemma sort_by_sorted l : StronglySorted (not_after less) (sort_by less l).
Proof. apply StronglySorted_merge_sort; apply _. Qed.

(** When of two elements of the list one is less, every sorted permutation is
    the one of the model. *)
Lemma sorted_unique l l' :
  (forall a b, a ∈ l -> b ∈ l -> less a b = false -> less b a = false -> a = b) ->
  l' ≡ₚ l -> StronglySorted (not_after less) l' -> l' = sort_by less l.
Proof.
  intros Hd Hp Hs. apply (StronglySorted_unique_strong (not_after less)); [|done|apply sort_by_sorted|by rewrite sort_by_perm].
  intros a b Ha Hb H1 H2. apply Hd; [by rewrite <- Hp|by rewrite <- sort_by_elem|done|done].
Qed.
End sort.

(** [sort.Strings], and sorting by a field. *)
Definition bytes_less (a b : bytes) : bool := bool_decide (bytes_lt a b).

#[export] Instance by_bytes_weak {A} (f : A -> bytes) : WeakOrder (fun a b => bytes_less (f a) (f b)).
Proof.
  split; unfold not_after, bytes_less; intros a b.
  - rewrite bool_decide_eq_true, bool_decide_eq_false. intros H H'. by apply (irreflexivity bytes_lt (f a)); etrans.
  - intros c. rewrite !bool_decide_eq_false. intros H1 H2 H3.
    destruct (bytes_trichotomy (f a) (f b)) as [H|[H|H]]; [|congruence|done]. apply H2. by etrans.
Qed.
#[export] Instance bytes_less_weak : WeakOrder bytes_less := by_bytes_weak (fun a => a).

Lemma bytes_less_total a b : bytes_less a b = false -> bytes_less b a = false -> a = b.
Proof.
  unfold bytes_less. rewrite !bool_decide_eq_false. intros H1 H2.
  by destruct (bytes_trichotomy a b) as [?|[?|?]].
Qed.

Definition Strings (l : list bytes) : list bytes := sort_by bytes_less l.

(** A sorted list without duplicates is strictly sorted. *)
Lemma strictly_sorted {A} (f : A -> bytes) l :
  StronglySorted (not_after (fun a b => bytes_less (f a) (f b))) l -> NoDup (f <$> l) ->
  StronglySorted (fun a b => bytes_lt (f a) (f b)) l.
Proof.
  induction 1 as [|a l Hs IH Ha]; [constructor|]. rewrite fmap_cons, NoDup_cons. intros [Hn Hd]. constructor; [by apply IH|].
  rewrite Forall_forall in *. intros b Hb. specialize (Ha b Hb). unfold not_after, bytes_less in Ha.
  apply bool_decide_eq_false in Ha. destruct (bytes_trichotomy (f a) (f b)) as [?|[E|?]]; [done| |done].
  destruct Hn. rewrite E. by apply list_elem_of_fmap_2.
Qed.
