(* ===== verification/Float64.v ===== *)
(** * Go's [float64]

    IEEE-754 binary64 numbers as in [Float32], at precision 53 and exponent
    bound 1024, with what tools/benchreport uses of them: arithmetic,
    comparison, [sort.Float64s], [strconv.ParseFloat] and
    [strconv.FormatFloat(_, 'f', 2, 64)].  Both conversions are exact up to one
    rounding (to nearest, ties to even).  Of [ParseFloat] the decimal syntax is
    modelled; what it makes of other texts (hexadecimal, underscores, the names
    of the infinities and of NaN) is the class [Strconv]. *)

From Stdlib Require Import SpecFloat String.
From S2P Require Import Prelude GoText GoSort.

Open Scope Z_scope.

Abbreviation f64 := spec_float.

Definition f64_of_Z (z : Z) : f64 := binary_normalize 53 1024 z 0 false.
Definition f64_add (a b : f64) : f64 := SFadd 53 1024 a b.
Definition f64_sub (a b : f64) : f64 := SFsub 53 1024 a b.
Definition f64_mul (a b : f64) : f64 := SFmul 53 1024 a b.
Definition f64_div (a b : f64) : f64 := SFdiv 53 1024 a b.
Definition f64_lt (a b : f64) : bool := SFltb a b.
Definition f64_eq (a b : f64) : bool := SFeqb a b.
Definition f64_zero : f64 := S754_zero false.
Definition is_nan (a : f64) : bool := match a with S754_nan => true | _ => false end.

#[export] Instance f64_eq_dec : EqDecision f64.
Proof. solve_decision. Defined.

(** [sort.Float64s]: NaN before the other values. *)
Definition float_less (a b : f64) : bool := f64_lt a b || (is_nan a && negb (is_nan b)).
Definition Float64s (l : list f64) : list f64 := sort_by float_less l.

(** ** strconv.ParseFloat *)

(** The binary64 number nearest to [m * 10 ^ e]. *)
Definition f64_of_decimal (neg : bool) (m e : Z) : f64 :=
  match m with
  | Zpos p =>
      if 0 <=? e then binary_normalize 53 1024 (signed neg (m * 10 ^ e)) 0 neg
      else match 10 ^ (- e) with
           | Zpos q => f64_div (S754_finite neg p 0) (S754_finite false q 0)
           | _ => S754_nan (* does not occur: the power is positive *)
           end
  | _ => S754_zero neg
  end.

Fixpoint span {A} (f : A -> bool) (l : list A) : list A * list A :=
  match l with
  | x :: l' => if f x then let '(a, b) := span f l' in (x :: a, b) else ([], l)
  | [] => ([], [])
  end.

(** The exponent, which stops growing at 10000. *)
Definition exponent_value (s : bytes) : Z :=
  foldl (fun e c => if e <? 10000 then e * 10 + (c - 48) else e) 0 s.

(** The exponent part that ends a number: None when it is malformed. *)
Definition exponent (s : bytes) : option Z :=
  match s with
  | [] => Some 0
  | c :: s =>
      if (c =? 101) || (c =? 69) then
        let '(neg, ds) := sign s in
        if negb (bool_decide (ds = [])) && forallb is_digit ds then Some (signed neg (exponent_value ds)) else None
      else None
  end.

(** The digits after a point. *)
Definition fraction (s : bytes) : bytes * bytes :=
  match s with 46 :: s' => span is_digit s' | _ => ([], s) end.

(** Sign, mantissa and decimal exponent of a text in the decimal syntax. *)
Definition parse_decimal (s : bytes) : option (bool * Z * Z) :=
  let '(neg, s1) := sign s in
  let '(ip, s2) := span is_digit s1 in
  let '(fp, s3) := fraction s2 in
  if bool_decide (ip ++ fp = []) then None
  else e ← exponent s3; Some (neg, digits_value (ip ++ fp), e - Z.of_nat (length fp)).

Class Strconv := { ParseFloat_other : bytes -> option f64 }.

(** A number out of range is an error. *)
Definition in_range (x : f64) : option f64 :=
  match x with S754_infinity _ => None | _ => Some x end.

Definition ParseFloat {S : Strconv} (s : bytes) : option f64 :=
  match parse_decimal s with
  | Some (neg, m, e) => in_range (f64_of_decimal neg m e)
  | None => ParseFloat_other s
  end.

(** ** strconv.FormatFloat(_, 'f', 2, 64) *)

(** [n / d] rounded to an integer, ties to even. *)
Definition round_half_even (n d : Z) : Z :=
  let q := n / d in
  let r := 2 * (n mod d) in
  if (d <? r) || ((r =? d) && Z.odd q) then q + 1 else q.

(** The hundredths of [m * 2 ^ e]. *)
Definition hundredths (m : positive) (e : Z) : Z :=
  if 0 <=? e then 100 * Zpos m * 2 ^ e else round_half_even (100 * Zpos m) (2 ^ (- e)).

Definition minus_sign (neg : bool) : bytes := if neg then [45] else [].

Definition FormatFloat_f2 (x : f64) : bytes :=
  match x with
  | S754_nan => lit "NaN"
  | S754_infinity neg => (if neg then [45] else [43]) ++ lit "Inf"
  | S754_zero neg => minus_sign neg ++ lit "0.00"
  | S754_finite neg m e =>
      let h := hundredths m e in minus_sign neg ++ utoa (h / 100) ++ [46] ++ pad2 (h mod 100)
  end.

(** The verb [%+.2f]: the same with a sign in any case. *)
Definition format_plus_f2 (x : f64) : bytes :=
  let s := FormatFloat_f2 x in
  match s with
  | 45 :: _ | 43 :: _ => s
  | _ => 43 :: s
  end.

(** ** Examples *)

Example parse_integer : parse_decimal (lit "1234") = Some (false, 1234, 0).
Proof. reflexivity. Qed.
Example parse_fraction : parse_decimal (lit "-12.50e3") = Some (true, 1250, 1).
Proof. reflexivity. Qed.
Example tenth : f64_of_decimal false 1 (-1) = S754_finite false 7205759403792794 (-56).
Proof. vm_compute. reflexivity. Qed.
Example tenth_text : FormatFloat_f2 (f64_of_decimal false 1 (-1)) = lit "0.10".
Proof. vm_compute. reflexivity. Qed.
Example half_to_even : FormatFloat_f2 (f64_of_decimal false 2125 (-3)) = lit "2.12".
Proof. vm_compute. reflexivity. Qed.
Example percent : format_plus_f2 (f64_mul (f64_div (f64_of_Z 1) (f64_of_Z 3)) (f64_of_Z 100)) = lit "+33.33".
Proof. vm_compute. reflexivity. Qed.

(** ** The order of [sort.Float64s] *)

(** Its place in the order, compared lexicographically. *)
Definition rank (x : f64) : Z * Z * Z :=
  match x with
  | S754_nan => (0, 0, 0)
  | S754_infinity true => (1, 0, 0)
  | S754_finite true m e => (2, - e, - Zpos m)
  | S754_zero _ => (3, 0, 0)
  | S754_finite false m e => (4, e, Zpos m)
  | S754_infinity false => (5, 0, 0)
  end.

Definition rank_less (p q : Z * Z * Z) : bool :=
  let '(a1, a2, a3) := p in
  let '(b1, b2, b3) := q in
  (a1 <? b1) || ((a1 =? b1) && ((a2 <? b2) || ((a2 =? b2) && (a3 <? b3)))).

Lemma rank_less_cases c x y i j :
  rank_less (c, x, i) (c, y, j) =
  match (x ?= y) with Lt => true | Gt => false | Eq => match (i ?= j) with Lt => true | _ => false end end.
Proof.
  unfold rank_less. rewrite Z.ltb_irrefl, Z.eqb_refl. simpl.
  destruct (Z.compare_spec x y) as [-> | |]; try lia. rewrite Z.ltb_irrefl, Z.eqb_refl. simpl.
  destruct (Z.compare_spec i j); lia.
Qed.

Lemma float_less_rank a b : float_less a b = rank_less (rank a) (rank b).
Proof.
  destruct a as [[]|[]| |[] m e], b as [[]|[]| |[] m' e']; try done; unfold rank; rewrite rank_less_cases;
    unfold float_less, f64_lt, SFltb, SFcompare; simpl; rewrite orb_false_r.
  - rewrite Z.compare_opp, (Z.compare_antisym e e'). by destruct (e ?= e').
  - by destruct (e ?= e').
Qed.

#[export] Instance float_less_weak : WeakOrder float_less.
Proof.
  split; unfold not_after; intros a b.
  - rewrite !float_less_rank. destruct (rank a) as [[??]?], (rank b) as [[??]?]. unfold rank_less. lia.
  - intros c. rewrite !float_less_rank. destruct (rank a) as [[??]?], (rank b) as [[??]?], (rank c) as [[??]?].
    unfold rank_less. lia.
Qed.

Lemma Float64s_sorted l : StronglySorted (not_after float_less) (Float64s l).
Proof. by apply sort_by_sorted, float_less_weak. Qed.
