(* ===== verification/GoTime.v ===== *)
(** * Go's package time, as far as tools/benchreport uses it

    Instants are counted in nanoseconds from 1970 in UTC.  [time.Parse] with
    the layout RFC3339 is modelled on the texts RFC 3339 allows; what it makes
    of other texts (it accepts a few) is the class [TimeParse]. *)

From Stdlib Require Import String.
From S2P Require Import Prelude GoText.

Open Scope Z_scope.

(** ** The calendar *)

Definition leap (y : Z) : bool := (y mod 4 =? 0) && (negb (y mod 100 =? 0) || (y mod 400 =? 0)).

Definition daysIn (m y : Z) : Z :=
  if m =? 2 then (if leap y then 29 else 28)
  else if bool_decide (m ∈ [4; 6; 9; 11]) then 30 else 31.

(** Days from 1970-01-01, counting years from March. *)
Definition days_from_civil (y m d : Z) : Z :=
  let y := if m <=? 2 then y - 1 else y in
  let m := if m <=? 2 then m + 9 else m - 3 in
  365 * y + y / 4 - y / 100 + y / 400 + (153 * m + 2) / 5 + d - 1 - 719468.

(** A date and time of day in UTC. *)
Record civil := Civil { c_year : Z; c_month : Z; c_day : Z; c_hour : Z; c_min : Z; c_sec : Z }.

Definition civil_ok (c : civil) : Prop :=
  0 <= c_year c <= 9999 /\ 1 <= c_month c <= 12 /\ 1 <= c_day c <= daysIn (c_month c) (c_year c) /\
  0 <= c_hour c <= 23 /\ 0 <= c_min c <= 59 /\ 0 <= c_sec c <= 59.

Definition instant (c : civil) (offset nanos : Z) : Z :=
  let seconds := days_from_civil (c_year c) (c_month c) (c_day c) * 86400 +
    c_hour c * 3600 + c_min c * 60 + c_sec c - offset in
  seconds * 10 ^ 9 + nanos.

(** [time.Time{}]: the first instant of the year 1. *)
Definition zero_time : Z := instant (Civil 1 1 1 0 0 0) 0 0.

(** ** RFC 3339 *)

(** A number of fixed width within bounds. *)
Definition number (lo hi : Z) (s : bytes) : option Z :=
  let v := digits_value s in if forallb is_digit s && between lo hi v then Some v else None.

Definition parse_civil (s : bytes) : option (civil * bytes) :=
  match s with
  | y1 :: y2 :: y3 :: y4 :: 45 :: m1 :: m2 :: 45 :: d1 :: d2 :: 84 :: h1 :: h2 :: 58 :: i1 :: i2 :: 58 :: s1 :: s2 :: rest =>
      y ← number 0 9999 [y1; y2; y3; y4];
      m ← number 1 12 [m1; m2];
      d ← number 1 (daysIn m y) [d1; d2];
      h ← number 0 23 [h1; h2];
      i ← number 0 59 [i1; i2];
      s ← number 0 59 [s1; s2];
      Some (Civil y m d h i s, rest)
  | _ => None
  end.

(** The digits that start a text. *)
Fixpoint leading_digits (s : bytes) : bytes * bytes :=
  match s with
  | c :: s' => if is_digit c then let '(a, b) := leading_digits s' in (c :: a, b) else ([], s)
  | [] => ([], [])
  end.

(** Nine digits of a fraction of a second; missing digits count as zero. *)
Definition nanoseconds (ds : bytes) : Z := digits_value (take 9 (ds ++ replicate 9 48)).

Definition parse_fraction (s : bytes) : Z * bytes :=
  match s with
  | 46 :: s' => match leading_digits s' with ([], _) => (0, s) | (ds, rest) => (nanoseconds ds, rest) end
  | _ => (0, s)
  end.

(** The offset from UTC, in seconds. *)
Definition parse_zone (s : bytes) : option Z :=
  match s with
  | [90] => Some 0
  | [c; h1; h2; 58; i1; i2] =>
      if (c =? 43) || (c =? 45) then
        h ← number 0 23 [h1; h2]; i ← number 0 59 [i1; i2]; Some (signed (c =? 45) (h * 3600 + i * 60))
      else None
  | _ => None
  end.

Class TimeParse := { Parse_other : bytes -> option Z }.

Definition Parse_RFC3339 {T : TimeParse} (s : bytes) : option Z :=
  let strict :=
    '(c, rest) ← parse_civil s;
    let '(nanos, rest) := parse_fraction rest in
    offset ← parse_zone rest;
    Some (instant c offset nanos) in
  match strict with Some t => Some t | None => Parse_other s end.

(** ** The layouts in use *)

Definition pad4 (v : Z) : bytes := pad2 (v / 100) ++ pad2 (v mod 100).

(** [time.RFC3339], of a time in UTC. *)
Definition Format_RFC3339 (c : civil) : bytes :=
  pad4 (c_year c) ++ [45] ++ pad2 (c_month c) ++ [45] ++ pad2 (c_day c) ++ [84] ++
  pad2 (c_hour c) ++ [58] ++ pad2 (c_min c) ++ [58] ++ pad2 (c_sec c) ++ [90].

(** The layout 20060102T150405Z. *)
Definition Format_stamp (c : civil) : bytes :=
  pad4 (c_year c) ++ pad2 (c_month c) ++ pad2 (c_day c) ++ [84] ++
  pad2 (c_hour c) ++ pad2 (c_min c) ++ pad2 (c_sec c) ++ [90].

(** ** Lemmas *)

Lemma is_digit_48 v : 0 <= v < 10 -> is_digit (48 + v) = true.
Proof. unfold is_digit, between. lia. Qed.

Lemma number_pad2 lo hi v : 0 <= v < 100 -> lo <= v <= hi -> number lo hi (pad2 v) = Some v.
Proof.
  intros Hv Hb. assert (0 <= v / 10 < 10 /\ 0 <= v mod 10 < 10) as [H1 H2]
    by (split; [split; [apply Z.div_pos|apply Z.div_lt_upper_bound]; lia|apply Z.mod_pos_bound; lia]).
  unfold number, pad2. cbn [forallb]. rewrite !is_digit_48 by done.
  assert (digits_value [48 + v / 10; 48 + v mod 10] = v) as ->.
  { unfold digits_value. cbn [foldl]. pose proof (Z.div_mod v 10). lia. }
  assert (between lo hi v = true) as ->; [by apply between_spec|done].
Qed.

Lemma number_pad4 v : 0 <= v <= 9999 -> number 0 9999 (pad4 v) = Some v.
Proof.
  intros Hv. assert (0 <= v / 100 < 100 /\ 0 <= v mod 100 < 100) as [H1 H2]
    by (split; [split; [apply Z.div_pos|apply Z.div_lt_upper_bound]; lia|apply Z.mod_pos_bound; lia]).
  unfold number, pad4, pad2. cbn [app forallb].
  set (a := v / 100) in *. set (b := v mod 100) in *.
  assert (0 <= a / 10 < 10 /\ 0 <= a mod 10 < 10 /\ 0 <= b / 10 < 10 /\ 0 <= b mod 10 < 10) as (?&?&?&?).
  { repeat split; try (apply Z.div_pos; lia); try (apply Z.div_lt_upper_bound; lia); apply Z.mod_pos_bound; lia. }
  rewrite !is_digit_48 by done.
  assert (digits_value [48 + a / 10; 48 + a mod 10; 48 + b / 10; 48 + b mod 10] = v) as ->.
  { unfold digits_value. cbn [foldl]. pose proof (Z.div_mod v 100). pose proof (Z.div_mod a 10). pose proof (Z.div_mod b 10). lia. }
  assert (between 0 9999 v = true) as ->; [by apply between_spec|done].
Qed.

Lemma daysIn_bound m y : 28 <= daysIn m y <= 31.
Proof. unfold daysIn. repeat case_match; lia. Qed.

(** A formatted time parses back to its instant. *)
Lemma parse_format {T : TimeParse} c : civil_ok c -> Parse_RFC3339 (Format_RFC3339 c) = Some (instant c 0 0).
Proof.
  intros (Hy & Hm & Hd & Hh & Hi & Hs). pose proof (daysIn_bound (c_month c) (c_year c)).
  assert (parse_civil (Format_RFC3339 c) = Some (c, [90])) as E.
  { unfold Format_RFC3339. unfold pad4 at 1, pad2. cbn [app parse_civil].
    pose proof (number_pad4 _ Hy) as Ey. unfold pad4, pad2 in Ey. cbn [app] in Ey. rewrite Ey. cbn [mbind option_bind].
    change [48 + ?a / 10; 48 + ?a mod 10] with (pad2 a).
    pose proof (number_pad2 1 12 (c_month c)) as E2. rewrite E2 by lia. cbn [mbind option_bind].
    rewrite (number_pad2 1 (daysIn (c_month c) (c_year c)) (c_day c)) by lia. cbn [mbind option_bind].
    rewrite (number_pad2 0 23), (number_pad2 0 59), (number_pad2 0 59) by lia. cbn [mbind option_bind].
    by destruct c. }
  unfold Parse_RFC3339. rewrite E. done.
Qed.
