(* ===== verification/Report.v ===== *)
(** * The benchmark report tool (tools/benchreport/main.go)

    The tool runs the benchmarks of the repository, parses what [go test]
    printed, stores the run under its output directory and renders a report
    that compares it with earlier runs of the same hardware.  What the programs
    it starts print, the clock and the files of the output directory are inputs
    of [run]; encoding/json is the class [Json].  Errors of the file system are
    not modelled, nor is [flag.Parse]. *)

From Stdlib Require Import String.
From S2P Require Import Prelude GoSort GoText Float64 GoTime.

Open Scope Z_scope.

(** ** Data *)

Definition dataVersion : Z := 1.

Record config := Config { benchPattern : bytes; runPattern : bytes; count : Z; outDir : bytes }.

(** The defaults of the flags. *)
Definition parseFlags : config := Config (lit ".") (lit "^$") 3 (lit "benchmarks").

Record systemInfo := SystemInfo { ID : bytes; GOOS : bytes; GOARCH : bytes; CPU : bytes }.

Record benchmarkSample := Sample {
  Iterations : Z; NSPerOp : f64; BytesPerOp : option f64; AllocsPerOp : option f64 }.

Record benchmarkResult := Result {
  Name : bytes; Samples : list benchmarkSample;
  MedianNSPerOp : f64; MedianBytesPerOp : option f64; MedianAllocsPerOp : option f64 }.

Record parsedSample := Parsed { name : bytes; sample : benchmarkSample }.

Record storedRun := StoredRun {
  Version : Z; Timestamp : bytes; Command : list bytes; GoVersion : bytes; GitCommit : bytes; GitDirty : option bool;
  System : systemInfo; RawOutput : bytes; Results : list benchmarkResult; DataFile : bytes }.

#[export] Instance systemInfo_eq_dec : EqDecision systemInfo.
Proof. solve_decision. Defined.
#[export] Instance benchmarkSample_eq_dec : EqDecision benchmarkSample.
Proof. solve_decision. Defined.
#[export] Instance benchmarkResult_eq_dec : EqDecision benchmarkResult.
Proof. solve_decision. Defined.
#[export] Instance storedRun_eq_dec : EqDecision storedRun.
Proof. solve_decision. Defined.

Definition with_DataFile (f : bytes) (r : storedRun) : storedRun :=
  StoredRun (Version r) (Timestamp r) (Command r) (GoVersion r) (GitCommit r) (GitDirty r) (System r) (RawOutput r) (Results r) f.
Definition with_RawOutput (f : bytes) (r : storedRun) : storedRun :=
  StoredRun (Version r) (Timestamp r) (Command r) (GoVersion r) (GitCommit r) (GitDirty r) (System r) f (Results r) (DataFile r).

(** ** Parsing the output of go test *)

Section slug.
Context {U : Unicode}.

(** One rune of [slug]: the text so far and [lastDash]. *)
Definition slug_step (st : bytes * bool) (r : Z) : bytes * bool :=
  let '(b, lastDash) := st in
  if IsLetter r || IsDigit r then (b ++ encode r, false)
  else if negb lastDash && (0 <? length b)%nat then (b ++ lit "-", true) else (b, lastDash).

Definition slug (value : bytes) : bytes := Trim (foldl slug_step ([], false) (runes (ToLower value))).1 45.

(** One line of the output. *)
Definition system_line (info : systemInfo) (line : bytes) : systemInfo :=
  match Cut line 58 with
  | None => info
  | Some (key, value) =>
      let value := TrimSpace value in
      if decide (key = lit "goos") then SystemInfo (ID info) value (GOARCH info) (CPU info)
      else if decide (key = lit "goarch") then SystemInfo (ID info) (GOOS info) value (CPU info)
      else if decide (key = lit "cpu") then
        (if decide (value = []) then info else SystemInfo (ID info) (GOOS info) (GOARCH info) value)
      else info
  end.

Definition parseSystemInfo (runtime_GOOS runtime_GOARCH output : bytes) : systemInfo :=
  let info := foldl system_line (SystemInfo [] runtime_GOOS runtime_GOARCH (lit "unknown")) (Split output 10) in
  SystemInfo (Join [slug (GOOS info); slug (GOARCH info); slug (CPU info)] (lit "-")) (GOOS info) (GOARCH info) (CPU info).
End slug.

Definition allDigits (value : bytes) : bool :=
  if decide (value = []) then false else forallb (fun r => negb ((r <? 48) || (57 <? r))) (runes value).

Definition normalizeBenchmarkName (name : bytes) : bytes :=
  match LastIndex name 45 with
  | Some index => if (0 <? index)%nat && allDigits (drop (index + 1) name) then take index name else name
  | None => name
  end.

Section parse.
Context {S : Strconv}.

(** The pairs of a value and its unit that follow the iterations. *)
Fixpoint measures (fs : list bytes) (s : benchmarkSample) (foundNS : bool) : benchmarkSample * bool :=
  match fs with
  | v :: unit :: fs =>
      match ParseFloat v with
      | None => measures fs s foundNS
      | Some value =>
          if decide (unit = lit "ns/op") then
            measures fs (Sample (Iterations s) value (BytesPerOp s) (AllocsPerOp s)) true
          else if decide (unit = lit "B/op") then
            measures fs (Sample (Iterations s) (NSPerOp s) (Some value) (AllocsPerOp s)) foundNS
          else if decide (unit = lit "allocs/op") then
            measures fs (Sample (Iterations s) (NSPerOp s) (BytesPerOp s) (Some value)) foundNS
          else measures fs s foundNS
      end
  | _ => (s, foundNS)
  end.

Definition parse_line (line : bytes) : option parsedSample :=
  match Fields line with
  | f0 :: f1 :: fs =>
      if (length fs <? 2)%nat || negb (HasPrefix f0 (lit "Benchmark")) then None
      else
        iterations ← Atoi f1;
        let '(s, foundNS) := measures fs (Sample iterations f64_zero None None) false in
        if foundNS : bool then Some (Parsed (normalizeBenchmarkName f0) s) else None
  | _ => None
  end.

Definition parseBenchmarkSamples (output : bytes) : list parsedSample := omap parse_line (Split output 10).
End parse.

(** ** Summaries *)

(** Indexing [values[middle-1]] panics on an empty slice. *)
Definition medianFloat (values : list f64) : out f64 :=
  let middle := (length values / 2)%nat in
  if decide (length values mod 2 = 1)%nat then of_option (values !! middle)
  else if decide (middle = 0%nat) then Panic
  else a ← of_option (values !! (middle - 1)%nat); b ← of_option (values !! middle);
       Ok (f64_div (f64_add a b) (f64_of_Z 2)).

(** [pointerValue] of main.go is the identity: the pair of a number and a bool
    it returns is the [option] the pointer is modelled by. *)
Definition pointerValue (value : option f64) : option f64 := value.

Definition selectedValues (samples : list benchmarkSample) (selectValue : benchmarkSample -> option f64) : list f64 :=
  Float64s (omap selectValue samples).

Definition median (samples : list benchmarkSample) (selectValue : benchmarkSample -> option f64) : out f64 :=
  match selectedValues samples selectValue with
  | [] => Ok f64_zero
  | values => medianFloat values
  end.

Definition medianPointer (samples : list benchmarkSample) (selectValue : benchmarkSample -> option f64) : out (option f64) :=
  match selectedValues samples selectValue with
  | [] => Ok None
  | values => value ← medianFloat values; Ok (Some value)
  end.

Definition group (m : gmap bytes (list benchmarkSample)) (s : parsedSample) : gmap bytes (list benchmarkSample) :=
  <[name s := default [] (m !! name s) ++ [sample s]]> m.
Definition grouped (samples : list parsedSample) : gmap bytes (list benchmarkSample) := foldl group ∅ samples.

Definition summary (m : gmap bytes (list benchmarkSample)) (n : bytes) : out benchmarkResult :=
  let resultSamples := default [] (m !! n) in
  ns ← median resultSamples (fun s => Some (NSPerOp s));
  bs ← medianPointer resultSamples (fun s => pointerValue (BytesPerOp s));
  allocs ← medianPointer resultSamples (fun s => pointerValue (AllocsPerOp s));
  Ok (Result n resultSamples ns bs allocs).

(** [visit] is the order in which the loop over the map meets its keys. *)
Definition summarize (visit : list bytes) (samples : list parsedSample) : out (list benchmarkResult) :=
  mapM (summary (grouped samples)) (Strings visit).

(** ** Files and errors *)

(** The files below [outDir], by the components of their paths. *)
Abbreviation files := (gmap (list bytes) bytes).

Inductive report_error :=
  | CountTooSmall
  | BenchmarkFailed
  | NoSamples
  | CannotMarshal
  | CannotRead (file : bytes).

(** [json.MarshalIndent] and [json.Unmarshal] for a [storedRun]. *)
Class Json := { MarshalIndent : storedRun -> option bytes; Unmarshal : bytes -> option storedRun }.

(** ** Comparing runs *)

Section runs.
Context {T : TimeParse}.

Definition parseTime (value : bytes) : Z := default zero_time (Parse_RFC3339 value).

Definition sameHardware (left right : systemInfo) : bool :=
  bool_decide (GOOS left = GOOS right) && bool_decide (GOARCH left = GOARCH right) && bool_decide (CPU left = CPU right).

Definition run_less (a b : storedRun) : bool :=
  let left := parseTime (Timestamp a) in
  let right := parseTime (Timestamp b) in
  if left =? right then bytes_less (DataFile a) (DataFile b) else left <? right.

Definition sortRuns (runs : list storedRun) : list storedRun := sort_by run_less runs.

Fixpoint findRun (runs : list storedRun) (dataFile : bytes) : option storedRun :=
  match runs with
  | [] => None
  | r :: runs => if decide (DataFile r = dataFile) then Some r else findRun runs dataFile
  end.

(** One step of the loop of [previousSameHardware]. *)
Definition previous_step (current : storedRun) (previous : option storedRun) (r : storedRun) : option storedRun :=
  if bool_decide (DataFile r = DataFile current) || negb (sameHardware (System current) (System r)) then previous
  else if negb (parseTime (Timestamp r) <? parseTime (Timestamp current)) then previous
  else match previous with
       | None => Some r
       | Some p => if parseTime (Timestamp p) <? parseTime (Timestamp r) then Some r else previous
       end.

Definition previousSameHardware (current : storedRun) (runs : list storedRun) : option storedRun :=
  foldl (previous_step current) None runs.

Definition latest_step (latest : gmap bytes storedRun) (r : storedRun) : gmap bytes storedRun :=
  match latest !! ID (System r) with
  | None => <[ID (System r) := r]> latest
  | Some existing =>
      if parseTime (Timestamp existing) <? parseTime (Timestamp r) then <[ID (System r) := r]> latest else latest
  end.

(** [visit] is the order in which the loop over the map meets its keys. *)
Definition latestRunsBySystem (visit : list bytes) (runs : list storedRun) : list storedRun :=
  let latest := foldl latest_step ∅ runs in
  sort_by (fun a b => bytes_less (ID (System a)) (ID (System b))) (omap (fun id => latest !! id) visit).

(** ** Rendering *)

Definition formatDelta (previous current : f64) : bytes :=
  if f64_eq previous f64_zero then lit "n/a"
  else format_plus_f2 (f64_mul (f64_div (f64_sub current previous) previous) (f64_of_Z 100)) ++ lit "%".

Definition formatNumber (value : f64) : bytes := TrimRight (TrimRight (FormatFloat_f2 value) 48) 46.

Definition formatOptional (value : option f64) : bytes :=
  match value with None => lit "n/a" | Some v => formatNumber v end.

Definition resultMap (results : list benchmarkResult) : gmap bytes benchmarkResult :=
  foldl (fun m r => <[Name r := r]> m) ∅ results.

Definition writeRunSummary (r : storedRun) : bytes :=
  Sprintf "- Timestamp: `%s`\n" [Timestamp r] ++
  Sprintf "- System: `%s/%s`, CPU `%s`\n" [GOOS (System r); GOARCH (System r); CPU (System r)] ++
  (if decide (GoVersion r = []) then [] else Sprintf "- Go: `%s`\n" [GoVersion r]) ++
  (if decide (GitCommit r = []) then [] else Sprintf "- Git commit: `%s`\n" [GitCommit r]) ++
  match GitDirty r with
  | None => []
  | Some dirty => Sprintf "- Git tree: `%s`\n" [if dirty then lit "dirty" else lit "clean"]
  end ++
  Sprintf "- Command: `%s`\n" [Join (Command r) (lit " ")] ++
  Sprintf "- Raw output: [%s](%s)\n" [RawOutput r; RawOutput r] ++
  Sprintf "- Parsed data: [%s](%s)\n\n" [DataFile r; DataFile r].

Definition comparison_row (previousResults : gmap bytes benchmarkResult) (currentResult : benchmarkResult) : bytes :=
  match previousResults !! Name currentResult with
  | None =>
      Sprintf "| `%s` | n/a | %s | n/a | %s | %s |\n"
        [Name currentResult; formatNumber (MedianNSPerOp currentResult);
         formatOptional (MedianBytesPerOp currentResult); formatOptional (MedianAllocsPerOp currentResult)]
  | Some previousResult =>
      Sprintf "| `%s` | %s | %s | %s | %s | %s |\n"
        [Name currentResult; formatNumber (MedianNSPerOp previousResult); formatNumber (MedianNSPerOp currentResult);
         formatDelta (MedianNSPerOp previousResult) (MedianNSPerOp currentResult);
         formatOptional (MedianBytesPerOp currentResult); formatOptional (MedianAllocsPerOp currentResult)]
  end.

Definition writeComparisonTable (previous current : storedRun) : bytes :=
  lit "| Benchmark | Previous ns/op | Current ns/op | ns/op change | Current B/op | Current allocs/op |\n" ++
  lit "| --- | ---: | ---: | ---: | ---: | ---: |\n" ++
  concat (comparison_row (resultMap (Results previous)) <$> Results current) ++
  lit "\n".

Definition result_row (r : benchmarkResult) : bytes :=
  Sprintf "| `%s` | %s | %s | %s |\n"
    [Name r; formatNumber (MedianNSPerOp r); formatOptional (MedianBytesPerOp r); formatOptional (MedianAllocsPerOp r)].

Definition writeResultsTable (results : list benchmarkResult) : bytes :=
  lit "| Benchmark | Median ns/op | Median B/op | Median allocs/op |\n" ++
  lit "| --- | ---: | ---: | ---: |\n" ++
  concat (result_row <$> results) ++
  lit "\n".

(** The text of the report. *)
Definition report_text (visit : list bytes) (current : storedRun) (runs : list storedRun) : bytes :=
  let latestBySystem := latestRunsBySystem visit runs in
  lit "# Benchmark Report\n\n" ++
  lit "Generated by `make bench`.\n\n" ++
  lit "Comparisons are only made between runs with identical `goos`, `goarch`, and `cpu` values. Runs from different hardware are listed as separate systems and are not compared against each other.\n\n" ++
  lit "## Current Run\n\n" ++
  writeRunSummary current ++
  lit "## Current vs Previous Same Hardware\n\n" ++
  match previousSameHardware current runs with
  | None => lit "No previous run with matching hardware was found. This run is the baseline for this system.\n\n"
  | Some previous =>
      Sprintf "Previous run: [%s](%s) from `%s`.\n\n" [DataFile previous; DataFile previous; Timestamp previous] ++
      writeComparisonTable previous current
  end ++
  lit "## Latest Results By System\n\n" ++
  match latestBySystem with
  | [] => lit "No benchmark runs have been stored yet.\n"
  | _ =>
      concat ((fun r => Sprintf "### %s\n\n" [ID (System r)] ++ writeRunSummary r ++ writeResultsTable (Results r)) <$> latestBySystem)
  end.

(** ** The files of the output directory *)

Context {J : Json}.

(** A path with slashes, as [filepath.ToSlash] gives it. *)
Definition to_slash (path : list bytes) : bytes := Join path (lit "/").

(** The two files of a run. *)
Definition raw_path (id stamp : bytes) : list bytes := [lit "runs"; id; stamp ++ lit ".txt"].
Definition data_path (id stamp : bytes) : list bytes := [lit "runs"; id; stamp ++ lit ".json"].

(** Gives the run with the names of its files set, and the files. *)
Definition writeRun (stamp rawOutput : bytes) (r : storedRun) (fs : files) : (report_error + storedRun) * files :=
  let raw := raw_path (ID (System r)) stamp in
  let data := data_path (ID (System r)) stamp in
  let r := with_DataFile (to_slash data) (with_RawOutput (to_slash raw) r) in
  let fs := <[raw := rawOutput]> fs in
  match MarshalIndent r with
  | None => (inl CannotMarshal, fs)
  | Some text => (inr r, <[data := text ++ [10]]> fs)
  end.

(** The pattern runs/*/*.json of [filepath.Glob], which gives the names of a
    directory in order. *)
Definition is_data (path : list bytes) : bool :=
  match path with
  | [d; _; f] => bool_decide (d = lit "runs") && bool_decide (drop (length f - 5) f = lit ".json")
  | _ => false
  end.

Fixpoint path_less (p q : list bytes) : bool :=
  match p, q with
  | [], _ :: _ => true
  | a :: p, b :: q => bytes_less a b || (bool_decide (a = b) && path_less p q)
  | _, [] => false
  end.

Definition Glob (fs : files) : list (list bytes * bytes) :=
  sort_by (fun a b => path_less a.1 b.1) (filter (fun f => is_data f.1 = true) (map_to_list fs)).

Definition load_file (f : list bytes * bytes) : report_error + storedRun :=
  match Unmarshal f.2 with
  | None => inl (CannotRead (to_slash f.1))
  | Some r => inr (with_DataFile (to_slash f.1) r)
  end.

Fixpoint load_files (l : list (list bytes * bytes)) : report_error + list storedRun :=
  match l with
  | [] => inr []
  | f :: l => match load_file f with
              | inl e => inl e
              | inr r => match load_files l with inl e => inl e | inr rs => inr (r :: rs) end
              end
  end.

Definition loadRuns (fs : files) : report_error + list storedRun :=
  match load_files (Glob fs) with inl e => inl e | inr runs => inr (sortRuns runs) end.

Definition writeReport (visit : list bytes) (current : storedRun) (runs : list storedRun) (fs : files) : files :=
  <[[lit "report.md"] := report_text visit current runs]> fs.

(** ** The program *)

(** What the programs started by the tool give (None: they failed), the clock,
    and the platform. *)
Record inputs := Inputs {
  bench_output : bytes; bench_failed : bool;
  go_version : option bytes; git_rev_parse : option bytes; git_status : option bytes;
  now : civil; runtime_GOOS : bytes; runtime_GOARCH : bytes }.

Definition commandOutput (output : option bytes) : bytes :=
  match output with None => [] | Some output => TrimSpace output end.

Definition gitDirty (output : option bytes) : option bool :=
  output ← output; Some (negb (bool_decide (TrimSpace output = []))).

Definition test_args (cfg : config) : list bytes :=
  [lit "test"; lit "-run=" ++ runPattern cfg; lit "-bench=" ++ benchPattern cfg; lit "-benchmem";
   lit "-count=" ++ Itoa (count cfg); lit "./..."].

Context {U : Unicode} {S : Strconv}.

(** The run as it is before its files have names. *)
Definition new_run (cfg : config) (i : inputs) (results : list benchmarkResult) : storedRun :=
  StoredRun dataVersion (Format_RFC3339 (now i)) (lit "go" :: test_args cfg) (commandOutput (go_version i))
    (commandOutput (git_rev_parse i)) (gitDirty (git_status i))
    (parseSystemInfo (runtime_GOOS i) (runtime_GOARCH i) (bench_output i)) [] results [].

(** The rest of [run], with the samples. *)
Definition store_and_report (visit_systems : list bytes) (r : storedRun) (i : inputs) (fs : files) : (report_error + storedRun) * files :=
  match writeRun (Format_stamp (now i)) (bench_output i) r fs with
  | (inl e, fs) => (inl e, fs)
  | (inr r, fs) =>
      match loadRuns fs with
      | inl e => (inl e, fs)
      | inr runs =>
          let current := default r (findRun runs (DataFile r)) in
          (inr r, writeReport visit_systems current runs fs)
      end
  end.

(** Gives the run that was stored, and the files. *)
Definition run (visit_names visit_systems : list bytes) (cfg : config) (i : inputs) (fs : files) :
    out ((report_error + storedRun) * files) :=
  if count cfg <? 1 then Ok (inl CountTooSmall, fs)
  else if bench_failed i then Ok (inl BenchmarkFailed, fs)
  else
    let samples := parseBenchmarkSamples (bench_output i) in
    if decide (samples = []) then Ok (inl NoSamples, fs)
    else
      results ← summarize visit_names samples;
      Ok (store_and_report visit_systems (new_run cfg i results) i fs).

End runs.
