(* ===== verification/Compare.v ===== *)
(** * Comparing benchmark runs: proofs

    Which earlier run a report compares with, which runs it lists as the latest
    of their systems, and how samples are grouped, against what these functions
    of tools/benchreport/main.go are meant to choose. *)

From Stdlib Require Import String.
From S2P Require Import Prelude GoSort GoText Float64 GoTime Report.

Open Scope Z_scope.

(** The first element with the greatest key among those that satisfy [P]. *)
Definition first_greatest {A} (key : A -> Z) (P : A -> Prop) (l : list A) (x : A) : Prop :=
  exists l1 l2, l = l1 ++ x :: l2 /\ P x /\
    (forall y, y ∈ l1 -> P y -> key y < key x) /\ (forall y, y ∈ l2 -> P y -> key y <= key x).

Section greatest.
Context {A : Type} (key : A -> Z) (P : A -> Prop).

Lemma first_greatest_new l x : P x -> (forall y, y ∈ l -> P y -> key y < key x) -> first_greatest key P (l ++ [x]) x.
Proof. intros Hx H. exists l, []. split; [done|]. split; [done|]. split; [done|]. by intros y ?%elem_of_nil. Qed.

Lemma first_greatest_old l x z : first_greatest key P l x -> (P z -> key z <= key x) -> first_greatest key P (l ++ [z]) x.
Proof.
  intros (l1 & l2 & -> & Hx & H1 & H2) Hz. exists l1, (l2 ++ [z]). split; [by rewrite <- app_assoc|].
  split; [done|]. split; [done|]. intros y [Hy | ->%list_elem_of_singleton]%elem_of_app; auto.
Qed.

Lemma first_greatest_max l x y : first_greatest key P l x -> y ∈ l -> P y -> key y <= key x.
Proof.
  intros (l1 & l2 & -> & Hx & H1 & H2) Hy HP. apply elem_of_app in Hy as [Hy|Hy]; [specialize (H1 y Hy HP); lia|].
  apply elem_of_cons in Hy as [-> |Hy]; [lia|auto].
Qed.

Lemma first_greatest_in l x : first_greatest key P l x -> x ∈ l /\ P x.
Proof. intros (l1 & l2 & -> & Hx & _). split; [|done]. apply elem_of_app; right; left. Qed.

Lemma two_splits (l1 l2 l1' l2' : list A) x x' :
  l1 ++ x :: l2 = l1' ++ x' :: l2' -> x = x' \/ (x' ∈ l2 /\ x ∈ l1') \/ (x ∈ l2' /\ x' ∈ l1).
Proof.
  revert l1'. induction l1 as [|a l1 IH]; intros [|a' l1'] E; injection E as -> E.
  - by left.
  - right; left. rewrite E. split; [apply elem_of_app; right|]; left.
  - right; right. rewrite <- E. split; [apply elem_of_app; right|]; left.
  - destruct (IH l1' E) as [?|[[??]|[??]]]; [by left| |]; right; [left|right]; split; try done; by right.
Qed.

Lemma first_greatest_unique l x x' : first_greatest key P l x -> first_greatest key P l x' -> x = x'.
Proof.
  intros (l1 & l2 & -> & Hx & H1 & H2) (l1' & l2' & E & Hx' & H1' & H2').
  destruct (two_splits _ _ _ _ _ _ E) as [?|[[Ha Hb]|[Ha Hb]]]; [done| |]; exfalso.
  - specialize (H2 x' Ha Hx'). specialize (H1' x Hb Hx). lia.
  - specialize (H2' x Ha Hx). specialize (H1 x' Hb Hx'). lia.
Qed.

(** A loop that replaces what it has found by a later element that is greater. *)
Lemma first_greatest_step l x z :
  first_greatest key P l x -> P z ->
  first_greatest key P (l ++ [z]) (if key x <? key z then z else x).
Proof.
  intros Hx Hz. destruct (Z.ltb_spec (key x) (key z)).
  - apply first_greatest_new; [done|]. intros y Hy HP. pose proof (first_greatest_max l x y Hx Hy HP). lia.
  - by apply first_greatest_old.
Qed.
End greatest.

(** A property of a left fold, by the part of the list already visited. *)
Lemma foldl_inv {A B} (f : B -> A -> B) (I : list A -> B -> Prop) l b :
  I [] b -> (forall l1 x b, I l1 b -> I (l1 ++ [x]) (f b x)) -> I l (foldl f b l).
Proof.
  intros H0 Hs. induction l as [|x l IH] using rev_ind; [done|]. rewrite foldl_snoc. by apply Hs.
Qed.

(** ** The run to compare with *)

Section compare.
Context {T : TimeParse}.

Definition run_time (r : storedRun) : Z := parseTime (Timestamp r).

(** An earlier run of the same hardware. *)
Definition comparable (current r : storedRun) : Prop :=
  DataFile r <> DataFile current /\ sameHardware (System current) (System r) = true /\ run_time r < run_time current.

#[export] Instance comparable_dec current r : Decision (comparable current r).
Proof. unfold comparable. apply _. Defined.

Lemma sameHardware_spec a b : sameHardware a b = true <-> GOOS a = GOOS b /\ GOARCH a = GOARCH b /\ CPU a = CPU b.
Proof. unfold sameHardware. rewrite !andb_true_iff, !bool_decide_eq_true. tauto. Qed.

Lemma previous_step_spec current p r :
  previous_step current p r =
  if decide (comparable current r) then
    match p with None => Some r | Some p => Some (if run_time p <? run_time r then r else p) end
  else p.
Proof.
  unfold previous_step. fold (run_time r) (run_time current). case_decide as H.
  - destruct H as (H1 & -> & H3). rewrite bool_decide_eq_false_2 by done. simpl.
    destruct (Z.ltb_spec (run_time r) (run_time current)); [|lia]. simpl. destruct p as [p|]; [|done]. fold (run_time p).
    by case_match.
  - destruct (bool_decide_reflect (DataFile r = DataFile current)); [done|].
    destruct (sameHardware (System current) (System r)) eqn:Eh; [|done]. simpl.
    destruct (Z.ltb_spec (run_time r) (run_time current)); [|done]. by destruct H.
Qed.

Lemma previous_spec current runs :
  match previousSameHardware current runs with
  | Some p => first_greatest run_time (comparable current) runs p
  | None => forall r, r ∈ runs -> ~ comparable current r
  end.
Proof.
  unfold previousSameHardware. apply (foldl_inv _ (fun runs p => match p with
    | Some p => first_greatest run_time (comparable current) runs p
    | None => forall r, r ∈ runs -> ~ comparable current r end)); [by intros r ?%elem_of_nil|].
  intros l1 r p Hp. rewrite previous_step_spec. case_decide as Hr; destruct p as [p|].
  - by apply first_greatest_step.
  - apply first_greatest_new; [done|]. intros y Hy Hc. by destruct (Hp y Hy).
  - by apply first_greatest_old.
  - intros y [Hy | ->%list_elem_of_singleton]%elem_of_app; auto.
Qed.

(** ** The latest runs *)

Definition of_system (id : bytes) (r : storedRun) : Prop := ID (System r) = id.

Lemma latest_lookup runs id :
  match foldl latest_step ∅ runs !! id with
  | Some r => first_greatest run_time (of_system id) runs r
  | None => forall r, r ∈ runs -> ~ of_system id r
  end.
Proof.
  apply (foldl_inv _ (fun runs (m : gmap bytes storedRun) => match m !! id with
    | Some r => first_greatest run_time (of_system id) runs r
    | None => forall r, r ∈ runs -> ~ of_system id r end)).
  { rewrite lookup_empty. by intros r ?%elem_of_nil. }
  intros l1 r m Hm. unfold latest_step. destruct (decide (ID (System r) = id)) as [E|E].
  - rewrite E. destruct (m !! id) as [x|] eqn:Ex; rewrite ?Ex.
    + pose proof (first_greatest_step run_time (of_system id) l1 x r Hm E) as H. fold (run_time x) (run_time r).
      destruct (run_time x <? run_time r); [by rewrite lookup_insert_eq|by rewrite Ex].
    + rewrite lookup_insert_eq. apply first_greatest_new; [done|]. intros y Hy Hc. by destruct (Hm y Hy).
  - assert ((match m !! ID (System r) with
      | None => <[ID (System r) := r]> m
      | Some existing => if parseTime (Timestamp existing) <? parseTime (Timestamp r) then <[ID (System r) := r]> m else m
      end) !! id = m !! id) as ->.
    { repeat case_match; by rewrite ?lookup_insert_ne. }
    destruct (m !! id) as [x|].
    + by apply first_greatest_old.
    + intros y [Hy | ->%list_elem_of_singleton]%elem_of_app; auto.
Qed.

(** The order in which a loop meets the keys of a map that has those of [l]. *)
Definition visits {A} (key : A -> bytes) (l : list A) (visit : list bytes) : Prop :=
  NoDup visit /\ forall k, k ∈ visit <-> exists x, x ∈ l /\ key x = k.

Lemma latest_system runs id r : foldl latest_step ∅ runs !! id = Some r -> ID (System r) = id.
Proof. intros E. pose proof (latest_lookup runs id) as H. rewrite E in H. by apply first_greatest_in in H as [_ ?]. Qed.

Lemma latest_ids runs visit :
  visits (fun r => ID (System r)) runs visit ->
  (fun r => ID (System r)) <$> omap (fun id => foldl latest_step ∅ runs !! id) visit = visit.
Proof.
  intros [_ Hv]. assert (forall id, id ∈ visit -> is_Some (foldl latest_step ∅ runs !! id)) as H.
  { intros id Hid. destruct (proj1 (Hv id) Hid) as (r & Hr & E). pose proof (latest_lookup runs id) as H.
    destruct (foldl latest_step ∅ runs !! id); [by eexists|]. by destruct (H r Hr). }
  clear Hv. induction visit as [|id visit IH]; [done|]. destruct (H id) as [r Er]; [by left|]. simpl. rewrite Er. csimpl.
  f_equal; [by apply latest_system in Er|]. apply IH. intros id' Hid'. apply H. by right.
Qed.
End compare.

(** ** Properties *)

(** C31: the run a report compares the current one with is the latest among the
    earlier runs with the same operating system, architecture and processor,
    the first of them in the list if several have that time; there is none
    exactly when there is no such run. *)
Theorem previousSameHardware_correct {T : TimeParse} current runs :
  match previousSameHardware current runs with
  | Some p => first_greatest run_time (comparable current) runs p
  | None => forall r, r ∈ runs -> ~ comparable current r
  end.
Proof. exact (previous_spec current runs). Qed.

(** Whatever the order of the loop over the map, the report lists each
    system once, in the order of the identifiers, with its latest run. *)
Theorem latestRunsBySystem_correct {T : TimeParse} visit runs :
  visits (fun r => ID (System r)) runs visit ->
  StronglySorted (fun a b => bytes_lt (ID (System a)) (ID (System b))) (latestRunsBySystem visit runs) /\
  forall r, r ∈ latestRunsBySystem visit runs <-> first_greatest run_time (of_system (ID (System r))) runs r.
Proof.
  intros Hv. unfold latestRunsBySystem. set (l := omap _ visit). pose proof (latest_ids runs visit Hv) as E. fold l in E. split.
  - apply strictly_sorted; [by apply sort_by_sorted, by_bytes_weak|]. rewrite sort_by_perm, E. apply Hv.
  - intros r. rewrite sort_by_elem. unfold l. rewrite list_elem_of_omap. split.
    + intros (id & _ & Er). pose proof (latest_system _ _ _ Er) as <-. pose proof (latest_lookup runs (ID (System r))) as H.
      by rewrite Er in H.
    + intros H. exists (ID (System r)). split.
      * apply Hv. exists r. by apply first_greatest_in in H as [? _].
      * pose proof (latest_lookup runs (ID (System r))) as H'. destruct (foldl latest_step ∅ runs !! ID (System r)) as [x|].
        -- f_equal. by apply (first_greatest_unique run_time (of_system (ID (System r))) runs).
        -- apply first_greatest_in in H as [Hr _]. by destruct (H' r Hr).
Qed.

(** ** Summaries *)

(** [m] is the middle of the numbers in order, or the mean of the middle two. *)
Definition is_median (l : list f64) (m : f64) : Prop :=
  exists s, s ≡ₚ l /\ StronglySorted (not_after float_less) s /\
    ((length s mod 2 = 1)%nat /\ s !! (length s / 2)%nat = Some m \/
     (length s mod 2 = 0)%nat /\ exists a b, s !! (length s / 2 - 1)%nat = Some a /\ s !! (length s / 2)%nat = Some b /\
       m = f64_div (f64_add a b) (f64_of_Z 2)).

(** The median of the numbers there are, if there are any. *)
Definition is_optional_median (l : list f64) (m : option f64) : Prop :=
  match m with Some m => is_median l m | None => l = [] end.

Lemma medianFloat_ok s l : s <> [] -> s ≡ₚ l -> StronglySorted (not_after float_less) s ->
  exists m, medianFloat s = Ok m /\ is_median l m.
Proof.
  intros Hn Hp Hs. assert (0 < length s)%nat as Hl by (destruct s; [done|simpl; lia]). unfold medianFloat.
  assert (length s / 2 < length s)%nat as Hm by (apply Nat.div_lt; lia).
  destruct (lookup_lt_is_Some_2 _ _ Hm) as [b Hb]. rewrite Hb.
  pose proof (Nat.mod_upper_bound (length s) 2). case_decide as H2.
  - exists b. split; [done|]. exists s. auto.
  - assert (length s / 2 <> 0)%nat as H0. { pose proof (Nat.div_mod_eq (length s) 2). lia. }
    rewrite decide_False by done. destruct (lookup_lt_is_Some_2 s (length s / 2 - 1)) as [a Ha]; [lia|]. rewrite Ha.
    eexists. split; [done|]. exists s. split; [done|]. split; [done|]. right. split; [lia|]. by exists a, b.
Qed.

Lemma Float64s_perm l : Float64s l ≡ₚ l.
Proof. apply sort_by_perm. Qed.

Lemma selected_nil samples f : selectedValues samples f = [] <-> omap f samples = [].
Proof.
  unfold selectedValues. split; intros E; [|by rewrite E]. apply Permutation_nil. by rewrite <- E, Float64s_perm.
Qed.

Lemma medianPointer_ok samples f :
  exists m, medianPointer samples f = Ok m /\ is_optional_median (omap f samples) m.
Proof.
  unfold medianPointer. destruct (selectedValues samples f) as [|x l] eqn:E.
  - exists None. split; [done|]. by apply selected_nil.
  - destruct (medianFloat_ok (x :: l) (omap f samples)) as (m & Em & Hm); [done| | |].
    + rewrite <- E. apply Float64s_perm.
    + rewrite <- E. apply Float64s_sorted.
    + exists (Some m). by rewrite Em.
Qed.

Lemma median_ok samples f : samples <> [] ->
  exists m, median samples (fun s => Some (f s)) = Ok m /\ is_median (f <$> samples) m.
Proof.
  intros Hn. assert (omap (fun s => Some (f s)) samples = f <$> samples) as Ef.
  { clear. induction samples as [|s samples IH]; [done|]. csimpl. by rewrite IH. }
  unfold median. destruct (selectedValues samples (fun s => Some (f s))) as [|x l] eqn:E.
  { apply selected_nil in E. rewrite Ef in E. by destruct samples. }
  rewrite <- Ef. apply medianFloat_ok; [done| |]; rewrite <- E; [apply Float64s_perm|apply Float64s_sorted].
Qed.

(** The samples of a name, in the order of the output. *)
Definition samples_of (n : bytes) (l : list parsedSample) : list benchmarkSample := sample <$> filter (fun s => name s = n) l.

Lemma samples_of_snoc n l s :
  samples_of n (l ++ [s]) = samples_of n l ++ (if decide (name s = n) then [sample s] else []).
Proof.
  unfold samples_of. rewrite filter_app, fmap_app. f_equal. rewrite filter_cons. by case_decide.
Qed.

Lemma grouped_lookup l n : default [] (grouped l !! n) = samples_of n l.
Proof.
  unfold grouped. apply (foldl_inv _ (fun l m => default [] (m !! n) = samples_of n l)); [done|]. intros l1 s m E.
  rewrite samples_of_snoc, <- E. unfold group. destruct (decide (name s = n)) as [-> |Hne].
  - by rewrite lookup_insert_eq.
  - by rewrite lookup_insert_ne, app_nil_r.
Qed.

(** What the summary of a benchmark holds. *)
Record summarizes (l : list parsedSample) (r : benchmarkResult) : Prop := {
  su_samples : Samples r = samples_of (Name r) l;
  su_ns : is_median (NSPerOp <$> Samples r) (MedianNSPerOp r);
  su_bytes : is_optional_median (omap BytesPerOp (Samples r)) (MedianBytesPerOp r);
  su_allocs : is_optional_median (omap AllocsPerOp (Samples r)) (MedianAllocsPerOp r)
}.

Lemma summary_ok l n : samples_of n l <> [] ->
  exists r, summary (grouped l) n = Ok r /\ Name r = n /\ summarizes l r.
Proof.
  intros Hn. unfold summary. rewrite grouped_lookup.
  destruct (median_ok _ NSPerOp Hn) as (ns & E1 & H1).
  destruct (medianPointer_ok (samples_of n l) (fun s => pointerValue (BytesPerOp s))) as (bs & E2 & H2).
  destruct (medianPointer_ok (samples_of n l) (fun s => pointerValue (AllocsPerOp s))) as (al & E3 & H3).
  rewrite E1. go_bind. rewrite E2. go_bind. rewrite E3. go_bind. eexists. split; [done|]. split; [done|]. by split.
Qed.

Lemma summaries_ok l names : (forall n, n ∈ names -> samples_of n l <> []) ->
  exists rs, mapM (summary (grouped l)) names = Ok rs /\ Name <$> rs = names /\ Forall (summarizes l) rs.
Proof.
  induction names as [|n names IH]; intros H; [by exists []|].
  destruct (summary_ok l n) as (r & E & Hn & Hr); [apply H; left|].
  destruct IH as (rs & Es & Hns & Hrs); [intros m Hm; apply H; by right|].
  exists (r :: rs). cbn [mapM]. rewrite E. go_bind. rewrite Es. split; [done|]. split; [csimpl; congruence|by constructor].
Qed.

Lemma summaries_all visit samples :
  visits name samples visit ->
  exists results, summarize visit samples = Ok results /\
    StronglySorted bytes_lt (Name <$> results) /\
    (forall n, n ∈ Name <$> results <-> n ∈ name <$> samples) /\
    Forall (summarizes samples) results.
Proof.
  intros [Hnd Hv]. assert (forall n, n ∈ Strings visit <-> exists x, x ∈ samples /\ name x = n) as Hin.
  { intros n. unfold Strings. by rewrite sort_by_elem. }
  destruct (summaries_ok samples (Strings visit)) as (rs & E & En & Hrs).
  { intros n (x & Hx & Hxn)%Hin Hnil. assert (sample x ∈ samples_of n samples) as H.
    { apply list_elem_of_fmap_2, list_elem_of_filter. done. }
    rewrite Hnil in H. by apply elem_of_nil in H. }
  exists rs. split; [done|]. rewrite En. split; [|split; [|done]].
  - assert (StronglySorted (fun a b => bytes_lt ((fun x => x) a) ((fun x => x) b)) (Strings visit)); [|done].
    apply strictly_sorted; [by apply sort_by_sorted, bytes_less_weak|]. unfold Strings.
    by rewrite sort_by_perm, list_fmap_id.
  - intros n. rewrite Hin, list_elem_of_fmap. naive_solver.
Qed.

(** C32: whatever the order of the loop over the map, [summarize] succeeds and
    gives one result for each benchmark name of the output, in the order of the
    names, which holds the samples of that name in the order of the output and
    their medians. *)
Theorem summarize_correct visit samples :
  visits name samples visit ->
  exists results, summarize visit samples = Ok results /\
    StronglySorted bytes_lt (Name <$> results) /\
    (forall n, n ∈ Name <$> results <-> n ∈ name <$> samples) /\
    Forall (summarizes samples) results.
Proof. apply summaries_all. Qed.
