(* ===== verification/Bench.v ===== *)
(** * Reading benchmark output: proofs

    The lines that [go test -bench] prints are read back by [parse_line] of
    tools/benchreport/main.go, and the identifier of a system can name a
    directory. *)

From Stdlib Require Import String.
From S2P Require Import Prelude GoSort GoText Float64 GoTime Report.

Open Scope Z_scope.

(** ** Fields of a line *)

Definition ink (c : Z) : Prop := ascii c /\ IsSpace c = false.
Definition space (c : Z) : Prop := ascii c /\ IsSpace c = true.
#[export] Instance ink_dec c : Decision (ink c).
Proof. unfold ink. apply _. Defined.
#[export] Instance space_dec c : Decision (space c).
Proof. unfold space. apply _. Defined.

(** A field: not empty, of ASCII other than spaces. *)
Definition word (w : bytes) : Prop := w <> [] /\ Forall ink w.

(** Fields, each followed by spaces; only the last may have none after it. *)
Fixpoint spread (l : list (bytes * bytes)) : bytes :=
  match l with [] => [] | (w, s) :: l => w ++ s ++ spread l end.
Fixpoint spaced (l : list (bytes * bytes)) : Prop :=
  match l with
  | [] => True
  | (w, s) :: l => word w /\ Forall space s /\ (s = [] -> l = []) /\ spaced l
  end.

Lemma fields_ink w : forall cs field, Forall ink w ->
  fields ((fun c => (c, [c])) <$> w ++ cs) field = fields ((fun c => (c, [c])) <$> cs) (field ++ w).
Proof.
  induction w as [|c w IH]; intros cs field Hw; [by rewrite app_nil_r|]. apply Forall_cons in Hw as [[_ Hc] Hw].
  cbn [app fmap list_fmap fields]. rewrite Hc, IH by done. by rewrite <- app_assoc.
Qed.

Lemma fields_space s : forall cs, Forall space s ->
  fields ((fun c => (c, [c])) <$> s ++ cs) [] = fields ((fun c => (c, [c])) <$> cs) [].
Proof.
  induction s as [|c s IH]; intros cs Hs; [done|]. apply Forall_cons in Hs as [[_ Hc] Hs].
  cbn [app fmap list_fmap fields]. by rewrite Hc, IH.
Qed.

Lemma chunks_all_ascii s : Forall ascii s -> chunks s = (fun c => (c, [c])) <$> s.
Proof. induction 1 as [|c s Hc _ IH]; [done|]. rewrite chunks_ascii by done. csimpl. by rewrite IH. Qed.

Lemma spread_ascii l : spaced l -> Forall ascii (spread l).
Proof.
  induction l as [|[w s] l IH]; [done|]. intros ([_ Hw] & Hs & _ & Hl). cbn [spread]. rewrite !Forall_app.
  split; [|split; [|by apply IH]]; eapply Forall_impl; try done; by intros c [? _].
Qed.

Lemma Fields_spread l : spaced l -> Fields (spread l) = l.*1.
Proof.
  intros Hl. unfold Fields. rewrite chunks_all_ascii by (by apply spread_ascii).
  induction l as [|[w s] l IH]; [done|]. destruct Hl as ([Hn Hw] & Hs & Hlast & Hl). cbn [spread].
  rewrite fields_ink by done. cbn [app]. destruct s as [|c s].
  - rewrite (Hlast eq_refl). cbn. by destruct w.
  - apply Forall_cons in Hs as [[_ Hc] Hs]. cbn [app fmap list_fmap fields]. rewrite Hc, fields_space by done.
    rewrite IH by done. csimpl. by destruct w.
Qed.

(** ** Numbers *)

Lemma digits_value_snoc s c : digits_value (s ++ [c]) = 10 * digits_value s + (c - 48).
Proof. unfold digits_value. by rewrite foldl_snoc. Qed.

Lemma utoa_fuel_ok n : forall v, 0 <= v < 10 ^ Z.of_nat n -> (0 < n)%nat ->
  digits_value (utoa_fuel n v) = v /\ forallb is_digit (utoa_fuel n v) = true /\ utoa_fuel n v <> [].
Proof.
  induction n as [|n IH]; intros v Hv Hn; [lia|]. cbn [utoa_fuel]. destruct (Z.ltb_spec v 10).
  - repeat split; [unfold digits_value; cbn [foldl]; lia| |done]. cbn [forallb]. by rewrite is_digit_48 by lia.
  - rewrite Nat2Z.inj_succ, Z.pow_succ_r in Hv by lia.
    assert (n <> 0%nat) as Hn0 by (intros ->; simpl in Hv; lia).
    destruct (IH (v / 10)) as (E & D & N); [|lia|].
    { split; [apply Z.div_pos; lia|]. apply Z.div_lt_upper_bound; lia. }
    repeat split.
    + rewrite digits_value_snoc, E. pose proof (Z.div_mod v 10). lia.
    + rewrite forallb_app, D. cbn [forallb]. rewrite is_digit_48 by (apply Z.mod_pos_bound; lia). done.
    + by destruct (utoa_fuel n (v / 10)).
Qed.

Lemma utoa_ok v : 0 <= v -> digits_value (utoa v) = v /\ forallb is_digit (utoa v) = true /\ utoa v <> [].
Proof.
  intros Hv. apply utoa_fuel_ok; [|lia]. split; [done|]. rewrite Nat2Z.inj_succ, Z2Nat.id by apply Z.log2_nonneg.
  destruct (Z.eq_dec v 0) as [-> |]; [done|]. pose proof (Z.log2_spec v). pose proof (Z.log2_nonneg v).
  apply (Z.lt_le_trans _ (2 ^ Z.succ (Z.log2 v))); [lia|]. apply Z.pow_le_mono_l. lia.
Qed.

Lemma digit_ink c : is_digit c = true -> ink c /\ c <> 45 /\ c <> 43.
Proof.
  unfold is_digit. rewrite between_spec. intros H. split; [|lia]. split; [unfold ascii; lia|].
  assert (c ∈ seqZ 48 10) as Hc by (apply elem_of_seqZ; lia). vm_compute in Hc.
  repeat (apply elem_of_cons in Hc as [-> | Hc]; [reflexivity|]). by apply elem_of_nil in Hc.
Qed.

Lemma digits_ink s : forallb is_digit s = true -> Forall ink s /\ Forall (fun c => c <> 45 /\ c <> 43) s.
Proof.
  rewrite forallb_forall. intros H. split; apply Forall_forall; intros c Hc; apply digit_ink, H; by apply list_elem_of_In.
Qed.

Lemma sign_digits s : forallb is_digit s = true -> sign s = (false, s).
Proof.
  intros H. apply digits_ink in H as [_ H]. destruct s as [|c s]; [done|]. apply Forall_cons in H as [[H1 H2] _].
  unfold sign. destruct c as [|p|p]; try done. do 6 (destruct p as [p|p|]; try done).
Qed.

Lemma Atoi_utoa v : 0 <= v < 2 ^ 63 -> Atoi (utoa v) = Some v.
Proof.
  intros Hv. destruct (utoa_ok v) as (E & D & N); [lia|]. unfold Atoi. rewrite sign_digits by done.
  rewrite bool_decide_eq_false_2, D by done. cbn [negb andb signed]. rewrite E.
  assert (between (- 2 ^ 63) (2 ^ 63 - 1) v = true) as ->; [|done]. apply between_spec. lia.
Qed.

(** ** Names *)

Lemma LastIndex_none s c : c ∉ s -> LastIndex s c = None.
Proof.
  induction s as [|x s IH]; intros H; [done|]. rewrite not_elem_of_cons in H. destruct H as [Hx H]. cbn [LastIndex].
  rewrite IH by done. destruct (Z.eqb_spec x c); [congruence|done].
Qed.

Lemma LastIndex_app a b c : c ∉ b -> LastIndex (a ++ c :: b) c = Some (length a).
Proof.
  intros H. induction a as [|x a IH]; cbn [app LastIndex].
  - by rewrite LastIndex_none, Z.eqb_refl.
  - by rewrite IH.
Qed.

Lemma allDigits_digits s : s <> [] -> forallb is_digit s = true -> allDigits s = true.
Proof.
  intros Hn Hs. unfold allDigits. rewrite decide_False by done. rewrite runes_ascii.
  - revert Hs. rewrite !forallb_forall. intros H c Hc. specialize (H c Hc). unfold is_digit, between in H. lia.
  - apply digits_ink in Hs as [Hs _]. eapply Forall_impl; [done|]. by intros c [? _].
Qed.

(** The suffix with the number of processors is dropped. *)
Lemma normalize_suffix n procs : n <> [] -> 0 <= procs -> normalizeBenchmarkName (n ++ 45 :: utoa procs) = n.
Proof.
  intros Hn Hp. destruct (utoa_ok procs Hp) as (_ & D & N). pose proof (digits_ink _ D) as [_ Hd].
  unfold normalizeBenchmarkName. rewrite LastIndex_app.
  - assert (0 <? length n = true)%nat as -> by (destruct n; [done|reflexivity]).
    replace (length n + 1)%nat with (S (length n)) by lia. rewrite drop_app, drop_ge, Nat.sub_succ_l, Nat.sub_diag by lia.
    cbn [drop app]. by rewrite allDigits_digits, take_app_length by done.
  - intros H. rewrite Forall_forall in Hd. by destruct (Hd 45 H).
Qed.

(** ** Lines *)

Section lines.
Context {S : Strconv}.

(** The last number with a unit. *)
Definition reading (unit : bytes) (ms : list (bytes * bytes)) : option f64 :=
  last (omap (fun m => if decide (m.2 = unit) then ParseFloat m.1 else None) ms).

Lemma reading_cons unit v u ms :
  reading unit ((v, u) :: ms) =
  match reading unit ms with
  | Some x => Some x
  | None => if decide (u = unit) then ParseFloat v else None
  end.
Proof.
  unfold reading. csimpl. case_decide; [|by case_match]. destruct (ParseFloat v) as [x|]; [|by case_match].
  rewrite last_cons. by case_match.
Qed.

Definition pairs (ms : list (bytes * bytes)) : list bytes := concat ((fun m => [m.1; m.2]) <$> ms).

Definition or_else {A} (o d : option A) : option A := match o with Some x => Some x | None => d end.

Lemma units_differ : lit "ns/op" <> lit "B/op" /\ lit "ns/op" <> lit "allocs/op" /\ lit "B/op" <> lit "allocs/op".
Proof. done. Qed.

Lemma measures_ok ms : forall s found,
  measures (pairs ms) s found =
  (Sample (Iterations s) (default (NSPerOp s) (reading (lit "ns/op") ms))
     (or_else (reading (lit "B/op") ms) (BytesPerOp s)) (or_else (reading (lit "allocs/op") ms) (AllocsPerOp s)),
   found || bool_decide (is_Some (reading (lit "ns/op") ms))).
Proof.
  induction ms as [|[v u] ms IH]; intros s found.
  { cbn. rewrite orb_false_r. by destruct s. }
  pose proof units_differ as (H1 & H2 & H3).
  cbn [pairs fmap list_fmap concat app measures fst snd]. fold (pairs ms). rewrite !reading_cons.
  revert H1 H2 H3 IH. generalize (lit "ns/op") (lit "B/op") (lit "allocs/op"). intros ns bs al H1 H2 H3 IH.
  destruct (ParseFloat v) as [x|]; repeat case_decide; subst; try congruence; rewrite IH; cbn [Iterations NSPerOp BytesPerOp AllocsPerOp];
    destruct (reading ns ms), (reading bs ms), (reading al ms); simpl; rewrite ?orb_true_r; done.
Qed.

(** A line that prints a sample: the name with the number of processors, the
    iterations, then numbers each followed by its unit, in fields. *)
Inductive prints (p : parsedSample) : bytes -> Prop :=
  | prints_line procs ms line :
      spaced line ->
      line.*1 = (name p ++ 45 :: utoa procs) :: utoa (Iterations (sample p)) :: pairs ms ->
      0 <= procs -> 0 <= Iterations (sample p) < 2 ^ 63 -> HasPrefix (name p) (lit "Benchmark") = true ->
      reading (lit "ns/op") ms = Some (NSPerOp (sample p)) ->
      reading (lit "B/op") ms = BytesPerOp (sample p) ->
      reading (lit "allocs/op") ms = AllocsPerOp (sample p) ->
      prints p (spread line).

Lemma HasPrefix_app s p x : HasPrefix s p = true -> HasPrefix (s ++ x) p = true.
Proof.
  unfold HasPrefix. rewrite !bool_decide_eq_true. intros H. rewrite <- H at 2. apply take_app_le.
  rewrite <- H, length_take. lia.
Qed.

Lemma parse_prints p line : prints p line -> parse_line line = Some p.
Proof.
  destruct 1 as [procs ms line Hsp Hl Hp Hi Hpre Hns Hb Ha]. unfold parse_line. rewrite Fields_spread, Hl by done.
  rewrite HasPrefix_app by done. assert (length (pairs ms) <? 2 = false)%nat as ->.
  { destruct ms as [|m ms]; [done|]. reflexivity. }
  cbn [orb negb]. rewrite Atoi_utoa by done. cbn [mbind option_bind].
  rewrite measures_ok, Hns, Hb, Ha. cbn [Iterations NSPerOp BytesPerOp AllocsPerOp default orb].
  rewrite bool_decide_eq_true_2 by by eexists. f_equal. rewrite normalize_suffix; [|intros E; by rewrite E in Hpre|done].
  destruct p as [n [it ns bs al]]. simpl. f_equal. by destruct bs, al.
Qed.

(** ** The whole output *)

(** A line that is not the result of a benchmark. *)
Definition other_line (line : bytes) : Prop :=
  match Fields line with f :: _ => HasPrefix f (lit "Benchmark") = false | [] => True end.

Lemma parse_other line : other_line line -> parse_line line = None.
Proof.
  unfold other_line, parse_line. destruct (Fields line) as [|f0 [|f1 fs]]; [done|done|]. intros ->. by rewrite orb_true_r.
Qed.

(** An output and the samples it prints, line by line. *)
Inductive output_of : list parsedSample -> bytes -> Prop :=
  | output_end : output_of [] []
  | output_other ps line rest : 10 ∉ line -> other_line line -> output_of ps rest -> output_of ps (line ++ 10 :: rest)
  | output_sample p ps line rest : 10 ∉ line -> prints p line -> output_of ps rest -> output_of (p :: ps) (line ++ 10 :: rest).

Lemma Split_nonempty s c : Split s c <> [].
Proof. destruct s as [|x s]; [done|]. simpl. case_match; [done|]. by destruct (Split s c). Qed.

Lemma Split_app line rest c : c ∉ line -> Split (line ++ c :: rest) c = line :: Split rest c.
Proof.
  induction line as [|x line IH]; cbn [app Split]; [by rewrite Z.eqb_refl|].
  rewrite not_elem_of_cons. intros [Hx H]. destruct (Z.eqb_spec x c); [congruence|]. by rewrite IH.
Qed.

Lemma parse_output_of ps out : output_of ps out -> parseBenchmarkSamples out = ps.
Proof.
  unfold parseBenchmarkSamples.
  induction 1 as [|ps line rest Hn Ho _ IH|p ps line rest Hn Hp _ IH]; [done| |]; rewrite Split_app by done; csimpl.
  - by rewrite parse_other.
  - rewrite (parse_prints p) by done. by rewrite IH.
Qed.
End lines.

(** ** Properties *)

(** C33: from the output of go test the samples are read back as they were
    printed, in order, under the names without the number of processors;
    every other line is passed over. *)
Theorem parseBenchmarkSamples_correct {S : Strconv} ps output : output_of ps output -> parseBenchmarkSamples output = ps.
Proof. apply parse_output_of. Qed.
