(* ===== verification/Archive.v ===== *)
(** * Storing benchmark runs: proofs

    A run of tools/benchreport/main.go is found again among the stored runs by
    the name of its file, whatever other runs are stored. *)

From Stdlib Require Import String.
From S2P Require Import Prelude GoSort GoText Float64 GoTime Report Compare Bench.

Open Scope Z_scope.

(** ** The identifier of a system can name a directory *)

(** The bytes of identifiers: ASCII letters and digits, the dash, and the bytes
    of other letters and digits. *)
Definition slug_byte (c : Z) : Prop :=
  48 <= c <= 57 \/ 65 <= c <= 90 \/ 97 <= c <= 122 \/ c = 45 \/ 128 <= c.

Lemma encode_high r : 128 <= r -> Forall (fun c => 128 <= c) (encode r).
Proof.
  intros H. unfold encode. set (r' := if (_ || _ || _) : bool then RuneError else r).
  assert (128 <= r') as Hr by (unfold r', RuneError; case_match; lia). clearbody r'.
  destruct (Z.ltb_spec r' 128); [lia|].
  destruct (Z.ltb_spec r' 2048); [|destruct (Z.ltb_spec r' 65536)];
    repeat constructor; try (pose proof (Z.mod_pos_bound r' 64); lia);
    try (pose proof (Z.mod_pos_bound (r' / 64) 64); lia); try (pose proof (Z.mod_pos_bound (r' / 4096) 64); lia);
    match goal with |- _ <= _ + ?a / ?b => pose proof (Z.div_pos a b); lia end.
Qed.

Section slug.
Context {U : Unicode}.

Lemma encode_slug r : IsLetter r || IsDigit r = true -> Forall slug_byte (encode r).
Proof.
  intros H. destruct (Z.ltb_spec r 128).
  - unfold IsLetter, IsDigit, is_digit in H. destruct (Z.ltb_spec r 128); [|lia].
    rewrite !orb_true_iff, !between_spec in H. rewrite encode_ascii by (unfold ascii; lia).
    constructor; [|constructor]. unfold slug_byte. lia.
  - eapply Forall_impl; [by apply encode_high|]. intros c Hc. simpl in Hc. unfold slug_byte. lia.
Qed.

Lemma dash_byte : Forall slug_byte (lit "-").
Proof. change (lit "-") with [45]. constructor; [unfold slug_byte; lia|constructor]. Qed.

Lemma slug_fold_bytes rs : forall st, Forall slug_byte st.1 -> Forall slug_byte (foldl slug_step st rs).1.
Proof.
  induction rs as [|r rs IH]; intros [b d] Hb; [done|]. apply IH. unfold slug_step.
  destruct (IsLetter r || IsDigit r) eqn:E; [apply Forall_app; split; [done|by apply encode_slug]|].
  case_match; [|done]. apply Forall_app. split; [done|]. exact dash_byte.
Qed.

Lemma drop_while_Forall {A} (P : A -> Prop) f l : Forall P l -> Forall P (drop_while f l).
Proof. induction 1 as [|x l Hx Hl IH]; [constructor|]. simpl. case_match; [done|by constructor]. Qed.

Lemma slug_bytes s : Forall slug_byte (slug s).
Proof.
  unfold slug, Trim, TrimRight, drop_last_while. rewrite Forall_reverse. apply drop_while_Forall. rewrite Forall_reverse.
  apply drop_while_Forall, slug_fold_bytes. constructor.
Qed.

Definition no_slash (c : bytes) : Prop := 47 ∉ c.

Lemma slug_byte_no_slash s : Forall slug_byte s -> no_slash s.
Proof. intros H Hs. rewrite Forall_forall in H. specialize (H 47 Hs). unfold slug_byte in H. lia. Qed.

Lemma system_ID_no_slash goos goarch output : no_slash (ID (parseSystemInfo goos goarch output)).
Proof.
  apply slug_byte_no_slash. unfold parseSystemInfo. cbn [ID Join]. rewrite !Forall_app.
  auto using slug_bytes, dash_byte.
Qed.
End slug.

(** ** Paths *)

Lemma Split_Join l : l <> [] -> Forall no_slash l -> Split (to_slash l) 47 = l.
Proof.
  intros Hn Hl. unfold to_slash. induction l as [|a [|b l] IH]; [done| |].
  - apply Forall_cons in Hl as [Ha _]. cbn [Join]. clear -Ha. unfold no_slash in Ha.
    induction a as [|x a IH]; [done|]. rewrite not_elem_of_cons in Ha. destruct Ha as [Hx Ha]. cbn [Split].
    destruct (Z.eqb_spec x 47); [congruence|]. by rewrite IH.
  - apply Forall_cons in Hl as [Ha Hl].
    change (Join (a :: b :: l) (lit "/")) with (a ++ 47 :: Join (b :: l) (lit "/")).
    rewrite Split_app by done. by rewrite IH.
Qed.

(** Different files have different names. *)
Lemma to_slash_inj p q : p <> [] -> q <> [] -> Forall no_slash p -> Forall no_slash q -> to_slash p = to_slash q -> p = q.
Proof. intros ? ? Hp Hq E. rewrite <- (Split_Join p), <- (Split_Join q) by done. by rewrite E. Qed.

Lemma digit_no_slash s : forallb is_digit s = true -> no_slash s.
Proof.
  rewrite forallb_forall. intros H Hs. apply list_elem_of_In in Hs. specialize (H _ Hs). by vm_compute in H.
Qed.

Lemma pad2_digits v : 0 <= v < 100 -> forallb is_digit (pad2 v) = true.
Proof.
  intros Hv. unfold pad2. cbn [forallb]. rewrite !is_digit_48; [done| |].
  - apply Z.mod_pos_bound. lia.
  - split; [apply Z.div_pos; lia|apply Z.div_lt_upper_bound; lia].
Qed.

Lemma stamp_no_slash c : civil_ok c -> no_slash (Format_stamp c).
Proof.
  intros (Hy & Hm & Hd & Hh & Hi & Hs). pose proof (daysIn_bound (c_month c) (c_year c)).
  assert (0 <= c_year c / 100 < 100 /\ 0 <= c_year c mod 100 < 100) as [? ?].
  { split; [split; [apply Z.div_pos; lia|apply Z.div_lt_upper_bound; lia]|apply Z.mod_pos_bound; lia]. }
  assert (forall v, 0 <= v < 100 -> 47 ∉ pad2 v) as H' by (intros v Hv; apply digit_no_slash; by apply pad2_digits).
  unfold no_slash, Format_stamp, pad4. rewrite !not_elem_of_app.
  repeat split; try (apply H'; lia); by intros ?%list_elem_of_singleton.
Qed.

(** ** The stored runs *)

Section archive.
Context {U : Unicode} {T : TimeParse} {J : Json} {S : Strconv}.

Lemma Glob_elem fs f : f ∈ Glob fs <-> fs !! f.1 = Some f.2 /\ is_data f.1 = true.
Proof.
  unfold Glob. rewrite sort_by_elem, list_elem_of_filter. destruct f as [p t]. simpl.
  rewrite elem_of_map_to_list. tauto.
Qed.

(** Every stored run can be read. *)
Definition readable (fs : files) : Prop :=
  forall p t, fs !! p = Some t -> is_data p = true -> is_Some (Unmarshal t).

(** Paths as a file system has them: no component holds a slash. *)
Definition real_paths (fs : files) : Prop := forall p t, fs !! p = Some t -> Forall no_slash p.

Lemma load_files_ok l : (forall f, f ∈ l -> is_Some (Unmarshal f.2)) ->
  exists rs, load_files l = inr rs /\ Forall2 (fun f r => exists r0, Unmarshal f.2 = Some r0 /\ r = with_DataFile (to_slash f.1) r0) l rs.
Proof.
  induction l as [|f l IH]; intros H; [by exists []|]. destruct (H f) as [r0 E]; [left|].
  destruct IH as (rs & Es & Hrs); [intros g Hg; apply H; by right|].
  exists (with_DataFile (to_slash f.1) r0 :: rs). cbn [load_files]. unfold load_file. rewrite E, Es.
  split; [done|]. constructor; [by exists r0|done].
Qed.

Lemma findRun_spec rs f :
  match findRun rs f with
  | Some r => r ∈ rs /\ DataFile r = f
  | None => forall r, r ∈ rs -> DataFile r <> f
  end.
Proof.
  induction rs as [|r rs IH]; cbn [findRun]; [by intros r ?%elem_of_nil|]. case_decide; [by split; [left|]|].
  destruct (findRun rs f); [destruct IH; by split; [right|]|].
  intros r' [-> |?]%elem_of_cons; auto.
Qed.

Lemma findRun_unique rs r : r ∈ rs -> (forall r', r' ∈ rs -> DataFile r' = DataFile r -> r' = r) -> findRun rs (DataFile r) = Some r.
Proof.
  intros Hr Hu. pose proof (findRun_spec rs (DataFile r)) as H. destruct (findRun rs (DataFile r)) as [r'|].
  - destruct H as [H1 H2]. f_equal. by apply Hu.
  - by destruct (H r Hr).
Qed.

(** The runs [loadRuns] gives: one for each data file, with its name. *)
Lemma loadRuns_ok fs : readable fs ->
  exists runs, loadRuns fs = inr runs /\
    forall r, r ∈ runs <-> exists p t r0, fs !! p = Some t /\ is_data p = true /\ Unmarshal t = Some r0 /\
      r = with_DataFile (to_slash p) r0.
Proof.
  intros Hrd. destruct (load_files_ok (Glob fs)) as (rs & E & Hrs).
  { intros [p t] [H1 H2]%Glob_elem. by apply (Hrd p). }
  exists (sortRuns rs). unfold loadRuns. rewrite E. split; [done|]. intros r. unfold sortRuns. rewrite sort_by_elem. split.
  - intros (i & Hi)%list_elem_of_lookup. destruct (Forall2_lookup_r _ _ _ _ _ Hrs Hi) as ([p t] & Hf & r0 & E0 & ->).
    apply list_elem_of_lookup_2, Glob_elem in Hf as [? ?]. eauto 10.
  - intros (p & t & r0 & H1 & H2 & H3 & ->). assert ((p, t) ∈ Glob fs) as Hg by by apply Glob_elem.
    apply list_elem_of_lookup in Hg as [i Hi]. destruct (Forall2_lookup_l _ _ _ _ _ Hrs Hi) as (r & Hr & r1 & E1 & ->).
    apply list_elem_of_lookup_2 in Hr. simpl in *. by simplify_eq.
Qed.

#[export] Instance run_less_weak : WeakOrder run_less.
Proof.
  assert (forall a b, run_less a b = false <->
    parseTime (Timestamp b) < parseTime (Timestamp a) \/
    (parseTime (Timestamp b) = parseTime (Timestamp a) /\ bytes_less (DataFile a) (DataFile b) = false)) as H.
  { intros a b. unfold run_less. destruct (Z.eqb_spec (parseTime (Timestamp a)) (parseTime (Timestamp b))); [|lia].
    split; [by right|]. intros [?|[_ ?]]; [lia|done]. }
  split; unfold not_after.
  - intros a b. rewrite H. unfold run_less. destruct (Z.eqb_spec (parseTime (Timestamp a)) (parseTime (Timestamp b))); [|lia].
    intros E%(less_asym (WeakOrder := bytes_less_weak)). by right.
  - intros a b c. rewrite !H. intros [H1|[H1 H1']] [H2|[H2 H2']]; try (left; lia). right. split; [lia|].
    by apply (not_after_trans (WeakOrder := bytes_less_weak) (DataFile a) (DataFile b)).
Qed.

(** ** A run is stored *)

(** The run with the names of its files. *)
Definition named (i : inputs) (r : storedRun) : storedRun :=
  with_DataFile (to_slash (data_path (ID (System r)) (Format_stamp (now i))))
    (with_RawOutput (to_slash (raw_path (ID (System r)) (Format_stamp (now i)))) r).

(** The encoding of the run can be read back; the name of the file, which has
    the tag "-", is not part of it. *)
Definition encodes (r : storedRun) (text : bytes) : Prop :=
  MarshalIndent r = Some text /\ Unmarshal (text ++ [10]) = Some (with_DataFile [] r).

(** The files with those of the run. *)
Definition with_run (i : inputs) (r : storedRun) (text : bytes) (fs : files) : files :=
  <[data_path (ID (System r)) (Format_stamp (now i)) := text ++ [10]]>
    (<[raw_path (ID (System r)) (Format_stamp (now i)) := bench_output i]> fs).

Lemma data_is_data id stamp : is_data (data_path id stamp) = true.
Proof.
  unfold is_data, data_path. rewrite bool_decide_eq_true_2 by done. cbn [andb].
  rewrite length_app. cbn [length]. replace (length stamp + 5 - 5)%nat with (length stamp) by lia.
  change (length (lit ".json")) with 5%nat. rewrite Nat.add_sub, drop_app_length. done.
Qed.

Lemma raw_not_data id stamp : is_data (raw_path id stamp) = false.
Proof.
  unfold is_data, raw_path. apply andb_false_iff. right. apply bool_decide_eq_false.
  rewrite length_app. change (length (lit ".txt")) with 4%nat. intros E.
  rewrite drop_app_le in E by lia. apply (f_equal last) in E. rewrite last_app in E. by vm_compute in E.
Qed.

Section stored.
Context (i : inputs) (r : storedRun) (text : bytes) (fs : files).
Context (Hcivil : civil_ok (now i)) (Hread : readable fs) (Hreal : real_paths fs).
Context (Hid : no_slash (ID (System r))) (Henc : encodes (named i r) text).

Let data := data_path (ID (System r)) (Format_stamp (now i)).
Let fs2 := with_run i r text fs.

Lemma data_no_slash : Forall no_slash data.
Proof.
  unfold data, data_path. repeat constructor; try done.
  - intros H. by vm_compute in H; repeat (apply elem_of_cons in H as [H|H]; [done|]); apply elem_of_nil in H.
  - unfold no_slash. rewrite not_elem_of_app. split; [by apply stamp_no_slash|].
    intros H. by vm_compute in H; repeat (apply elem_of_cons in H as [H|H]; [done|]); apply elem_of_nil in H.
Qed.

Lemma stored_lookup p t : is_data p = true -> fs2 !! p = Some t <-> (p = data /\ t = text ++ [10]) \/ (p <> data /\ fs !! p = Some t).
Proof.
  intros Hp. unfold fs2, with_run. fold data. destruct (decide (p = data)) as [-> |Hne].
  - rewrite lookup_insert_eq. naive_solver.
  - rewrite !lookup_insert_ne; [naive_solver| |done]. intros <-. by rewrite raw_not_data in Hp.
Qed.

Lemma stored_readable : readable fs2.
Proof.
  intros p t Ht Hp. apply (stored_lookup p t Hp) in Ht as [[-> ->]|[_ Ht]]; [|by apply (Hread p)].
  destruct Henc as [_ ->]. by eexists.
Qed.

Lemma stored_runs :
  exists old runs, loadRuns fs = inr old /\ loadRuns fs2 = inr runs /\
    (forall r', r' ∈ runs <-> r' = named i r \/ (r' ∈ old /\ DataFile r' <> DataFile (named i r))) /\
    findRun runs (DataFile (named i r)) = Some (named i r).
Proof.
  destruct (loadRuns_ok fs Hread) as (old & E1 & H1). destruct (loadRuns_ok fs2 stored_readable) as (runs & E2 & H2).
  assert (with_DataFile (to_slash data) (with_DataFile [] (named i r)) = named i r) as En by done.
  assert (forall r', r' ∈ runs <-> r' = named i r \/ (r' ∈ old /\ DataFile r' <> DataFile (named i r))) as H.
  { intros r'. rewrite H2, H1. split.
    - intros (p & t & r0 & Ht & Hp & Hu & ->). apply (stored_lookup p t Hp) in Ht as [[-> ->]|[Hne Ht]].
      + left. destruct Henc as [_ He]. rewrite He in Hu. injection Hu as <-. exact En.
      + right. split; [by exists p, t, r0|]. intros E. apply Hne. apply to_slash_inj; try done.
        * by destruct p.
        * by apply (Hreal p t).
        * apply data_no_slash.
    - intros [->|[(p & t & r0 & Ht & Hp & Hu & ->) Hne]].
      + exists data, (text ++ [10]), (with_DataFile [] (named i r)). split; [apply stored_lookup; [apply data_is_data|by left]|].
        split; [apply data_is_data|]. split; [apply Henc|done].
      + exists p, t, r0. split; [|done]. apply stored_lookup; [done|]. right. split; [|done]. intros ->. by apply Hne. }
  exists old, runs. split; [done|]. split; [done|]. split; [done|].
  apply findRun_unique; [apply H; by left|]. intros r' [->|[_ Hne]]%H E; [done|by destruct Hne].
Qed.

Lemma store_and_report_ok visit : exists old runs,
  loadRuns fs = inr old /\ loadRuns fs2 = inr runs /\
  (forall r', r' ∈ runs <-> r' = named i r \/ (r' ∈ old /\ DataFile r' <> DataFile (named i r))) /\
  store_and_report visit r i fs = (inr (named i r), <[[lit "report.md"] := report_text visit (named i r) runs]> fs2).
Proof.
  destruct stored_runs as (old & runs & E1 & E2 & H & Hf). exists old, runs. split; [done|]. split; [done|]. split; [done|].
  unfold store_and_report, writeRun. destruct Henc as [Hm _].
  change (with_DataFile _ (with_RawOutput _ r)) with (named i r). rewrite Hm.
  change (<[data_path _ _ := text ++ [10]]> _) with fs2. rewrite E2, Hf. done.
Qed.
End stored.
End archive.

(** ** Properties *)

(** C30: when the benchmarks run and print results, the tool stores the run
    under a name of its own, keeps every other stored run, reads it back, and
    writes the report of the run against all stored runs, in order of time. *)
Theorem run_stores_and_reports {U : Unicode} {T : TimeParse} {J : Json} {S : Strconv} visit_names visit_systems cfg i fs :
  1 <= count cfg -> bench_failed i = false -> parseBenchmarkSamples (bench_output i) <> [] ->
  visits name (parseBenchmarkSamples (bench_output i)) visit_names ->
  civil_ok (now i) -> readable fs -> real_paths fs ->
  (forall results, summarize visit_names (parseBenchmarkSamples (bench_output i)) = Ok results ->
    exists text, encodes (named i (new_run cfg i results)) text) ->
  exists results text old runs,
    let r := new_run cfg i results in
    summarize visit_names (parseBenchmarkSamples (bench_output i)) = Ok results /\
    encodes (named i r) text /\ loadRuns fs = inr old /\ loadRuns (with_run i r text fs) = inr runs /\
    (forall r', r' ∈ runs <-> r' = named i r \/ (r' ∈ old /\ DataFile r' <> DataFile (named i r))) /\
    run visit_names visit_systems cfg i fs =
      Ok (inr (named i r), <[[lit "report.md"] := report_text visit_systems (named i r) runs]> (with_run i r text fs)).
Proof.
  intros Hc Hb Hs Hv Hn Hrd Hrl Henc.
  destruct (summaries_all visit_names _ Hv) as (results & E & _). destruct (Henc results E) as [text Ht].
  destruct (store_and_report_ok i (new_run cfg i results) text fs Hn Hrd Hrl (system_ID_no_slash _ _ _) Ht visit_systems)
    as (old & runs & E1 & E2 & H & Er).
  exists results, text, old, runs. cbv zeta. do 5 (split; [done|]). unfold run.
  destruct (Z.ltb_spec (count cfg) 1); [lia|]. rewrite Hb, decide_False by done. rewrite E. go_bind. by rewrite Er.
Qed.
