(* ===== verification/ReportRuns.v ===== *)
(** * Runs of the report tool

    Concrete instances of the parameters of [Report], the examples of the
    repository's own test and stored reports, the witnesses of the theorems of
    [Compare], [Bench] and [Archive], and a run in which two processors share
    one identifier. *)

From Stdlib Require Import String.
From S2P Require Import Prelude GoSort GoText Float64 GoTime Report Compare Bench Archive.

Open Scope Z_scope.

(** ** Instances *)

(** Strings of ASCII only need the part of the tables that is defined. *)
Definition ascii_unicode : Unicode := {| letter_high := fun _ => false; digit_high := fun _ => false; lower_high := fun r => r |}.
Definition decimal_only : Strconv := {| ParseFloat_other := fun _ => None |}.
Definition rfc3339_only : TimeParse := {| Parse_other := fun _ => None |}.

(** A code for runs: the number stdpp gives the run, in binary, least digit
    first. *)
Definition float_tuple (x : f64) : nat * bool * positive * Z :=
  match x with
  | SpecFloat.S754_zero s => (0%nat, s, 1%positive, 0)
  | SpecFloat.S754_infinity s => (1%nat, s, 1%positive, 0)
  | SpecFloat.S754_nan => (2%nat, false, 1%positive, 0)
  | SpecFloat.S754_finite s m e => (3%nat, s, m, e)
  end.
Definition float_untuple (t : nat * bool * positive * Z) : f64 :=
  let '(k, s, m, e) := t in
  match k with
  | 0%nat => SpecFloat.S754_zero s
  | 1%nat => SpecFloat.S754_infinity s
  | 2%nat => SpecFloat.S754_nan
  | _ => SpecFloat.S754_finite s m e
  end.
#[local] Instance f64_countable : Countable f64.
Proof. apply (inj_countable' float_tuple float_untuple). by intros []. Defined.

#[local] Instance sample_countable : Countable benchmarkSample.
Proof.
  apply (inj_countable' (fun s => (Iterations s, NSPerOp s, BytesPerOp s, AllocsPerOp s))
    (fun '(i, n, b, a) => Sample i n b a)). by intros [].
Defined.
#[local] Instance result_countable : Countable benchmarkResult.
Proof.
  apply (inj_countable' (fun r => (Name r, Samples r, MedianNSPerOp r, MedianBytesPerOp r, MedianAllocsPerOp r))
    (fun '(n, s, m, b, a) => Result n s m b a)). by intros [].
Defined.
#[local] Instance system_countable : Countable systemInfo.
Proof.
  apply (inj_countable' (fun s => (ID s, GOOS s, GOARCH s, CPU s)) (fun '(i, o, a, c) => SystemInfo i o a c)). by intros [].
Defined.
#[local] Instance run_countable : Countable storedRun.
Proof.
  apply (inj_countable'
    (fun r => (Version r, Timestamp r, Command r, GoVersion r, GitCommit r, GitDirty r, System r, RawOutput r, Results r, DataFile r))
    (fun '(v, t, c, g, m, d, s, o, rs, f) => StoredRun v t c g m d s o rs f)). by intros [].
Defined.

Fixpoint binary (p : positive) : bytes :=
  match p with xH => [] | xO p => 48 :: binary p | xI p => 49 :: binary p end.
Fixpoint unbinary (s : bytes) : positive :=
  match s with 48 :: s => xO (unbinary s) | 49 :: s => xI (unbinary s) | _ => xH end.

Lemma unbinary_binary p s : unbinary (binary p ++ 10 :: s) = p.
Proof. induction p; simpl; congruence. Qed.

(** It leaves out the name of the file. *)
Definition binary_json : Json := {|
  MarshalIndent := fun r => Some (binary (countable.encode (with_DataFile [] r)));
  Unmarshal := fun text => countable.decode (unbinary text) |}.

Lemma binary_encodes r : encodes (J := binary_json) r (binary (countable.encode (with_DataFile [] r))).
Proof. split; [done|]. simpl. by rewrite unbinary_binary, decode_encode. Qed.

#[local] Existing Instances ascii_unicode decimal_only rfc3339_only binary_json.

(** ** The examples of main_test.go and of the stored reports *)

Definition num (s : bytes) : f64 := default f64_zero (ParseFloat s).

Definition test_output : bytes :=
  lit "goos: darwin\ngoarch: arm64\npkg: mykv\ncpu: Apple M4 Pro\n" ++
  lit "BenchmarkCollectionPut-12       10  100.0 ns/op  20 B/op  2 allocs/op\n" ++
  lit "BenchmarkCollectionPut-12       10  120.0 ns/op  24 B/op  4 allocs/op\n" ++
  lit "BenchmarkCollectionPut-12       10  110.0 ns/op  22 B/op  3 allocs/op\n".

Definition test_sample (ns b a : Z) : benchmarkSample := Sample 10 (f64_of_Z ns) (Some (f64_of_Z b)) (Some (f64_of_Z a)).

Example TestParseBenchmarkSamplesAndSummarize :
  summarize [lit "BenchmarkCollectionPut"] (parseBenchmarkSamples test_output) =
  Ok [Result (lit "BenchmarkCollectionPut") [test_sample 100 20 2; test_sample 120 24 4; test_sample 110 22 3]
       (f64_of_Z 110) (Some (f64_of_Z 22)) (Some (f64_of_Z 3))].
Proof. vm_compute. reflexivity. Qed.

Example test_system :
  parseSystemInfo (lit "linux") (lit "amd64") test_output =
  SystemInfo (lit "darwin-arm64-apple-m4-pro") (lit "darwin") (lit "arm64") (lit "Apple M4 Pro").
Proof. vm_compute. reflexivity. Qed.

(** The directory of the stored runs. *)
Example stored_system :
  slug (lit "Intel(R) Core(TM) i7-1068NG7 CPU @ 2.30GHz") = lit "intel-r-core-tm-i7-1068ng7-cpu-2-30ghz".
Proof. vm_compute. reflexivity. Qed.

(** Two rows of benchmarks/report.md. *)
Example stored_row_up :
  formatDelta (num (lit "292.2")) (num (lit "2326")) = lit "+696.03%" /\ formatNumber (num (lit "292.2")) = lit "292.2".
Proof. vm_compute. done. Qed.
Example stored_row_down :
  formatDelta (num (lit "1932")) (num (lit "1674")) = lit "-13.35%" /\ formatNumber (num (lit "1932")) = lit "1932".
Proof. vm_compute. done. Qed.

Definition at_time (t file : string) (s : systemInfo) : storedRun :=
  StoredRun 1 (lit t) [] [] [] None s [] [] (lit file).
Definition m4 : systemInfo := SystemInfo (lit "darwin-arm64-apple-m4-pro") (lit "darwin") (lit "arm64") (lit "Apple M4 Pro").
Definition m3 : systemInfo := SystemInfo (lit "darwin-arm64-apple-m3") (lit "darwin") (lit "arm64") (lit "Apple M3").
Definition current_run := at_time "2026-06-26T12:00:00Z" "runs/darwin-arm64-apple-m4-pro/current.json" m4.
Definition matching_run := at_time "2026-06-26T11:00:00Z" "runs/darwin-arm64-apple-m4-pro/previous.json" m4.
Definition other_run := at_time "2026-06-26T11:30:00Z" "runs/darwin-arm64-apple-m3/previous.json" m3.

Example TestPreviousSameHardwareIgnoresDifferentCPU :
  previousSameHardware current_run [matching_run; other_run; current_run] = Some matching_run.
Proof. vm_compute. reflexivity. Qed.

(** ** Witnesses *)

Definition test_runs : list storedRun := [matching_run; other_run; current_run].
Definition test_systems : list bytes := [ID m4; ID m3].

Lemma test_visits : visits (fun r => ID (System r)) test_runs test_systems.
Proof.
  split; [by vm_compute; repeat constructor; rewrite ?elem_of_cons, ?elem_of_nil; naive_solver|]. intros k. split.
  - intros [-> |[-> |?%elem_of_nil]%elem_of_cons]%elem_of_cons; [| |done].
    + exists matching_run. split; [left|done].
    + exists other_run. split; [right; left|done].
  - intros (r & [-> |[-> |[-> |?%elem_of_nil]%elem_of_cons]%elem_of_cons]%elem_of_cons & <-); try done;
      [left|right; left|left].
Qed.

Lemma latestRunsBySystem_correct_witness :
  StronglySorted (fun a b => bytes_lt (ID (System a)) (ID (System b))) [other_run; current_run] /\
  forall r, r ∈ [other_run; current_run] <-> first_greatest run_time (of_system (ID (System r))) test_runs r.
Proof. exact (latestRunsBySystem_correct test_systems test_runs test_visits). Defined.

Definition test_names : list bytes := [lit "BenchmarkCollectionPut"].

Lemma test_names_visits : visits name (parseBenchmarkSamples test_output) test_names.
Proof.
  split; [apply NoDup_singleton|]. intros k. unfold test_names. rewrite list_elem_of_singleton. split.
  - intros ->. exists (Parsed (lit "BenchmarkCollectionPut") (test_sample 100 20 2)). split; [|done].
    assert (head (parseBenchmarkSamples test_output) = Some (Parsed (lit "BenchmarkCollectionPut") (test_sample 100 20 2))) as H
      by (vm_compute; reflexivity). destruct (parseBenchmarkSamples test_output); [done|]. injection H as ->. left.
  - assert (Forall (fun s => name s = lit "BenchmarkCollectionPut") (parseBenchmarkSamples test_output)) as H
      by (vm_compute; repeat constructor). intros (s & Hs & <-). rewrite Forall_forall in H. by apply H.
Qed.

Lemma summarize_correct_witness :
  exists results, summarize test_names (parseBenchmarkSamples test_output) = Ok results /\
    StronglySorted bytes_lt (Name <$> results) /\
    (forall n, n ∈ Name <$> results <-> n ∈ name <$> parseBenchmarkSamples test_output) /\
    Forall (summarizes (parseBenchmarkSamples test_output)) results.
Proof. exact (summarize_correct test_names _ test_names_visits). Defined.

(** A line of the test, as fields. *)
Definition test_line : list (bytes * bytes) :=
  [(lit "BenchmarkCollectionPut-12", lit "       "); (lit "10", lit "  "); (lit "100.0", lit " "); (lit "ns/op", lit "  ");
   (lit "20", lit " "); (lit "B/op", lit "  "); (lit "2", lit " "); (lit "allocs/op", [])].

Lemma test_line_spaced : spaced test_line.
Proof.
  cbn [spaced test_line]. unfold word.
  repeat match goal with
  | |- True => exact I
  | |- Forall _ _ => apply (bool_decide_unpack _); vm_compute; exact I
  | |- _ /\ _ => split
  | |- _ <> [] => done
  | |- _ -> _ => done
  end.
Qed.

Lemma test_output_of :
  output_of [Parsed (lit "BenchmarkCollectionPut") (test_sample 100 20 2)]
    (lit "pkg: mykv" ++ 10 :: spread test_line ++ [10]).
Proof.
  apply output_other; [apply (bool_decide_unpack _); vm_compute; exact I|vm_compute; reflexivity|].
  apply output_sample; [apply (bool_decide_unpack _); vm_compute; exact I| |apply output_end].
  apply (prints_line _ 12 [(lit "100.0", lit "ns/op"); (lit "20", lit "B/op"); (lit "2", lit "allocs/op")]);
    [exact test_line_spaced|vm_compute; reflexivity|lia|simpl; lia|vm_compute; reflexivity..].
Qed.

Lemma parseBenchmarkSamples_correct_witness :
  parseBenchmarkSamples (lit "pkg: mykv" ++ 10 :: spread test_line ++ [10]) =
  [Parsed (lit "BenchmarkCollectionPut") (test_sample 100 20 2)].
Proof. exact (parseBenchmarkSamples_correct _ _ test_output_of). Defined.

(** A first run of the tool. *)
Definition test_inputs : inputs :=
  Inputs test_output false (Some (lit "go version go1.23.4 darwin/arm64\n")) None (Some []) (Civil 2026 6 26 12 0 0)
    (lit "darwin") (lit "arm64").

Lemma run_stores_and_reports_witness :
  exists r fs, run test_names [lit "darwin-arm64-apple-m4-pro"] parseFlags test_inputs ∅ = Ok (inr r, fs) /\
    DataFile r = lit "runs/darwin-arm64-apple-m4-pro/20260626T120000Z.json" /\
    fs !! [lit "runs"; lit "darwin-arm64-apple-m4-pro"; lit "20260626T120000Z.txt"] = Some test_output.
Proof.
  destruct (run_stores_and_reports test_names [lit "darwin-arm64-apple-m4-pro"] parseFlags test_inputs ∅)
    as (results & text & old & runs & _ & _ & _ & _ & _ & E); [done|done|by vm_compute|exact test_names_visits| | | | |].
  - vm_compute. repeat split; done.
  - intros p t Ht. by rewrite lookup_empty in Ht.
  - intros p t Ht. by rewrite lookup_empty in Ht.
  - intros rs _. eexists. apply binary_encodes.
  - eexists _, _. split; [exact E|]. split; [vm_compute; reflexivity|]. vm_compute. reflexivity.
Defined.

(** ** Two processors with one identifier *)

(** The report lists systems by identifier and compares by the names the
    identifier is made from; identifiers drop everything but letters and
    digits, so two processors can share one. *)
Definition cpu_a : bytes := lit "Intel(R) Xeon(R) CPU @ 2.20GHz".
Definition cpu_b : bytes := lit "Intel(R) Xeon(R) CPU 2.20GHz".

Definition on_cpu (cpu t file : bytes) : storedRun :=
  StoredRun 1 t [] [] [] None
    (parseSystemInfo (lit "linux") (lit "amd64") (lit "cpu: " ++ cpu)) [] [] file.

Theorem systems_with_one_identifier :
  let a := on_cpu cpu_a (lit "2026-06-26T11:00:00Z") (lit "a.json") in
  let b := on_cpu cpu_b (lit "2026-06-26T12:00:00Z") (lit "b.json") in
  sameHardware (System a) (System b) = false /\ previousSameHardware b [a; b] = None /\
  latestRunsBySystem [ID (System a)] [a; b] = [b].
Proof. repeat split; vm_compute; reflexivity. Qed.
