(* ===== verification/Cli.v ===== *)
(** * The command line tool (cmd/mykv/main.go)

    One run of the tool opens the database, runs one transaction and prints
    what it found.  The flags, the files on the disk, the page size of the
    machine and the orders of Go's loops over maps are inputs; the outcome is
    how the process ends, what it printed and the files it leaves.  [flag.Parse]
    and the text of errors are not modelled. *)

From Stdlib Require Import String.
From S2P Require Import Prelude Freelist Meta Node Float32 Dal Wal GoSlice World Tree Collection Tx Db GoText.

Open Scope Z_scope.

(** The variables the flags set, with their defaults. *)
Record flags := Flags { operation : bytes; collection : bytes; key : bytes; value : bytes }.

Definition default_flags : flags := Flags [] (lit "col") (lit "key") (lit "value").

(** How the process ends: [main] returns; [log.Fatal] exits with status 1, for
    an error of the database or for an unknown operation; a panic; or it never
    ends, waiting for a lock or without fuel in the model. *)
Inductive ending :=
  | Success
  | Fatal (e : gerror)
  | UnknownOperation
  | Panicked
  | Hangs
  | NoFuel.

(** A process inside its transaction: the transaction and what was printed. *)
Record process := Process { p_world : world; p_stdout : bytes }.

Definition in_tx {A} (m : M world A) : M process A :=
  zoom p_world (fun w p => Process w (p_stdout p)) m.

Definition Printf (format : String.string) (args : list bytes) : M process unit :=
  modS (fun p => Process (p_world p) (p_stdout p ++ Sprintf format args)).

Section cli.
Context {RT : GoRuntime}.
Context (fuel : nat) (colls : list bytes) (dirty : list Z).

Definition op_put (f : flags) : M process unit :=
  coll ← in_tx (GetOrCreateCollection fuel (collection f));
  in_tx (Put fuel coll (key f) (value f));;
  in_tx (Commit fuel colls dirty).

Definition op_get (f : flags) : M process unit :=
  coll ← in_tx (GetCollection fuel (collection f));
  match coll with
  | None =>
      Printf "Collection '%s' not found\n" [collection f];;
      in_tx (Commit fuel colls dirty)
  | Some coll =>
      item ← in_tx (Find fuel coll (key f));
      match item with
      | Some item => Printf "Found key '%s' with value '%s'\n" [key f; Node.value item]
      | None => Printf "Key '%s' not found in collection %s\n" [key f; collection f]
      end;;
      in_tx (Commit fuel colls dirty)
  end.

Definition op_delete (f : flags) : M process unit :=
  coll ← in_tx (GetCollection fuel (collection f));
  match coll with
  | None => in_tx (Commit fuel colls dirty)
  | Some coll =>
      in_tx (Remove fuel coll (key f));;
      in_tx (Commit fuel colls dirty)
  end.

(** [errAndDie] on the result of the calls of [main]. *)
Definition ending_of {A} (r : out A) : ending :=
  match r with
  | Ok _ => Success
  | Err e => Fatal e
  | Panic => Panicked
  | Blocked => Hangs
  | OutOfFuel => NoFuel
  end.

(** A transaction of the tool.  The files are those of the database whether the
    process closes it or dies. *)
Definition run_op (begin_tx : M DB world) (op : M process unit) (db : DB) : ending * bytes * disk :=
  match begin_tx db with
  | (Ok w, _) => let '(r, p) := op (Process w []) in (ending_of r, p_stdout p, Close (wdb (p_world p)))
  | (r, db) => (ending_of r, [], Close db)
  end.

Definition main (getpagesize : Z) (f : flags) (k : disk) : ending * bytes * disk :=
  match Open getpagesize (Some DefaultOptions) k with
  | (Ok db, _) =>
      if decide (operation f = lit "put") then run_op WriteTx (op_put f) db
      else if decide (operation f = lit "get") then run_op ReadTx (op_get f) db
      else if decide (operation f = lit "delete") then run_op WriteTx (op_delete f) db
      else (UnknownOperation, [], Close db)
  | (r, k) => (ending_of r, [], k)
  end.
End cli.
