(* ===== verification/Tool.v ===== *)
(** * The command line tool: proofs

    What one run of cmd/mykv stores is what the next run finds: processes share
    nothing but the files.  [at_rest] is a database file between two runs, of a
    machine with pages of 4096 or 16384 bytes. *)

From Stdlib Require Import String.
From S2P Require Import Prelude Freelist Meta Node Float32 Dal Wal Crash GoSlice World Tree Heap Contents Split Collection Search Shrink Insert Session Tx Db Isolation Durable Restart GoText Cli.

Open Scope Z_scope.

Definition tool_options (getpagesize : Z) : Options := withDefaults getpagesize DefaultOptions.

Record at_rest (getpagesize : Z) (k : disk) (d : dal) : Prop := {
  ar_machine : getpagesize = 4096 \/ getpagesize = 16384;
  ar_options : options_of d = tool_options getpagesize;
  ar_synced : synced d;
  ar_disk : k = Disk (file d) (wal d);
  ar_flp : 0 < freelistPage (dmeta d) /\ freelistPage (dmeta d) * pageSize d < 2 ^ 63
}.

(** The database as [Open] gives it. *)
Definition opened (d : dal) : DB := mkDB d false false 0.

(** The text [get] prints. *)
Definition answer (f : flags) (item : option Item) : bytes :=
  match item with
  | Some item => Sprintf "Found key '%s' with value '%s'\n" [Cli.key f; Node.value item]
  | None => Sprintf "Key '%s' not found in collection %s\n" [Cli.key f; Cli.collection f]
  end.

Section tool.
Context {RT : GoRuntime}.

Lemma at_rest_size gps k d : at_rest gps k d -> pageSize d = gps.
Proof. intros [Hm Ho _ _ _]. apply (f_equal o_pageSize) in Ho. change (pageSize d = o_pageSize (tool_options gps)) in Ho.
  rewrite Ho. by destruct Hm as [-> | ->]. Qed.

Lemma at_rest_splittable gps k d : at_rest gps k d -> splittable d.
Proof.
  intros [Hm Ho _ _ _]. pose proof (f_equal o_pageSize Ho) as H1. pose proof (f_equal MinFillPercent Ho) as H2.
  pose proof (f_equal MaxFillPercent Ho) as H3. destruct Hm as [-> | ->]; [apply default_4096|apply default_16384]; exact (conj H1 (conj H2 H3)).
Qed.

Lemma Open_at_rest gps k d : at_rest gps k d -> Open gps (Some DefaultOptions) k = (Ok (opened d), k).
Proof.
  intros H. pose proof (at_rest_size _ _ _ H) as Hs. destruct H as [Hm Ho Hsy Hk _]. unfold Open.
  change (withDefaults gps _) with (tool_options gps). cbv zeta. assert (validate (tool_options gps) = Ok tt) as -> by (destruct Hm as [-> | ->]; by vm_compute).
  rewrite <- Ho, Hk, synced_reopens; [done| |done]. destruct Hm; lia.
Qed.

(** ** Steps of a process *)

Lemma in_tx_step {A B} (m : M world A) (f : A -> M process B) w s a w' :
  m w = (Ok a, w') -> (in_tx m ≫= f) (Process w s) = f a (Process w' s).
Proof. intros E. unfold in_tx, zoom. unfold mbind, M_bind at 1. cbn [p_world]. by rewrite E. Qed.

Lemma in_tx_last {A} (m : M world A) w s a w' : m w = (Ok a, w') -> in_tx m (Process w s) = (Ok a, Process w' s).
Proof. intros E. unfold in_tx, zoom. cbn [p_world]. by rewrite E. Qed.

(** The pages a transaction sees at its start depend on the database only. *)
Lemma begin_page b b' wr wr' pn : ddal b = ddal b' -> page_node pn (begin b wr) = page_node pn (begin b' wr').
Proof. intros E. unfold page_node, dirty_at. cbn. by rewrite E. Qed.

Lemma begin_shows b b' wr wr' name tr t :
  ddal b = ddal b' -> shows_collection (begin b wr) name tr t -> shows_collection (begin b' wr') name tr t.
Proof.
  intros E [H1 H2 H3 H4 H5 H6 H7 H8]. assert (forall pn, page_node pn (begin b' wr') = page_node pn (begin b wr)) as Hp
    by (intros pn; by apply begin_page). split; try done; [by rewrite H1; cbn; rewrite E|..]; by apply (repr_frame (begin b wr)).
Qed.

(** A reader gives back its lock, and that is all a commit of it does. *)
Lemma Commit_reader fuel colls dirty w n :
  write (wtx w) = false -> commitReaders (wdb w) = S n ->
  Commit fuel colls dirty w = (Ok tt, with_wdb (mkDB (ddal (wdb w)) (writeLock (wdb w)) (commitWriter (wdb w)) n) w).
Proof. intros Hw Hr. unfold Commit. rewrite bind_get_tx, Hw. cbn [negb]. unfold lift_db, zoom, commitLock_RUnlock. by rewrite Hr. Qed.

Lemma run_op_eq begin_tx op db w db' r p :
  begin_tx db = (Ok w, db') -> op (Process w []) = (r, p) -> run_op begin_tx op db = (ending_of r, p_stdout p, Close (wdb (p_world p))).
Proof. intros E1 E2. unfold run_op. by rewrite E1, E2. Qed.

Lemma ReadTx_opened d : ReadTx (opened d) = (Ok (begin (mkDB d false false 1) false), mkDB d false false 1).
Proof. done. Qed.

(** ** get *)

Lemma op_get_ok fuel colls dirty f d tr t :
  shows_collection (begin (opened d) false) (Cli.collection f) tr t -> (height tr <= fuel)%nat -> (height t <= fuel)%nat ->
  run_op ReadTx (op_get fuel colls dirty f) (opened d) =
    (Success, answer f (find_item (Cli.key f) (flatten t)), Disk (file d) (wal d)).
Proof.
  intros Hs Hf1 Hf2.
  assert (shows_collection (begin (mkDB d false false 1) false) (Cli.collection f) tr t) as Hs' by (by apply (begin_shows (opened d) _ false)).
  destruct (GetCollection_ok _ _ _ _ _ fuel Hs' Hf1) as (p & c & w & E & [Hok Hpg Hdb Htx Hp Hhas _ _] & Hr & Hroot).
  destruct Hs' as [_ _ _ _ _ _ Hsh Hso].
  destruct (Find_gen w p c t (Cli.key f) fuel Hok Hp Hhas Hroot Hr Hsh Hso Hf2) as (w2 & E2 & R2).
  pose proof (reads_extends _ _ R2) as X2.
  assert (write (wtx w2) = false) as Hw by (by rewrite (ext_tx _ _ X2), Htx).
  assert (commitReaders (wdb w2) = 1%nat) as Hc by (by rewrite (ext_db _ _ X2), Hdb).
  pose proof (Commit_reader fuel colls dirty w2 0 Hw Hc) as E3.
  erewrite run_op_eq; [|apply ReadTx_opened|].
  2:{ unfold op_get. erewrite in_tx_step by exact E. cbv beta iota. erewrite in_tx_step by exact E2. cbv beta.
      instantiate (1 := Process (with_wdb (mkDB (ddal (wdb w2)) (writeLock (wdb w2)) (commitWriter (wdb w2)) 0) w2) (answer f (find_item (Cli.key f) (flatten t)))).
      instantiate (1 := Ok tt). unfold answer, Printf.
      destruct (find_item (Cli.key f) (flatten t)) as [it|]; rewrite bind_modS; cbn [p_world p_stdout app]; apply in_tx_last, E3. }
  unfold Close. cbn [ending_of p_stdout p_world wdb with_wdb ddal]. by rewrite (ext_db _ _ X2), Hdb.
Qed.

Lemma op_get_none fuel colls dirty f d tr :
  t_page tr = root (dmeta d) -> repr (begin (opened d) false) tr -> shape tr -> sorted (flatten tr) ->
  find_item (Cli.collection f) (flatten tr) = None -> (height tr <= fuel)%nat ->
  run_op ReadTx (op_get fuel colls dirty f) (opened d) =
    (Success, Sprintf "Collection '%s' not found\n" [Cli.collection f], Disk (file d) (wal d)).
Proof.
  intros H1 H2 H3 H4 H5 Hf. assert (repr (begin (mkDB d false false 1) false) tr) as H2' by (by apply (repr_frame (begin (opened d) false))).
  destruct (GetCollection_none (mkDB d false false 1) false (Cli.collection f) tr fuel) as (w & E & R); try done.
  pose proof (reads_extends _ _ R) as X.
  assert (write (wtx w) = false) as Hw by (by rewrite (ext_tx _ _ X)).
  assert (commitReaders (wdb w) = 1%nat) as Hc by (by rewrite (ext_db _ _ X)).
  pose proof (Commit_reader fuel colls dirty w 0 Hw Hc) as E3.
  erewrite run_op_eq; [|apply ReadTx_opened|].
  2:{ unfold op_get. erewrite in_tx_step by exact E. cbv beta iota. unfold Printf. rewrite bind_modS. cbn [p_world p_stdout app].
      apply in_tx_last, E3. }
  unfold Close. cbn [ending_of p_stdout p_world wdb with_wdb ddal]. by rewrite (ext_db _ _ X).
Qed.

(** ** put *)

(** The world in which [put] stores: the new item goes to a node that has room
    for it and fits its page, and the commit visits all pages of the tree. *)
Record can_put (d : dal) (f : flags) (tr t : tree) (dirty : list Z) (fuel : nat) : Prop := {
  cp_item : item_validate (newItem (Cli.key f) (Cli.value f)) (pageSize d) = Ok tt;
  cp_items : Forall item_ok (flatten t);
  cp_room : roomy d (Cli.key f) (Cli.value f) t;
  cp_fits : forall idxs st, route (Cli.key f) t idxs st ->
    fits_page (pageSize d) (t_node (put_here (Cli.key f) (Cli.value f) st));
  cp_live : pages_live (dfreelist d) t;
  cp_pages : Forall (tree_page d) (pages t);
  cp_root_pages : Forall (tree_page d) (pages tr);
  cp_apart : forall pn, pn ∈ pages tr -> pn ∉ pages t;
  cp_wf : freelist_wf (dfreelist d);
  cp_more : maxPage (dfreelist d) + Z.of_nat (S (height t)) < 2 ^ 64;
  cp_free_fits : Z.of_nat (freelist_size (dfreelist d)) <= pageSize d;
  cp_root : is_pgnum (root (dmeta d));
  cp_nodup : NoDup dirty;
  cp_all : forall pn, pn ∈ pages t -> pn ∈ dirty;
  cp_log : 28 + (Z.of_nat (length dirty) + 2) * (8 + pageSize d) < 2 ^ 63;
  cp_fuel : (height tr <= fuel)%nat /\ (height t <= fuel)%nat
}.

Lemma begin_dirty b wr pn : dirty_at (begin b wr) pn = None.
Proof. unfold dirty_at. cbn. apply lookup_empty. Qed.

Lemma WriteTx_opened d : WriteTx (opened d) = (Ok (begin (mkDB d true false 0) true), mkDB d true false 0).
Proof. done. Qed.

(** Once the collection is there, it is one [Put] works on. *)
Lemma gotten_collection_ok d p c w t name tr :
  gotten (mkDB d true false 0) true p c w -> repr w t -> c_root c = t_page t -> splittable d ->
  shows_collection (begin (opened d) false) name tr t -> Forall item_ok (flatten t) ->
  pages_live (dfreelist d) t -> freelist_wf (dfreelist d) -> maxPage (dfreelist d) + Z.of_nat (S (height t)) < 2 ^ 64 ->
  collection_ok w p t (dfreelist d).
Proof.
  intros [Hok Hpg Hdb Htx Hp Hhas _ _] Hr Hroot Hspl Hs Hit Hlv Hwf Hroom. split; try done; try apply Hs.
  - by rewrite Htx.
  - exists c. split; [done|]. split; [done|]. split; [done|]. right. by rewrite Htx.
  - intros pn q Hpn. unfold dirty_at. rewrite Htx. cbn. by rewrite lookup_empty.
  - split; try done; rewrite Htx; [by eexists|]. cbn. unfold clone. by destruct (dfreelist d).
  - by rewrite Hdb.
Qed.

(** Nothing of the collection's metadata has changed: the flush does nothing. *)
Lemma flush_clean fuel colls w p c n :
  collections (wtx w) = Some {[n := p]} -> collsH w !! p = Some c -> c_dirtyMeta c = false ->
  flushCollectionMetadata fuel colls w = (Ok tt, w).
Proof.
  intros Hc Hp Hd. unfold flushCollectionMetadata. induction colls as [|m colls IH]; [done|]. cbn [mapM_].
  assert (flush_one fuel m w = (Ok tt, w)) as E; [|by mstep E].
  unfold flush_one. rewrite bind_get_tx, Hc. cbn [mbind option_bind]. destruct (decide (m = n)) as [-> |Hne].
  - rewrite lookup_singleton_eq. erewrite bind_Ok by (unfold load_coll; by rewrite Hp). by rewrite Hd, orb_true_r.
  - by rewrite lookup_singleton_ne.
Qed.

Lemma dirty_points w pn q n : dirty_at w pn = Some q -> page_node pn w = Ok n -> points w q n.
Proof.
  unfold page_node. intros ->. destruct (nodesH w !! q) as [r|] eqn:E; [|done]. go_bind. intros [= <-]. by exists r.
Qed.

(** After the [Put] the transaction can be committed. *)
Lemma put_committable gps k d f tr t t' dirty fuel p c w w' :
  at_rest gps k d -> can_put d f tr t dirty fuel ->
  gotten (mkDB d true false 0) true p c w -> calm_put p (Cli.key f) (Cli.value f) t w t' w' ->
  committable w' dirty.
Proof.
  intros Har [] [Hok Hpg Hdb Htx Hp Hhas _ _] [_ _ _ _ Cdb [m Ctx] _ _ (idxs & st & Hrt & Hst & Hcd)] .
  pose proof (at_rest_size _ _ _ Har) as Hsz. destruct Har as [Hm _ (fl & Ho & _) _ Hflp].
  assert (ddal (wdb w') = d) as Ed by (by rewrite Cdb, Hdb).
  assert (t_page st ∈ pages t) as Hin by (apply (subtree_pages idxs t st), page_in_pages; by eapply route_subtree).
  assert (forall pn q, dirty_at w' pn = Some q -> pn = t_page st) as Hone.
  { intros pn q Hq. destruct (decide (pn = t_page st)) as [|Hne]; [done|]. rewrite Hcd in Hq by done.
    unfold dirty_at in Hq. rewrite Htx in Hq. cbn in Hq. by rewrite lookup_empty in Hq. }
  rewrite Forall_forall in cp_pages0. pose proof (cp_pages0 _ Hin) as (Hp0 & Hpf & Hpo).
  assert (wtx w' = with_dirty (Some m) (with_colls (Some {[c_name c := p]}) (newTx (mkDB d true false 0) true))) as Et
    by (by rewrite Ctx, Htx).
  assert (next_freelist w' = dfreelist d) as Enf by (unfold next_freelist; rewrite Et; cbn; by destruct (dfreelist d)).
  split; rewrite ?Ed, ?Enf; try done.
  - by exists fl.
  - rewrite Hsz. change (Z.of_nat metaHeaderSize) with 24. destruct Hm; lia.
  - intros pn q Hq. pose proof (Hone pn q Hq) as ->. exists (t_node (put_here (Cli.key f) (Cli.value f) st)).
    split; [by apply (dirty_points w' (t_page st))|]. rewrite Ed. split; [|by apply (cp_fits0 idxs)].
    apply (proj2 (put_here_kids _ _ _)).
  - intros pn q Hq. rewrite (Hone pn q Hq). by apply cp_all0.
  - intros pn q Hq. by rewrite (Hone pn q Hq).
  - rewrite Et. by eexists.
  - by rewrite Et.
Qed.

(** What the world shows after the [Put]: the same collection with the new tree. *)
Lemma put_shows d f tr t t' dirty fuel p c w w' :
  can_put d f tr t dirty fuel -> gotten (mkDB d true false 0) true p c w -> repr w t -> c_root c = t_page t ->
  shows_collection (begin (opened d) false) (Cli.collection f) tr t ->
  collection_ok w' p t' (dfreelist d) -> calm_put p (Cli.key f) (Cli.value f) t w t' w' ->
  shows_collection w' (Cli.collection f) tr t'.
Proof.
  intros [] [Hok Hpg Hdb Htx Hp Hhas _ _] Hr Hroot [S1 S2 S3 S4 (it & c0 & Hit & Hde & Hc0) S6 S7 S8]
    [_ _ (c' & Hp' & _ & Hroot' & _) Cr Csh Cso _ _ _ _ _] [_ _ _ _ _ [m Ctx] Cc Co _].
  rewrite (Cc c Hp) in Hp'. simplify_eq. assert (repr w tr) as Hrt.
  { apply (repr_frame (begin (opened d) false)); [|done]. intros pn _. rewrite Hpg. by apply begin_page. }
  split; try done.
  - by rewrite S1, Ctx, Htx.
  - apply (repr_frame w); [|done]. intros pn Hpn. apply Co. by apply cp_apart0.
  - exists it, c0. split; [done|]. split; [done|]. congruence.
Qed.

Lemma op_put_ok gps k d fuel colls dirty f tr t :
  at_rest gps k d -> shows_collection (begin (opened d) false) (Cli.collection f) tr t -> can_put d f tr t dirty fuel ->
  exists t' d', run_op WriteTx (op_put fuel colls dirty f) (opened d) = (Success, [], Disk (file d') (wal d')) /\
    at_rest gps (Disk (file d') (wal d')) d' /\ flatten t' = upsert (Cli.key f) (Cli.value f) (flatten t) /\
    height t' = height t /\ shows_collection (begin (opened d') false) (Cli.collection f) tr t'.
Proof.
  intros Har Hs Hput. pose proof Hput as [? ? ? ? ? ? ? ? ? ? ? ? ? ? ? [Hf1 Hf2]].
  assert (shows_collection (begin (mkDB d true false 0) true) (Cli.collection f) tr t) as Hs' by (by apply (begin_shows (opened d) _ false)).
  destruct (GetCollection_ok _ _ _ _ _ fuel Hs' Hf1) as (p & c & w & E & Hg & Hr & Hroot).
  assert (collection_ok w p t (dfreelist d)) as Hco by (eapply gotten_collection_ok; try done; by eapply at_rest_splittable).
  pose proof (gt_db _ _ _ _ _ Hg) as Hdb.
  destruct (Put_calm w p t (dfreelist d) (Cli.key f) (Cli.value f) fuel Hco) as (t' & w' & E2 & Hco' & Hcalm); [by rewrite Hdb|done|by rewrite Hdb|].
  pose proof (put_committable gps k d f tr t t' dirty fuel p c w w' Har Hput Hg Hcalm) as Hcm.
  pose proof (put_shows d f tr t t' dirty fuel p c w w' Hput Hg Hr Hroot Hs Hco' Hcalm) as Hsh.
  destruct Hcalm as [Cfl _ Chh Cpg Cdb [m Ctx] Cc _ _]. destruct Hg as [Hok Hpg _ Htx Hp Hhas Hdm _].
  assert (wdb w' = mkDB d true false 0) as Hdb' by congruence.
  destruct Har as [Hm Hopt (fl & Ho & Hwal & Hst) Hk Hflp].
  destruct (Commit_ok fuel colls dirty w' w' fl) as (pgs & Hpgs & w3 & E3 & Eb).
  - split; by rewrite ?Hdb', ?Ctx, ?Htx.
  - apply (flush_clean _ _ _ p c (c_name c)); [by rewrite Ctx, Htx|by apply Cc|done].
  - done.
  - by rewrite Hdb'.
  - assert (synced (applied w' pgs fl)) as Hsy.
    { exists (apply_pages (pageSize (ddal (wdb w'))) pgs fl). split; [|split; [done|by apply commit_stores]]. assert (open_with (ddal (wdb w')) fl) as Ho' by (by rewrite Hdb'). destruct Ho'. by split. }
    exists t', (applied w' pgs fl). split; [|split; [|split; [done|split; [done|]]]].
    + erewrite run_op_eq; [|apply WriteTx_opened|].
      2:{ unfold op_put. erewrite in_tx_step by (unfold GetOrCreateCollection; mstep E; reflexivity).
          erewrite in_tx_step by exact E2. apply in_tx_last, E3. }
      unfold Close. cbn [ending_of p_stdout p_world]. by rewrite Eb.
    + split; [exact Hm| |exact Hsy|reflexivity|]; unfold applied, next_meta; rewrite Hdb'; [exact Hopt|exact Hflp].
    + apply (shows_carried w' _ d); [| |assumption|by rewrite Cpg|exact Hsh].
      * intros pn n (H0 & Hfp & H63). apply (applied_page w' pgs fl); [exact Hpgs| |reflexivity|exact H0|..]; rewrite Hdb'; assumption.
      * unfold begin, newTx, opened, applied, next_meta. cbn [wtx tx_root ddal dmeta with_meta root]. reflexivity.
Qed.
End tool.

(** ** Properties *)

(** C34: the command line tool's [get] on a database at rest prints the value of
    the key if the collection has it and says so otherwise, ends with status 0
    and leaves the files as they were. *)
Theorem get_prints {RT : GoRuntime} getpagesize k d fuel colls dirty f tr t :
  at_rest getpagesize k d -> operation f = lit "get" ->
  shows_collection (begin (opened d) false) (Cli.collection f) tr t -> (height tr <= fuel)%nat -> (height t <= fuel)%nat ->
  main fuel colls dirty getpagesize f k = (Success, answer f (find_item (Cli.key f) (flatten t)), k).
Proof.
  intros Har Hop Hs Hf1 Hf2. unfold main. rewrite (Open_at_rest _ _ _ Har), Hop, (ar_disk _ _ _ Har).
  exact (op_get_ok fuel colls dirty f d tr t Hs Hf1 Hf2).
Qed.

(** C12: what one run of the tool puts, the next run gets.  The files are those of
    a database at rest that has the collection; the pair is valid, and the node
    that takes it has room for it without a split and still fits its page
    ([can_put]).  Then [put] ends with status 0, and a run of [get] on the files
    it left prints what the map updated at the key has and leaves these files as
    they are, so that the next [get] finds them again. *)
Theorem put_then_get {RT : GoRuntime} getpagesize k d fuel colls dirty f tr t :
  at_rest getpagesize k d -> operation f = lit "put" ->
  shows_collection (begin (opened d) false) (Cli.collection f) tr t -> can_put d f tr t dirty fuel ->
  exists k', main fuel colls dirty getpagesize f k = (Success, [], k') /\
    forall g colls' dirty', operation g = lit "get" -> Cli.collection g = Cli.collection f ->
      main fuel colls' dirty' getpagesize g k' =
        (Success, answer g (find_item (Cli.key g) (upsert (Cli.key f) (Cli.value f) (flatten t))), k').
Proof.
  intros Har Hop Hs Hput. destruct (op_put_ok getpagesize k d fuel colls dirty f tr t Har Hs Hput) as (t' & d' & E & Har' & Hfl & Hh & Hs').
  pose proof (cp_fuel _ _ _ _ _ _ Hput) as [Hf1 Hf2]. exists (Disk (file d') (wal d')). split.
  - unfold main. rewrite (Open_at_rest _ _ _ Har), Hop. exact E.
  - intros g colls' dirty' Hg Hc. rewrite <- Hc in Hs'. rewrite <- Hfl. unfold main.
    rewrite (Open_at_rest _ _ _ Har'), Hg. apply (op_get_ok fuel colls' dirty' g d' tr t' Hs' Hf1). lia.
Qed.
