(* ===== verification/ToolRuns.v ===== *)
(** * Runs of the command line tool

    The witnesses of the theorems of [Tool], on files the tool itself makes,
    and a sequence of runs in which it finds a key nobody has put. *)

From Stdlib Require Import String.
From S2P Require Import Prelude Freelist Meta Node Float32 Dal Wal Crash GoSlice World Tree Heap Contents Split Collection Search Shrink Insert Session Tx Db Isolation Durable Restart GoText Cli Tool.

Open Scope Z_scope.

(** A run on a machine with pages of 4096 bytes; Go's loops visit the pages in
    order. *)
Definition tool (op k v : string) (disk : disk) : ending * bytes * Db.disk :=
  main 9 [lit "col"] [1; 2; 3; 4; 5] 4096 (Flags (lit op) (lit "col") (lit k) (lit v)) disk.

Definition no_files : disk := Disk None None.

(** The files after a first [put], and the database they hold. *)
Definition first_put : ending * bytes * disk := Eval vm_compute in tool "put" "k" "hello" no_files.
Definition first_files : disk := Eval vm_compute in snd first_put.
Definition first_dal : dal := Eval vm_compute in snd (newDal (tool_options 4096) first_files).

Example a_session :
  fst first_put = (Success, []) /\
  tool "get" "k" "" first_files = (Success, lit "Found key 'k' with value 'hello'\n", first_files) /\
  tool "get" "z" "" first_files = (Success, lit "Key 'z' not found in collection col\n", first_files) /\
  fst (tool "delete" "k" "" first_files) = (Success, []) /\
  tool "get" "k" "" (snd (tool "delete" "k" "" first_files)) =
    (Success, lit "Key 'k' not found in collection col\n", snd (tool "delete" "k" "" first_files)).
Proof. vm_compute. by repeat split. Qed.

Lemma first_at_rest : at_rest 4096 first_files first_dal.
Proof.
  split; [by left|vm_compute; reflexivity| |vm_compute; reflexivity|vm_compute; done].
  exists (default [] (file first_dal)). split; [split; vm_compute; reflexivity|]. split; [vm_compute; reflexivity|].
  split; [vm_compute; done|vm_compute; reflexivity|vm_compute; done|vm_compute; reflexivity].
Qed.

Definition tool_root : tree := Tree 2 [newItem (lit "col") (le_bytes 8 3 ++ le_bytes 8 0)] [].
Definition tool_leaf : tree := Tree 3 [newItem (lit "k") (lit "hello")] [].

Lemma first_shows : shows_collection (begin (opened first_dal) false) (lit "col") tool_root tool_leaf.
Proof.
  split; [vm_compute; reflexivity|split; [vm_compute; reflexivity|exact I]|split; [by left|exact I]|repeat constructor| |
    split; [vm_compute; reflexivity|exact I]|split; [by left|exact I]|repeat constructor].
  do 2 eexists. split; [vm_compute; reflexivity|]. split; vm_compute; reflexivity.
Qed.

Lemma get_prints_witness :
  tool "get" "k" "" first_files = (Success, lit "Found key 'k' with value 'hello'\n", first_files).
Proof.
  exact (get_prints 4096 first_files first_dal 9 [lit "col"] [1; 2; 3; 4; 5] (Flags (lit "get") (lit "col") (lit "k") [])
    tool_root tool_leaf first_at_rest eq_refl first_shows ltac:(vm_compute; lia) ltac:(vm_compute; lia)).
Defined.

Definition put_z : flags := Flags (lit "put") (lit "col") (lit "z") (lit "there").

Lemma route_leaf k t idxs st : t_kids t = [] -> route k t idxs st -> idxs = [] /\ st = t.
Proof. intros Hk H. destruct H as [|t i c idxs st _ Hc]; [done|]. by rewrite Hk in Hc. Qed.

Lemma first_can_put : can_put first_dal put_z tool_root tool_leaf [1; 2; 3; 4; 5] 9.
Proof.
  split.
  - vm_compute. reflexivity.
  - repeat constructor; vm_compute; done.
  - intros idxs st [-> ->]%route_leaf; [|done]. vm_compute. reflexivity.
  - intros idxs st [-> ->]%route_leaf; [|done]. apply fits_pageb_spec. vm_compute. reflexivity.
  - split; [apply (bool_decide_unpack _); vm_compute; exact I|]. repeat constructor; [vm_compute; done..|].
    by intros ?%elem_of_nil.
  - repeat constructor; vm_compute; done.
  - repeat constructor; vm_compute; done.
  - intros pn. cbn. intros ->%list_elem_of_singleton [=]%list_elem_of_singleton.
  - split; [vm_compute; done|constructor|constructor].
  - vm_compute. reflexivity.
  - vm_compute. done.
  - vm_compute. done.
  - apply (bool_decide_unpack _). vm_compute. exact I.
  - intros pn. cbn. intros ->%list_elem_of_singleton. by do 2 right; left.
  - vm_compute. reflexivity.
  - vm_compute. lia.
Qed.

Lemma put_then_get_witness :
  exists k', tool "put" "z" "there" first_files = (Success, [], k') /\
    tool "get" "z" "" k' = (Success, lit "Found key 'z' with value 'there'\n", k').
Proof.
  destruct (put_then_get 4096 first_files first_dal 9 [lit "col"] [1; 2; 3; 4; 5] put_z tool_root tool_leaf
    first_at_rest eq_refl first_shows first_can_put) as (k' & E & H).
  exists k'. split; [exact E|].
  exact (H (Flags (lit "get") (lit "col") (lit "z") []) [lit "col"] [1; 2; 3; 4; 5] eq_refl eq_refl).
Defined.

(** A [get] on a path without a file creates the database; the file then holds
    the freelist of before the root page was taken, so the first collection of
    the next run gets the page of the root collection, and its own entry there
    is found as a key of it. *)
Theorem get_before_put_mixes_collections :
  let k1 := snd (tool "get" "k" "" no_files) in
  let k2 := snd (tool "put" "k" "hello" k1) in
  fst (tool "get" "k" "" no_files) = (Success, lit "Collection 'col' not found\n") /\
  fst (tool "put" "k" "hello" k1) = (Success, []) /\
  (forall v, fst (tool "get" "col" "" first_files) <> (Success, Sprintf "Found key 'col' with value '%s'\n" [v])) /\
  fst (tool "get" "col" "" k2) =
    (Success, Sprintf "Found key 'col' with value '%s'\n" [le_bytes 8 2 ++ le_bytes 8 0]).
Proof.
  cbv zeta. split; [vm_compute; reflexivity|]. split; [vm_compute; reflexivity|]. split; [|vm_compute; reflexivity].
  intros v. assert (fst (tool "get" "col" "" first_files) = (Success, lit "Key 'col' not found in collection col\n")) as ->
    by (vm_compute; reflexivity). intros [=].
Qed.
